(* ===== verification/_CoqProject ===== *)
-Q . S2P
Prelude.v
Sql.v
Models.v
Config.v
Samples.v
Auth.v
SemanticModels.v
StateMachine.v
Guardrails.v
WorkClaiming.v
Lifecycle.v
Sender.v
Regex.v
Threading.v
Grounding.v
ExactMessage.v
Llm.v
LlmSchemas.v
LlmRouting.v
Redaction.v
Memory.v
Classifier.v
SemanticParsing.v
Scheduling.v
BusinessHours.v
FollowUp.v
Inbound.v
Planning.v
InboundSafety.v
TurnTracing.v
ReplyPipeline.v
ExternalDispatchWorker.v
GenerationWorker.v
WorkerStatus.v
OperatorMetrics.v
CanonicalJson.v
Integrations.v
MailboxPolling.v
SchedulerJobs.v
LegacyPolling.v
Process.v
MigrationGate.v
ConfigCheck.v
Ddl.v
Migrations.v
MigrationSafety.v
MigrationReverts.v
IntegrationsGenerated.v
Conversation.v
SystemApi.v
MessagesApi.v
ContactsApi.v
CampaignsApi.v
MailboxesApi.v
WebhooksApi.v
DispatchSystem.v
