(* ===== verification/Prelude.v ===== *)
(** * LeadBoost mail agent: a verification library

    The repository is a Python service that sends and answers outreach mail.
    LeadBoost, an external system, authorizes actions over HTTP; the service
    records each one as an [ExternalDispatch] row, drafts its message if it
    has none, and a worker sends it through the organization's own mailbox.
    Replies are read from the mailboxes, attached to the contact they answer,
    classified, and for native campaigns answered.  The promises that matter
    are about mail: never sent twice, never to a suppressed recipient, never
    for another tenant, never with ungrounded claims, never recorded as
    something that did not happen, and no reply lost.  This library translates
    these paths function by function and proves them.

    ** The program's parts and the files that model them

    - [Prelude]: Python's values and notations (results of code that raises,
      strings, datetimes, JSON), the tactics and the hint database [mail].
    - [Sql]: tables, [SELECT], guarded [UPDATE] with its row count, [INSERT];
      [Models] ([src/mailer_agent/models.py]): the rows, the database [Db], the
      unique indexes ([..._clash], [insert_unique]) and [db_wf];
      [Config] ([config.py]): [Settings]; [Samples]: a small concrete database
      for the witnesses.
    - [WorkClaiming] ([followup/work_claiming.py]): leases on contacts and on
      dispatches; the claim of a dispatch, the fenced outcome write
      [finish_external_dispatch], generation claims, both lease sweeps.
    - [Lifecycle]: the specification.  [phase_step] is the abstract automaton
      of one dispatch, [dispatch_step] the row changes the code makes,
      [evolves] the relation between two databases; [dispatch_steps_refine]
      proves that the row changes refine the automaton.
    - [Sender] ([mail/sender.py]): [send_email] against an arbitrary SMTP
      server, with the trace of the calls made on it.
    - [Regex], [Grounding] ([llm/grounding.py]), [Threading] (header helpers
      of [mail/imap_reader.py] and [mail/reply_handler_v2.py], the transcript
      of [memory/store.py]), [ExactMessage] ([mail/exact_message.py],
      [suppression.py], [mailbox_secrets.py]): what a message may say, how it
      threads, and how it becomes arguments of [send_email].
    - [ExternalDispatchWorker] ([mail/external_dispatch_worker.py]):
      Transaction B (claim, gates, Message-ID), SMTP with no transaction open,
      Transaction C, the polling cycle, recovery and shutdown.
    - [GenerationWorker] ([mail/outreach_generation_worker.py]): Transactions
      G1 and G2 around the draft.
    - [CanonicalJson], [Integrations] ([api/integrations.py]),
      [IntegrationsGenerated] ([api/integrations_generated.py]): the two
      intake routes and the reconciliation read; [Conversation]
      ([api/integrations_conversation.py]): the conversation read.
    - [Auth] ([api/deps.py]): credentials, startup gate, tenant and operator
      dependencies.
    - [SemanticModels] ([semantic_models.py]), [StateMachine]
      ([state_machine.py]), [Guardrails] ([policy/guardrails.py] and the
      proposal of [policy/next_action.py]): the conversation policy.
    - [Llm] ([llm/provider.py], [llm/prompts.py], [llm/agent.py]): the error
      mapping of the provider facade and the drafting agent; [LlmSchemas]
      ([llm/schemas.py]): the response schemas and the values they admit;
      [LlmRouting] ([llm/provider_v2.py]): error classification, retries,
      the rotation over modes and models, the counters; [Redaction], the
      replacement of the key in a logged error; [Memory]
      ([memory/store.py]): reconciliation of known facts and the rolling
      summary; [Classifier] and [SemanticParsing] ([semantic/classifier.py]):
      the rules around the classification of a reply, and the parser of the
      model's answer; [Planning] ([policy/next_action.py]): the planner.
    - [Scheduling] ([followup/conversation_aware.py]) and [FollowUp]
      ([followup/engine.py], [followup/engine_v2.py], and the new-contact job
      of [followup/scheduler.py]): the native outreach engine.
    - [Inbound] ([mail/reply_handler_v2.py]): both entry points of inbound
      mail, [process_mailbox_inbound] and [process_inbound_email_v2];
      [InboundSafety]: its specifications and theorems; [ReplyPipeline]: the
      handler over the planner and the model router as they are deployed.
      [MailboxPolling]
      ([mail/mailbox_inbound.py], [mail/imap_reader.py]): parsing, the drain
      of a mailbox and the polling cycle, against an arbitrary IMAP server.
    - [WorkerStatus] ([worker_status.py]) and [SchedulerJobs]
      ([followup/scheduler.py]): heartbeats, cycle records and the jobs that
      write them; [OperatorMetrics] ([operator_metrics.py]) and [SystemApi]
      ([api/system.py], [integration.py]): the reports made from them and the
      routes that serve them.
    - [Process] ([db.py], [worker.py], the lifespan of [api/main.py],
      start and stop of [followup/scheduler.py]): how a process prepares its
      schema, starts and shuts down; [MigrationGate]
      ([scripts/migrate_preflight.py]): the gate before a migration.
    - [Ddl]: catalogs, statements and transactions of PostgreSQL;
      [Migrations] ([src/migrations], [migrate_db.py],
      [scripts/migrate_release.sh]): the numbered scripts, their downgrades
      and the release, over it; [MigrationSafety], [MigrationReverts]: the
      theorems about them.
    - [ConfigCheck] ([scripts/check_config.py]): the report on a service's
      environment; [BusinessHours] ([utils/datetime_utils.py]): local time and
      the next business hour; [TurnTracing] ([observability.py]): the snapshot
      of a turn; [LegacyPolling] ([poll_replies_job]): the deployment-wide poll
      with its one session.
    - [MessagesApi] ([api/messages.py]): approval of a held draft and the
      suppression list; [ContactsApi] ([api/contacts.py]): reads, pause,
      resume, mark-won and the forced follow-up; [CampaignsApi]
      ([api/campaigns.py], [lead_ingestion.py]): campaigns, contacts, leads of
      any shape and the start of a campaign; [MailboxesApi]
      ([api/mailboxes.py]): the sending identities; [WebhooksApi]
      ([api/webhooks.py]): replies pushed by a mail provider.
    - [DispatchSystem]: everything that touches a dispatch, running together
      as a step relation [sys_step] between system states.

    Definitions keep the source's names; a leading underscore is dropped, a
    column is prefixed by its table ([ed_state], [msg_body]), and a nested
    function, loop or branch that is a definition of its own is named after
    what it does.

    ** What the theorems show

    - [DispatchSystem]: in every reachable state, over all interleavings,
      crashes, faults, recoveries and shutdowns, a dispatch is transmitted at
      most once, everything transmitted was authorized by a Transaction B of
      that execution, SENT means the server of the dispatch's own mailbox
      accepted, FAILED means nothing was delivered, outcomes are final, and the
      database is well formed.
    - [ExternalDispatchWorker]: what each transaction does on every branch:
      the gates in full, the refusals, the fenced and retried outcome write,
      the lost claim, shutdown; that a send that meets the conditions is in
      fact prepared; that a cycle ends within its limit and that the
      bookkeeping of claim attempts balances.
    - [WorkClaiming], [Sender], [GenerationWorker], [Integrations],
      [IntegrationsGenerated]: the functional behaviour of each operation,
      idempotency of the intake, and that what the generated intake accepts
      the generation worker can prepare.  [Conversation]: the read depends
      only on the tenant's own rows and returns the exact latest window.
    - [InboundSafety]: correlation is exact and never guesses ([targets] is
      the reference); processing changes nothing outside the tenant
      ([tenant_local]); success means the message is stored ([attached] or
      [retained]); redelivery is idempotent; an automatic reply goes to the
      contact the mail correlates to, follows the classifier's reading of that
      mail, and passed every gate ([gated_reply], over both entry points
      [inbound_run]); an opt-out takes effect unless one of three named
      refusals ends the request; the schema's invariants are preserved
      ([inbound_schema]).  [MailboxPolling] composes these with the drain: no
      message marked Seen is missing from the database, under its mailbox's
      own tenant, whatever others do that deletes nothing and moves no row
      ([tame]), and however its commit ends.
    - [FollowUp], [Scheduling]: whom and what the native engine may mail, the
      record of an outcome, the exact schedule; and two defects, that the
      follow-up cycle never sends and that an error drops the claims of a
      whole cycle.
    - [Memory]: reconciliation refines an abstract history, in the order the
      messages were received, in which nothing is deleted.  [Classifier], [Llm]: opt-outs do not depend on the model, and
      a failing model never invents a reply.  [SemanticModels]: the stored
      analysis determines the interpretation.
    - [LlmRouting]: a call makes a bounded number of requests, ends at once on
      a permanent fault, and attributes its answer to the model that gave it.
      [Redaction]: a logged error shows the key nowhere.
      [SemanticParsing], [Planning]: what the classifier and the planner make
      of every answer, of the admitted ones in full; the stored reading of a
      typed answer round trips.  [ReplyPipeline]: an automatic reply rests on
      an answered planning request for that very turn ([turn_of]); an
      unavailable or unintelligible model sends nothing.
    - [WorkerStatus], [SchedulerJobs]: the rows an operator reads equal the
      summary of what happened.  [OperatorMetrics]: the reports are exact, name
      no content, and call stale what the sweep resolves.  [SystemApi]: a
      tenant route depends on that tenant's rows, an operator route opens to
      the operator key alone.
    - [Process]: a process that reports itself stopped has no external dispatch
      in flight, and held no contact when it released its claims (a native job
      that is still running may claim later); preparing the schema alters no
      table.  [MigrationGate]: a migration
      runs only on the acknowledged target, and no credential is printed.
    - [MigrationSafety]: a release loses no data, whatever the server refuses
      ([extends]); one that reports success left every marker but possibly
      that of the second script; the backfill of reply references ends,
      completes and overwrites none; and defects: migrated databases keep a
      global index on inbound Message-IDs, and four states of a database block
      a release.  [MigrationReverts]: a column script is undone exactly by its
      downgrade, and a downgrade refuses rather than lose data.
    - [ConfigCheck]: the check passes exactly the environments with which the
      API starts protected, ends with the exception of settings that do not
      load, and its report hides every secret.
      [BusinessHours]: the next business hour is found, and none before it.
      [TurnTracing]: a snapshot accounts for every mail sent on its turn.
      [LegacyPolling]: the job flags its batch Seen first; the batch equals its
      mails one by one, unless an insert is refused, which loses it.
    - [MessagesApi]: an approved mail passed every gate again ([approvable]),
      an approval settles its draft, and a suppressed address is mailed no
      more on any native path.  [WebhooksApi]: a webhook acts only for the
      tenant of its key.  [CampaignsApi]: starting a campaign makes exactly
      its new contacts due; contacts are added all or none; what the response
      of an ingestion lists is stored until a flush fails, and not after.
      [MailboxesApi]: the rows stay unique and their IMAP part complete
      ([mailbox_schema]), and an update changes one owned row.  [ContactsApi]:
      two defects, that a forced follow-up never sends and that a resumed
      contact is never due.
    - [Grounding]: the verdict of the validator, and that approving less text
      never unblocks a message.  [ExactMessage]: encrypted credentials round
      trip.  [Auth], [StateMachine], [Guardrails]: tenants, the lifecycle of a
      contact and the conditions of automatic replies.

    ** Modelling choices

    - A function that raises returns [result]; a database transaction is a
      function from the committed database before to the one after, and a
      rollback returns the former.  Where other transactions may commit
      between two statements of a request, they are an argument
      ([Interference], the [race] of [process_mailbox_inbound]); between whole
      transactions, [sys_step] interleaves.  Code that keeps a session open
      over several commits ([dispatch_new_contacts_job]) carries the committed
      and the working database ([JobState]); lead ingestion, which rolls back
      inside a request, carries the keys it has flushed ([Ingest]).
    - A route runs in the monad [M]: it ends with a value or an [api_error],
      an HTTP status the source raises, an integrity error it does not catch,
      or another exception ([Crashed]), which the server answers with 500.
      FastAPI and pydantic are outside: a payload is a validated one.
    - An ORM object that a function changes and flushes at its end is passed
      as a value ([Step]) and written as a whole row; the source reads no such
      row through the database in between, except the messages it inserted,
      which the model inserts first.
    - What the surroundings decide is an argument: the clock, the engine and
      the rows other sessions have locked ([Session]), the behaviour of each
      SMTP connection ([Attempt]) and IMAP server ([ImapServer]), a shutdown
      request at each point where the flag is read, and database faults,
      including a commit that is durable although it is reported as an error.
      Theorems quantify over all of them.
    - Code outside the repository, and calls of a language model, are
      interfaces that may return anything: [Fernet] (with its documented round
      trip [FernetLaws]), [Sha256], [JsonLoads], [EmailLib] (the email
      package), [FromIsoformat], [FloatRepr] (with [FloatReprLaws], that a
      number is not printed as nothing), [FloatOfString], [JsonText],
      [GroqSdk] (how each request of the model client ends), [MakeUrl],
      [LoadSettings] (pydantic-settings: the settings of an environment),
      [ZoneDb] (the time zone database), [Server] (which statements of a migration the database refuses and which
      commits fail), and
      [Drafter], the drafting agent as the generation worker sees it.  Between
      the parts: [LlmProvider] (discharged by [groq_provider]),
      [SemanticReader] (by [provider_reader]), [Classifier] (by
      [semantic_classifier]) and [Planner] (by [llm_planner]).  A value of a
      model's answer that is outside its declared type, or a confidence that
      is NaN or infinite, and that Python would carry along, is left open: the
      parser answers [Untyped], and what follows may be anything
      ([Unspecified]), so that no theorem rests on it.  No
      property of SHA-256 is assumed: fingerprints are compared as the code
      compares them, and [canonical_request_injective] says what the hashed
      text determines.
    - Strings are sequences of Latin-1 characters (type [ascii]); instants are
      microseconds; an aware datetime also carries its offset; a column
      without a time zone is read back as a naive one.  [Float] columns,
      confidences and fractional JSON numbers are rationals; a decimal literal
      of the source is the exact value of its double; a JSON integer becomes a
      float by rounding to even, or raises OverflowError ([float_of_Z]); NaN
      and the infinities are JSON values of their own ([JNonFinite]).
    - Log messages and the pause between two sends are left out;
      they have no effect on the rest.

    ** Bounds and fuel

    [retrying] makes the three attempts of [stop_after_attempt(3)];
    [c_attempts] and [g2_attempts] the three of their transactions; the cycles
    run [external_dispatch_max_per_cycle] iterations; the SQLite claim tries
    ten candidates and the sweeps read a hundred rows; a model call tries
    three models with at most three requests per mode and stops after twelve
    attempts; the operator reports list twenty processes, as in the source.  The
    regular-expression matcher bounds a repetition by the number of characters
    left (each iteration must consume one) and the scan by the length of the
    text plus one, which [scan_nil] shows to be enough.  The backfill of
    migration 012, a loop without a bound, gets one round for every row that
    has no reference, which [backfill_terminates] shows to be enough.  The
    loop over a weekend gets two rounds, enough by [skip_weekend_spec].  Nothing
    else needs fuel.

    ** Not modelled

    The SQLite branches of the migrations: the release refuses SQLite.
    The log, with the log filter of [llm/provider_v2.py]; [run.py], which
    starts a server.  FastAPI, pydantic, SQLAlchemy and APScheduler themselves
    are outside. *)

From Stdlib Require Export ZArith QArith Lia Ascii String.
From stdpp Require Export base tactics option list numbers strings pretty sorting.

#[global] Open Scope string_scope.
#[global] Open Scope list_scope.
#[global] Open Scope Z_scope.

(** ** Error results

    A Python function that may raise is a function into [result E A]: [Ok] is
    the returned value, [Err] the raised exception.  The [MRet]/[MBind]
    instances give stdpp's [x ← m; k] notation, which sequences calls and
    lets an exception escape, as Python does. *)

Inductive result (E A : Type) : Type :=
  | Ok (a : A)
  | Err (e : E).
Arguments Ok {E A} a.
Arguments Err {E A} e.

#[global] Instance result_ret E : MRet (result E) := λ A a, Ok a.
#[global] Instance result_bind E : MBind (result E) :=
  λ A B k m, match m with Ok a => k a | Err e => Err e end.

(** [raise_if b e]: the guard [if b: raise e]. *)
Definition raise_if {E} (b : bool) (e : E) : result E unit :=
  if b then Err e else Ok ().

Lemma result_bind_Ok {E A B} (m : result E A) (k : A → result E B) b :
  (m ≫= k) = Ok b ↔ ∃ a, m = Ok a ∧ k a = Ok b.
Proof. destruct m; cbn; naive_solver. Qed.

Lemma result_bind_Err {E A B} (m : result E A) (k : A → result E B) e :
  (m ≫= k) = Err e ↔ m = Err e ∨ ∃ a, m = Ok a ∧ k a = Err e.
Proof. destruct m; cbn; naive_solver. Qed.

Lemma raise_if_Ok {E} b (e : E) u : raise_if b e = Ok u ↔ b = false.
Proof. destruct b, u; cbn; naive_solver. Qed.

Lemma raise_if_Err {E} b (e e' : E) : raise_if b e = Err e' ↔ b = true ∧ e' = e.
Proof. destruct b; cbn; naive_solver. Qed.

(** ** Python expressions

    [x == y] and [x is None] as booleans, for guards and query predicates;
    [py_or] is Python's [x or y] on optional strings, where the empty string
    is falsy too. *)

Declare Scope py_scope.
Delimit Scope py_scope with py.
Notation "x == y" := (bool_decide (x = y)) (at level 70) : py_scope.
Notation "x != y" := (negb (bool_decide (x = y))) (at level 70) : py_scope.
#[global] Open Scope py_scope.

Definition is_none {A} (o : option A) : bool :=
  match o with None => true | Some _ => false end.
Definition is_not_none {A} (o : option A) : bool := negb (is_none o).

Definition truthy (o : option string) : bool :=
  match o with None | Some "" => false | Some _ => true end.
Definition py_or (o : option string) (d : string) : string :=
  match o with None | Some "" => d | Some s => s end.

Lemma is_none_true {A} (o : option A) : is_none o = true ↔ o = None.
Proof. destruct o; naive_solver. Qed.
Lemma is_not_none_true {A} (o : option A) : is_not_none o = true ↔ is_Some o.
Proof.
  destruct o as [a|]; cbn; split; intros H; done.
Qed.

(** [in_list x l] is [x in l]. *)
Definition in_list {A} `{EqDecision A} (x : A) (l : list A) : bool :=
  bool_decide (x ∈ l).

(** ** Python strings

    A [str] is a Rocq [string] whose characters are the code points 0-255
    (Latin-1); the operations below are Python's on those code points.  A
    literal of the source with a code point above 255 (a dash in a note) is
    kept in its UTF-8 encoding; no operation of the program looks into it. *)

Module Str.
Local Open Scope nat_scope.

(** [str.isspace] on one character: HT LF VT FF CR, FS GS RS US, space, NEL, NBSP. *)
Definition isspace (c : ascii) : bool :=
  let n := nat_of_ascii c in
  ((9 <=? n) && (n <=? 13)) || ((28 <=? n) && (n <=? 32)) || (n =? 133) || (n =? 160).

Definition isdigit (c : ascii) : bool :=
  let n := nat_of_ascii c in (48 <=? n) && (n <=? 57).

(** [str.isalnum] or underscore, the [\w] of [re]. *)
Definition isword (c : ascii) : bool :=
  let n := nat_of_ascii c in
  isdigit c || ((65 <=? n) && (n <=? 90)) || ((97 <=? n) && (n <=? 122)) || (n =? 95)
  || (n =? 170) || (n =? 178) || (n =? 179) || (n =? 181) || (n =? 185) || (n =? 186)
  || ((188 <=? n) && (n <=? 190))
  || ((192 <=? n) && negb (n =? 215) && negb (n =? 247)).

Definition lower_ascii (c : ascii) : ascii :=
  let n := nat_of_ascii c in
  if ((65 <=? n) && (n <=? 90)) || ((192 <=? n) && (n <=? 222) && negb (n =? 215))
  then ascii_of_nat (n + 32) else c.

Fixpoint lower (s : string) : string :=
  match s with
  | "" => ""
  | String c r => String (lower_ascii c) (lower r)
  end.

Fixpoint lstrip (s : string) : string :=
  match s with
  | "" => ""
  | String c r => if isspace c then lstrip r else s
  end.

Fixpoint rstrip (s : string) : string :=
  match s with
  | "" => ""
  | String c r =>
      match rstrip r with
      | "" => if isspace c then "" else String c ""
      | r' => String c r'
      end
  end.

Definition strip (s : string) : string := rstrip (lstrip s).

(** [pre] is a prefix of [s]. *)
Fixpoint startswith (pre s : string) : bool :=
  match pre, s with
  | "", _ => true
  | String a p, String b r => bool_decide (a = b) && startswith p r
  | String _ _, "" => false
  end.

Fixpoint last_char (s : string) : option ascii :=
  match s with
  | "" => None
  | String c "" => Some c
  | String _ r => last_char r
  end.

(** [sub in s]. *)
Fixpoint contains (sub s : string) : bool :=
  startswith sub s ||
  match s with
  | "" => false
  | String _ r => contains sub r
  end.

Fixpoint any_char (p : ascii → bool) (s : string) : bool :=
  match s with
  | "" => false
  | String c r => p c || any_char p r
  end.

(** [s.split(sep)] for a one-character separator. *)
Fixpoint split_on (sep : ascii) (s : string) : list string :=
  match s with
  | "" => [""]
  | String c r =>
      if bool_decide (c = sep) then "" :: split_on sep r
      else match split_on sep r with
           | [] => [String c ""]
           | w :: ws => String c w :: ws
           end
  end.

(** [s.split()]: maximal runs of non-space characters. *)
Fixpoint split_aux (cur : string) (s : string) : list string :=
  match s with
  | "" => match cur with "" => [] | _ => [cur] end
  | String c r =>
      if isspace c then
        match cur with
        | "" => split_aux "" r
        | _ => cur :: split_aux "" r
        end
      else split_aux (cur +:+ String c "") r
  end.
Definition split_ws (s : string) : list string := split_aux "" s.

(** [sep.join(l)]. *)
Fixpoint join (sep : string) (l : list string) : string :=
  match l with
  | [] => ""
  | [x] => x
  | x :: r => x +:+ sep +:+ join sep r
  end.

Definition len (s : string) : nat := String.length s.

(** [repr] of a string: quotes, then the escapes of backslash, quote,
    tab, newline, carriage return and other unprintable characters. *)
Definition hex_digit (n : nat) : ascii :=
  if n <? 10 then ascii_of_nat (48 + n) else ascii_of_nat (87 + n).
Definition repr_char (q c : ascii) : string :=
  let n := nat_of_ascii c in
  if bool_decide (c = q) || (n =? 92) then String "\"%char (String c "")
  else if n =? 9 then "\t"
  else if n =? 10 then "\n"
  else if n =? 13 then "\r"
  else if (n <? 32) || ((127 <=? n) && (n <=? 160)) || (n =? 173)
       then "\x" +:+ String (hex_digit (n / 16)) (String (hex_digit (n mod 16)) "")
  else String c "".
Fixpoint repr_body (q : ascii) (s : string) : string :=
  match s with
  | "" => ""
  | String c r => repr_char q c +:+ repr_body q r
  end.
Definition squote : ascii := ascii_of_nat 39.
Definition dquote : ascii := ascii_of_nat 34.
Definition repr (s : string) : string :=
  let q := if any_char (λ c, bool_decide (c = squote)) s
              && negb (any_char (λ c, bool_decide (c = dquote)) s)
           then dquote else squote in
  String q (repr_body q s +:+ String q "").

(** [str] of a list of strings. *)
Definition repr_list (l : list string) : string :=
  "[" +:+ join ", " (map repr l) +:+ "]".

(** [str] of an optional string inside an f-string. *)
Definition of_opt (o : option string) : string :=
  match o with None => "None" | Some s => s end.
End Str.

Lemma string_app_cons c (s t : string) : String c s +:+ t = String c (s +:+ t).
Proof. reflexivity. Qed.
Lemma string_app_nil_r (s : string) : s +:+ "" = s.
Proof. induction s as [|c s IH]; [done|by rewrite string_app_cons, IH]. Qed.
Lemma string_app_assoc (a b c : string) : (a +:+ b) +:+ c = a +:+ (b +:+ c).
Proof. induction a as [|x a IH]; [done|by rewrite !string_app_cons, IH]. Qed.

(** ** Instants

    An instant is a number of microseconds since the Unix epoch.  A Python
    [datetime] either carries no time zone ([Naive], the wall-clock value) or
    is aware ([Aware t off]: the UTC instant and its offset in microseconds). *)

Inductive datetime :=
  | Naive (t : Z)
  | Aware (t off : Z).

#[global] Instance datetime_eq_dec : EqDecision datetime.
Proof. solve_decision. Defined.

Definition seconds (n : Z) : Z := n * 1000000.

Module Clock.
(** Proleptic Gregorian date of a day number (days since 1970-01-01). *)
Definition civil (days : Z) : Z * Z * Z :=
  let z := days + 719468 in
  let era := z / 146097 in
  let doe := z - era * 146097 in
  let yoe := (doe - doe / 1460 + doe / 36524 - doe / 146096) / 365 in
  let doy := doe - (365 * yoe + yoe / 4 - yoe / 100) in
  let mp := (5 * doy + 2) / 153 in
  let d := doy - (153 * mp + 2) / 5 + 1 in
  let m := if mp <? 10 then mp + 3 else mp - 9 in
  (yoe + era * 400 + (if m <=? 2 then 1 else 0), m, d).

Fixpoint zeros (n : nat) : string :=
  match n with O => "" | S k => "0" +:+ zeros k end.
Definition pad (w : nat) (n : Z) : string :=
  let s := pretty n in zeros (w - String.length s) +:+ s.

(** [YYYY-MM-DD HH:MM:SS[.ffffff]] with a separator of its own. *)
Definition str_sep (sep : string) (t : Z) : string :=
  let secs := t / 1000000 in
  let us := t mod 1000000 in
  let '(y, m, d) := civil (secs / 86400) in
  let sod := secs mod 86400 in
  pad 4 y +:+ "-" +:+ pad 2 m +:+ "-" +:+ pad 2 d +:+ sep +:+
  pad 2 (sod / 3600) +:+ ":" +:+ pad 2 (sod / 60 mod 60) +:+ ":" +:+ pad 2 (sod mod 60) +:+
  (if us =? 0 then "" else "." +:+ pad 6 us).

(** [str(dt)] of a naive datetime. *)
Definition str_naive (t : Z) : string := str_sep " " t.

(** [dt.isoformat()] of an aware UTC datetime. *)
Definition isoformat_utc (t : Z) : string := str_sep "T" t +:+ "+00:00".

Definition str_opt_naive (o : option Z) : string :=
  match o with None => "None" | Some t => str_naive t end.
End Clock.

Example clock_epoch : Clock.str_naive 0 = "1970-01-01 00:00:00".
Proof. vm_compute. reflexivity. Qed.
Example clock_sample :
  Clock.str_naive 1709210096000123 = "2024-02-29 12:34:56.000123".
Proof. vm_compute. reflexivity. Qed.

#[global] Instance Q_eq_dec : EqDecision Q.
Proof. solve_decision. Defined.

(** ** JSON values (columns of type [JSON])

    [json.loads] also accepts NaN, Infinity and -Infinity. *)

Inductive nonfinite := NaN | Infinity | NegInfinity.
#[global] Instance nonfinite_eq_dec : EqDecision nonfinite.
Proof. solve_decision. Defined.

Inductive json :=
  | JNull
  | JBool (b : bool)
  | JInt (n : Z)
  | JFloat (q : Q)
  | JStr (s : string)
  | JList (l : list json)
  | JObj (fields : list (string * json))
  | JNonFinite (x : nonfinite).

(** [d.get(k)] on a dict: the value, or [None] when the key is absent.  JSON
    null and an absent key are both Python's [None]. *)
Fixpoint assoc {A} (k : string) (l : list (string * A)) : option A :=
  match l with
  | [] => None
  | (k', v) :: r => if bool_decide (k = k') then Some v else assoc k r
  end.
Definition jget (k : string) (fields : list (string * json)) : json :=
  default JNull (assoc k fields).

Definition jopt (o : option string) : json :=
  match o with None => JNull | Some s => JStr s end.

(** ** Generic list lemmas *)

Lemma filter_ext_in' {A} (p q : A → bool) l :
  (∀ x, In x l → p x = q x) → List.filter p l = List.filter q l.
Proof. apply List.filter_ext_in. Qed.

Lemma filter_false_nil {A} (p : A → bool) l :
  (∀ x, In x l → p x = false) → List.filter p l = [].
Proof.
  intros H. rewrite (List.filter_ext_in p (λ _, false) l) by auto.
  induction l; cbn; auto. apply IHl. intros; apply H; by right.
Qed.

Lemma find_map_commute {A B} (p : B → bool) (g : A → B) l :
  List.find p (map g l) = option_map g (List.find (λ x, p (g x)) l).
Proof. induction l as [|x l IH]; cbn; [done|]. by case_match. Qed.

Lemma find_ext_in {A} (p q : A → bool) l :
  (∀ x, In x l → p x = q x) → List.find p l = List.find q l.
Proof.
  induction l as [|x l IH]; cbn; [done|]. intros H.
  rewrite (H x) by auto. case_match; [done|]. apply IH; auto.
Qed.

Lemma existsb_map {A B} (p : B → bool) (g : A → B) l :
  existsb p (map g l) = existsb (λ x, p (g x)) l.
Proof. induction l as [|x l IH]; cbn; [done|]. by rewrite IH. Qed.

Lemma existsb_ext {A} (p q : A → bool) l : (∀ x, p x = q x) → existsb p l = existsb q l.
Proof. intros H. induction l as [|x l IH]; cbn; [done|]. by rewrite H, IH. Qed.

Lemma existsb_false {A} (p : A → bool) l : existsb p l = false ↔ ∀ x, In x l → p x = false.
Proof.
  split.
  - intros H x Hx. destruct (p x) eqn:E; [|done].
    assert (existsb p l = true) by (apply existsb_exists; eauto). congruence.
  - intros H. destruct (existsb p l) eqn:E; [|done].
    apply existsb_exists in E as (x & Hx & Hp). by rewrite H in Hp.
Qed.

(** ** Tactics *)

(** Split the boolean conjunctions and disjunctions of the hypotheses and turn
    decided equalities into equations. *)
Ltac bool_solve_step :=
  match goal with
  | H : _ && _ = true |- _ => apply andb_prop in H; destruct H
  | H : _ || _ = false |- _ => apply orb_false_elim in H; destruct H
  | H : negb _ = true |- _ => apply negb_true_iff in H
  | H : negb _ = false |- _ => apply negb_false_iff in H
  | H : bool_decide _ = true |- _ => apply bool_decide_eq_true in H
  | H : bool_decide _ = false |- _ => apply bool_decide_eq_false in H
  | H : is_none _ = true |- _ => apply is_none_true in H
  | H : is_not_none _ = true |- _ => apply is_not_none_true in H; destruct H
  | H : (_ =? _)%Z = true |- _ => apply Z.eqb_eq in H
  | H : (_ =? _)%Z = false |- _ => apply Z.eqb_neq in H
  | H : (_ <? _)%Z = true |- _ => apply Z.ltb_lt in H
  | H : (_ <? _)%Z = false |- _ => apply Z.ltb_ge in H
  | H : (_ <=? _)%Z = true |- _ => apply Z.leb_le in H
  | H : (_ <=? _)%Z = false |- _ => apply Z.leb_gt in H
  end.
Ltac bools := repeat bool_solve_step.

(** Invert a successful or failed monadic computation. *)
Ltac inv_result :=
  repeat match goal with
  | H : (_ ≫= _) = Ok _ |- _ => apply result_bind_Ok in H as (? & ? & H)
  | H : (_ ≫= _) = Err _ |- _ => apply result_bind_Err in H as [H|(? & ? & H)]
  | H : raise_if _ _ = Ok _ |- _ => apply raise_if_Ok in H
  | H : raise_if _ _ = Err _ |- _ => apply raise_if_Err in H as [H ?]
  | H : mret _ = _ |- _ => unfold mret, result_ret in H
  | H : Ok _ = Ok _ |- _ => injection H as H
  | H : Err _ = Err _ |- _ => injection H as H
  | H : Ok _ = Err _ |- _ => discriminate H
  | H : Err _ = Ok _ |- _ => discriminate H
  end; subst.

(** The library's hint database: lemmas of the components are added to it. *)
Create HintDb mail discriminated.
