(* ===== verification/Sql.v ===== *)
(** * Relational tables

    The database layer of the program is SQLAlchemy over PostgreSQL or SQLite.
    A table is the list of its rows in primary-key order together with the
    next key of its sequence; [SELECT ... WHERE], [UPDATE ... WHERE],
    [INSERT] and lookup by primary key are the functions below, and a
    transaction is a function from the database before to the database after
    (a rollback returns the former).  The component files state their queries
    with these functions, one per statement of the source. *)

From S2P Require Import Prelude.

(** Every mapped class has an integer primary key [id]. *)
Class Row (A : Type) := row_id : A → Z.

Record table (A : Type) := Table { rows : list A; next_id : Z }.
Arguments Table {A} _ _.
Arguments rows {A} _.
Arguments next_id {A} _.

Definition empty_table {A} : table A := Table [] 1.

Section Ops.
Context {A : Type} `{Row A}.

(** [SELECT * FROM t WHERE p ORDER BY id]. *)
Definition select (p : A → bool) (t : table A) : list A := List.filter p (rows t).

(** [.first()] of that query. *)
Definition select_first (p : A → bool) (t : table A) : option A := List.find p (rows t).

(** [db.get(Model, i)]. *)
Definition get (i : Z) (t : table A) : option A :=
  List.find (λ r, row_id r =? i) (rows t).

(** [UPDATE t SET f WHERE p]: the new table and [result.rowcount]. *)
Definition update_where (p : A → bool) (f : A → A) (t : table A) : table A * nat :=
  (Table (map (λ r, if p r then f r else r) (rows t)) (next_id t),
   length (List.filter p (rows t))).

(** [UPDATE t SET f WHERE id = i AND p]. *)
Definition update_pk (i : Z) (p : A → bool) (f : A → A) (t : table A) : table A * nat :=
  update_where (λ r, (row_id r =? i) && p r) f t.

(** [INSERT] with a key from the sequence. *)
Definition insert_row (mk : Z → A) (t : table A) : A * table A :=
  let r := mk (next_id t) in (r, Table (rows t ++ [r]) (next_id t + 1)).

(** Keys increase along the list and lie below the sequence. *)
Definition table_wf (t : table A) : Prop :=
  StronglySorted Z.lt (map row_id (rows t)) ∧ Forall (λ r, row_id r < next_id t) (rows t).

Lemma select_In p t r : In r (select p t) ↔ In r (rows t) ∧ p r = true.
Proof. apply filter_In. Qed.

Lemma select_first_Some p t r :
  select_first p t = Some r → In r (rows t) ∧ p r = true.
Proof. apply find_some. Qed.

Lemma select_first_None p t :
  select_first p t = None ↔ ∀ r, In r (rows t) → p r = false.
Proof.
  split; [intros Hf r; apply (find_none _ _ Hf)|].
  intros Hp. destruct (select_first p t) as [r|] eqn:E; [|done].
  apply select_first_Some in E as [Hin Hpr]. by rewrite (Hp _ Hin) in Hpr.
Qed.

Lemma get_Some i t r : get i t = Some r → In r (rows t) ∧ row_id r = i.
Proof. intros [Hin Hi]%find_some. by apply Z.eqb_eq in Hi. Qed.

Lemma sorted_ids_inj (l : list A) r r' :
  StronglySorted Z.lt (map row_id l) → In r l → In r' l → row_id r = row_id r' → r = r'.
Proof.
  induction l as [|x l IH]; cbn; [done|].
  intros Hs [->|Hr] [->|Hr'] Heq; auto.
  - apply StronglySorted_inv in Hs as [_ Hall].
    pose proof (proj1 (Forall_forall _ _) Hall (row_id r')
      (proj2 (list_elem_of_In _ _) (in_map row_id l r' Hr'))) as Hlt. simpl in Hlt. lia.
  - apply StronglySorted_inv in Hs as [_ Hall].
    pose proof (proj1 (Forall_forall _ _) Hall (row_id r)
      (proj2 (list_elem_of_In _ _) (in_map row_id l r Hr))) as Hlt. simpl in Hlt. lia.
  - apply StronglySorted_inv in Hs as [Hs _]. eauto.
Qed.

(** A primary key identifies its row. *)
Lemma table_wf_inj t r r' :
  table_wf t → In r (rows t) → In r' (rows t) → row_id r = row_id r' → r = r'.
Proof. intros [Hs _]. by apply sorted_ids_inj. Qed.

Lemma get_complete t r : table_wf t → In r (rows t) → get (row_id r) t = Some r.
Proof.
  intros Hwf Hin. destruct (get (row_id r) t) as [r'|] eqn:E.
  - apply get_Some in E as [Hin' Heq]. f_equal. eapply table_wf_inj; eauto.
  - pose proof (find_none _ _ E _ Hin) as Hn. simpl in Hn. by rewrite Z.eqb_refl in Hn.
Qed.

Lemma get_lt_next t i r : table_wf t → get i t = Some r → i < next_id t.
Proof.
  intros [_ Hlt] [Hin <-]%get_Some.
  exact (proj1 (Forall_forall _ _) Hlt r (proj2 (list_elem_of_In _ _) Hin)).
Qed.

(** *** Updates *)

Section Update.
Context (p : A → bool) (f : A → A) (Hid : ∀ r, row_id (f r) = row_id r).

Lemma get_update_where i t :
  get i (fst (update_where p f t)) = option_map (λ r, if p r then f r else r) (get i t).
Proof using Hid.
  unfold get, update_where; cbn. rewrite find_map_commute. f_equal.
  apply find_ext_in. intros x _. by case_match; rewrite ?Hid.
Qed.

Lemma update_where_wf t : table_wf t → table_wf (fst (update_where p f t)).
Proof using Hid.
  unfold table_wf, update_where; cbn. rewrite map_map.
  replace (map (λ x, row_id (if p x then f x else x)) (rows t)) with (map row_id (rows t))
    by (apply map_ext; intros x; by case_match; rewrite ?Hid).
  intros [Hs Hlt]; split; [done|].
  apply Forall_map. eapply Forall_impl; [exact Hlt|].
  intros x; cbn; case_match; by rewrite ?Hid.
Qed.

Lemma update_where_next t : next_id (fst (update_where p f t)) = next_id t.
Proof. done. Qed.

End Update.

(** The same for an update that keeps the keys of the rows it changes only. *)
Lemma table_wf_map (g : A → A) t :
  (∀ r, row_id (g r) = row_id r) → table_wf t → table_wf (Table (map g (rows t)) (next_id t)).
Proof. intros Hg Hwf. by apply (update_where_wf (λ _, true) g Hg t). Qed.

Lemma update_pk_wf_at i p f t :
  (∀ r, row_id r = i → row_id (f r) = i) → table_wf t → table_wf (fst (update_pk i p f t)).
Proof.
  intros Hf. apply (table_wf_map (λ r, if (row_id r =? i) && p r then f r else r)).
  intros r. destruct (row_id r =? i) eqn:E; cbn; [|done]. bools. destruct (p r); [|done]. by rewrite Hf.
Qed.

Lemma update_where_none p f t :
  (∀ r, In r (rows t) → p r = false) → update_where p f t = (t, O).
Proof.
  intros Hp. unfold update_where. rewrite filter_false_nil by done.
  rewrite (map_ext_in _ id).
  - rewrite map_id. by destruct t.
  - intros r Hr. by rewrite (Hp r Hr).
Qed.

Lemma filter_pk_single (l : list A) i p r :
  StronglySorted Z.lt (map row_id l) → List.find (λ r, row_id r =? i) l = Some r →
  List.filter (λ r, (row_id r =? i) && p r) l = if p r then [r] else [].
Proof.
  induction l as [|x l IH]; cbn; [done|]. intros Hs Hf.
  destruct (row_id x =? i) eqn:E; cbn.
  - injection Hf as ->. apply StronglySorted_inv in Hs as [_ Hall].
    assert (List.filter (λ r0, (row_id r0 =? i) && p r0) l = []) as ->; [|done].
    apply filter_false_nil. intros y Hy. bools.
    pose proof (proj1 (Forall_forall _ _) Hall (row_id y)
      (proj2 (list_elem_of_In _ _) (in_map row_id l y Hy))) as Hlt. simpl in Hlt.
    destruct (row_id y =? i) eqn:E'; [bools; lia|done].
  - apply StronglySorted_inv in Hs as [Hs _]. eauto.
Qed.

(** The three outcomes of an update by primary key: no such row, a row the
    predicate refuses (both leave the table as it is and report rowcount 0),
    and a row that is changed (rowcount 1). *)
Lemma update_pk_missing i p f t : get i t = None → update_pk i p f t = (t, O).
Proof.
  intros Hg. apply update_where_none. intros r Hr.
  pose proof (find_none _ _ Hg r Hr) as E. cbn in E. by rewrite E.
Qed.

Lemma update_pk_refused i p f t r :
  table_wf t → get i t = Some r → p r = false → update_pk i p f t = (t, O).
Proof.
  intros Hwf Hg Hp. apply update_where_none. intros r' Hr'.
  destruct (row_id r' =? i) eqn:E; [|done]. bools. cbn.
  apply get_Some in Hg as [Hin Hi].
  assert (r' = r) as -> by (eapply table_wf_inj; eauto; congruence). done.
Qed.

Lemma update_pk_count i p f t r :
  table_wf t → get i t = Some r → snd (update_pk i p f t) = if p r then 1%nat else 0%nat.
Proof.
  intros [Hs _] Hg. cbn. rewrite (filter_pk_single _ _ _ r Hs Hg). by case_match.
Qed.

Lemma update_pk_count_1 i p f t :
  table_wf t →
  snd (update_pk i p f t) = 1%nat ↔ ∃ r, get i t = Some r ∧ p r = true.
Proof.
  intros Hwf. destruct (get i t) as [r|] eqn:E.
  - rewrite (update_pk_count _ _ _ _ r Hwf E). split.
    + intros Hc. exists r. by destruct (p r).
    + intros (r' & [= <-] & ->). done.
  - rewrite (update_pk_missing _ _ _ _ E). cbn. naive_solver.
Qed.

Lemma update_pk_get i j p f t :
  (∀ r, row_id (f r) = row_id r) →
  get j (fst (update_pk i p f t)) =
    option_map (λ r, if (row_id r =? i) && p r then f r else r) (get j t).
Proof. intros Hid. by apply get_update_where. Qed.

Lemma update_pk_get_ne i j p f t :
  (∀ r, row_id (f r) = row_id r) → i ≠ j → get j (fst (update_pk i p f t)) = get j t.
Proof.
  intros Hid Hne. rewrite update_pk_get by done.
  destruct (get j t) as [r|] eqn:E; [|done]. apply get_Some in E as [_ E]. cbn.
  destruct (row_id r =? i) eqn:E'; [bools; congruence|done].
Qed.

Lemma update_pk_get_eq i p f t r :
  (∀ r, row_id (f r) = row_id r) → get i t = Some r → p r = true →
  get i (fst (update_pk i p f t)) = Some (f r).
Proof.
  intros Hid Hg Hp. rewrite update_pk_get by done. rewrite Hg. cbn.
  apply get_Some in Hg as [_ ->]. by rewrite Z.eqb_refl, Hp.
Qed.

Lemma filter_wf (p : A → bool) t : table_wf t → table_wf (Table (List.filter p (rows t)) (next_id t)).
Proof.
  intros [Hs Hlt]. split; cbn; [|apply Forall_forall; intros r Hr; apply (proj1 (Forall_forall _ _) Hlt);
    rewrite list_elem_of_In in *; by apply filter_In in Hr as [? _]].
  clear Hlt. induction (rows t) as [|x l IH]; cbn in *; [constructor|].
  apply StronglySorted_inv in Hs as [Hs Hx]. destruct (p x); [|by apply IH]. cbn. constructor; [by apply IH|].
  apply Forall_forall. intros i Hi. apply (proj1 (Forall_forall _ _) Hx).
  rewrite list_elem_of_In, in_map_iff in *. destruct Hi as (r & <- & Hr). exists r. by apply filter_In in Hr as [? _].
Qed.

(** A row written back as a whole object. *)
Lemma update_pk_put x t j :
  get j (fst (update_pk (row_id x) (λ _, true) (λ _, x) t)) =
    if j =? row_id x then option_map (λ _, x) (get j t) else get j t.
Proof.
  unfold update_pk, update_where, get. cbn [fst rows].
  induction (rows t) as [|y l IH]; cbn [map List.find]; [by case_match|]. rewrite andb_true_r.
  destruct (row_id y =? row_id x) eqn:Ey; bools.
  - destruct (row_id x =? j) eqn:Ej; rewrite Ey, Ej; [|exact IH]. bools. subst j. by rewrite Z.eqb_refl.
  - destruct (row_id y =? j) eqn:Ej; [|exact IH]. bools.
    destruct (j =? row_id x) eqn:Ejx; [bools; congruence|done].
Qed.

Lemma update_pk_wf i p f t :
  (∀ r, row_id (f r) = row_id r) → table_wf t → table_wf (fst (update_pk i p f t)).
Proof. intros Hid. by apply update_where_wf. Qed.

(** The two outcomes of an update by primary key, in one statement. *)
Lemma update_pk_inv i p f t t' n :
  (∀ r, row_id (f r) = row_id r) → table_wf t → update_pk i p f t = (t', n) →
  (n = 1%nat ∧ table_wf t' ∧ next_id t' = next_id t ∧
     ∃ r, get i t = Some r ∧ p r = true ∧ get i t' = Some (f r) ∧
          ∀ j, j ≠ i → get j t' = get j t)
  ∨ (n = 0%nat ∧ t' = t ∧ ∀ r, get i t = Some r → p r = false).
Proof.
  intros Hid Hwf Hu.
  destruct (get i t) as [r|] eqn:Eg.
  - destruct (p r) eqn:Ep.
    + left. pose proof (update_pk_count i p f t r Hwf Eg) as Hc.
      rewrite Hu, Ep in Hc. split_and!; [done| | |].
      * change t' with (fst (t', n)). rewrite <- Hu. by apply update_pk_wf.
      * change t' with (fst (t', n)). by rewrite <- Hu.
      * exists r. change t' with (fst (t', n)). rewrite <- Hu.
        split_and!; [done|done|by apply update_pk_get_eq|].
        intros j Hj. by apply update_pk_get_ne.
    + right. rewrite (update_pk_refused _ _ _ _ _ Hwf Eg Ep) in Hu.
      injection Hu as <- <-. naive_solver.
  - right. rewrite (update_pk_missing _ _ _ _ Eg) in Hu.
    injection Hu as <- <-. naive_solver.
Qed.

(** [.first()] of a query ordered by id returns the least matching key. *)
Lemma select_first_least p t r r' :
  table_wf t → select_first p t = Some r → In r' (rows t) → p r' = true → row_id r ≤ row_id r'.
Proof.
  intros [Hs _]. unfold select_first. revert Hs.
  induction (rows t) as [|x l IH]; cbn; [done|].
  intros [Hs Hall]%StronglySorted_inv Hf [->|Hin] Hp.
  - rewrite Hp in Hf. by injection Hf as ->.
  - destruct (p x); [|by eauto]. injection Hf as <-.
    pose proof (proj1 (Forall_forall _ _) Hall (row_id r')
      (proj2 (list_elem_of_In _ _) (in_map row_id l r' Hin))) as Hlt. simpl in Hlt. lia.
Qed.

Lemma select_hd p t : List.hd_error (select p t) = select_first p t.
Proof.
  unfold select, select_first. induction (rows t) as [|x l IH]; cbn; [done|]. by case_match.
Qed.

(** Rows of a query have distinct keys. *)
Lemma select_NoDup_ids p t : table_wf t → NoDup (map row_id (select p t)).
Proof.
  intros [Hs _]. unfold select. revert Hs.
  induction (rows t) as [|x l IH]; cbn; [constructor|].
  intros [Hs Hall]%StronglySorted_inv. case_match; [|by apply IH]. cbn.
  constructor; [|by apply IH].
  intros (y & Hy & [Hin _]%filter_In)%list_elem_of_In%in_map_iff.
  pose proof (proj1 (Forall_forall _ _) Hall (row_id y)
    (proj2 (list_elem_of_In _ _) (in_map row_id l y Hin))) as Hlt. simpl in Hlt. lia.
Qed.

(** *** Insertion *)

Lemma insert_row_wf mk t :
  (∀ i, row_id (mk i) = i) → table_wf t → table_wf (snd (insert_row mk t)).
Proof.
  intros Hmk [Hs Hlt]. split; cbn.
  - rewrite map_app. cbn. rewrite Hmk.
    assert (Forall (λ i, i < next_id t) (map row_id (rows t))) as Hall
      by (by apply Forall_map).
    revert Hs Hall. generalize (map row_id (rows t)) as l. induction l as [|x l IH]; cbn.
    + intros. repeat constructor.
    + intros [Hs Hx]%StronglySorted_inv [Hxn Hall]%Forall_cons.
      constructor; [by apply IH|]. apply Forall_app; split; [done|].
      by constructor.
  - apply Forall_app; split.
    + eapply Forall_impl; [exact Hlt|]. cbn; lia.
    + constructor; [rewrite Hmk; lia|constructor].
Qed.

Lemma find_app {B} (p : B → bool) l l' :
  List.find p (l ++ l') = match List.find p l with Some x => Some x | None => List.find p l' end.
Proof. induction l as [|x l IH]; cbn; [done|]. destruct (p x); [done|apply IH]. Qed.

Lemma insert_row_get_old mk t i :
  table_wf t → i < next_id t → (∀ i, row_id (mk i) = i) →
  get i (snd (insert_row mk t)) = get i t.
Proof.
  intros Hwf Hi Hmk. unfold get; cbn. rewrite find_app.
  case_match; [done|]. cbn. rewrite Hmk.
  destruct (next_id t =? i) eqn:E; [bools; lia|done].
Qed.

Lemma get_fresh t : table_wf t → get (next_id t) t = None.
Proof.
  intros Hwf. destruct (get (next_id t) t) eqn:E; [|done].
  apply (get_lt_next _ _ _ Hwf) in E. lia.
Qed.

Lemma insert_row_get_new mk t :
  table_wf t → (∀ i, row_id (mk i) = i) →
  get (next_id t) (snd (insert_row mk t)) = Some (mk (next_id t)).
Proof.
  intros Hwf Hmk. unfold get; cbn. rewrite find_app.
  pose proof (get_fresh t Hwf) as E. unfold get in E. rewrite E. cbn.
  by rewrite Hmk, Z.eqb_refl.
Qed.

Lemma insert_row_In mk t r :
  In r (rows (snd (insert_row mk t))) ↔ In r (rows t) ∨ r = mk (next_id t).
Proof. cbn. rewrite in_app_iff. cbn. naive_solver. Qed.

End Ops.

Lemma empty_table_wf {A} `{Row A} : table_wf (A:=A) empty_table.
Proof. split; constructor. Qed.

#[export] Hint Resolve empty_table_wf update_where_wf update_pk_wf insert_row_wf : mail.
#[global] Arguments insert_row : simpl never.
