(* ===== verification/Models.v ===== *)
(** * Data model ([src/mailer_agent/models.py])

    The enumerations and mapped classes of the service, the database as a
    record of tables, and the integrity constraints the database enforces on
    insertion.  A [String] column that holds an enumeration is typed by that
    enumeration; its wire value is given by the [..._value] function.  A
    [DateTime] column holds microseconds; a [Float] column a rational. *)

From Stdlib Require Export QArith.
From S2P Require Import Prelude Sql.

#[global] Open Scope Z_scope.
#[global] Open Scope py_scope.

(** Relationship state of a contact. *)
Inductive ContactStatus :=
  | CS_NEW
  | CS_ACTIVE
  | CS_REPLIED
  | CS_ENGAGED
  | CS_QUALIFYING
  | CS_EVALUATING
  | CS_MEETING_REQUESTED
  | CS_MEETING_SCHEDULED
  | CS_NEGOTIATING
  | CS_NURTURE
  | CS_SEQUENCE_COMPLETE
  | CS_CLOSED_WON
  | CS_CLOSED_LOST
  | CS_SUPPRESSED
  | CS_PAUSED
  | CS_NEEDS_REVIEW.
#[global] Instance ContactStatus_eq_dec : EqDecision ContactStatus.
Proof. solve_decision. Defined.
Definition ContactStatus_value (x : ContactStatus) : string :=
  match x with
  | CS_NEW => "new"
  | CS_ACTIVE => "active"
  | CS_REPLIED => "replied"
  | CS_ENGAGED => "engaged"
  | CS_QUALIFYING => "qualifying"
  | CS_EVALUATING => "evaluating"
  | CS_MEETING_REQUESTED => "meeting_requested"
  | CS_MEETING_SCHEDULED => "meeting_scheduled"
  | CS_NEGOTIATING => "negotiating"
  | CS_NURTURE => "nurture"
  | CS_SEQUENCE_COMPLETE => "sequence_complete"
  | CS_CLOSED_WON => "closed_won"
  | CS_CLOSED_LOST => "closed_lost"
  | CS_SUPPRESSED => "suppressed"
  | CS_PAUSED => "paused"
  | CS_NEEDS_REVIEW => "needs_review"
  end.

(** Direction of a message. *)
Inductive MessageDirection :=
  | OUTBOUND
  | INBOUND.
#[global] Instance MessageDirection_eq_dec : EqDecision MessageDirection.
Proof. solve_decision. Defined.
Definition MessageDirection_value (x : MessageDirection) : string :=
  match x with
  | OUTBOUND => "outbound"
  | INBOUND => "inbound"
  end.

(** Kind of an outbound message. *)
Inductive MessageType :=
  | MT_INITIAL
  | MT_FOLLOW_UP
  | MT_REPLY
  | MT_CLOSING.
#[global] Instance MessageType_eq_dec : EqDecision MessageType.
Proof. solve_decision. Defined.
Definition MessageType_value (x : MessageType) : string :=
  match x with
  | MT_INITIAL => "initial_outreach"
  | MT_FOLLOW_UP => "follow_up"
  | MT_REPLY => "reply"
  | MT_CLOSING => "closing"
  end.

(** Send/receive state of a message. *)
Inductive MessageStatus :=
  | MS_DRAFT
  | MS_APPROVED
  | MS_PENDING
  | MS_SENDING
  | MS_SENT
  | MS_FAILED
  | MS_UNKNOWN
  | MS_RECEIVED.
#[global] Instance MessageStatus_eq_dec : EqDecision MessageStatus.
Proof. solve_decision. Defined.
Definition MessageStatus_value (x : MessageStatus) : string :=
  match x with
  | MS_DRAFT => "draft"
  | MS_APPROVED => "approved"
  | MS_PENDING => "pending"
  | MS_SENDING => "sending"
  | MS_SENT => "sent"
  | MS_FAILED => "failed"
  | MS_UNKNOWN => "unknown"
  | MS_RECEIVED => "received"
  end.

(** Lifecycle of a dispatch operation. *)
Inductive ExternalDispatchState :=
  | QUEUED
  | GENERATING
  | SENDING
  | SENT
  | FAILED
  | UNKNOWN.
#[global] Instance ExternalDispatchState_eq_dec : EqDecision ExternalDispatchState.
Proof. solve_decision. Defined.
Definition ExternalDispatchState_value (x : ExternalDispatchState) : string :=
  match x with
  | QUEUED => "queued"
  | GENERATING => "generating"
  | SENDING => "sending"
  | SENT => "sent"
  | FAILED => "failed"
  | UNKNOWN => "unknown"
  end.

(** Operator switch of a mailbox. *)
Inductive MailboxStatus :=
  | MB_ACTIVE
  | MB_DISABLED.
#[global] Instance MailboxStatus_eq_dec : EqDecision MailboxStatus.
Proof. solve_decision. Defined.
Definition MailboxStatus_value (x : MailboxStatus) : string :=
  match x with
  | MB_ACTIVE => "active"
  | MB_DISABLED => "disabled"
  end.

(** Sender identity, offer and cadence of one outreach effort. *)
Record Campaign := mkCampaign {
  cp_id : Z;
  cp_name : string;
  cp_organization_id : option string;
  cp_integration_source : option string;
  cp_sender_name : string;
  cp_sender_org : string;
  cp_sender_email : string;
  cp_reply_to_email : option string;
  cp_sender_title : option string;
  cp_sender_signature_extra : option string;
  cp_value_prop : string;
  cp_proof_points : option string;
  cp_tone : string;
  cp_follow_up_days : list Z;
  cp_max_follow_ups : option Z;
  cp_timezone : string;
  cp_is_active : bool;
  cp_created_at : Z
}.
#[global] Instance Campaign_row : Row Campaign := cp_id.

(** One prospect inside a campaign. *)
Record Contact := mkContact {
  ct_id : Z;
  ct_campaign_id : Z;
  ct_name : option string;
  ct_email : string;
  ct_title : option string;
  ct_company : option string;
  ct_context_notes : option string;
  ct_status : ContactStatus;
  ct_follow_up_index : Z;
  ct_next_action_at : option Z;
  ct_last_reply_at : option Z;
  ct_last_outbound_at : option Z;
  ct_buying_stage : option string;
  ct_engagement_score : Q;
  ct_memory_summary : option string;
  ct_claimed_by : option string;
  ct_claimed_at : option Z;
  ct_created_at : Z;
  ct_updated_at : Z
}.
#[global] Instance Contact_row : Row Contact := ct_id.
Definition set_ct_status (v : ContactStatus) (r : Contact) : Contact :=
  mkContact
    (ct_id r) (ct_campaign_id r) (ct_name r) (ct_email r) (ct_title r) (ct_company r)
    (ct_context_notes r) v (ct_follow_up_index r) (ct_next_action_at r) (ct_last_reply_at r)
    (ct_last_outbound_at r) (ct_buying_stage r) (ct_engagement_score r) (ct_memory_summary
    r) (ct_claimed_by r) (ct_claimed_at r) (ct_created_at r) (ct_updated_at r).
Definition set_ct_next_action_at (v : option Z) (r : Contact) : Contact :=
  mkContact
    (ct_id r) (ct_campaign_id r) (ct_name r) (ct_email r) (ct_title r) (ct_company r)
    (ct_context_notes r) (ct_status r) (ct_follow_up_index r) v (ct_last_reply_at r)
    (ct_last_outbound_at r) (ct_buying_stage r) (ct_engagement_score r) (ct_memory_summary
    r) (ct_claimed_by r) (ct_claimed_at r) (ct_created_at r) (ct_updated_at r).
Definition set_ct_claimed_by (v : option string) (r : Contact) : Contact :=
  mkContact
    (ct_id r) (ct_campaign_id r) (ct_name r) (ct_email r) (ct_title r) (ct_company r)
    (ct_context_notes r) (ct_status r) (ct_follow_up_index r) (ct_next_action_at r)
    (ct_last_reply_at r) (ct_last_outbound_at r) (ct_buying_stage r) (ct_engagement_score r)
    (ct_memory_summary r) v (ct_claimed_at r) (ct_created_at r) (ct_updated_at r).
Definition set_ct_claimed_at (v : option Z) (r : Contact) : Contact :=
  mkContact
    (ct_id r) (ct_campaign_id r) (ct_name r) (ct_email r) (ct_title r) (ct_company r)
    (ct_context_notes r) (ct_status r) (ct_follow_up_index r) (ct_next_action_at r)
    (ct_last_reply_at r) (ct_last_outbound_at r) (ct_buying_stage r) (ct_engagement_score r)
    (ct_memory_summary r) (ct_claimed_by r) v (ct_created_at r) (ct_updated_at r).
Definition set_ct_updated_at (v : Z) (r : Contact) : Contact :=
  mkContact
    (ct_id r) (ct_campaign_id r) (ct_name r) (ct_email r) (ct_title r) (ct_company r)
    (ct_context_notes r) (ct_status r) (ct_follow_up_index r) (ct_next_action_at r)
    (ct_last_reply_at r) (ct_last_outbound_at r) (ct_buying_stage r) (ct_engagement_score r)
    (ct_memory_summary r) (ct_claimed_by r) (ct_claimed_at r) (ct_created_at r) v.
Definition set_ct_follow_up_index (v : Z) (r : Contact) : Contact :=
  mkContact
    (ct_id r) (ct_campaign_id r) (ct_name r) (ct_email r) (ct_title r) (ct_company r)
    (ct_context_notes r) (ct_status r) v (ct_next_action_at r) (ct_last_reply_at r)
    (ct_last_outbound_at r) (ct_buying_stage r) (ct_engagement_score r) (ct_memory_summary
    r) (ct_claimed_by r) (ct_claimed_at r) (ct_created_at r) (ct_updated_at r).
Definition set_ct_last_reply_at (v : option Z) (r : Contact) : Contact :=
  mkContact
    (ct_id r) (ct_campaign_id r) (ct_name r) (ct_email r) (ct_title r) (ct_company r)
    (ct_context_notes r) (ct_status r) (ct_follow_up_index r) (ct_next_action_at r) v
    (ct_last_outbound_at r) (ct_buying_stage r) (ct_engagement_score r) (ct_memory_summary
    r) (ct_claimed_by r) (ct_claimed_at r) (ct_created_at r) (ct_updated_at r).
Definition set_ct_last_outbound_at (v : option Z) (r : Contact) : Contact :=
  mkContact
    (ct_id r) (ct_campaign_id r) (ct_name r) (ct_email r) (ct_title r) (ct_company r)
    (ct_context_notes r) (ct_status r) (ct_follow_up_index r) (ct_next_action_at r)
    (ct_last_reply_at r) v (ct_buying_stage r) (ct_engagement_score r) (ct_memory_summary r)
    (ct_claimed_by r) (ct_claimed_at r) (ct_created_at r) (ct_updated_at r).
Definition set_ct_buying_stage (v : option string) (r : Contact) : Contact :=
  mkContact
    (ct_id r) (ct_campaign_id r) (ct_name r) (ct_email r) (ct_title r) (ct_company r)
    (ct_context_notes r) (ct_status r) (ct_follow_up_index r) (ct_next_action_at r)
    (ct_last_reply_at r) (ct_last_outbound_at r) v (ct_engagement_score r)
    (ct_memory_summary r) (ct_claimed_by r) (ct_claimed_at r) (ct_created_at r)
    (ct_updated_at r).
Definition set_ct_memory_summary (v : option string) (r : Contact) : Contact :=
  mkContact
    (ct_id r) (ct_campaign_id r) (ct_name r) (ct_email r) (ct_title r) (ct_company r)
    (ct_context_notes r) (ct_status r) (ct_follow_up_index r) (ct_next_action_at r)
    (ct_last_reply_at r) (ct_last_outbound_at r) (ct_buying_stage r) (ct_engagement_score r)
    v (ct_claimed_by r) (ct_claimed_at r) (ct_created_at r) (ct_updated_at r).

(** One email in either direction. *)
Record Message := mkMessage {
  msg_id : Z;
  msg_contact_id : Z;
  msg_direction : MessageDirection;
  msg_message_type : option MessageType;
  msg_subject : option string;
  msg_body : string;
  msg_status : MessageStatus;
  msg_message_id_header : option string;
  msg_in_reply_to_header : option string;
  msg_references_header : option string;
  msg_detected_intent : option string;
  msg_intent_confidence : option Q;
  msg_semantic_analysis : option json;
  msg_classification_success : option bool;
  msg_classification_failure_reason : option string;
  msg_error_message : option string;
  msg_mailbox_id : option Z;
  msg_created_at : Z;
  msg_reply_reference : option string
}.
#[global] Instance Message_row : Row Message := msg_id.
Definition set_msg_id (v : Z) (r : Message) : Message :=
  mkMessage
    v (msg_contact_id r) (msg_direction r) (msg_message_type r) (msg_subject r) (msg_body r)
    (msg_status r) (msg_message_id_header r) (msg_in_reply_to_header r)
    (msg_references_header r) (msg_detected_intent r) (msg_intent_confidence r)
    (msg_semantic_analysis r) (msg_classification_success r)
    (msg_classification_failure_reason r) (msg_error_message r) (msg_mailbox_id r)
    (msg_created_at r) (msg_reply_reference r).
Definition set_msg_message_type (v : option MessageType) (r : Message) : Message :=
  mkMessage
    (msg_id r) (msg_contact_id r) (msg_direction r) v (msg_subject r) (msg_body r)
    (msg_status r) (msg_message_id_header r) (msg_in_reply_to_header r)
    (msg_references_header r) (msg_detected_intent r) (msg_intent_confidence r)
    (msg_semantic_analysis r) (msg_classification_success r)
    (msg_classification_failure_reason r) (msg_error_message r) (msg_mailbox_id r)
    (msg_created_at r) (msg_reply_reference r).
Definition set_msg_subject (v : option string) (r : Message) : Message :=
  mkMessage
    (msg_id r) (msg_contact_id r) (msg_direction r) (msg_message_type r) v (msg_body r)
    (msg_status r) (msg_message_id_header r) (msg_in_reply_to_header r)
    (msg_references_header r) (msg_detected_intent r) (msg_intent_confidence r)
    (msg_semantic_analysis r) (msg_classification_success r)
    (msg_classification_failure_reason r) (msg_error_message r) (msg_mailbox_id r)
    (msg_created_at r) (msg_reply_reference r).
Definition set_msg_status (v : MessageStatus) (r : Message) : Message :=
  mkMessage
    (msg_id r) (msg_contact_id r) (msg_direction r) (msg_message_type r) (msg_subject r)
    (msg_body r) v (msg_message_id_header r) (msg_in_reply_to_header r)
    (msg_references_header r) (msg_detected_intent r) (msg_intent_confidence r)
    (msg_semantic_analysis r) (msg_classification_success r)
    (msg_classification_failure_reason r) (msg_error_message r) (msg_mailbox_id r)
    (msg_created_at r) (msg_reply_reference r).
Definition set_msg_message_id_header (v : option string) (r : Message) : Message :=
  mkMessage
    (msg_id r) (msg_contact_id r) (msg_direction r) (msg_message_type r) (msg_subject r)
    (msg_body r) (msg_status r) v (msg_in_reply_to_header r) (msg_references_header r)
    (msg_detected_intent r) (msg_intent_confidence r) (msg_semantic_analysis r)
    (msg_classification_success r) (msg_classification_failure_reason r) (msg_error_message
    r) (msg_mailbox_id r) (msg_created_at r) (msg_reply_reference r).
Definition set_msg_in_reply_to_header (v : option string) (r : Message) : Message :=
  mkMessage
    (msg_id r) (msg_contact_id r) (msg_direction r) (msg_message_type r) (msg_subject r)
    (msg_body r) (msg_status r) (msg_message_id_header r) v (msg_references_header r)
    (msg_detected_intent r) (msg_intent_confidence r) (msg_semantic_analysis r)
    (msg_classification_success r) (msg_classification_failure_reason r) (msg_error_message
    r) (msg_mailbox_id r) (msg_created_at r) (msg_reply_reference r).
Definition set_msg_references_header (v : option string) (r : Message) : Message :=
  mkMessage
    (msg_id r) (msg_contact_id r) (msg_direction r) (msg_message_type r) (msg_subject r)
    (msg_body r) (msg_status r) (msg_message_id_header r) (msg_in_reply_to_header r) v
    (msg_detected_intent r) (msg_intent_confidence r) (msg_semantic_analysis r)
    (msg_classification_success r) (msg_classification_failure_reason r) (msg_error_message
    r) (msg_mailbox_id r) (msg_created_at r) (msg_reply_reference r).
Definition set_msg_error_message (v : option string) (r : Message) : Message :=
  mkMessage
    (msg_id r) (msg_contact_id r) (msg_direction r) (msg_message_type r) (msg_subject r)
    (msg_body r) (msg_status r) (msg_message_id_header r) (msg_in_reply_to_header r)
    (msg_references_header r) (msg_detected_intent r) (msg_intent_confidence r)
    (msg_semantic_analysis r) (msg_classification_success r)
    (msg_classification_failure_reason r) v (msg_mailbox_id r) (msg_created_at r)
    (msg_reply_reference r).
Definition set_msg_detected_intent (v : option string) (r : Message) : Message :=
  mkMessage
    (msg_id r) (msg_contact_id r) (msg_direction r) (msg_message_type r) (msg_subject r)
    (msg_body r) (msg_status r) (msg_message_id_header r) (msg_in_reply_to_header r)
    (msg_references_header r) v (msg_intent_confidence r) (msg_semantic_analysis r)
    (msg_classification_success r) (msg_classification_failure_reason r) (msg_error_message
    r) (msg_mailbox_id r) (msg_created_at r) (msg_reply_reference r).
Definition set_msg_intent_confidence (v : option Q) (r : Message) : Message :=
  mkMessage
    (msg_id r) (msg_contact_id r) (msg_direction r) (msg_message_type r) (msg_subject r)
    (msg_body r) (msg_status r) (msg_message_id_header r) (msg_in_reply_to_header r)
    (msg_references_header r) (msg_detected_intent r) v (msg_semantic_analysis r)
    (msg_classification_success r) (msg_classification_failure_reason r) (msg_error_message
    r) (msg_mailbox_id r) (msg_created_at r) (msg_reply_reference r).
Definition set_msg_semantic_analysis (v : option json) (r : Message) : Message :=
  mkMessage
    (msg_id r) (msg_contact_id r) (msg_direction r) (msg_message_type r) (msg_subject r)
    (msg_body r) (msg_status r) (msg_message_id_header r) (msg_in_reply_to_header r)
    (msg_references_header r) (msg_detected_intent r) (msg_intent_confidence r) v
    (msg_classification_success r) (msg_classification_failure_reason r) (msg_error_message
    r) (msg_mailbox_id r) (msg_created_at r) (msg_reply_reference r).
Definition set_msg_classification_success (v : option bool) (r : Message) : Message :=
  mkMessage
    (msg_id r) (msg_contact_id r) (msg_direction r) (msg_message_type r) (msg_subject r)
    (msg_body r) (msg_status r) (msg_message_id_header r) (msg_in_reply_to_header r)
    (msg_references_header r) (msg_detected_intent r) (msg_intent_confidence r)
    (msg_semantic_analysis r) v (msg_classification_failure_reason r) (msg_error_message r)
    (msg_mailbox_id r) (msg_created_at r) (msg_reply_reference r).
Definition set_msg_classification_failure_reason (v : option string) (r : Message) : Message :=
  mkMessage
    (msg_id r) (msg_contact_id r) (msg_direction r) (msg_message_type r) (msg_subject r)
    (msg_body r) (msg_status r) (msg_message_id_header r) (msg_in_reply_to_header r)
    (msg_references_header r) (msg_detected_intent r) (msg_intent_confidence r)
    (msg_semantic_analysis r) (msg_classification_success r) v (msg_error_message r)
    (msg_mailbox_id r) (msg_created_at r) (msg_reply_reference r).

(** One durable, externally authorized dispatch operation. *)
Record ExternalDispatch := mkExternalDispatch {
  ed_id : Z;
  ed_organization_id : string;
  ed_idempotency_key : string;
  ed_external_action_id : option string;
  ed_correlation_id : option string;
  ed_campaign_id : Z;
  ed_contact_id : Z;
  ed_message_id : option Z;
  ed_mailbox_id : option Z;
  ed_request_fingerprint : string;
  ed_grounding_context : option json;
  ed_public_reference : string;
  ed_state : ExternalDispatchState;
  ed_claimed_by : option string;
  ed_claimed_at : option Z;
  ed_error_message : option string;
  ed_created_at : Z;
  ed_updated_at : Z
}.
#[global] Instance ExternalDispatch_row : Row ExternalDispatch := ed_id.
Definition set_ed_state (v : ExternalDispatchState) (r : ExternalDispatch) : ExternalDispatch :=
  mkExternalDispatch
    (ed_id r) (ed_organization_id r) (ed_idempotency_key r) (ed_external_action_id r)
    (ed_correlation_id r) (ed_campaign_id r) (ed_contact_id r) (ed_message_id r)
    (ed_mailbox_id r) (ed_request_fingerprint r) (ed_grounding_context r)
    (ed_public_reference r) v (ed_claimed_by r) (ed_claimed_at r) (ed_error_message r)
    (ed_created_at r) (ed_updated_at r).
Definition set_ed_message_id (v : option Z) (r : ExternalDispatch) : ExternalDispatch :=
  mkExternalDispatch
    (ed_id r) (ed_organization_id r) (ed_idempotency_key r) (ed_external_action_id r)
    (ed_correlation_id r) (ed_campaign_id r) (ed_contact_id r) v (ed_mailbox_id r)
    (ed_request_fingerprint r) (ed_grounding_context r) (ed_public_reference r) (ed_state r)
    (ed_claimed_by r) (ed_claimed_at r) (ed_error_message r) (ed_created_at r)
    (ed_updated_at r).
Definition set_ed_claimed_by (v : option string) (r : ExternalDispatch) : ExternalDispatch :=
  mkExternalDispatch
    (ed_id r) (ed_organization_id r) (ed_idempotency_key r) (ed_external_action_id r)
    (ed_correlation_id r) (ed_campaign_id r) (ed_contact_id r) (ed_message_id r)
    (ed_mailbox_id r) (ed_request_fingerprint r) (ed_grounding_context r)
    (ed_public_reference r) (ed_state r) v (ed_claimed_at r) (ed_error_message r)
    (ed_created_at r) (ed_updated_at r).
Definition set_ed_claimed_at (v : option Z) (r : ExternalDispatch) : ExternalDispatch :=
  mkExternalDispatch
    (ed_id r) (ed_organization_id r) (ed_idempotency_key r) (ed_external_action_id r)
    (ed_correlation_id r) (ed_campaign_id r) (ed_contact_id r) (ed_message_id r)
    (ed_mailbox_id r) (ed_request_fingerprint r) (ed_grounding_context r)
    (ed_public_reference r) (ed_state r) (ed_claimed_by r) v (ed_error_message r)
    (ed_created_at r) (ed_updated_at r).
Definition set_ed_error_message (v : option string) (r : ExternalDispatch) : ExternalDispatch :=
  mkExternalDispatch
    (ed_id r) (ed_organization_id r) (ed_idempotency_key r) (ed_external_action_id r)
    (ed_correlation_id r) (ed_campaign_id r) (ed_contact_id r) (ed_message_id r)
    (ed_mailbox_id r) (ed_request_fingerprint r) (ed_grounding_context r)
    (ed_public_reference r) (ed_state r) (ed_claimed_by r) (ed_claimed_at r) v
    (ed_created_at r) (ed_updated_at r).
Definition set_ed_updated_at (v : Z) (r : ExternalDispatch) : ExternalDispatch :=
  mkExternalDispatch
    (ed_id r) (ed_organization_id r) (ed_idempotency_key r) (ed_external_action_id r)
    (ed_correlation_id r) (ed_campaign_id r) (ed_contact_id r) (ed_message_id r)
    (ed_mailbox_id r) (ed_request_fingerprint r) (ed_grounding_context r)
    (ed_public_reference r) (ed_state r) (ed_claimed_by r) (ed_claimed_at r)
    (ed_error_message r) (ed_created_at r) v.

(** An address that must not be mailed. *)
Record SuppressionEntry := mkSuppressionEntry {
  sup_id : Z;
  sup_email : string;
  sup_organization_id : option string;
  sup_reason : option string;
  sup_created_at : Z
}.
#[global] Instance SuppressionEntry_row : Row SuppressionEntry := sup_id.

(** A sending identity owned by an organization. *)
Record Mailbox := mkMailbox {
  mb_id : Z;
  mb_public_reference : string;
  mb_organization_id : string;
  mb_email_address : string;
  mb_smtp_host : string;
  mb_smtp_port : Z;
  mb_smtp_use_tls : bool;
  mb_smtp_username : string;
  mb_smtp_password_enc : string;
  mb_imap_host : option string;
  mb_imap_port : option Z;
  mb_imap_username : option string;
  mb_imap_password_enc : option string;
  mb_status : MailboxStatus;
  mb_created_at : Z;
  mb_updated_at : Z
}.
#[global] Instance Mailbox_row : Row Mailbox := mb_id.
Definition set_mb_status (v : MailboxStatus) (r : Mailbox) : Mailbox :=
  mkMailbox
    (mb_id r) (mb_public_reference r) (mb_organization_id r) (mb_email_address r)
    (mb_smtp_host r) (mb_smtp_port r) (mb_smtp_use_tls r) (mb_smtp_username r)
    (mb_smtp_password_enc r) (mb_imap_host r) (mb_imap_port r) (mb_imap_username r)
    (mb_imap_password_enc r) v (mb_created_at r) (mb_updated_at r).

(** Inbound mail that could not be attached to one contact, kept for review. *)
Record UnmatchedInboundMessage := mkUnmatched {
  um_id : Z;
  um_mailbox_id : Z;
  um_organization_id : string;
  um_message_id_header : string;
  um_reason : string;
  um_from_email : option string;
  um_subject : option string;
  um_body : string;
  um_in_reply_to_header : option string;
  um_references_header : option string;
  um_created_at : Z;
  um_resolved_at : option Z
}.
#[global] Instance UnmatchedInboundMessage_row : Row UnmatchedInboundMessage := um_id.
Definition set_um_resolved_at (v : option Z) (r : UnmatchedInboundMessage) : UnmatchedInboundMessage :=
  mkUnmatched
    (um_id r) (um_mailbox_id r) (um_organization_id r) (um_message_id_header r) (um_reason
    r) (um_from_email r) (um_subject r) (um_body r) (um_in_reply_to_header r)
    (um_references_header r) (um_created_at r) v.

(** The database: one table per mapped class. *)
Record Db := mkDb {
  campaigns : table Campaign;
  contacts : table Contact;
  messages : table Message;
  dispatches : table ExternalDispatch;
  suppressions : table SuppressionEntry;
  mailboxes : table Mailbox;
  unmatched : table UnmatchedInboundMessage
}.
Definition set_campaigns (v : table Campaign) (r : Db) : Db :=
  mkDb
    v (contacts r) (messages r) (dispatches r) (suppressions r) (mailboxes r) (unmatched r).
Definition set_contacts (v : table Contact) (r : Db) : Db :=
  mkDb
    (campaigns r) v (messages r) (dispatches r) (suppressions r) (mailboxes r) (unmatched r).
Definition set_messages (v : table Message) (r : Db) : Db :=
  mkDb
    (campaigns r) (contacts r) v (dispatches r) (suppressions r) (mailboxes r) (unmatched r).
Definition set_dispatches (v : table ExternalDispatch) (r : Db) : Db :=
  mkDb
    (campaigns r) (contacts r) (messages r) v (suppressions r) (mailboxes r) (unmatched r).
Definition set_suppressions (v : table SuppressionEntry) (r : Db) : Db :=
  mkDb
    (campaigns r) (contacts r) (messages r) (dispatches r) v (mailboxes r) (unmatched r).
Definition set_mailboxes (v : table Mailbox) (r : Db) : Db :=
  mkDb
    (campaigns r) (contacts r) (messages r) (dispatches r) (suppressions r) v (unmatched r).
Definition set_unmatched (v : table UnmatchedInboundMessage) (r : Db) : Db :=
  mkDb
    (campaigns r) (contacts r) (messages r) (dispatches r) (suppressions r) (mailboxes r) v.

#[global] Arguments set_ct_status _ _ /.
#[global] Arguments set_ct_next_action_at _ _ /.
#[global] Arguments set_ct_claimed_by _ _ /.
#[global] Arguments set_ct_claimed_at _ _ /.
#[global] Arguments set_ct_updated_at _ _ /.
#[global] Arguments set_msg_id _ _ /.
#[global] Arguments set_msg_message_type _ _ /.
#[global] Arguments set_msg_subject _ _ /.
#[global] Arguments set_msg_status _ _ /.
#[global] Arguments set_msg_message_id_header _ _ /.
#[global] Arguments set_msg_in_reply_to_header _ _ /.
#[global] Arguments set_msg_references_header _ _ /.
#[global] Arguments set_msg_error_message _ _ /.
#[global] Arguments set_ed_state _ _ /.
#[global] Arguments set_ed_message_id _ _ /.
#[global] Arguments set_ed_claimed_by _ _ /.
#[global] Arguments set_ed_claimed_at _ _ /.
#[global] Arguments set_ed_error_message _ _ /.
#[global] Arguments set_ed_updated_at _ _ /.
#[global] Arguments set_mb_status _ _ /.
#[global] Arguments set_campaigns _ _ /.
#[global] Arguments set_contacts _ _ /.
#[global] Arguments set_messages _ _ /.
#[global] Arguments set_dispatches _ _ /.
#[global] Arguments set_suppressions _ _ /.
#[global] Arguments set_mailboxes _ _ /.
#[global] Arguments set_ct_follow_up_index _ _ /.
#[global] Arguments set_ct_last_reply_at _ _ /.
#[global] Arguments set_ct_last_outbound_at _ _ /.
#[global] Arguments set_ct_buying_stage _ _ /.
#[global] Arguments set_ct_memory_summary _ _ /.
#[global] Arguments set_msg_detected_intent _ _ /.
#[global] Arguments set_msg_intent_confidence _ _ /.
#[global] Arguments set_msg_semantic_analysis _ _ /.
#[global] Arguments set_msg_classification_success _ _ /.
#[global] Arguments set_msg_classification_failure_reason _ _ /.
#[global] Arguments set_um_resolved_at _ _ /.
#[global] Arguments set_unmatched _ _ /.

Definition empty_db : Db :=
  mkDb empty_table empty_table empty_table empty_table empty_table empty_table empty_table.

(** ** Functions of the model module *)

(** The one rule for an expired SENDING lease. *)
Definition resolve_expired_sending_lease : ExternalDispatchState := UNKNOWN.

Definition campaign_is_integration_managed (campaign : option Campaign) : bool :=
  match campaign with
  | None => false
  | Some c => is_not_none (cp_integration_source c)
  end.

(** [contact.campaign] is the row its foreign key names. *)
Definition contact_campaign (db : Db) (contact : Contact) : option Campaign :=
  get (ct_campaign_id contact) (campaigns db).

Definition contact_is_integration_managed (db : Db) (contact : option Contact) : bool :=
  match contact with
  | None => false
  | Some c => campaign_is_integration_managed (contact_campaign db c)
  end.

(** ** Integrity constraints

    What the database refuses on INSERT ([IntegrityError]): a row that
    collides with an existing one on a unique index.  SQL's NULL is distinct
    from itself, so a NULL component never collides. *)

Inductive db_error := IntegrityError (constraint : string).

Definition same_some {A} `{EqDecision A} (x y : option A) : bool :=
  match x, y with Some a, Some b => bool_decide (a = b) | _, _ => false end.

Definition campaign_clash (n r : Campaign) : bool :=
  same_some (cp_organization_id n) (cp_organization_id r)
  && same_some (cp_integration_source n) (cp_integration_source r).

Definition contact_clash (n r : Contact) : bool :=
  (ct_campaign_id n == ct_campaign_id r) && (ct_email n == ct_email r).

Definition message_clash (n r : Message) : bool :=
  (is_none (msg_mailbox_id n) && is_none (msg_mailbox_id r)
     && same_some (msg_message_id_header n) (msg_message_id_header r))
  || (same_some (msg_mailbox_id n) (msg_mailbox_id r)
     && same_some (msg_message_id_header n) (msg_message_id_header r))
  || same_some (msg_reply_reference n) (msg_reply_reference r).

Definition dispatch_clash (n r : ExternalDispatch) : bool :=
  ((ed_organization_id n == ed_organization_id r)
     && (ed_idempotency_key n == ed_idempotency_key r))
  || (ed_public_reference n == ed_public_reference r).

Definition suppression_clash (n r : SuppressionEntry) : bool :=
  (sup_email n == sup_email r)
  && same_some (sup_organization_id n) (sup_organization_id r).

Definition unmatched_clash (n r : UnmatchedInboundMessage) : bool :=
  (um_mailbox_id n == um_mailbox_id r)
  && (um_message_id_header n == um_message_id_header r).

(** INSERT into a table with a unique constraint. *)
Definition insert_unique {A} `{Row A} (clash : A → A → bool) (name : string)
    (mk : Z → A) (t : table A) : result db_error (A * table A) :=
  if existsb (clash (mk (next_id t))) (rows t) then Err (IntegrityError name)
  else Ok (insert_row mk t).

(** ** Well-formed databases

    Primary keys are in order, and no two rows of a table collide on a unique
    index.  The clash relations ignore the primary key. *)

Definition unique_rows {A} `{Row A} (clash : A → A → bool) (t : table A) : Prop :=
  ∀ r r', In r (rows t) → In r' (rows t) → clash r r' = true → row_id r = row_id r'.

Definition unique_dispatches (t : table ExternalDispatch) : Prop :=
  unique_rows dispatch_clash t.

Record db_wf (db : Db) : Prop := {
  wf_campaigns : table_wf (campaigns db);
  wf_contacts : table_wf (contacts db);
  wf_messages : table_wf (messages db);
  wf_dispatches : table_wf (dispatches db);
  wf_suppressions : table_wf (suppressions db);
  wf_mailboxes : table_wf (mailboxes db);
  wf_unique_dispatches : unique_dispatches (dispatches db);
  wf_unmatched : table_wf (unmatched db);
}.

Lemma insert_unique_Ok {A} `{Row A} clash name mk (t : table A) r t' :
  insert_unique clash name mk t = Ok (r, t') ↔
  (∀ x, In x (rows t) → clash (mk (next_id t)) x = false) ∧ (r, t') = insert_row mk t.
Proof.
  unfold insert_unique. destruct (existsb _ _) eqn:E; split; try done.
  - intros [Hn _]. apply existsb_exists in E as (x & Hx & Hc). by rewrite (Hn x Hx) in Hc.
  - intros [= <- <-]. split; [|done]. intros x Hx.
    destruct (clash _ x) eqn:E'; [|done].
    assert (existsb (clash (mk (next_id t))) (rows t) = true)
      by (apply existsb_exists; eauto). congruence.
  - by intros [_ ->].
Qed.

Lemma insert_unique_Err {A} `{Row A} clash name mk (t : table A) e :
  insert_unique clash name mk t = Err e → ∃ x, In x (rows t) ∧ clash (mk (next_id t)) x = true.
Proof. unfold insert_unique. destruct (existsb _ _) eqn:E; [intros _; by apply existsb_exists|done]. Qed.

Lemma same_some_true {A} `{EqDecision A} (x y : option A) :
  same_some x y = true → ∃ a, x = Some a ∧ y = Some a.
Proof. unfold same_some. destruct x as [a|], y as [b|]; try done. intros <-%bool_decide_eq_true_1. by exists a. Qed.

Lemma dispatch_clash_sym n r : dispatch_clash n r = dispatch_clash r n.
Proof.
  unfold dispatch_clash.
  assert (∀ x y : string, bool_decide (x = y) = bool_decide (y = x)) as Hs
    by (intros; apply bool_decide_ext; naive_solver).
  by rewrite (Hs (ed_organization_id n)), (Hs (ed_idempotency_key n)), (Hs (ed_public_reference n)).
Qed.

(** Changes of columns other than the unique ones keep uniqueness. *)
Lemma unique_dispatches_update p f t :
  (∀ r, row_id (f r) = row_id r) →
  (∀ r, ed_organization_id (f r) = ed_organization_id r) →
  (∀ r, ed_idempotency_key (f r) = ed_idempotency_key r) →
  (∀ r, ed_public_reference (f r) = ed_public_reference r) →
  unique_dispatches t → unique_dispatches (fst (update_where p f t)).
Proof.
  intros Hid Ho Hk Hp Hu r r' [x [<- Hx]]%in_map_iff [y [<- Hy]]%in_map_iff Hc.
  assert (row_id x = row_id y) as Hxy.
  { apply Hu; [done..|]. revert Hc. unfold dispatch_clash.
    repeat case_match; by rewrite ?Ho, ?Hk, ?Hp. }
  repeat case_match; by rewrite ?Hid.
Qed.

Lemma unique_dispatches_insert mk t r t' name :
  unique_dispatches t →
  insert_unique dispatch_clash name mk t = Ok (r, t') →
  unique_dispatches t'.
Proof.
  intros Hu [Hn Heq]%insert_unique_Ok x y.
  assert (t' = snd (insert_row mk t)) as -> by by rewrite <- Heq.
  rewrite !insert_row_In. intros [Hx| ->] [Hy| ->] Hc; auto.
  - rewrite dispatch_clash_sym in Hc. by rewrite (Hn x Hx) in Hc.
  - by rewrite (Hn y Hy) in Hc.
Qed.

Lemma empty_db_wf : db_wf empty_db.
Proof. split; try apply empty_table_wf. intros r r' []. Qed.
