(* ===== verification/Config.v ===== *)
(** * Deployment configuration ([src/mailer_agent/config.py])

    [Settings] with its defaults.  Every function that reads a setting takes
    the record as an argument, so each theorem holds for every deployment. *)

From Stdlib Require Import QArith.
From S2P Require Import Prelude.

#[global] Open Scope Z_scope.

Inductive SchemaInitMode := schema_create | schema_verify.

Record Settings := mkSettings {
  database_url : string;
  groq_api_key : string;
  llm_model : string;
  llm_temperature : Q;
  llm_max_tokens : Z;
  llm_fallback_models : string;
  llm_reasoning_effort : string;
  smtp_host : string;
  smtp_port : Z;
  smtp_username : string;
  smtp_password : string;
  smtp_use_tls : bool;
  imap_host : string;
  imap_port : Z;
  imap_username : string;
  imap_password : string;
  imap_poll_seconds : Z;
  imap_timeout_seconds : Z;
  followup_poll_seconds : Z;
  default_followup_days : list Z;
  run_scheduler_in_process : bool;
  schema_init_mode : SchemaInitMode;
  live_sending_enabled : bool;
  auto_reply_enabled : bool;
  max_sends_per_cycle : Z;
  send_delay_seconds : Q;
  send_jitter_seconds : Q;
  api_key : string;
  allow_insecure_no_auth : bool;
  api_docs_enabled : bool;
  system_operator_api_key : string;
  mailbox_encryption_key : string;
  leadboost_integration_sender_email : string;
  leadboost_integration_sender_name : string;
  leadboost_integration_sender_org : string;
  external_dispatch_poll_seconds : Z;
  external_dispatch_recovery_poll_seconds : Z;
  external_dispatch_max_per_cycle : Z;
  external_dispatch_lease_seconds : Z;
  external_dispatch_generation_lease_seconds : Z;
  external_dispatch_shutdown_drain_seconds : Q;
  worker_heartbeat_interval_seconds : Z;
  worker_stale_after_seconds : Z;
  worker_runtime_retention_hours : Z;
  operator_inbound_window_hours : Z
}.

Definition default_settings : Settings := {|
  database_url := "sqlite:///./mailer_agent.db";
  groq_api_key := "";
  llm_model := "openai/gpt-oss-120b";
  llm_temperature := 4 # 10;
  llm_max_tokens := 500;
  llm_fallback_models := "openai/gpt-oss-20b";
  llm_reasoning_effort := "low";
  smtp_host := "smtp.gmail.com";
  smtp_port := 587;
  smtp_username := "";
  smtp_password := "";
  smtp_use_tls := true;
  imap_host := "imap.gmail.com";
  imap_port := 993;
  imap_username := "";
  imap_password := "";
  imap_poll_seconds := 120;
  imap_timeout_seconds := 30;
  followup_poll_seconds := 300;
  default_followup_days := [3; 7; 14];
  run_scheduler_in_process := true;
  schema_init_mode := schema_create;
  live_sending_enabled := false;
  auto_reply_enabled := false;
  max_sends_per_cycle := 20;
  send_delay_seconds := 8 # 1;
  send_jitter_seconds := 7 # 1;
  api_key := "";
  allow_insecure_no_auth := false;
  api_docs_enabled := false;
  system_operator_api_key := "";
  mailbox_encryption_key := "";
  leadboost_integration_sender_email := "";
  leadboost_integration_sender_name := "LeadBoost Outreach";
  leadboost_integration_sender_org := "LeadBoost";
  external_dispatch_poll_seconds := 15;
  external_dispatch_recovery_poll_seconds := 60;
  external_dispatch_max_per_cycle := 5;
  external_dispatch_lease_seconds := 900;
  external_dispatch_generation_lease_seconds := 300;
  external_dispatch_shutdown_drain_seconds := 25 # 1;
  worker_heartbeat_interval_seconds := 30;
  worker_stale_after_seconds := 120;
  worker_runtime_retention_hours := 72;
  operator_inbound_window_hours := 24
|}.

(** [llm_fallback_models] split at commas, stripped, empty entries dropped. *)
Definition llm_fallback_models_list (s : Settings) : list string :=
  List.filter (λ m, negb (bool_decide (m = "")))
    (map Str.strip (Str.split_on ","%char (llm_fallback_models s))).

(** A deployment that sends for real, used by the examples. *)
Definition sample_settings (url : string) (auto_reply : bool) : Settings :=
  {| database_url := url; groq_api_key := "gsk"; llm_model := "openai/gpt-oss-120b"; llm_temperature := 4 # 10;
     llm_max_tokens := 500; llm_fallback_models := "openai/gpt-oss-20b"; llm_reasoning_effort := "low";
     smtp_host := "smtp"; smtp_port := 587; smtp_username := "u"; smtp_password := "p";
     smtp_use_tls := true; imap_host := ""; imap_port := 993; imap_username := "in";
     imap_password := "pw"; imap_poll_seconds := 120; imap_timeout_seconds := 30;
     followup_poll_seconds := 300; default_followup_days := []; run_scheduler_in_process := true;
     schema_init_mode := schema_create; live_sending_enabled := true; auto_reply_enabled := auto_reply;
     max_sends_per_cycle := 20; send_delay_seconds := 0%Q; send_jitter_seconds := 0%Q;
     api_key := ""; allow_insecure_no_auth := false; api_docs_enabled := false;
     system_operator_api_key := ""; mailbox_encryption_key := "k";
     leadboost_integration_sender_email := "out@lb.io";
     leadboost_integration_sender_name := "LB"; leadboost_integration_sender_org := "LB";
     external_dispatch_poll_seconds := 15; external_dispatch_recovery_poll_seconds := 60;
     external_dispatch_max_per_cycle := 5; external_dispatch_lease_seconds := 900;
     external_dispatch_generation_lease_seconds := 300;
     external_dispatch_shutdown_drain_seconds := 25%Q; worker_heartbeat_interval_seconds := 30;
     worker_stale_after_seconds := 120; worker_runtime_retention_hours := 72;
     operator_inbound_window_hours := 24 |}.
Definition live_settings_with : bool → Settings := sample_settings "".
Definition live_settings : Settings := live_settings_with false.
