(* ===== verification/Samples.v ===== *)
(** * A sample database

    A small organization with one campaign, contact, mailbox and two
    dispatches, on which the theorems' hypotheses are shown to hold. *)

From S2P Require Import Prelude Sql Models Config.

Definition sample_campaign : Campaign :=
  mkCampaign 1 "LeadBoost Integration" (Some "acme") (Some "leadboost") "Ann" "Acme" "ann@acme.io" None
    None None "We help teams." None "plain" [] (Some 0) "UTC" true 0.

Definition sample_contact : Contact :=
  mkContact 1 1 (Some "Bob") "bob@corp.io" None None None CS_NEW 0 None None None None 0%Q None None None 0 0.

(** A contact of a native campaign, due for a follow-up. *)
Definition native_campaign : Campaign :=
  mkCampaign 2 "Native" (Some "acme") None "Ann" "Acme" "ann@acme.io" None None None "Offer" None "plain"
    [3; 7] (Some 2) "UTC" true 0.
Definition native_contact : Contact :=
  mkContact 2 2 None "eve@corp.io" None None None CS_ACTIVE 0 (Some 10) None None None 0%Q None None None 0 0.

Definition sample_message : Message :=
  mkMessage 1 1 OUTBOUND (Some MT_INITIAL) (Some "Hi") "Hello Bob, are you free to talk?" MS_DRAFT None None
    None None None None None None None None 0 (Some "r1").

(** An inbound message of the same contact, through the organization's mailbox. *)
Definition sample_inbound : Message :=
  mkMessage 2 1 INBOUND None (Some "Question") "Tell me more." MS_RECEIVED (Some "<q1@corp.io>") None
    (Some "<a@corp.io> synthetic:1") None None None None None None (Some 1) 5
    (Some "0123456789abcdef0123456789abcdef").

Definition sample_mailbox : Mailbox :=
  mkMailbox 1 "mb1" "acme" "ann@acme.io" "smtp.acme.io" 587 true "ann" "Tsecret" None None None None
    MB_ACTIVE 0 0.

(** Ready to send. *)
Definition sample_dispatch : ExternalDispatch :=
  mkExternalDispatch 1 "acme" "key-1" None None 1 1 (Some 1) (Some 1) "fp" None "ref-1" QUEUED None None
    None 0 0.

(** Waiting for generation. *)
Definition sample_request : ExternalDispatch :=
  mkExternalDispatch 2 "acme" "key-2" (Some "act-2") None 1 1 None (Some 1) "fp2"
    (Some (JObj [("value_prop", JStr "We help teams."); ("recipient", JObj [("name", JStr "Bob")])]))
    "ref-2" QUEUED None None None 0 0.

Definition sample_db : Db :=
  mkDb (Table [sample_campaign; native_campaign] 3) (Table [sample_contact; native_contact] 3)
    (Table [sample_message; sample_inbound] 3) (Table [sample_dispatch; sample_request] 3)
    empty_table (Table [sample_mailbox] 2) empty_table.

(** Decide well-formedness of a concrete table. *)
Ltac table_wf := split; cbn; repeat (constructor; cbn; try lia).

Lemma sample_db_wf : db_wf sample_db.
Proof.
  split; try table_wf. intros r r' [<-|[<-|[]]] [<-|[<-|[]]]; vm_compute; congruence.
Qed.

(** The sample database while dispatch 1 is SENDING under a claim taken at 100. *)
Definition sending_dispatch : ExternalDispatch :=
  mkExternalDispatch 1 "acme" "key-1" None None 1 1 (Some 1) (Some 1) "fp" None "ref-1" SENDING (Some "w1")
    (Some 100) None 0 100.
Definition sending_db : Db := set_dispatches (Table [sending_dispatch; sample_request] 3) sample_db.

(** The sample database while dispatch 2 is being generated since 100. *)
Definition generating_dispatch : ExternalDispatch :=
  mkExternalDispatch 2 "acme" "key-2" (Some "act-2") None 1 1 None (Some 1) "fp2"
    (ed_grounding_context sample_request) "ref-2" GENERATING (Some "w1") (Some 100) None 0 100.
Definition generating_db : Db := set_dispatches (Table [sample_dispatch; generating_dispatch] 3) sample_db.

Lemma sending_db_wf : db_wf sending_db.
Proof.
  split; try table_wf. intros r r' [<-|[<-|[]]] [<-|[<-|[]]]; vm_compute; congruence.
Qed.
Lemma generating_db_wf : db_wf generating_db.
Proof.
  split; try table_wf. intros r r' [<-|[<-|[]]] [<-|[<-|[]]]; vm_compute; congruence.
Qed.
