(* ===== verification/Auth.v ===== *)
(** * Tenant and operator authentication ([src/mailer_agent/api/deps.py])

    The effective credential set built from the environment, the startup gate,
    and the request dependencies that turn a header into an organization.
    [json.loads] is the interface [JsonLoads]: it receives the object hook and
    returns the value, or which of the two handled exceptions was raised. *)

From S2P Require Import Prelude Config.

(** ** Configuration *)

Record AuthConfig := mkAuthConfig {
  ac_key_map : list (string * string);     (* a dict: insertion order, one entry per key *)
  ac_error : option string;
  ac_legacy_key_active : bool;
  ac_explicit_keys_active : bool
}.

Definition config_error (error : string) : AuthConfig := mkAuthConfig [] (Some error) false false.

(** [d[k] = v]: an existing key keeps its place. *)
Fixpoint dict_put {A} (k : string) (v : A) (d : list (string * A)) : list (string * A) :=
  match d with
  | [] => [(k, v)]
  | (k', v') :: r => if k' == k then (k, v) :: r else (k', v') :: dict_put k v r
  end.

Inductive load_error := DuplicateJsonMember | JSONDecodeError.

(** [json.loads(raw, object_pairs_hook=hook)]; the hook says whether it raises. *)
Class JsonLoads := json_loads : (list (string * json) → bool) → string → result load_error json.

(** [_reject_duplicate_members]: raises at the first repeated member. *)
Fixpoint duplicate_member (seen : list string) (pairs : list (string * json)) : bool :=
  match pairs with
  | [] => false
  | (member, _) :: r => in_list member seen || duplicate_member (member :: seen) r
  end.
Definition reject_duplicate_members (pairs : list (string * json)) : bool := duplicate_member [] pairs.

(** [str(org_id)] of an acceptable organization id. *)
Definition org_of_json (j : json) : option string :=
  match j with
  | JStr s => if Str.strip s != "" then Some s else None
  | JInt n => Some (pretty n)
  | _ => None
  end.

Definition entry_error : string :=
  "ORG_KEY_MAP entries must map a non-empty string key to a non-empty string organization id".

Fixpoint parse_entries (fields : list (string * json)) (mapping : list (string * string))
    : result string (list (string * string)) :=
  match fields with
  | [] => Ok mapping
  | (key, org) :: r =>
      match (Str.strip key != ""), org_of_json org with
      | true, Some o => parse_entries r (dict_put key o mapping)
      | _, _ => Err entry_error
      end
  end.

Definition parse_org_key_map `{JsonLoads} (raw : string) : result string (list (string * string)) :=
  match json_loads reject_duplicate_members raw with
  | Err DuplicateJsonMember =>
      Err "ORG_KEY_MAP repeats the same key more than once (a JSON object may not contain duplicate keys)"
  | Err JSONDecodeError => Err "ORG_KEY_MAP is set but is not valid JSON"
  | Ok (JObj fields) => parse_entries fields []
  | Ok _ =>
      Err ("ORG_KEY_MAP must be a JSON object of the form {" +:+ String Str.dquote "<api_key>"
           +:+ String Str.dquote ": " +:+ String Str.dquote "<org_id>" +:+ String Str.dquote "}")
  end.

(** A configured credential: where it comes from, the key, its organization. *)
Record credential := mkCred { cr_source : string; cr_key : string; cr_org : string }.

Definition sorted_pair (a b : string) : string :=
  if String.leb a b then a +:+ ", " +:+ b else b +:+ ", " +:+ a.

Definition conflict_text (first_source source : string) : string :=
  "One API key is configured for more than one organization ("
  +:+ (if first_source == source then "within " +:+ source
       else "between " +:+ sorted_pair first_source source)
  +:+ "); a credential must identify exactly one tenant".

Fixpoint conflict_loop (owner : list (string * (string * string))) (entries : list credential)
    : option string :=
  match entries with
  | [] => None
  | e :: r =>
      let normalized := Str.strip (cr_key e) in
      match assoc normalized owner with
      | None => conflict_loop (dict_put normalized (cr_org e, cr_source e) owner) r
      | Some (first_org, first_source) =>
          if first_org != cr_org e then Some (conflict_text first_source (cr_source e))
          else conflict_loop owner r
      end
  end.
Definition credential_conflict (entries : list credential) : option string := conflict_loop [] entries.

Definition ORG_KEYS_PREFIX : string := "ORG_KEYS_".

(** [env_key.upper().startswith("ORG_KEYS_")]. *)
Definition is_org_keys (env_key : string) : bool :=
  Str.startswith (Str.lower ORG_KEYS_PREFIX) (Str.lower env_key).

Definition scanned (env : list (string * string)) : list credential :=
  omap (λ '(k, v), if is_org_keys k && (Str.strip v != "")
                   then Some (mkCred "ORG_KEYS_*" (Str.strip v)
                                (Str.lower (String.substring (Str.len ORG_KEYS_PREFIX)
                                              (Str.len k - Str.len ORG_KEYS_PREFIX) k)))
                   else None) env.

Definition put_all (entries : list credential) (mapping : list (string * string))
    : list (string * string) :=
  fold_left (λ m e, dict_put (cr_key e) (cr_org e) m) entries mapping.

Definition legacy_credentials (legacy : string) : list credential :=
  if legacy == "" then [] else [mkCred "API_KEY (legacy)" legacy "default"].

(** The credentials of every active source, in the order they are merged, and
    whether an explicit source contributed; or the error of ORG_KEY_MAP. *)
Definition collect_credentials `{JsonLoads} (env : list (string * string)) (legacy : string)
    : result string (list credential * bool) :=
  let found := legacy_credentials legacy ++ scanned env in
  let explicit := match scanned env with [] => false | _ => true end in
  let raw := Str.strip (default "" (assoc "ORG_KEY_MAP" env)) in
  if raw == "" then Ok (found, explicit)
  else
    parsed ← parse_org_key_map raw;
    mret (found ++ map (λ '(k, o), mkCred "ORG_KEY_MAP" k o) parsed,
          explicit || match parsed with [] => false | _ => true end).

Definition load_auth_config `{JsonLoads} (env : list (string * string)) (legacy : string) : AuthConfig :=
  match collect_credentials env legacy with
  | Err error => config_error error
  | Ok (entries, explicit) =>
      match credential_conflict entries with
      | Some conflict => config_error conflict
      | None =>
          let mapping := put_all entries [] in
          mkAuthConfig mapping None
            ((legacy != "") && is_not_none (assoc legacy mapping)) explicit
      end
  end.

(** ** Startup gate *)

Definition operator_key (settings : Settings) : string := Str.strip (system_operator_api_key settings).

Definition matches_tenant_key (candidate : string) (cfg : AuthConfig) : bool :=
  fold_left (λ matched '(known_key, _), if candidate == known_key then true else matched)
    (ac_key_map cfg) false.

Definition startup_invalid (error : string) : string :=
  "Invalid authentication configuration: " +:+ error +:+ ". Refusing to start.".
Definition startup_operator_clash : string :=
  "SYSTEM_OPERATOR_API_KEY must be different from every tenant API key (API_KEY, ORG_KEY_MAP, ORG_KEYS_*). Refusing to start.".
Definition startup_open_and_live : string :=
  "ALLOW_INSECURE_NO_AUTH=true cannot be combined with LIVE_SENDING_ENABLED=true (that would be an unauthenticated API that can send email). Refusing to start.".
Definition startup_no_keys : string :=
  "No API keys are configured (API_KEY, ORG_KEY_MAP and ORG_KEYS_* are all unset or empty). Set at least one key, or ALLOW_INSECURE_NO_AUTH=true for local development only. Refusing to start.".

Definition validate_auth_configuration (settings : Settings) (cfg : AuthConfig) : result string unit :=
  match ac_error cfg with
  | Some error => if error == "" then Ok () else Err (startup_invalid error)
  | None => Ok ()
  end ≫= λ _,
  if (operator_key settings != "") && matches_tenant_key (operator_key settings) cfg
  then Err startup_operator_clash
  else
    match ac_key_map cfg with
    | _ :: _ => Ok ()
    | [] =>
        if allow_insecure_no_auth settings then
          if live_sending_enabled settings then Err startup_open_and_live else Ok ()
        else Err startup_no_keys
    end.

(** ** Request dependencies *)

Inductive http_error := HttpError (status_code : Z) (detail : string).

(** Every key is visited; a later equal one would win. *)
Definition resolve_step (api_key : string) (matched : option string) (entry : string * string)
    : option string :=
  let '(known_key, org_id) := entry in if api_key == known_key then Some org_id else matched.
Definition resolve_org (cfg : AuthConfig) (api_key : string) : option string :=
  fold_left (resolve_step api_key) (ac_key_map cfg) None.

Definition not_configured : http_error :=
  HttpError 503 "API authentication is not configured on this deployment".

Definition keys_required (settings : Settings) (cfg : AuthConfig) : result http_error bool :=
  if truthy (ac_error cfg) then Err not_configured
  else match ac_key_map cfg with
       | _ :: _ => Ok true
       | [] => if allow_insecure_no_auth settings then Ok false else Err not_configured
       end.

Definition require_api_key (settings : Settings) (cfg : AuthConfig) (x_api_key : option string)
    : result http_error unit :=
  required ← keys_required settings cfg;
  if negb required then mret ()
  else if negb (truthy x_api_key) || is_none (resolve_org cfg (default "" x_api_key))
       then Err (HttpError 401 "Invalid or missing API key")
       else mret ().

Definition get_current_org_id (settings : Settings) (cfg : AuthConfig) (x_api_key : option string)
    : result http_error string :=
  required ← keys_required settings cfg;
  if negb required then mret "default"
  else if negb (truthy x_api_key) then Err (HttpError 401 "Missing X-API-Key header")
  else match resolve_org cfg (default "" x_api_key) with
       | None => Err (HttpError 401 "Invalid API key")
       | Some org_id => mret org_id
       end.

Definition no_usable_keys (cfg : AuthConfig) : bool :=
  truthy (ac_error cfg) || match ac_key_map cfg with [] => true | _ => false end.

Definition get_integration_org_id (settings : Settings) (cfg : AuthConfig) (x_api_key : option string)
    : result http_error string :=
  if no_usable_keys cfg
  then Err (HttpError 503 "Integration authentication is not configured on this deployment")
  else get_current_org_id settings cfg x_api_key.

Definition get_authenticated_org_id (settings : Settings) (cfg : AuthConfig) (x_api_key : option string)
    : result http_error string :=
  if no_usable_keys cfg then Err not_configured
  else get_current_org_id settings cfg x_api_key.

Definition require_system_operator (settings : Settings) (cfg : AuthConfig)
    (x_system_operator_key : option string) : result http_error unit :=
  let configured := operator_key settings in
  if truthy (ac_error cfg) || (configured == "") || matches_tenant_key configured cfg
  then Err (HttpError 503 "Operator authentication is not configured on this deployment")
  else if negb (truthy x_system_operator_key) || (default "" x_system_operator_key != configured)
  then Err (HttpError 401 "Invalid or missing operator key")
  else mret ().

(** ** Facts *)

Lemma assoc_put {A} k k' (v : A) d :
  assoc k (dict_put k' v d) = if k == k' then Some v else assoc k d.
Proof.
  induction d as [|[x y] d IH]; cbn; [by destruct (bool_decide _)|].
  destruct (bool_decide (x = k')) eqn:E; cbn; bools.
  - subst x. by destruct (bool_decide (k = k')).
  - rewrite IH. destruct (bool_decide (k = x)) eqn:E1, (bool_decide (k = k')) eqn:E2; bools; congruence.
Qed.

Lemma assoc_In {A} k (v : A) d : assoc k d = Some v → (k, v) ∈ d.
Proof.
  induction d as [|[x y] d IH]; cbn; [done|]. destruct (bool_decide (k = x)) eqn:E; bools.
  - intros [= ->]. subst. by left.
  - intros H. right. by apply IH.
Qed.

Lemma dict_put_keys {A} k (v : A) d : NoDup (map fst d) → NoDup (map fst (dict_put k v d)) ∧
  ∀ x, x ∈ map fst (dict_put k v d) → x = k ∨ x ∈ map fst d.
Proof.
  induction d as [|[x y] d IH]; cbn; intros Hnd.
  { split; [repeat constructor; by apply not_elem_of_nil|]. intros z [->|[]%not_elem_of_nil]%elem_of_cons. by left. }
  apply NoDup_cons in Hnd as [Hx Hnd]. destruct (IH Hnd) as [H1 H2].
  destruct (bool_decide (x = k)) eqn:E; cbn; bools.
  - subst x. split; [by constructor|]. intros z [->|Hz]%elem_of_cons; [by left|right; by right].
  - split.
    + constructor; [|done]. intros [->|?]%H2; done.
    + intros z [->|Hz]%elem_of_cons; [right; by left|]. destruct (H2 z Hz); [by left|right; by right].
Qed.

Lemma nodup_assoc {A} k (v : A) d : NoDup (map fst d) → (k, v) ∈ d → assoc k d = Some v.
Proof.
  induction d as [|[x y] d IH]; cbn; intros Hnd; [by intros ?%not_elem_of_nil|].
  apply NoDup_cons in Hnd as [Hx Hnd]. intros [[= -> ->]|Hin]%elem_of_cons.
  - by rewrite bool_decide_eq_true_2.
  - rewrite bool_decide_eq_false_2; [by apply IH|]. intros ->. apply Hx.
    apply list_elem_of_fmap. by exists (x, v).
Qed.

Lemma put_all_keys entries : ∀ m, NoDup (map fst m) → NoDup (map fst (put_all entries m)).
Proof.
  induction entries as [|e r IH]; intros m Hm; cbn; [done|]. apply IH. by apply dict_put_keys.
Qed.

(** What the merged dict holds for a key: the last credential with that key. *)
Lemma put_all_assoc entries : ∀ m k o,
  assoc k (put_all entries m) = Some o →
  (∃ e, e ∈ entries ∧ cr_key e = k ∧ cr_org e = o) ∨ assoc k m = Some o.
Proof.
  induction entries as [|e r IH]; intros m k o; cbn; [by right|].
  intros [(x & Hx & Hk & Ho)|Hm]%IH; [left; exists x; split_and!; [by right|done..]|].
  rewrite assoc_put in Hm. destruct (bool_decide (k = cr_key e)) eqn:E; bools; [|by right].
  injection Hm as <-. left. exists e. split_and!; [by left|done..].
Qed.

Lemma put_all_has entries : ∀ m k,
  is_Some (assoc k m) ∨ (∃ e, e ∈ entries ∧ cr_key e = k) → is_Some (assoc k (put_all entries m)).
Proof.
  induction entries as [|e r IH]; intros m k Hk; cbn.
  { destruct Hk as [?|(e & []%not_elem_of_nil & _)]. done. }
  apply IH. destruct Hk as [Hm|(x & [->|Hx]%elem_of_cons & Hk)].
  - left. rewrite assoc_put. by destruct (bool_decide _).
  - left. rewrite assoc_put, bool_decide_eq_true_2 by done. by eexists.
  - right. by exists x.
Qed.

(** No conflict: credentials that agree after trimming agree on the tenant. *)
Lemma conflict_loop_None entries : ∀ owner,
  conflict_loop owner entries = None →
  (∀ e p, e ∈ entries → assoc (Str.strip (cr_key e)) owner = Some p → cr_org e = fst p) ∧
  (∀ e e', e ∈ entries → e' ∈ entries → Str.strip (cr_key e) = Str.strip (cr_key e') →
           cr_org e = cr_org e').
Proof.
  induction entries as [|x r IH]; intros owner; cbn [conflict_loop].
  { intros _. split; [by intros e p ?%not_elem_of_nil|by intros e e' ?%not_elem_of_nil]. }
  destruct (assoc (Str.strip (cr_key x)) owner) as [[fo fs]|] eqn:Ex.
  - destruct (bool_decide (fo = cr_org x)) eqn:Eo; bools; [|done]. cbn. intros [H1 H2]%IH.
    assert (∀ e, e ∈ r → Str.strip (cr_key e) = Str.strip (cr_key x) → cr_org e = cr_org x) as Hx.
    { intros e He Hk. rewrite <- Eo. by apply (H1 e (fo, fs)); [|rewrite Hk]. }
    split.
    + intros e p [->|He]%elem_of_cons Hp; [|by apply H1]. rewrite Ex in Hp. by injection Hp as <-.
    + intros e e' [->|He]%elem_of_cons [->|He']%elem_of_cons Hk;
        [done|symmetry; by apply Hx|by apply Hx|by apply H2].
  - intros [H1 H2]%IH.
    assert (∀ e, e ∈ r → Str.strip (cr_key e) = Str.strip (cr_key x) → cr_org e = cr_org x) as Hx.
    { intros e He Hk. apply (H1 e (cr_org x, cr_source x) He).
      by rewrite assoc_put, bool_decide_eq_true_2. }
    split.
    + intros e p [->|He]%elem_of_cons Hp; [by rewrite Ex in Hp|]. apply (H1 e p He).
      rewrite assoc_put, bool_decide_eq_false_2; [done|]. intros Hk. by rewrite Hk, Ex in Hp.
    + intros e e' [->|He]%elem_of_cons [->|He']%elem_of_cons Hk;
        [done|symmetry; by apply Hx|by apply Hx|by apply H2].
Qed.

Lemma resolve_org_loop d key : ∀ acc,
  fold_left (resolve_step key) d acc
  = match fold_left (resolve_step key) d None with Some o => Some o | None => acc end.
Proof.
  induction d as [|[k o] d IH]; intros acc; cbn; [done|].
  rewrite IH, (IH (if key == k then Some o else None)).
  destruct (fold_left _ d None); [done|]. by destruct (bool_decide _).
Qed.

(** The constant-time loop is a lookup. *)
Lemma resolve_org_eq cfg key :
  NoDup (map fst (ac_key_map cfg)) → resolve_org cfg key = assoc key (ac_key_map cfg).
Proof.
  unfold resolve_org. induction (ac_key_map cfg) as [|[k o] d IH]; intros Hnd; [done|].
  apply NoDup_cons in Hnd as [Hk Hnd]. cbn. rewrite resolve_org_loop, IH by done.
  destruct (bool_decide (key = k)) eqn:E; bools; [|by destruct (assoc key d)].
  subst k. destruct (assoc key d) as [x|] eqn:Ea; [|done]. exfalso. apply Hk.
  apply list_elem_of_fmap. exists (key, x). split; [done|by apply assoc_In].
Qed.

Lemma matches_tenant_key_spec candidate cfg :
  matches_tenant_key candidate cfg = true ↔ candidate ∈ map fst (ac_key_map cfg).
Proof.
  unfold matches_tenant_key.
  assert (∀ d b, fold_left (λ matched '(known_key, _), if candidate == known_key then true else matched)
    d b = true ↔ b = true ∨ candidate ∈ map fst (d : list (string * string))) as H.
  { induction d as [|[k o] d IH]; intros b; cbn.
    - split; [by left|]. by intros [?|?%not_elem_of_nil].
    - rewrite IH, elem_of_cons. case_bool_decide; naive_solver. }
  rewrite H. naive_solver.
Qed.

Lemma load_auth_config_Ok `{JsonLoads} env legacy :
  ac_error (load_auth_config env legacy) = None →
  ∃ entries explicit, collect_credentials env legacy = Ok (entries, explicit) ∧
    credential_conflict entries = None ∧
    ac_key_map (load_auth_config env legacy) = put_all entries [].
Proof.
  unfold load_auth_config. destruct (collect_credentials env legacy) as [[entries explicit]|]; [|done].
  destruct (credential_conflict entries) eqn:E; [done|]. intros _. by exists entries, explicit.
Qed.

Lemma conflict_loop_error entries : ∀ owner c, conflict_loop owner entries = Some c → c ≠ "".
Proof.
  induction entries as [|x r IH]; intros owner c; cbn [conflict_loop]; [done|].
  destruct (assoc _ owner) as [[fo fs]|]; [|apply IH].
  destruct (negb _); [by intros [= <-]|apply IH].
Qed.

(** An error is never the empty string. *)
Lemma load_auth_config_error `{JsonLoads} env legacy e :
  ac_error (load_auth_config env legacy) = Some e → e ≠ "".
Proof.
  assert (∀ f m x, parse_entries f m = Err x → x ≠ "") as Hp.
  { induction f as [|[k o] f IH]; intros m x; cbn; [done|].
    destruct (negb _), (org_of_json o); [apply IH|by intros [= <-]..]. }
  unfold load_auth_config, collect_credentials.
  destruct (bool_decide (Str.strip _ = "")).
  - destruct (credential_conflict _) as [c|] eqn:E; [|done]. intros [= <-]. revert E.
    apply conflict_loop_error.
  - destruct (parse_org_key_map _) as [parsed|x] eqn:Er; cbn [mbind result_bind mret result_ret].
    + destruct (credential_conflict _) as [c|] eqn:E; [|done]. intros [= <-]. revert E.
      apply conflict_loop_error.
    + intros [= <-]. revert Er. unfold parse_org_key_map.
      destruct (json_loads _ _) as [[]|[]]; try by intros [= <-]. apply Hp.
Qed.

(** A presented header that the dependency accepts. *)
Definition presents (cfg : AuthConfig) (x_api_key : option string) (org : string) : Prop :=
  ∃ key, x_api_key = Some key ∧ key ≠ "" ∧ resolve_org cfg key = Some org.

Lemma truthy_Some o : truthy o = true ↔ ∃ s, o = Some s ∧ s ≠ "".
Proof. destruct o as [[|c s]|]; cbn; naive_solver. Qed.

Lemma get_current_org_id_Ok settings cfg h org :
  get_current_org_id settings cfg h = Ok org →
  truthy (ac_error cfg) = false ∧
  (presents cfg h org ∨
   (ac_key_map cfg = [] ∧ allow_insecure_no_auth settings = true ∧ org = "default")).
Proof.
  unfold get_current_org_id, keys_required.
  destruct (truthy (ac_error cfg)); [done|]. intros E. split; [done|].
  destruct (ac_key_map cfg) as [|e l] eqn:Em.
  - destruct (allow_insecure_no_auth settings); [|done]. right. by injection E as <-.
  - left. cbn in E. destruct (truthy h) eqn:Et; [|done]. apply truthy_Some in Et as (s & -> & Hs).
    cbn in E. destruct (resolve_org cfg s) as [o|] eqn:Er; [|done]. injection E as <-. by exists s.
Qed.

(** ** Theorems *)

(** One credential, one tenant.  When the configuration is accepted, two
    credentials of the effective map that are equal after trimming belong to
    the same organization, and every configured credential of every source
    resolves to exactly the organization it was configured for: no source can
    re-assign a key. *)
Theorem credential_identifies_one_tenant `{JsonLoads} env legacy :
  let cfg := load_auth_config env legacy in
  ac_error cfg = None →
  (∀ k k' o o', (k, o) ∈ ac_key_map cfg → (k', o') ∈ ac_key_map cfg → Str.strip k = Str.strip k' → o = o') ∧
  ∀ entries explicit e, collect_credentials env legacy = Ok (entries, explicit) → e ∈ entries →
    resolve_org cfg (cr_key e) = Some (cr_org e).
Proof.
  intros cfg Hok. destruct (load_auth_config_Ok env legacy Hok) as (entries & explicit & Hc & Hn & Hm).
  fold cfg in Hm. apply conflict_loop_None in Hn as [_ Hn].
  assert (NoDup (map fst (ac_key_map cfg))) as Hnd by (rewrite Hm; apply put_all_keys; constructor).
  assert (∀ k o, (k, o) ∈ ac_key_map cfg → ∃ e, e ∈ entries ∧ cr_key e = k ∧ cr_org e = o) as Hsrc.
  { intros k o Hin. apply (nodup_assoc k o) in Hin; [|done]. rewrite Hm in Hin.
    by apply put_all_assoc in Hin as [?|?]. }
  split.
  - intros k k' o o' (e & He & <- & <-)%Hsrc (e' & He' & <- & <-)%Hsrc Hk. by apply Hn.
  - intros entries' explicit' e Hc' He. rewrite Hc in Hc'. injection Hc' as <- <-.
    rewrite resolve_org_eq by done.
    destruct (put_all_has entries [] (cr_key e)) as [o Ho]; [right; by exists e|]. rewrite Hm, Ho.
    apply put_all_assoc in Ho as [(x & Hx & Hk & <-)|?]; [|done]. f_equal. apply Hn; [done..|].
    by rewrite Hk.
Qed.

(** Tenant routes fail closed.  The integration and credential routes
    resolve an organization only from a presented, non-empty key of a valid,
    non-empty key map, never from the development opt-out; the general
    dependency additionally admits ["default"] only when no key at all is
    configured and the opt-out is set. *)
Theorem tenant_routes_fail_closed settings cfg h org :
  (get_integration_org_id settings cfg h = Ok org → presents cfg h org) ∧
  (get_authenticated_org_id settings cfg h = Ok org → presents cfg h org) ∧
  (get_current_org_id settings cfg h = Ok org →
     presents cfg h org ∨
     (ac_key_map cfg = [] ∧ allow_insecure_no_auth settings = true ∧ org = "default")) ∧
  (truthy (ac_error cfg) = true →
     ∃ e, get_current_org_id settings cfg h = Err e ∧ require_api_key settings cfg h = Err e).
Proof.
  assert (no_usable_keys cfg = false → get_current_org_id settings cfg h = Ok org → presents cfg h org)
    as Hmain.
  { unfold no_usable_keys. intros Hn [_ [?|(He & _)]]%get_current_org_id_Ok; [done|].
    rewrite He, orb_true_r in Hn. done. }
  split_and!.
  - unfold get_integration_org_id. destruct (no_usable_keys cfg); [done|by apply Hmain].
  - unfold get_authenticated_org_id. destruct (no_usable_keys cfg); [done|by apply Hmain].
  - by intros [_ ?]%get_current_org_id_Ok.
  - intros He. unfold get_current_org_id, require_api_key, keys_required. rewrite He. by eexists.
Qed.

(** A process that starts is not an open mail sender.  When the startup gate
    passes, an API with live sending enabled has at least one tenant key
    configured, and the operator key, if set, is no tenant key; and then the
    operator dependency admits exactly the operator key, so no tenant key
    opens a process-wide route. *)
Theorem startup_gate_sound `{JsonLoads} settings env legacy :
  let cfg := load_auth_config env legacy in
  validate_auth_configuration settings cfg = Ok () →
  ac_error cfg = None ∧
  (live_sending_enabled settings = true → ac_key_map cfg ≠ []) ∧
  (∀ h, require_system_operator settings cfg h = Ok () ↔
        operator_key settings ≠ "" ∧ h = Some (operator_key settings)) ∧
  (∀ key, key ∈ map fst (ac_key_map cfg) → require_system_operator settings cfg (Some key) ≠ Ok ()).
Proof.
  intros cfg. pose proof (load_auth_config_error env legacy) as Hne. fold cfg in Hne.
  unfold validate_auth_configuration. destruct (ac_error cfg) as [e|] eqn:Ee.
  { specialize (Hne e eq_refl). by rewrite (bool_decide_eq_false_2 _ Hne). }
  cbn [mbind result_bind]. destruct (_ && _) eqn:Eo; [done|]. intros Hv.
  assert (∀ h, require_system_operator settings cfg h = Ok () ↔
    operator_key settings ≠ "" ∧ h = Some (operator_key settings)) as Hop.
  { intros h. unfold require_system_operator. rewrite Ee. cbn [truthy orb].
    destruct (bool_decide (operator_key settings = "")) eqn:E; bools; cbn [orb negb andb] in *.
    { split; [done|]. by intros [? _]. }
    rewrite Eo. destruct h as [k|]; [|split; [done|naive_solver]]. change (default "" (Some k)) with k.
    destruct (negb (truthy (Some k)) || negb (bool_decide (k = operator_key settings))) eqn:Ek.
    - split; [done|]. intros [_ [= ->]]. rewrite (bool_decide_eq_true_2 (_ = _)), orb_false_r in Ek by done.
      by destruct (operator_key settings).
    - bools. subst. naive_solver. }
  split_and!; [done| |done|].
  - intros Hl. rewrite Hl in Hv. by destruct (ac_key_map cfg), (allow_insecure_no_auth settings).
  - intros key Hin [Hk [= ->]]%Hop. apply matches_tenant_key_spec in Hin. rewrite Hin in Eo.
    by rewrite bool_decide_eq_false_2 in Eo.
Qed.

(** *** Witnesses *)

Section AuthWitnesses.
(** A decoder that knows one text. *)
#[local] Instance sample_loads : JsonLoads :=
  λ hook raw, if raw == "{map}" then
                let pairs := [("k1", JStr "acme"); ("k2", JInt 7)] in
                if hook pairs then Err DuplicateJsonMember else Ok (JObj pairs)
              else Err JSONDecodeError.

Definition sample_environ : list (string * string) :=
  [("PATH", "/bin"); ("Org_Keys_LeadBoost", " k3 "); ("ORG_KEY_MAP", " {map} ")].

Lemma credential_identifies_one_tenant_witness :
  resolve_org (load_auth_config sample_environ "legacy") "k3" = Some "leadboost" ∧
  resolve_org (load_auth_config sample_environ "legacy") "k2" = Some "7".
Proof.
  assert (ac_error (load_auth_config sample_environ "legacy") = None) as Hok
    by (vm_compute; reflexivity).
  destruct (credential_identifies_one_tenant sample_environ "legacy" Hok) as [_ H].
  split.
  - eapply (H _ _ (mkCred "ORG_KEYS_*" "k3" "leadboost")); [vm_compute; reflexivity|].
    apply list_elem_of_In. vm_compute. tauto.
  - eapply (H _ _ (mkCred "ORG_KEY_MAP" "k2" "7")); [vm_compute; reflexivity|].
    apply list_elem_of_In. vm_compute. tauto.
Defined.

Lemma startup_gate_sound_witness :
  validate_auth_configuration live_settings (load_auth_config sample_environ "") = Ok () ∧
  ac_key_map (load_auth_config sample_environ "") ≠ [].
Proof.
  assert (validate_auth_configuration live_settings (load_auth_config sample_environ "") = Ok ())
    as Hok by (vm_compute; reflexivity).
  destruct (startup_gate_sound live_settings sample_environ "" Hok) as (_ & H & _).
  split; [exact Hok|]. by apply H.
Defined.
End AuthWitnesses.
