(* ===== verification/SemanticModels.v ===== *)
(** * Semantic analysis values ([src/mailer_agent/semantic_models.py])

    The vocabulary the classifier returns and the conversation policy branches
    on, the stamping of fact provenance, and the classification result. *)

From Stdlib Require Import QArith.
From S2P Require Import Prelude.

#[local] Open Scope bool_scope.

Inductive IntentType :=
  | POSITIVE_INTEREST | QUESTION | OBJECTION | NOT_INTERESTED | MEETING_REQUEST | PRICING_REQUEST
  | INFORMATION_REQUEST | OUT_OF_OFFICE | UNSUBSCRIBE | REFERRAL | TIMING_CONSTRAINT | NEUTRAL.
#[global] Instance IntentType_eq_dec : EqDecision IntentType.
Proof. solve_decision. Defined.

Inductive SpeechAct := SA_STATEMENT | SA_QUESTION | SA_REQUEST | SA_COMMITMENT | SA_REJECTION | SA_ACKNOWLEDGMENT.
Inductive SentimentType := ST_POSITIVE | ST_NEUTRAL | ST_NEGATIVE | ST_MIXED.
Inductive BuyingStage :=
  | BS_UNAWARE | BS_AWARE | BS_CONSIDERING | BS_EVALUATING | BS_DECIDING | BS_COMMITTED | BS_REJECTED | BS_NURTURE.
Inductive UrgencyLevel := UL_IMMEDIATE | UL_NEAR_TERM | UL_LONG_TERM | UL_NO_TIMELINE.
Inductive Certainty := CT_EXPLICIT | CT_STRONGLY_INFERRED | CT_WEAKLY_INFERRED | CT_UNKNOWN.
Inductive TimingKind := TK_SPECIFIC_DATE | TK_RELATIVE_PERIOD | TK_QUARTER | TK_CONDITIONAL | TK_VAGUE.
Inductive ClassificationFailureReason :=
  | PROVIDER_UNAVAILABLE | RATE_LIMITED | TIMEOUT | MALFORMED_OUTPUT | PARSE_ERROR | VALIDATION_ERROR | UNKNOWN_ERROR.

(** ** Wire values of the enumerations *)

Definition IntentType_value (x : IntentType) : string :=
  match x with
  | POSITIVE_INTEREST => "positive_interest"
  | QUESTION => "question"
  | OBJECTION => "objection"
  | NOT_INTERESTED => "not_interested"
  | MEETING_REQUEST => "meeting_request"
  | PRICING_REQUEST => "pricing_request"
  | INFORMATION_REQUEST => "information_request"
  | OUT_OF_OFFICE => "out_of_office"
  | UNSUBSCRIBE => "unsubscribe"
  | REFERRAL => "referral"
  | TIMING_CONSTRAINT => "timing_constraint"
  | NEUTRAL => "neutral"
  end.
Definition SpeechAct_value (x : SpeechAct) : string :=
  match x with
  | SA_STATEMENT => "statement"
  | SA_QUESTION => "question"
  | SA_REQUEST => "request"
  | SA_COMMITMENT => "commitment"
  | SA_REJECTION => "rejection"
  | SA_ACKNOWLEDGMENT => "acknowledgment"
  end.
Definition SentimentType_value (x : SentimentType) : string :=
  match x with
  | ST_POSITIVE => "positive"
  | ST_NEUTRAL => "neutral"
  | ST_NEGATIVE => "negative"
  | ST_MIXED => "mixed"
  end.
Definition BuyingStage_value (x : BuyingStage) : string :=
  match x with
  | BS_UNAWARE => "unaware"
  | BS_AWARE => "aware"
  | BS_CONSIDERING => "considering"
  | BS_EVALUATING => "evaluating"
  | BS_DECIDING => "deciding"
  | BS_COMMITTED => "committed"
  | BS_REJECTED => "rejected"
  | BS_NURTURE => "nurture"
  end.
Definition UrgencyLevel_value (x : UrgencyLevel) : string :=
  match x with
  | UL_IMMEDIATE => "immediate"
  | UL_NEAR_TERM => "near_term"
  | UL_LONG_TERM => "long_term"
  | UL_NO_TIMELINE => "no_timeline"
  end.
Definition Certainty_value (x : Certainty) : string :=
  match x with
  | CT_EXPLICIT => "explicit"
  | CT_STRONGLY_INFERRED => "strongly_inferred"
  | CT_WEAKLY_INFERRED => "weakly_inferred"
  | CT_UNKNOWN => "unknown"
  end.
Definition TimingKind_value (x : TimingKind) : string :=
  match x with
  | TK_SPECIFIC_DATE => "specific_date"
  | TK_RELATIVE_PERIOD => "relative_period"
  | TK_QUARTER => "quarter"
  | TK_CONDITIONAL => "conditional"
  | TK_VAGUE => "vague"
  end.
Definition ClassificationFailureReason_value (x : ClassificationFailureReason) : string :=
  match x with
  | PROVIDER_UNAVAILABLE => "provider_unavailable"
  | RATE_LIMITED => "rate_limited"
  | TIMEOUT => "timeout"
  | MALFORMED_OUTPUT => "malformed_output"
  | PARSE_ERROR => "parse_error"
  | VALIDATION_ERROR => "validation_error"
  | UNKNOWN_ERROR => "unknown_error"
  end.

(** ** Values *)

Record TimingSignal := mkTiming {
  tm_expression : string;
  tm_kind : option TimingKind;
  tm_normalized_target : option string;
  tm_certainty : Certainty;
  tm_commitment_strength : option string;
  tm_requires_clarification : bool
}.

Record SemanticFact := mkFact {
  fc_value : string;
  fc_certainty : Certainty;
  fc_explicit : bool;
  fc_evidence : option string;
  fc_supersedes : option string;
  fc_source_message_id : option Z;
  fc_observed_at : option string
}.

(** Confidences are the exact values of the floats. *)
Record SemanticIntent := mkIntent {
  si_intents : list IntentType;
  si_speech_act : option SpeechAct;
  si_sentiment : SentimentType;
  si_buying_stage : BuyingStage;
  si_user_goal : option string;
  si_pain_points : list string;
  si_objections_raised : list string;
  si_constraints : list string;
  si_urgency : UrgencyLevel;
  si_has_pricing_question : bool;
  si_has_budget_signal : bool;
  si_has_decision_maker_signal : bool;
  si_has_commitment_signal : bool;
  si_procurement_signal : bool;
  si_requested_information : list string;
  si_questions_asked : list string;
  si_commitments_made : list string;
  si_current_solution : option SemanticFact;
  si_competitors_mentioned : list SemanticFact;
  si_new_facts : list SemanticFact;
  si_contradicted_facts : list string;
  si_unresolved_items : list string;
  si_timing : option TimingSignal;
  si_confidence : Q;
  si_uncertain_aspects : list string;
  si_reasoning : string;
  si_requires_human_review : bool;
  si_human_review_reason : option string
}.

(** The dataclass defaults. *)
Definition default_intent : SemanticIntent :=
  mkIntent [] None ST_NEUTRAL BS_UNAWARE None [] [] [] UL_NO_TIMELINE false false false false false
    [] [] [] None [] [] [] [] None 0%Q [] "" false None.

Definition requested_timing (intent : SemanticIntent) : option string :=
  tm_expression <$> si_timing intent.

(** ** Fact provenance *)

Definition or_else {A} (o : option A) (v : A) : option A := match o with Some x => Some x | None => Some v end.

Definition stamp (source_message_id : Z) (observed_at : string) (f : SemanticFact) : SemanticFact :=
  mkFact (fc_value f) (fc_certainty f) (fc_explicit f) (fc_evidence f) (fc_supersedes f)
    (or_else (fc_source_message_id f) source_message_id) (or_else (fc_observed_at f) observed_at).

Definition attach_fact_provenance (source_message_id : Z) (observed_at : string) (i : SemanticIntent)
    : SemanticIntent :=
  let st := stamp source_message_id observed_at in
  mkIntent (si_intents i) (si_speech_act i) (si_sentiment i) (si_buying_stage i) (si_user_goal i)
    (si_pain_points i) (si_objections_raised i) (si_constraints i) (si_urgency i)
    (si_has_pricing_question i) (si_has_budget_signal i) (si_has_decision_maker_signal i)
    (si_has_commitment_signal i) (si_procurement_signal i) (si_requested_information i)
    (si_questions_asked i) (si_commitments_made i)
    (st <$> si_current_solution i) (map st (si_competitors_mentioned i)) (map st (si_new_facts i))
    (si_contradicted_facts i) (si_unresolved_items i) (si_timing i) (si_confidence i)
    (si_uncertain_aspects i) (si_reasoning i) (si_requires_human_review i) (si_human_review_reason i).

(** ** Serialization

    The dict stored in [Message.semantic_analysis]. *)

Definition SEMANTIC_SCHEMA_VERSION : string := "3".

Definition jstrs (l : list string) : json := JList (map JStr l).
Definition jopt_int (o : option Z) : json := match o with None => JNull | Some n => JInt n end.

Definition serialize_fact (f : SemanticFact) : json :=
  JObj [("value", JStr (fc_value f)); ("certainty", JStr (Certainty_value (fc_certainty f)));
        ("explicit", JBool (fc_explicit f)); ("evidence", jopt (fc_evidence f));
        ("supersedes", jopt (fc_supersedes f)); ("source_message_id", jopt_int (fc_source_message_id f));
        ("observed_at", jopt (fc_observed_at f))].

Definition serialize_timing (t : TimingSignal) : json :=
  JObj [("expression", JStr (tm_expression t)); ("kind", jopt (TimingKind_value <$> tm_kind t));
        ("normalized_target", jopt (tm_normalized_target t));
        ("certainty", JStr (Certainty_value (tm_certainty t)));
        ("commitment_strength", jopt (tm_commitment_strength t));
        ("requires_clarification", JBool (tm_requires_clarification t))].

Definition jnullable {A} (f : A → json) (o : option A) : json :=
  match o with None => JNull | Some x => f x end.

Definition serialize_semantic_intent (i : SemanticIntent) : json :=
  JObj [("semantic_schema_version", JStr SEMANTIC_SCHEMA_VERSION);
        ("intents", jstrs (map IntentType_value (si_intents i)));
        ("speech_act", jopt (SpeechAct_value <$> si_speech_act i));
        ("sentiment", JStr (SentimentType_value (si_sentiment i)));
        ("buying_stage", JStr (BuyingStage_value (si_buying_stage i)));
        ("user_goal", jopt (si_user_goal i));
        ("pain_points", jstrs (si_pain_points i));
        ("objections_raised", jstrs (si_objections_raised i));
        ("constraints", jstrs (si_constraints i));
        ("urgency", JStr (UrgencyLevel_value (si_urgency i)));
        ("has_pricing_question", JBool (si_has_pricing_question i));
        ("has_budget_signal", JBool (si_has_budget_signal i));
        ("has_decision_maker_signal", JBool (si_has_decision_maker_signal i));
        ("has_commitment_signal", JBool (si_has_commitment_signal i));
        ("procurement_signal", JBool (si_procurement_signal i));
        ("requested_information", jstrs (si_requested_information i));
        ("questions_asked", jstrs (si_questions_asked i));
        ("commitments_made", jstrs (si_commitments_made i));
        ("current_solution", jnullable serialize_fact (si_current_solution i));
        ("competitors_mentioned", JList (map serialize_fact (si_competitors_mentioned i)));
        ("new_facts", JList (map serialize_fact (si_new_facts i)));
        ("contradicted_facts", jstrs (si_contradicted_facts i));
        ("unresolved_items", jstrs (si_unresolved_items i));
        ("timing", jnullable serialize_timing (si_timing i));
        ("confidence", JFloat (si_confidence i));
        ("uncertain_aspects", jstrs (si_uncertain_aspects i));
        ("reasoning", JStr (si_reasoning i));
        ("requires_human_review", JBool (si_requires_human_review i));
        ("human_review_reason", jopt (si_human_review_reason i))].

(** ** Classification results *)

Record ClassificationResult := mkClassification {
  cr_success : bool;
  cr_semantic_intent : option SemanticIntent;
  cr_failure_reason : option ClassificationFailureReason;
  cr_failure_details : option string;
  cr_source_name : string;
  cr_model_used : option string;
  cr_processing_time_ms : option Z;
  cr_prompt_version : option string;
  cr_used_fallback : option bool;
  cr_response_mode : option string;
  cr_attempts : option Z
}.

Definition is_actionable (r : ClassificationResult) : bool :=
  match cr_success r, cr_semantic_intent r with
  | true, Some i => Qle_bool (1 # 2) (si_confidence i) && negb (si_requires_human_review i)
  | _, _ => false
  end.

Definition primary_intent (r : ClassificationResult) : option IntentType :=
  match cr_semantic_intent r with Some i => head (si_intents i) | None => None end.

Definition from_failure (reason : ClassificationFailureReason) (details source : string)
    : ClassificationResult :=
  mkClassification false None (Some reason) (Some details) source None None None None None None.

Definition from_semantic_intent (intent : SemanticIntent) (source : string)
    (model_used prompt_version : option string) (used_fallback : option bool)
    (response_mode : option string) (attempts : option Z) : ClassificationResult :=
  mkClassification true (Some intent) None None source model_used None prompt_version used_fallback
    response_mode attempts.

(** ** Facts *)

Definition intent_facts (i : SemanticIntent) : list SemanticFact :=
  option_list (si_current_solution i) ++ si_competitors_mentioned i ++ si_new_facts i.

Lemma attach_facts m t i :
  intent_facts (attach_fact_provenance m t i) = map (stamp m t) (intent_facts i).
Proof.
  unfold intent_facts. cbn. rewrite !map_app. by destruct (si_current_solution i).
Qed.

(** Provenance is stamped once.  After stamping, every fact of the
    interpretation has a source message and a time; stamping again with any
    other message and time changes nothing. *)
Theorem provenance_stamped_once m t m' t' i :
  Forall (λ f, is_Some (fc_source_message_id f) ∧ is_Some (fc_observed_at f))
    (intent_facts (attach_fact_provenance m t i)) ∧
  attach_fact_provenance m' t' (attach_fact_provenance m t i) = attach_fact_provenance m t i.
Proof.
  assert (∀ f, stamp m' t' (stamp m t f) = stamp m t f) as Hs.
  { intros f. unfold stamp; cbn. by destruct (fc_source_message_id f), (fc_observed_at f). }
  split.
  - rewrite attach_facts. apply Forall_forall. intros f (x & -> & _)%list_elem_of_fmap. cbn.
    unfold or_else. by destruct (fc_source_message_id x), (fc_observed_at x).
  - unfold attach_fact_provenance; cbn. f_equal.
    + destruct (si_current_solution i); cbn; [by rewrite Hs|done].
    + rewrite map_map. by apply map_ext.
    + rewrite map_map. by apply map_ext.
Qed.

(** ** Stored analyses *)

Lemma jopt_inj o o' : jopt o = jopt o' → o = o'.
Proof. by destruct o, o'; intros [=]; subst. Qed.
Lemma jopt_int_inj o o' : jopt_int o = jopt_int o' → o = o'.
Proof. by destruct o, o'; intros [=]; subst. Qed.
Lemma jstrs_inj l l' : jstrs l = jstrs l' → l = l'.
Proof. intros [= H]. revert H. apply list_fmap_eq_inj. by intros ? ? [=]. Qed.

(** Distinct members of an enumeration have distinct wire values. *)
Lemma Certainty_value_inj x y : Certainty_value x = Certainty_value y → x = y.
Proof. by destruct x, y. Qed.
Lemma TimingKind_value_inj x y : TimingKind_value x = TimingKind_value y → x = y.
Proof. by destruct x, y. Qed.
Lemma IntentType_value_inj x y : IntentType_value x = IntentType_value y → x = y.
Proof. by destruct x, y. Qed.
Lemma SpeechAct_value_inj x y : SpeechAct_value x = SpeechAct_value y → x = y.
Proof. by destruct x, y. Qed.
Lemma SentimentType_value_inj x y : SentimentType_value x = SentimentType_value y → x = y.
Proof. by destruct x, y. Qed.
Lemma BuyingStage_value_inj x y : BuyingStage_value x = BuyingStage_value y → x = y.
Proof. by destruct x, y. Qed.
Lemma UrgencyLevel_value_inj x y : UrgencyLevel_value x = UrgencyLevel_value y → x = y.
Proof. by destruct x, y. Qed.

Lemma fmap_option_inj {A B} (f : A → B) (o o' : option A) :
  (∀ x y, f x = f y → x = y) → f <$> o = f <$> o' → o = o'.
Proof.
  intros Hf. destruct o as [x|], o' as [y|]; cbn; intros H; try done.
  injection H as H. by rewrite (Hf _ _ H).
Qed.

Lemma serialize_fact_inj f f' : serialize_fact f = serialize_fact f' → f = f'.
Proof.
  destruct f, f'. intros [= -> ?%Certainty_value_inj -> ?%jopt_inj ?%jopt_inj ?%jopt_int_inj ?%jopt_inj].
  cbn in *. congruence.
Qed.

Lemma serialize_timing_inj t t' : serialize_timing t = serialize_timing t' → t = t'.
Proof.
  destruct t, t'.
  intros [= -> ?%jopt_inj ?%jopt_inj ?%Certainty_value_inj ?%jopt_inj ->]. cbn in *.
  match goal with H : TimingKind_value <$> _ = _ |- _ =>
    apply fmap_option_inj in H; [|apply TimingKind_value_inj] end. congruence.
Qed.

Lemma jnullable_inj {A} (f : A → json) o o' :
  (∀ x, f x ≠ JNull) → (∀ x y, f x = f y → x = y) → jnullable f o = jnullable f o' → o = o'.
Proof.
  intros Hn Hf. destruct o as [x|], o' as [y|]; cbn; intros H; [f_equal; by apply Hf|..|done];
    exfalso; by eapply Hn.
Qed.

Lemma facts_inj l l' : JList (map serialize_fact l) = JList (map serialize_fact l') → l = l'.
Proof. intros [= H]. revert H. apply list_fmap_eq_inj. intros ? ?. apply serialize_fact_inj. Qed.

Lemma jlist_eq l l' : l = l' → JList l = JList l'.
Proof. by intros ->. Qed.

(** The stored analysis loses nothing: two interpretations with the same
    stored dict are the same interpretation, in every field. *)
Theorem stored_analysis_determines_intent i i' :
  serialize_semantic_intent i = serialize_semantic_intent i' → i = i'.
Proof.
  destruct i, i'. unfold serialize_semantic_intent, jstrs; cbn. intros [=].
  repeat match goal with
  | H : map JStr _ = map JStr _ |- _ => apply jlist_eq, (jstrs_inj _ _) in H
  | H : map serialize_fact _ = map serialize_fact _ |- _ => apply jlist_eq, facts_inj in H
  | H : jopt _ = jopt _ |- _ => apply jopt_inj in H
  | H : jnullable serialize_fact _ = _ |- _ =>
      apply jnullable_inj in H; [|done|apply serialize_fact_inj]
  | H : jnullable serialize_timing _ = _ |- _ =>
      apply jnullable_inj in H; [|done|apply serialize_timing_inj]
  | H : map IntentType_value _ = _ |- _ =>
      apply list_fmap_eq_inj in H; [|intros ? ?; apply IntentType_value_inj]
  | H : SpeechAct_value <$> _ = _ |- _ => apply fmap_option_inj in H; [|apply SpeechAct_value_inj]
  | H : SentimentType_value _ = _ |- _ => apply SentimentType_value_inj in H
  | H : BuyingStage_value _ = _ |- _ => apply BuyingStage_value_inj in H
  | H : UrgencyLevel_value _ = _ |- _ => apply UrgencyLevel_value_inj in H
  end. subst. reflexivity.
Qed.

(** *** Witness *)

Lemma stored_analysis_determines_intent_witness : default_intent = default_intent.
Proof. apply stored_analysis_determines_intent. reflexivity. Defined.
