(* ===== verification/StateMachine.v ===== *)
(** * Relationship state machine ([src/mailer_agent/state_machine.py])

    The transition table of a contact's lifecycle, the transition function,
    the event inferred from a reply, and the follow-up predicates. *)

From S2P Require Import Prelude Sql Models SemanticModels Samples.

Inductive StateTransitionEvent :=
  | EV_INITIAL_SENT | EV_FOLLOWUP_SENT | EV_REPLY_RECEIVED | EV_POSITIVE_INTEREST
  | EV_MEETING_REQUESTED | EV_MEETING_CONFIRMED | EV_PRICING_DISCUSSED | EV_OBJECTION_RAISED
  | EV_NOT_INTERESTED | EV_UNSUBSCRIBED | EV_OUT_OF_OFFICE | EV_SEQUENCE_EXHAUSTED
  | EV_MANUAL_PAUSE | EV_MANUAL_RESUME | EV_MANUAL_WON | EV_MANUAL_LOST | EV_NEEDS_HUMAN.
#[global] Instance StateTransitionEvent_eq_dec : EqDecision StateTransitionEvent.
Proof. solve_decision. Defined.

(** [STATE_TRANSITIONS.get(state, {})]; QUALIFYING has no row in the table. *)
Definition STATE_TRANSITIONS (state : ContactStatus) : list (StateTransitionEvent * ContactStatus) :=
  match state with
  | CS_NEW => [(EV_INITIAL_SENT, CS_ACTIVE); (EV_MANUAL_PAUSE, CS_PAUSED); (EV_NEEDS_HUMAN, CS_NEEDS_REVIEW)]
  | CS_ACTIVE => [(EV_FOLLOWUP_SENT, CS_ACTIVE); (EV_REPLY_RECEIVED, CS_REPLIED);
                  (EV_SEQUENCE_EXHAUSTED, CS_SEQUENCE_COMPLETE); (EV_MANUAL_PAUSE, CS_PAUSED);
                  (EV_MANUAL_WON, CS_CLOSED_WON); (EV_MANUAL_LOST, CS_CLOSED_LOST);
                  (EV_NEEDS_HUMAN, CS_NEEDS_REVIEW)]
  | CS_REPLIED => [(EV_POSITIVE_INTEREST, CS_ENGAGED); (EV_MEETING_REQUESTED, CS_MEETING_REQUESTED);
                   (EV_OBJECTION_RAISED, CS_ENGAGED); (EV_NOT_INTERESTED, CS_CLOSED_LOST);
                   (EV_UNSUBSCRIBED, CS_SUPPRESSED); (EV_OUT_OF_OFFICE, CS_ACTIVE);
                   (EV_NEEDS_HUMAN, CS_NEEDS_REVIEW); (EV_FOLLOWUP_SENT, CS_ACTIVE)]
  | CS_ENGAGED => [(EV_REPLY_RECEIVED, CS_REPLIED); (EV_MEETING_REQUESTED, CS_MEETING_REQUESTED);
                   (EV_PRICING_DISCUSSED, CS_EVALUATING); (EV_NOT_INTERESTED, CS_CLOSED_LOST);
                   (EV_UNSUBSCRIBED, CS_SUPPRESSED); (EV_OBJECTION_RAISED, CS_ENGAGED);
                   (EV_MANUAL_WON, CS_CLOSED_WON); (EV_MANUAL_LOST, CS_CLOSED_LOST)]
  | CS_EVALUATING => [(EV_REPLY_RECEIVED, CS_REPLIED); (EV_MEETING_REQUESTED, CS_MEETING_REQUESTED);
                      (EV_POSITIVE_INTEREST, CS_NEGOTIATING); (EV_NOT_INTERESTED, CS_CLOSED_LOST);
                      (EV_UNSUBSCRIBED, CS_SUPPRESSED); (EV_MANUAL_WON, CS_CLOSED_WON);
                      (EV_MANUAL_LOST, CS_CLOSED_LOST)]
  | CS_MEETING_REQUESTED => [(EV_MEETING_CONFIRMED, CS_MEETING_SCHEDULED); (EV_REPLY_RECEIVED, CS_REPLIED);
                             (EV_NOT_INTERESTED, CS_CLOSED_LOST); (EV_UNSUBSCRIBED, CS_SUPPRESSED);
                             (EV_NEEDS_HUMAN, CS_NEEDS_REVIEW)]
  | CS_MEETING_SCHEDULED => [(EV_POSITIVE_INTEREST, CS_NEGOTIATING); (EV_NOT_INTERESTED, CS_CLOSED_LOST);
                             (EV_MANUAL_WON, CS_CLOSED_WON); (EV_MANUAL_LOST, CS_CLOSED_LOST)]
  | CS_NEGOTIATING => [(EV_REPLY_RECEIVED, CS_REPLIED); (EV_MANUAL_WON, CS_CLOSED_WON);
                       (EV_MANUAL_LOST, CS_CLOSED_LOST); (EV_NOT_INTERESTED, CS_CLOSED_LOST)]
  | CS_NURTURE => [(EV_REPLY_RECEIVED, CS_REPLIED); (EV_POSITIVE_INTEREST, CS_ENGAGED);
                   (EV_MANUAL_RESUME, CS_ACTIVE); (EV_NOT_INTERESTED, CS_CLOSED_LOST);
                   (EV_UNSUBSCRIBED, CS_SUPPRESSED)]
  | CS_SEQUENCE_COMPLETE => [(EV_REPLY_RECEIVED, CS_REPLIED); (EV_MANUAL_RESUME, CS_ACTIVE);
                             (EV_MANUAL_WON, CS_CLOSED_WON); (EV_MANUAL_LOST, CS_CLOSED_LOST)]
  | CS_NEEDS_REVIEW => [(EV_MANUAL_RESUME, CS_ACTIVE); (EV_MANUAL_WON, CS_CLOSED_WON);
                        (EV_MANUAL_LOST, CS_CLOSED_LOST); (EV_MANUAL_PAUSE, CS_PAUSED)]
  | CS_PAUSED => [(EV_MANUAL_RESUME, CS_ACTIVE); (EV_MANUAL_WON, CS_CLOSED_WON);
                  (EV_MANUAL_LOST, CS_CLOSED_LOST)]
  | CS_CLOSED_LOST => [(EV_MANUAL_RESUME, CS_ACTIVE)]
  | CS_CLOSED_WON | CS_SUPPRESSED | CS_QUALIFYING => []
  end.

Definition next_state (state : ContactStatus) (event : StateTransitionEvent) : option ContactStatus :=
  snd <$> List.find (λ x, fst x == event) (STATE_TRANSITIONS state).

Definition transition_contact_state (contact : Contact) (event : StateTransitionEvent) (utcnow : Z)
    : Contact * bool :=
  match next_state (ct_status contact) event with
  | None => (contact, false)
  | Some new_state => (set_ct_updated_at utcnow (set_ct_status new_state contact), true)
  end.

Definition infer_event_from_semantic_intent (intent : SemanticIntent) : StateTransitionEvent :=
  let has i := in_list i (si_intents intent) in
  if has UNSUBSCRIBE then EV_UNSUBSCRIBED
  else if has NOT_INTERESTED then EV_NOT_INTERESTED
  else if has OUT_OF_OFFICE then EV_OUT_OF_OFFICE
  else if has MEETING_REQUEST then EV_MEETING_REQUESTED
  else if has PRICING_REQUEST then EV_PRICING_DISCUSSED
  else if has POSITIVE_INTEREST then EV_POSITIVE_INTEREST
  else if has OBJECTION then EV_OBJECTION_RAISED
  else EV_REPLY_RECEIVED.

Definition should_cancel_scheduled_followup (contact : Contact) : bool :=
  in_list (ct_status contact)
    [CS_REPLIED; CS_ENGAGED; CS_EVALUATING; CS_MEETING_REQUESTED; CS_MEETING_SCHEDULED; CS_NEGOTIATING;
     CS_NEEDS_REVIEW; CS_CLOSED_WON; CS_CLOSED_LOST; CS_SUPPRESSED; CS_PAUSED].

(** [a > b] on datetimes: a naive and an aware value cannot be ordered. *)
Definition datetime_gt (a b : datetime) : option bool :=
  match a, b with
  | Naive x, Naive y => Some (y <? x)
  | Aware x _, Aware y _ => Some (y <? x)
  | _, _ => None
  end.

(** [can_send_followup]; [next_action_at] is the attribute as loaded, [utcnow]
    the aware clock; [None] is the [TypeError] of the comparison. *)
Definition can_send_followup (status : ContactStatus) (next_action_at : option datetime) (utcnow : Z)
    : option bool :=
  if status != CS_ACTIVE then Some false
  else match next_action_at with
       | None => Some false
       | Some t => negb <$> datetime_gt t (Aware utcnow 0)
       end.

(** ** Facts *)

(** A run of the machine: the events in order. *)
Fixpoint run_events (contact : Contact) (events : list (StateTransitionEvent * Z)) : Contact :=
  match events with
  | [] => contact
  | (e, t) :: r => run_events (fst (transition_contact_state contact e t)) r
  end.

(** What only a person can trigger. *)
Definition is_manual (e : StateTransitionEvent) : bool :=
  match e with EV_MANUAL_PAUSE | EV_MANUAL_RESUME | EV_MANUAL_WON | EV_MANUAL_LOST => true | _ => false end.

(** States a person put the contact in, or must look at. *)
Definition human_held (s : ContactStatus) : bool :=
  match s with CS_PAUSED | CS_NEEDS_REVIEW | CS_CLOSED_LOST => true | _ => false end.
Definition permanent (s : ContactStatus) : bool :=
  match s with CS_SUPPRESSED | CS_CLOSED_WON => true | _ => false end.

Lemma transition_frame c e t :
  let c' := fst (transition_contact_state c e t) in
  (c' = c ∧ next_state (ct_status c) e = None) ∨
  (∃ st, next_state (ct_status c) e = Some st ∧ c' = set_ct_updated_at t (set_ct_status st c)).
Proof.
  unfold transition_contact_state. destruct (next_state _ _) as [st|]; [right; by eexists|by left].
Qed.

Lemma held_step s e : human_held s || permanent s = true → is_manual e = false → next_state s e = None.
Proof. destruct s, e; done. Qed.

Lemma permanent_step s e : permanent s = true → next_state s e = None.
Proof. destruct s, e; done. Qed.

(** ** Theorems *)

(** No sequence of events, manual ones included, takes a SUPPRESSED or
    CLOSED_WON contact out of its state or changes it at all; and no sequence
    of automatic events moves a contact that a person paused, must review or
    closed.  An event without an edge returns False and leaves the contact
    exactly as it was. *)
Theorem held_contacts_stay_held c events :
  (permanent (ct_status c) = true → run_events c events = c) ∧
  (human_held (ct_status c) = true → Forall (λ x, is_manual (fst x) = false) events →
   run_events c events = c) ∧
  (∀ e t, snd (transition_contact_state c e t) = false → fst (transition_contact_state c e t) = c).
Proof.
  split_and!.
  - intros Hp. induction events as [|[e t] r IH]; [done|]. cbn.
    unfold transition_contact_state. by rewrite permanent_step.
  - intros Hh. induction events as [|[e t] r IH]; [done|]. intros [He Hr]%Forall_cons. cbn.
    unfold transition_contact_state. rewrite held_step; [by apply IH|by rewrite Hh|done].
  - intros e t. unfold transition_contact_state. by destruct (next_state _ _).
Qed.

(** An opt-out always ends in SUPPRESSED once the reply was registered,
    except from the states the table leaves without that path.  For a contact
    in any state, receiving a reply and then the event inferred from an
    interpretation that contains UNSUBSCRIBE (whatever else it contains)
    leaves it SUPPRESSED exactly when its state was not one of NEW,
    QUALIFYING, MEETING_SCHEDULED, CLOSED_WON, CLOSED_LOST, PAUSED or
    NEEDS_REVIEW, which it keeps. *)
Theorem unsubscribe_suppresses c intent t t' :
  UNSUBSCRIBE ∈ si_intents intent →
  let c' := run_events c [(EV_REPLY_RECEIVED, t); (infer_event_from_semantic_intent intent, t')] in
  if in_list (ct_status c) [CS_NEW; CS_QUALIFYING; CS_MEETING_SCHEDULED; CS_CLOSED_WON; CS_CLOSED_LOST;
                            CS_PAUSED; CS_NEEDS_REVIEW]
  then c' = c else ct_status c' = CS_SUPPRESSED.
Proof.
  intros Hin. assert (infer_event_from_semantic_intent intent = EV_UNSUBSCRIBED) as ->.
  { unfold infer_event_from_semantic_intent, in_list. by rewrite bool_decide_eq_true_2. }
  destruct c as [? ? ? ? ? ? ? st]. destruct st; vm_compute; reflexivity.
Qed.

(** A follow-up is due only for an ACTIVE contact whose scheduled time has
    passed, never for one whose follow-up must be cancelled; and the check
    raises instead of answering when the scheduled time was loaded without a
    time zone, as the [DateTime] column returns it. *)
Theorem followup_check_sound c next_action_at u :
  (can_send_followup (ct_status c) next_action_at u = Some true →
     ct_status c = CS_ACTIVE ∧ should_cancel_scheduled_followup c = false ∧
     ∃ t off, next_action_at = Some (Aware t off) ∧ t ≤ u) ∧
  (ct_status c = CS_ACTIVE → ∀ t, can_send_followup (ct_status c) (Some (Naive t)) u = None).
Proof.
  split.
  - unfold can_send_followup, should_cancel_scheduled_followup.
    destruct (bool_decide (ct_status c = CS_ACTIVE)) eqn:E; bools; cbn [negb]; [|done].
    destruct next_action_at as [[t|t off]|]; cbn; [done| |done].
    intros [= H]. bools. rewrite E. split_and!; [done|done|]. by exists t, off.
  - intros E t. unfold can_send_followup. by rewrite E.
Qed.

(** *** Witness *)

Definition opt_out_reply : SemanticIntent :=
  mkIntent [POSITIVE_INTEREST; UNSUBSCRIBE] None ST_NEUTRAL BS_UNAWARE None [] [] [] UL_NO_TIMELINE false
    false false false false [] [] [] None [] [] [] [] None 0%Q [] "" false None.

Lemma unsubscribe_suppresses_witness :
  ct_status (run_events native_contact
    [(EV_REPLY_RECEIVED, 1); (infer_event_from_semantic_intent opt_out_reply, 2)]) = CS_SUPPRESSED.
Proof.
  apply (unsubscribe_suppresses native_contact opt_out_reply 1 2). apply list_elem_of_In. cbn. tauto.
Defined.
