(* ===== verification/Guardrails.v ===== *)
(** * Guardrails of automatic replies ([src/mailer_agent/policy/guardrails.py])

    The planner's proposal ([policy/next_action.py]) and the deterministic
    decision whether it may be sent without a person. *)

From Stdlib Require Import QArith.
From S2P Require Import Prelude SemanticModels.

#[local] Open Scope bool_scope.

Inductive ActionType :=
  | ACKNOWLEDGE | ANSWER | CLARIFY | ASK_TARGETED_QUESTION | ADDRESS_OBJECTION
  | PROVIDE_REQUESTED_INFORMATION | PROPOSE_NEXT_STEP | REQUEST_MISSING_INFORMATION
  | DEFER | AT_NURTURE | ESCALATE.
#[global] Instance ActionType_eq_dec : EqDecision ActionType.
Proof. solve_decision. Defined.
Definition ActionType_value (a : ActionType) : string :=
  match a with
  | ACKNOWLEDGE => "acknowledge" | ANSWER => "answer" | CLARIFY => "clarify"
  | ASK_TARGETED_QUESTION => "ask_targeted_question" | ADDRESS_OBJECTION => "address_objection"
  | PROVIDE_REQUESTED_INFORMATION => "provide_requested_information"
  | PROPOSE_NEXT_STEP => "propose_next_step"
  | REQUEST_MISSING_INFORMATION => "request_missing_information"
  | DEFER => "defer" | AT_NURTURE => "nurture" | ESCALATE => "escalate"
  end.

Record NextActionProposal := mkProposal {
  np_action_type : ActionType;
  np_objective : string;
  np_reason : string;
  np_required_information : list string;
  np_confidence : Q;
  np_requires_human_review : bool;
  np_review_reason : option string;
  np_source : string;
  np_model_used : option string;
  np_used_fallback : option bool;
  np_response_mode : option string
}.

Definition FALLBACK_PROPOSAL : NextActionProposal :=
  mkProposal ESCALATE "Have a human review this reply and decide the right response."
    "Planner LLM unavailable -- no safe automated plan." [] 0%Q true (Some "Planner unavailable")
    "fallback" None None None.

Definition NEVER_AUTO_SEND_ACTIONS : list ActionType := [ESCALATE; ADDRESS_OBJECTION].

(** The double nearest to 0.6. *)
Definition MIN_AUTO_SEND_CONFIDENCE : Q := 5404319552844595 # 9007199254740992.

Record AuthorizedAction := mkAuthorized {
  au_proposal : NextActionProposal;
  au_can_auto_send : bool;
  au_review_reason : option string;
  au_draft_action_type : string
}.

(** [f"{x:.2f}"]: the exact value rounded half to even at two decimals. *)
Definition round_half_even (n : Z) (d : positive) : Z :=
  let q := (n / Zpos d)%Z in
  let r := (n mod Zpos d)%Z in
  if (2 * r <? Zpos d)%Z then q
  else if (Zpos d <? 2 * r)%Z then (q + 1)%Z
  else if Z.even q then q else (q + 1)%Z.
Definition format_2f (x : Q) : string :=
  let c := round_half_even (100 * Z.abs (Qnum x)) (Qden x) in
  (if (Qnum x <? 0)%Z then "-" else "")
  +:+ pretty (c / 100)%Z +:+ "." +:+ Clock.pad 2 (c mod 100)%Z.

Example format_2f_samples :
  format_2f (1 # 2) = "0.50" ∧ format_2f MIN_AUTO_SEND_CONFIDENCE = "0.60" ∧ format_2f (1 # 1) = "1.00".
Proof. vm_compute. done. Qed.

(** [if b: reasons.append(text)]. *)
Definition reason_if (b : bool) (text : string) : list string := if b then [text] else [].

Definition Qlt_bool (x y : Q) : bool := negb (Qle_bool y x).

Definition review_reasons (proposal : NextActionProposal) (intent : SemanticIntent)
    (auto_reply_enabled : bool) : list string :=
  reason_if (negb auto_reply_enabled) "AUTO_REPLY_ENABLED is false"
  ++ reason_if (Qlt_bool (si_confidence intent) MIN_AUTO_SEND_CONFIDENCE)
       ("Classifier confidence too low (" +:+ format_2f (si_confidence intent) +:+ ")")
  ++ reason_if (si_requires_human_review intent)
       (py_or (si_human_review_reason intent) "Semantic analysis requires human review")
  ++ reason_if (Qlt_bool (np_confidence proposal) MIN_AUTO_SEND_CONFIDENCE)
       ("Planner confidence too low (" +:+ format_2f (np_confidence proposal) +:+ ")")
  ++ reason_if (np_requires_human_review proposal)
       (py_or (np_review_reason proposal) "Planner requires human review")
  ++ reason_if (in_list (np_action_type proposal) NEVER_AUTO_SEND_ACTIONS)
       ("Action type " +:+ ActionType_value (np_action_type proposal) +:+ " always requires human review")
  ++ reason_if ((np_action_type proposal == PROVIDE_REQUESTED_INFORMATION)
                && si_has_pricing_question intent)
       "Pricing questions are never auto-answered without human review".

Definition authorize_action (proposal : NextActionProposal) (intent : SemanticIntent)
    (auto_reply_enabled : bool) : AuthorizedAction :=
  let reasons := review_reasons proposal intent auto_reply_enabled in
  mkAuthorized proposal
    (match reasons with [] => true | _ => false end)
    (match reasons with [] => None | _ => Some (Str.join "; " reasons) end)
    (if np_action_type proposal == PROPOSE_NEXT_STEP then "closing" else "reply").

(** ** Theorems *)

Lemma reason_if_nil b t : reason_if b t = [] ↔ b = false.
Proof. by destruct b. Qed.

(** An automatic reply needs every condition at once.  A proposal may be sent
    without a person exactly when automatic replies are on, both the
    classifier and the planner are confident and ask for no review, the
    action is neither an escalation nor an objection, and it does not answer
    a pricing question; otherwise a reason is always given. *)
Theorem auto_send_requires_all_conditions proposal intent auto_reply_enabled :
  let a := authorize_action proposal intent auto_reply_enabled in
  (au_can_auto_send a = true ↔
     auto_reply_enabled = true ∧
     (MIN_AUTO_SEND_CONFIDENCE <= si_confidence intent)%Q ∧ si_requires_human_review intent = false ∧
     (MIN_AUTO_SEND_CONFIDENCE <= np_confidence proposal)%Q ∧ np_requires_human_review proposal = false ∧
     np_action_type proposal ≠ ESCALATE ∧ np_action_type proposal ≠ ADDRESS_OBJECTION ∧
     (np_action_type proposal = PROVIDE_REQUESTED_INFORMATION → si_has_pricing_question intent = false)) ∧
  (au_can_auto_send a = false ↔ is_Some (au_review_reason a)) ∧
  au_proposal a = proposal.
Proof.
  cbn zeta. unfold authorize_action; cbn. set (rs := review_reasons _ _ _).
  assert (rs = [] ↔ auto_reply_enabled = true ∧
     (MIN_AUTO_SEND_CONFIDENCE <= si_confidence intent)%Q ∧ si_requires_human_review intent = false ∧
     (MIN_AUTO_SEND_CONFIDENCE <= np_confidence proposal)%Q ∧ np_requires_human_review proposal = false ∧
     np_action_type proposal ≠ ESCALATE ∧ np_action_type proposal ≠ ADDRESS_OBJECTION ∧
     (np_action_type proposal = PROVIDE_REQUESTED_INFORMATION → si_has_pricing_question intent = false))
    as Hrs.
  { unfold rs, review_reasons, Qlt_bool. rewrite !app_nil, !reason_if_nil, !negb_false_iff.
    rewrite !Qle_bool_iff. unfold in_list, NEVER_AUTO_SEND_ACTIONS.
    rewrite bool_decide_eq_false, !not_elem_of_cons, andb_false_iff, bool_decide_eq_false.
    pose proof (not_elem_of_nil (np_action_type proposal)).
    destruct (si_has_pricing_question intent); naive_solver. }
  split_and!; [rewrite <- Hrs; by destruct rs|by destruct rs; cbn; split; intros H; try done; by destruct H|done].
Qed.

(** An unavailable planner is never acted upon: its fallback proposal is
    held for review whatever the interpretation and the settings are. *)
Theorem fallback_is_always_reviewed intent auto_reply_enabled :
  au_can_auto_send (authorize_action FALLBACK_PROPOSAL intent auto_reply_enabled) = false.
Proof.
  unfold authorize_action. cbn -[review_reasons].
  destruct (review_reasons FALLBACK_PROPOSAL intent auto_reply_enabled) eqn:E; [|done].
  exfalso. revert E. unfold review_reasons. rewrite !app_nil, !reason_if_nil. cbn.
  intros. by destruct_and!.
Qed.
