(* ===== verification/WorkClaiming.v ===== *)
(** * Work claiming ([src/mailer_agent/followup/work_claiming.py])

    Lease-based claiming of contacts and of external dispatches.  Each
    function maps the database before a transaction's statements to the
    database after them; none commits.  [Session] says which engine runs and
    which rows another open transaction has locked (PostgreSQL's SKIP LOCKED
    passes over them).  [utcnow] is the instant [_utcnow()] returns during the
    call; the clock readings of one call are taken as one instant. *)

From S2P Require Import Prelude Sql Models Config Samples.

Record Session := mkSession {
  is_postgres : bool;
  locked : Z → bool
}.

(** ** Leases and clocks *)

Definition default_claim_lease_seconds : Z := 300.

Definition lease_cutoff (claim_lease_seconds utcnow : Z) : Z :=
  utcnow - seconds claim_lease_seconds.

(** [_naive_utc]: an aware datetime is converted to UTC and stripped, a naive
    one is kept; without an argument the current time is used. *)
Definition naive_utc (dt : option datetime) (utcnow : Z) : Z :=
  match dt with
  | None => utcnow
  | Some (Naive t) => t
  | Some (Aware t _) => t
  end.

(** [column < cutoff] in SQL: NULL compares as false. *)
Definition opt_lt (c : option Z) (cutoff : Z) : bool :=
  match c with None => false | Some t => t <? cutoff end.
Definition opt_ge (c : option Z) (cutoff : Z) : bool :=
  match c with None => false | Some t => cutoff <=? t end.
Definition opt_le (c : option Z) (now : Z) : bool :=
  match c with None => false | Some t => t <=? now end.

(** ** Contact claims *)

Definition unclaimed_or_expired (cutoff : Z) (c : Contact) : bool :=
  is_none (ct_claimed_by c) || opt_lt (ct_claimed_at c) cutoff.

(** The WHERE clause shared by both engines' candidate queries. *)
Definition contact_due (db : Db) (status : ContactStatus) (now cutoff : Z) (c : Contact) : bool :=
  (ct_status c == status)
  && is_not_none (ct_next_action_at c)
  && opt_le (ct_next_action_at c) now
  && unclaimed_or_expired cutoff c
  && negb (existsb (λ cm, (cp_id cm == ct_campaign_id c)
                          && is_not_none (cp_integration_source cm))
                   (rows (campaigns db))).

Definition claim_contact (worker_id : string) (now : Z) (c : Contact) : Contact :=
  set_ct_updated_at now (set_ct_claimed_at (Some now) (set_ct_claimed_by (Some worker_id) c)).

(** [ORDER BY next_action_at]: NULLs do not occur among due contacts. *)
Definition next_action_le (a b : Contact) : Prop :=
  default 0 (ct_next_action_at a) ≤ default 0 (ct_next_action_at b).
#[global] Instance next_action_le_dec : RelDecision next_action_le.
Proof. intros a b. unfold next_action_le. apply _. Defined.
#[global] Instance next_action_le_total : Total next_action_le.
Proof. intros a b. unfold next_action_le. lia. Qed.

(** The candidates in order; [limit] is a count (no caller passes a negative one). *)
Definition due_contacts (skip : Z → bool) (db : Db) (status : ContactStatus)
    (limit now cutoff : Z) : list Contact :=
  take (Z.to_nat limit)
    (merge_sort next_action_le
       (select (λ c, contact_due db status now cutoff c && negb (skip (ct_id c)))
          (contacts db))).

(** One UPDATE ... WHERE id IN (SELECT ... FOR UPDATE SKIP LOCKED) RETURNING id. *)
Definition claim_postgres (s : Session) (worker_id : string) (status : ContactStatus)
    (limit now cutoff : Z) (db : Db) : Db * list Z :=
  let chosen := map ct_id (due_contacts (locked s) db status limit now cutoff) in
  let hit := λ c, in_list (ct_id c) chosen in
  (set_contacts (fst (update_where hit (claim_contact worker_id now) (contacts db))) db,
   map ct_id (select hit (contacts db))).

Definition claim_one_sqlite (worker_id : string) (now cutoff cid : Z) (db : Db) : Db * bool :=
  let '(t, n) := update_pk cid (unclaimed_or_expired cutoff) (claim_contact worker_id now)
                   (contacts db) in
  (set_contacts t db, Nat.eqb n 1).

Fixpoint claim_each_sqlite (worker_id : string) (now cutoff : Z) (cids : list Z) (db : Db)
    : Db * list Z :=
  match cids with
  | [] => (db, [])
  | cid :: rest =>
      let '(db1, ok) := claim_one_sqlite worker_id now cutoff cid db in
      let '(db2, claimed) := claim_each_sqlite worker_id now cutoff rest db1 in
      (db2, if ok then cid :: claimed else claimed)
  end.

Definition claim_sqlite (worker_id : string) (status : ContactStatus)
    (limit now cutoff : Z) (db : Db) : Db * list Z :=
  let candidates := map ct_id (due_contacts (λ _, false) db status limit now cutoff) in
  claim_each_sqlite worker_id now cutoff candidates db.

(** [limit or settings.max_sends_per_cycle]: [None] and [0] are both falsy. *)
Definition effective_limit (settings : Settings) (limit : option Z) : Z :=
  match limit with
  | None => max_sends_per_cycle settings
  | Some n => if n =? 0 then max_sends_per_cycle settings else n
  end.

Definition claim_due_contacts (s : Session) (settings : Settings) (claim_lease_seconds : Z)
    (worker_id : string) (status : ContactStatus) (limit : option Z) (utcnow : Z) (db : Db)
    : Db * list Contact :=
  let cutoff := lease_cutoff claim_lease_seconds utcnow in
  let n := effective_limit settings limit in
  let '(db', ids) :=
    if is_postgres s then claim_postgres s worker_id status n utcnow cutoff db
    else claim_sqlite worker_id status n utcnow cutoff db in
  match ids with
  | [] => (db', [])
  | _ => (db', select (λ c, in_list (ct_id c) ids) (contacts db'))
  end.

(** Clearing a claim; the column's [onupdate] moves [updated_at]. *)
Definition clear_contact_claim (utcnow : Z) (c : Contact) : Contact :=
  set_ct_updated_at utcnow (set_ct_claimed_at None (set_ct_claimed_by None c)).

(** The ORM writes a row only when an attribute changed. *)
Definition release_claim (contact_id utcnow : Z) (db : Db) : Db :=
  set_contacts
    (fst (update_pk contact_id
            (λ c, is_not_none (ct_claimed_by c) || is_not_none (ct_claimed_at c))
            (clear_contact_claim utcnow) (contacts db))) db.

Definition release_all_claims (worker_id : string) (utcnow : Z) (db : Db) : Db * nat :=
  let '(t, n) := update_where (λ c, ct_claimed_by c == Some worker_id)
                   (clear_contact_claim utcnow) (contacts db) in
  (set_contacts t db, n).

Definition contact_claim_expired (cutoff : Z) (c : Contact) : bool :=
  is_not_none (ct_claimed_by c) && opt_lt (ct_claimed_at c) cutoff.

Definition recover_expired_claims (dry_run : bool) (claim_lease_seconds utcnow : Z) (db : Db)
    : Db * nat :=
  let cutoff := lease_cutoff claim_lease_seconds utcnow in
  match select (contact_claim_expired cutoff) (contacts db) with
  | [] => (db, O)
  | stale =>
      (if dry_run then db
       else set_contacts (fst (update_where (contact_claim_expired cutoff)
                                 (clear_contact_claim utcnow) (contacts db))) db,
       length stale)
  end.

Definition get_active_claims (claim_lease_seconds utcnow : Z) (db : Db) : list Contact :=
  let cutoff := lease_cutoff claim_lease_seconds utcnow in
  select (λ c, is_not_none (ct_claimed_by c) && opt_ge (ct_claimed_at c) cutoff) (contacts db).

(** ** External dispatch claims *)

Record ClaimedDispatch := mkClaim {
  cl_dispatch_id : Z;
  cl_organization_id : string;
  cl_worker_id : string;
  cl_claimed_at : Z
}.
#[global] Instance ClaimedDispatch_eq_dec : EqDecision ClaimedDispatch.
Proof. solve_decision. Defined.

Record RecoveredDispatch := mkRecovered {
  rd_dispatch_id : Z;
  rd_organization_id : string;
  rd_external_action_id : option string;
  rd_correlation_id : option string;
  rd_public_reference : string;
  rd_previous_worker : option string;
  rd_previous_claimed_at : option Z
}.

(** [.values(state=..., claimed_by=..., claimed_at=..., updated_at=...)]. *)
Definition mark_claimed (st : ExternalDispatchState) (worker_id : string) (claimed_at utcnow : Z)
    (d : ExternalDispatch) : ExternalDispatch :=
  set_ed_updated_at utcnow (set_ed_claimed_at (Some claimed_at)
    (set_ed_claimed_by (Some worker_id) (set_ed_state st d))).

(** [.values(state=..., claimed_by=None, claimed_at=None, updated_at=...)]. *)
Definition mark_released (st : ExternalDispatchState) (utcnow : Z)
    (d : ExternalDispatch) : ExternalDispatch :=
  set_ed_updated_at utcnow (set_ed_claimed_at None (set_ed_claimed_by None (set_ed_state st d))).

Definition claimable_send (d : ExternalDispatch) : bool :=
  (ed_state d == QUEUED) && is_not_none (ed_message_id d).
Definition claimable_generation (d : ExternalDispatch) : bool :=
  (ed_state d == QUEUED) && is_none (ed_message_id d).

(** [db.execute(update(ExternalDispatch).where(id == i, p).values(f))] together
    with the test [result.rowcount == 1]. *)
Definition exec_update (i : Z) (p : ExternalDispatch → bool)
    (f : ExternalDispatch → ExternalDispatch) (db : Db) : Db * bool :=
  let '(t, n) := update_pk i p f (dispatches db) in (set_dispatches t db, Nat.eqb n 1).

(** The guarded UPDATE of one candidate. *)
Definition guarded_claim (claimable : ExternalDispatch → bool) (st : ExternalDispatchState)
    (worker_id : string) (claimed_at utcnow : Z) (dispatch_id : Z) (db : Db) : Db * bool :=
  exec_update dispatch_id claimable (mark_claimed st worker_id claimed_at utcnow) db.

(** [next((c for c in candidates if _guarded_claim(c.id)), None)]. *)
Fixpoint first_claimed (claim : Z → Db → Db * bool) (candidates : list ExternalDispatch) (db : Db)
    : Db * option ExternalDispatch :=
  match candidates with
  | [] => (db, None)
  | c :: rest =>
      let '(db', ok) := claim (ed_id c) db in
      if ok then (db', Some c) else first_claimed claim rest db'
  end.

(** The body the two claim functions share: candidates in id order, the first
    unlocked one on PostgreSQL, up to ten guarded attempts on SQLite. *)
Definition claim_next (claimable : ExternalDispatch → bool) (st : ExternalDispatchState)
    (s : Session) (worker_id : string) (now : option datetime) (utcnow : Z) (db : Db)
    : Db * option ClaimedDispatch :=
  let claimed_at := naive_utc now utcnow in
  let claim := guarded_claim claimable st worker_id claimed_at utcnow in
  let '(db', chosen) :=
    if is_postgres s then
      match select_first (λ d, claimable d && negb (locked s (ed_id d))) (dispatches db) with
      | None => (db, None)
      | Some row =>
          let '(db1, ok) := claim (ed_id row) db in
          if ok then (db1, Some row) else (db1, None)
      end
    else first_claimed claim (take 10 (select claimable (dispatches db))) db in
  (db', (λ c, mkClaim (ed_id c) (ed_organization_id c) worker_id claimed_at) <$> chosen).

Definition claim_next_external_dispatch := claim_next claimable_send SENDING.
Definition claim_next_generation_dispatch := claim_next claimable_generation GENERATING.

(** [state = SENDING AND (claimed_at IS NULL OR claimed_at < cutoff)]. *)
Definition sending_expired (cutoff : Z) (d : ExternalDispatch) : bool :=
  (ed_state d == SENDING) && (is_none (ed_claimed_at d) || opt_lt (ed_claimed_at d) cutoff).

Definition lease_expired_reason (row : ExternalDispatch) (lease : Z) : string :=
  "lease_expired: dispatch was SENDING and its claim (worker="
  +:+ Str.of_opt (ed_claimed_by row) +:+ ", claimed_at="
  +:+ Clock.str_opt_naive (ed_claimed_at row) +:+ ") expired after "
  +:+ pretty lease +:+ "s. Whether SMTP accepted the message is unknown; "
  +:+ "it will NOT be retried automatically.".

Definition to_unknown (reason : string) (utcnow : Z) (d : ExternalDispatch) : ExternalDispatch :=
  set_ed_error_message (Some reason) (mark_released UNKNOWN utcnow d).

Definition message_to_unknown (reason : string) (m : Message) : Message :=
  set_msg_error_message (Some reason) (set_msg_status MS_UNKNOWN m).

Definition pre_outcome (m : Message) : bool :=
  (msg_status m == MS_SENDING) || (msg_status m == MS_DRAFT).

(** [Message.id == pk] with a nullable key: NULL matches no row. *)
Definition update_message (pk : option Z) (p : Message → bool) (f : Message → Message) (db : Db) : Db :=
  match pk with
  | None => db
  | Some i => set_messages (fst (update_pk i p f (messages db))) db
  end.

(** One iteration of the sweep's loop: guarded UPDATE, then the message. *)
Definition recover_one (lease cutoff utcnow : Z) (row : ExternalDispatch) (db : Db)
    : Db * option RecoveredDispatch :=
  let reason := lease_expired_reason row lease in
  let '(db1, ok) := exec_update (ed_id row) (sending_expired cutoff) (to_unknown reason utcnow) db in
  if negb ok then (db1, None)
  else
    (update_message (ed_message_id row) pre_outcome (message_to_unknown reason) db1,
     Some (mkRecovered (ed_id row) (ed_organization_id row) (ed_external_action_id row)
             (ed_correlation_id row) (ed_public_reference row)
             (ed_claimed_by row) (ed_claimed_at row))).

Fixpoint recover_rows (lease cutoff utcnow : Z) (batch : list ExternalDispatch) (db : Db)
    : Db * list RecoveredDispatch :=
  match batch with
  | [] => (db, [])
  | row :: rest =>
      let '(db1, r) := recover_one lease cutoff utcnow row db in
      let '(db2, rs) := recover_rows lease cutoff utcnow rest db1 in
      (db2, option_list r ++ rs)
  end.

(** Rows a sweep reads: expired, unlocked on PostgreSQL, in id order, limited. *)
Definition sweep_batch (s : Session) (expired : ExternalDispatch → bool) (limit : nat) (db : Db)
    : list ExternalDispatch :=
  take limit (select (λ d, expired d && negb (is_postgres s && locked s (ed_id d))) (dispatches db)).

Definition recover_expired_external_dispatches (s : Session) (settings : Settings)
    (now : option datetime) (lease_seconds : option Z) (limit : nat) (utcnow : Z) (db : Db)
    : Db * list RecoveredDispatch :=
  let lease := default (external_dispatch_lease_seconds settings) lease_seconds in
  let cutoff := naive_utc now utcnow - seconds lease in
  recover_rows lease cutoff utcnow (sweep_batch s (sending_expired cutoff) limit db) db.

(** The fence of an outcome write. *)
Definition owns (st : ExternalDispatchState) (claim : ClaimedDispatch) (d : ExternalDispatch) : bool :=
  (ed_organization_id d == cl_organization_id claim)
  && (ed_state d == st)
  && (ed_claimed_by d == Some (cl_worker_id claim))
  && (ed_claimed_at d == Some (cl_claimed_at claim)).

(** The row an outcome write leaves behind. *)
Definition finished (st : ExternalDispatchState) (e : option string) (utcnow : Z)
    (d : ExternalDispatch) : ExternalDispatch :=
  set_ed_error_message e (mark_released st utcnow d).

(** [MessageStatus(new_state.value)] for the three outcomes. *)
Definition message_status_of (st : ExternalDispatchState) : option MessageStatus :=
  match st with
  | SENT => Some MS_SENT
  | FAILED => Some MS_FAILED
  | UNKNOWN => Some MS_UNKNOWN
  | _ => None
  end.

(** [repr] of the enumeration member. *)
Definition ExternalDispatchState_repr (st : ExternalDispatchState) : string :=
  "<ExternalDispatchState."
  +:+ match st with
      | QUEUED => "QUEUED" | GENERATING => "GENERATING" | SENDING => "SENDING"
      | SENT => "SENT" | FAILED => "FAILED" | UNKNOWN => "UNKNOWN"
      end
  +:+ ": '" +:+ ExternalDispatchState_value st +:+ "'>".

Inductive value_error := ValueError (message : string).

Definition finish_external_dispatch (claim : ClaimedDispatch) (new_state : ExternalDispatchState)
    (error_message : option string) (utcnow : Z) (db : Db) : result value_error (Db * bool) :=
  match message_status_of new_state with
  | None => Err (ValueError ("finish_external_dispatch cannot move to "
                             +:+ ExternalDispatchState_repr new_state))
  | Some ms =>
      let '(db1, ok) := exec_update (cl_dispatch_id claim) (owns SENDING claim)
                          (finished new_state error_message utcnow) db in
      if negb ok then Ok (db1, false)
      else
        let message_pk := get (cl_dispatch_id claim) (dispatches db1) ≫= ed_message_id in
        Ok (update_message message_pk (λ _, true)
              (λ m, set_msg_error_message error_message (set_msg_status ms m)) db1, true)
  end.

(** [_generation_fence]. *)
Definition generation_fence (claim : ClaimedDispatch) (d : ExternalDispatch) : bool :=
  owns GENERATING claim d && is_none (ed_message_id d).

Definition complete_generation (claim : ClaimedDispatch) (message_id utcnow : Z) (db : Db) : Db * bool :=
  exec_update (cl_dispatch_id claim) (generation_fence claim)
    (λ d, set_ed_message_id (Some message_id) (mark_released QUEUED utcnow d)) db.

Definition fail_generation (claim : ClaimedDispatch) (error_message : string) (utcnow : Z) (db : Db)
    : Db * bool :=
  exec_update (cl_dispatch_id claim) (generation_fence claim)
    (finished FAILED (Some error_message) utcnow) db.

Definition generation_expired (cutoff : Z) (d : ExternalDispatch) : bool :=
  (ed_state d == GENERATING) && is_none (ed_message_id d)
  && (is_none (ed_claimed_at d) || opt_lt (ed_claimed_at d) cutoff).

Fixpoint requeue_rows (cutoff utcnow : Z) (batch : list ExternalDispatch) (db : Db) : Db * list Z :=
  match batch with
  | [] => (db, [])
  | row :: rest =>
      let '(db1, ok) := exec_update (ed_id row) (generation_expired cutoff)
                          (mark_released QUEUED utcnow) db in
      let '(db2, ids) := requeue_rows cutoff utcnow rest db1 in
      (db2, if ok then ed_id row :: ids else ids)
  end.

Definition recover_expired_generations (s : Session) (settings : Settings)
    (now : option datetime) (lease_seconds : option Z) (limit : nat) (utcnow : Z) (db : Db)
    : Db * list Z :=
  let lease := default (external_dispatch_generation_lease_seconds settings) lease_seconds in
  let cutoff := naive_utc now utcnow - seconds lease in
  requeue_rows cutoff utcnow (sweep_batch s (generation_expired cutoff) limit db) db.

Definition annotated (note : string) (utcnow : Z) (d : ExternalDispatch) : ExternalDispatch :=
  set_ed_updated_at utcnow
    (set_ed_error_message (Some (default "" (ed_error_message d) +:+ " | " +:+ note)) d).

(** [coalesce(error_message, '') || ' | ' || note] on UNKNOWN rows only.
    [updated_at] has [onupdate=utcnow], so it moves as well. *)
Definition annotate_unknown_dispatch (dispatch_id : Z) (organization_id note : string) (utcnow : Z)
    (db : Db) : Db * bool :=
  exec_update dispatch_id
    (λ d, (ed_organization_id d == organization_id) && (ed_state d == UNKNOWN))
    (annotated note utcnow) db.

(** The process environment [make_worker_id] reads. *)
Record ProcessEnv := mkProcessEnv {
  env_WORKER_ID : string;
  hostname : option string;      (* [None]: [gethostname] raised *)
  pid : Z;
  process_instance : string
}.

Definition make_worker_id (env : ProcessEnv) (prefix : string) : string :=
  if env_WORKER_ID env == "" then
    prefix +:+ "-" +:+ default "unknown" (hostname env) +:+ "-"
    +:+ pretty (pid env) +:+ "-" +:+ process_instance env
  else env_WORKER_ID env.

(** ** Lemmas: dispatch claims *)

Lemma set_dispatches_id db : set_dispatches (dispatches db) db = db.
Proof. by destruct db. Qed.
Lemma set_messages_id db : set_messages (messages db) db = db.
Proof. by destruct db. Qed.
Lemma set_contacts_id db : set_contacts (contacts db) db = db.
Proof. by destruct db. Qed.

Lemma mark_claimed_id st w t u d : row_id (mark_claimed st w t u d) = row_id d.
Proof. done. Qed.
Lemma mark_released_id st u d : row_id (mark_released st u d) = row_id d.
Proof. done. Qed.
#[export] Hint Resolve mark_claimed_id mark_released_id : mail.

(** The two outcomes of a guarded UPDATE: it changes exactly the named row, or
    it leaves the database as it is. *)
Lemma exec_update_inv i p f db db' ok :
  (∀ d, row_id (f d) = row_id d) → table_wf (dispatches db) →
  exec_update i p f db = (db', ok) →
  (ok = true ∧ table_wf (dispatches db') ∧ db' = set_dispatches (dispatches db') db ∧
     ∃ d, get i (dispatches db) = Some d ∧ p d = true ∧ get i (dispatches db') = Some (f d) ∧
          ∀ j, j ≠ i → get j (dispatches db') = get j (dispatches db))
  ∨ (ok = false ∧ db' = db ∧ ∀ d, get i (dispatches db) = Some d → p d = false).
Proof.
  intros Hid Hwf. unfold exec_update. destruct (update_pk _ _ _ _) as [t n] eqn:E.
  apply update_pk_inv in E as [(-> & Hwf' & _ & d & Hg & Hp & Hg' & Hne)|(-> & -> & Hno)];
    [| |done|done]; cbn; intros [= <- <-].
  - left. cbn. split_and!; eauto 10.
  - right. split_and!; [done|by destruct db|done].
Qed.

(** The guard of an existing row decides the outcome. *)
Lemma exec_update_hit i p f db d :
  table_wf (dispatches db) → get i (dispatches db) = Some d → p d = true →
  exec_update i p f db = (set_dispatches (fst (update_pk i p f (dispatches db))) db, true).
Proof.
  intros Hwf Hg Hp. unfold exec_update. destruct (update_pk _ _ _ _) as [t n] eqn:E. cbn.
  assert (n = 1%nat) as ->; [|done].
  pose proof (update_pk_count_1 i p f _ Hwf) as Hn. rewrite E in Hn. apply Hn. eauto.
Qed.

(** A candidate the query returned is claimed by its guarded UPDATE. *)
Lemma guarded_claim_candidate cl st w t u d db :
  table_wf (dispatches db) → In d (rows (dispatches db)) → cl d = true →
  guarded_claim cl st w t u (ed_id d) db =
    (set_dispatches (fst (update_pk (ed_id d) cl (mark_claimed st w t u) (dispatches db))) db, true).
Proof.
  intros Hwf Hin Hc. apply (exec_update_hit _ _ _ _ d); [done| |done].
  by apply (get_complete _ d).
Qed.

(** What both engines' branches compute: the first claimable row that is not
    locked by another PostgreSQL transaction. *)
Definition claim_target (cl : ExternalDispatch → bool) (s : Session) (db : Db)
    : option ExternalDispatch :=
  select_first (λ d, cl d && negb (is_postgres s && locked s (ed_id d))) (dispatches db).

Lemma claim_next_eq cl st s w now u db :
  table_wf (dispatches db) →
  claim_next cl st s w now u db =
    match claim_target cl s db with
    | None => (db, None)
    | Some d =>
        (set_dispatches (fst (update_pk (ed_id d) cl (mark_claimed st w (naive_utc now u) u)
                                (dispatches db))) db,
         Some (mkClaim (ed_id d) (ed_organization_id d) w (naive_utc now u)))
    end.
Proof.
  intros Hwf. unfold claim_next, claim_target. destruct (is_postgres s).
  - cbn [andb]. destruct (select_first _ _) as [d|] eqn:E; [|done].
    apply select_first_Some in E as [Hin Hd]. bools.
    by rewrite guarded_claim_candidate.
  - assert (select_first (λ d, cl d && negb (false && locked s (ed_id d))) (dispatches db)
            = select_first cl (dispatches db)) as ->.
    { apply find_ext_in. intros d _. cbn. by rewrite andb_true_r. }
    rewrite <- select_hd. destruct (select cl (dispatches db)) as [|d l] eqn:E; [done|].
    assert (In d (rows (dispatches db)) ∧ cl d = true) as [Hin Hd]
      by (apply select_In; rewrite E; by left).
    cbn [take first_claimed hd_error]. by rewrite guarded_claim_candidate.
Qed.

Lemma claim_target_Some cl s db d :
  claim_target cl s db = Some d →
  In d (rows (dispatches db)) ∧ cl d = true ∧ (is_postgres s && locked s (ed_id d)) = false.
Proof. intros [Hin Hd]%select_first_Some. bools. done. Qed.

Lemma claim_next_Some cl st s w now u db db' c :
  table_wf (dispatches db) → claim_next cl st s w now u db = (db', Some c) →
  ∃ d, claim_target cl s db = Some d ∧
       get (ed_id d) (dispatches db) = Some d ∧ cl d = true ∧
       c = mkClaim (ed_id d) (ed_organization_id d) w (naive_utc now u) ∧
       db' = set_dispatches (fst (update_pk (ed_id d) cl (mark_claimed st w (naive_utc now u) u)
                                    (dispatches db))) db.
Proof.
  intros Hwf. rewrite claim_next_eq by done.
  destruct (claim_target cl s db) as [d|] eqn:E; [|done]. intros [= <- <-].
  exists d. pose proof (claim_target_Some _ _ _ _ E) as (Hin & Hd & _).
  split_and!; try done. by apply (get_complete _ d).
Qed.

(** Effect of a successful claim, row by row. *)
Lemma claim_next_effect cl st s w now u db db' c :
  table_wf (dispatches db) → claim_next cl st s w now u db = (db', Some c) →
  ∃ d, get (cl_dispatch_id c) (dispatches db) = Some d ∧ cl d = true ∧
       cl_organization_id c = ed_organization_id d ∧
       cl_worker_id c = w ∧ cl_claimed_at c = naive_utc now u ∧
       get (cl_dispatch_id c) (dispatches db') = Some (mark_claimed st w (naive_utc now u) u d) ∧
       (∀ j, j ≠ cl_dispatch_id c → get j (dispatches db') = get j (dispatches db)) ∧
       table_wf (dispatches db') ∧
       db' = set_dispatches (dispatches db') db.
Proof.
  intros Hwf (d & _ & Hg & Hd & -> & ->)%claim_next_Some; [|done].
  exists d. cbn [cl_dispatch_id cl_organization_id cl_worker_id cl_claimed_at].
  split_and!; try done.
  - by apply update_pk_get_eq.
  - intros j Hj. by apply update_pk_get_ne.
  - by apply update_pk_wf.
Qed.

Lemma claim_next_None cl st s w now u db db' :
  table_wf (dispatches db) → claim_next cl st s w now u db = (db', None) →
  db' = db ∧ ∀ d, In d (rows (dispatches db)) → cl d = true →
                  is_postgres s = true ∧ locked s (ed_id d) = true.
Proof.
  intros Hwf. rewrite claim_next_eq by done.
  destruct (claim_target cl s db) as [d|] eqn:E; [done|]. intros [= <-].
  split; [done|]. intros d Hin Hd.
  pose proof (proj1 (select_first_None _ _) E d Hin) as Hn. cbn in Hn. rewrite Hd in Hn.
  cbn in Hn. by bools.
Qed.

(** ** Lemmas: fenced writes *)

(** The linked message of an outcome write. *)
Definition outcome_messages (pk : option Z) (ms : MessageStatus) (e : option string) (db : Db)
    : table Message :=
  messages (update_message pk (λ _, true) (λ m, set_msg_error_message e (set_msg_status ms m)) db).

Lemma update_message_frame pk p f db :
  update_message pk p f db = set_messages (messages (update_message pk p f db)) db.
Proof. destruct pk; cbn; by destruct db. Qed.

Lemma update_message_wf pk p f db :
  (∀ m, row_id (f m) = row_id m) → table_wf (messages db) →
  table_wf (messages (update_message pk p f db)).
Proof. intros Hid Hwf. destruct pk; cbn [update_message]; [|done]. by apply update_pk_wf. Qed.

Lemma update_message_get pk p f db j :
  (∀ m, row_id (f m) = row_id m) →
  get j (messages (update_message pk p f db)) =
    option_map (λ m, if bool_decide (pk = Some j) && p m then f m else m) (get j (messages db)).
Proof.
  intros Hid. destruct pk as [i|]; cbn [update_message messages set_messages].
  - rewrite update_pk_get by done. destruct (get j (messages db)) as [m|] eqn:E; [|done].
    apply get_Some in E as [_ Hj]. cbn. f_equal. rewrite Hj.
    destruct (j =? i) eqn:Ei; bools.
    + subst. by rewrite bool_decide_eq_true_2.
    + rewrite bool_decide_eq_false_2 by congruence. done.
  - by destruct (get j (messages db)).
Qed.

Lemma owns_spec st c d :
  owns st c d = true ↔
  ed_organization_id d = cl_organization_id c ∧ ed_state d = st ∧
  ed_claimed_by d = Some (cl_worker_id c) ∧ ed_claimed_at d = Some (cl_claimed_at c).
Proof. unfold owns. rewrite !andb_true_iff, !bool_decide_eq_true. naive_solver. Qed.

Lemma finish_Ok c st e u db db' won :
  table_wf (dispatches db) →
  finish_external_dispatch c st e u db = Ok (db', won) →
  ∃ ms, message_status_of st = Some ms ∧
  ((won = true ∧ ∃ d, get (cl_dispatch_id c) (dispatches db) = Some d ∧ owns SENDING c d = true ∧
      get (cl_dispatch_id c) (dispatches db') = Some (finished st e u d) ∧
      (∀ j, j ≠ cl_dispatch_id c → get j (dispatches db') = get j (dispatches db)) ∧
      table_wf (dispatches db') ∧
      messages db' = outcome_messages (ed_message_id d) ms e db ∧
      db' = set_messages (messages db') (set_dispatches (dispatches db') db))
   ∨ (won = false ∧ db' = db ∧
      ∀ d, get (cl_dispatch_id c) (dispatches db) = Some d → owns SENDING c d = false)).
Proof.
  intros Hwf. unfold finish_external_dispatch.
  destruct (message_status_of st) as [ms|]; [|done].
  destruct (exec_update _ _ _ _) as [db1 ok] eqn:E. intros Hf. exists ms. split; [done|].
  apply exec_update_inv in E as [(-> & Hwf' & Hdb & d & Hg & Ho & Hg' & Hne)|(-> & -> & Hno)];
    [| |done|done]; cbn in Hf; injection Hf as <- <-; [left|by right].
  split; [done|]. exists d. rewrite Hg'. unfold outcome_messages.
  change (Some (finished st e u d) ≫= ed_message_id) with (ed_message_id d).
  rewrite (update_message_frame _ _ _ db1).
  destruct (ed_message_id d); rewrite Hdb in *; cbn in *; by split_and!.
Qed.

Lemma finish_total c st e u db :
  is_Some (message_status_of st) → ∃ db' won, finish_external_dispatch c st e u db = Ok (db', won).
Proof.
  intros [ms E]. unfold finish_external_dispatch. rewrite E.
  destruct (exec_update _ _ _ _) as [db1 ok]. destruct ok; cbn; eauto.
Qed.

(** ** Lemmas: recovery sweeps *)

(** The rows of a batch are distinct, present and satisfy the sweep's predicate. *)
Definition batch_ok (expired : ExternalDispatch → bool) (batch : list ExternalDispatch) (db : Db) : Prop :=
  NoDup (map ed_id batch) ∧
  ∀ row, In row batch → get (ed_id row) (dispatches db) = Some row ∧ expired row = true.

Lemma sweep_batch_In s expired n db row :
  In row (sweep_batch s expired n db) →
  In row (rows (dispatches db)) ∧ expired row = true ∧
  (is_postgres s && locked s (ed_id row)) = false.
Proof.
  intros Hin. unfold sweep_batch in Hin.
  assert (In row (select (λ d, expired d && negb (is_postgres s && locked s (ed_id d)))
                    (dispatches db))) as [Hr Hp]%select_In.
  { rewrite <- (take_drop n). apply in_or_app. by left. }
  bools. done.
Qed.

Lemma sweep_batch_ok s expired n db :
  table_wf (dispatches db) → batch_ok expired (sweep_batch s expired n db) db.
Proof.
  intros Hwf. split.
  - unfold sweep_batch. rewrite <- firstn_map.
    eapply sublist_NoDup; [|apply sublist_take]. by apply select_NoDup_ids.
  - intros row (Hin & He & _)%sweep_batch_In. split; [|done]. by apply (get_complete _ row).
Qed.

Lemma batch_ok_cons expired row rest db :
  batch_ok expired (row :: rest) db →
  get (ed_id row) (dispatches db) = Some row ∧ expired row = true ∧
  (ed_id row ∉ map ed_id rest) ∧ batch_ok expired rest db.
Proof.
  intros [[Hn Hnd]%NoDup_cons Hall]. destruct (Hall row) as [Hg He]; [by left|].
  split_and!; try done. split; [done|]. intros r Hr. apply Hall. by right.
Qed.

(** Changing a row outside the batch keeps the batch valid. *)
Lemma batch_ok_frame expired batch db db' i :
  i ∉ map ed_id batch → (∀ j, j ≠ i → get j (dispatches db') = get j (dispatches db)) →
  batch_ok expired batch db → batch_ok expired batch db'.
Proof.
  intros Hi Hne [Hnd Hall]. split; [done|]. intros row Hr. destruct (Hall row Hr) as [Hg He].
  split; [|done]. rewrite Hne; [done|]. intros <-. apply Hi. apply list_elem_of_In, in_map, Hr.
Qed.

Definition recovered_of (row : ExternalDispatch) : RecoveredDispatch :=
  mkRecovered (ed_id row) (ed_organization_id row) (ed_external_action_id row)
    (ed_correlation_id row) (ed_public_reference row) (ed_claimed_by row) (ed_claimed_at row).

(** What the sweep does to a message: the first row of the batch that links it
    moves it to UNKNOWN, unless it already has an outcome. *)
Definition sweep_message (lease : Z) (batch : list ExternalDispatch) (j : Z) (m : Message) : Message :=
  match List.find (λ row, bool_decide (ed_message_id row = Some j)) batch with
  | Some row => if pre_outcome m then message_to_unknown (lease_expired_reason row lease) m else m
  | None => m
  end.

Lemma sweep_message_cons lease row rest j m :
  sweep_message lease rest j
    (if bool_decide (ed_message_id row = Some j) && pre_outcome m
     then message_to_unknown (lease_expired_reason row lease) m else m)
  = sweep_message lease (row :: rest) j m.
Proof.
  unfold sweep_message. cbn. destruct (bool_decide _); cbn; [|done].
  destruct (pre_outcome m) eqn:E; case_match; rewrite ?E; done.
Qed.

Lemma recover_rows_spec lease cutoff u batch : ∀ db db' rs,
  table_wf (dispatches db) → table_wf (messages db) →
  batch_ok (sending_expired cutoff) batch db →
  recover_rows lease cutoff u batch db = (db', rs) →
  rs = map recovered_of batch ∧
  table_wf (dispatches db') ∧ table_wf (messages db') ∧
  (∀ row, In row batch →
     get (ed_id row) (dispatches db') = Some (to_unknown (lease_expired_reason row lease) u row)) ∧
  (∀ j, j ∉ map ed_id batch → get j (dispatches db') = get j (dispatches db)) ∧
  (∀ j, get j (messages db') = sweep_message lease batch j <$> get j (messages db)) ∧
  db' = set_messages (messages db') (set_dispatches (dispatches db') db).
Proof.
  induction batch as [|row rest IH]; intros db db' rs Hd Hm Hb; cbn [recover_rows].
  { intros [= <- <-]. split_and!; try done; [|by destruct db].
    intros j. by destruct (get j (messages db)). }
  apply batch_ok_cons in Hb as (Hg & He & Hnin & Hb).
  unfold recover_one. destruct (exec_update _ _ _ _) as [db1 ok] eqn:E.
  apply exec_update_inv in E as [(-> & Hd1 & Hdb1 & d & Hg' & _ & Hg1 & Hne)|(-> & -> & Hno)];
    [| |done|done]; [|by rewrite (Hno _ Hg) in He].
  assert (d = row) as -> by congruence. cbn [negb].
  assert (messages db1 = messages db) as Hm1 by by rewrite Hdb1.
  set (db2 := update_message _ _ _ db1).
  assert (dispatches db2 = dispatches db1) as Hdd
    by (unfold db2; rewrite update_message_frame; done).
  destruct (recover_rows _ _ _ rest db2) as [db3 rs'] eqn:Er. intros [= <- <-].
  apply IH in Er as (-> & Hd3 & Hm3 & Hrow & Hoth & Hmsg & Hdb3).
  - split_and!; try done.
    + intros r [<-|Hr]; [|by apply Hrow]. by rewrite Hoth, Hdd by done.
    + intros j [Hj Hjr]%not_elem_of_cons. by rewrite Hoth, Hdd, Hne by done.
    + intros j. rewrite Hmsg. unfold db2. rewrite update_message_get by done. rewrite Hm1.
      destruct (get j (messages db)) as [m|]; [|done]. cbn. f_equal. apply sweep_message_cons.
    + rewrite Hdb3. unfold db2. rewrite update_message_frame, Hdb1. done.
  - by rewrite Hdd.
  - unfold db2. apply update_message_wf; [done|]. by rewrite Hm1.
  - apply (batch_ok_frame _ _ db1 db2 (ed_id row)); [done|by rewrite Hdd|].
    by apply (batch_ok_frame _ _ db db1 (ed_id row)).
Qed.

Lemma requeue_rows_spec cutoff u batch : ∀ db db' ids,
  table_wf (dispatches db) → batch_ok (generation_expired cutoff) batch db →
  requeue_rows cutoff u batch db = (db', ids) →
  ids = map ed_id batch ∧ table_wf (dispatches db') ∧
  (∀ row, In row batch → get (ed_id row) (dispatches db') = Some (mark_released QUEUED u row)) ∧
  (∀ j, j ∉ map ed_id batch → get j (dispatches db') = get j (dispatches db)) ∧
  db' = set_dispatches (dispatches db') db.
Proof.
  induction batch as [|row rest IH]; intros db db' ids Hd Hb; cbn [requeue_rows].
  { intros [= <- <-]. split_and!; try done. by destruct db. }
  apply batch_ok_cons in Hb as (Hg & He & Hnin & Hb).
  destruct (exec_update _ _ _ _) as [db1 ok] eqn:E.
  apply exec_update_inv in E as [(-> & Hd1 & Hdb1 & d & Hg' & _ & Hg1 & Hne)|(-> & -> & Hno)];
    [| |done|done]; [|by rewrite (Hno _ Hg) in He].
  assert (d = row) as -> by congruence.
  destruct (requeue_rows _ _ rest db1) as [db3 ids'] eqn:Er. intros [= <- <-].
  apply IH in Er as (-> & Hd3 & Hrow & Hoth & Hdb3); [|done|].
  - split_and!; try done.
    + intros r [<-|Hr]; [|by apply Hrow]. by rewrite Hoth by done.
    + intros j [Hj Hjr]%not_elem_of_cons. by rewrite Hoth, Hne by done.
    + rewrite Hdb3, Hdb1. done.
  - by apply (batch_ok_frame _ _ db db1 (ed_id row)).
Qed.

(** A sweep that read every matching row leaves none behind. *)
Lemma sweep_batch_nil s expired n db :
  (∀ d, In d (rows (dispatches db)) → expired d = true →
        (is_postgres s && locked s (ed_id d)) = true) →
  sweep_batch s expired n db = [].
Proof.
  intros Hno. unfold sweep_batch, select. rewrite filter_false_nil; [by destruct n|].
  intros d Hd. destruct (expired d) eqn:E; [|done]. by rewrite (Hno d Hd E).
Qed.

(** ** Lemmas: contact claims *)

Lemma claim_contact_id w now c : row_id (claim_contact w now c) = row_id c.
Proof. done. Qed.

Lemma merge_sort_In {A} (R : relation A) `{∀ x y, Decision (R x y)} l x :
  In x (merge_sort R l) ↔ In x l.
Proof. rewrite <- !list_elem_of_In. by rewrite merge_sort_Permutation. Qed.

Lemma due_contacts_In skip db status n now cutoff c :
  In c (due_contacts skip db status n now cutoff) →
  In c (rows (contacts db)) ∧ contact_due db status now cutoff c = true ∧ skip (ct_id c) = false.
Proof.
  unfold due_contacts. intros Hin.
  assert (In c (merge_sort next_action_le (select (λ c, contact_due db status now cutoff c
    && negb (skip (ct_id c))) (contacts db)))) as [Hr Hp]%merge_sort_In%select_In
    by (rewrite <- (take_drop (Z.to_nat n)); apply in_or_app; by left).
  bools. done.
Qed.

Lemma due_contacts_NoDup skip db status n now cutoff :
  table_wf (contacts db) → NoDup (map ct_id (due_contacts skip db status n now cutoff)).
Proof.
  intros Hwf. unfold due_contacts. rewrite <- firstn_map.
  eapply sublist_NoDup; [|apply sublist_take].
  assert (map ct_id (merge_sort next_action_le (select (λ c, contact_due db status now cutoff c
    && negb (skip (ct_id c))) (contacts db))) ≡ₚ map ct_id (select (λ c, contact_due db status now cutoff c
    && negb (skip (ct_id c))) (contacts db))) as ->
    by (apply Permutation_map, merge_sort_Permutation).
  by apply select_NoDup_ids.
Qed.

(** The contact rows after a set of them was claimed. *)
Definition claimed_rows (w : string) (now : Z) (ids : list Z) (db db' : Db) : Prop :=
  db' = set_contacts (contacts db') db ∧ table_wf (contacts db') ∧
  ∀ i, get i (contacts db') =
       (if in_list i ids then option_map (claim_contact w now) (get i (contacts db))
        else get i (contacts db)).

Lemma claim_each_sqlite_spec w now cutoff cids : ∀ db db' ids,
  table_wf (contacts db) → NoDup cids →
  (∀ i, i ∈ cids → ∃ c, get i (contacts db) = Some c ∧ unclaimed_or_expired cutoff c = true) →
  claim_each_sqlite w now cutoff cids db = (db', ids) → ids = cids ∧ claimed_rows w now cids db db'.
Proof.
  induction cids as [|cid r IH]; intros db db' ids Hwf Hnd Hall; cbn [claim_each_sqlite].
  { intros [= <- <-]. split; [done|]. split_and!; [by destruct db|done|done]. }
  apply NoDup_cons in Hnd as [Hn Hnd]. destruct (Hall cid) as (c & Hg & Hu); [by left|].
  unfold claim_one_sqlite.
  destruct (update_pk cid (unclaimed_or_expired cutoff) (claim_contact w now) (contacts db)) as [t n] eqn:E.
  apply update_pk_inv in E as [(-> & Hwf1 & _ & c' & Hg' & _ & Hg1 & Hne)|(_ & _ & Hno)];
    [|by rewrite (Hno _ Hg) in Hu|done|done].
  assert (c' = c) as -> by congruence. cbn [Nat.eqb].
  destruct (claim_each_sqlite w now cutoff r (set_contacts t db)) as [db2 cl] eqn:Er. intros [= <- <-].
  apply IH in Er as (-> & Hdb & Hwf2 & Hget); [|done|done|].
  - split; [done|]. split_and!; [by rewrite Hdb|done|]. intros i. rewrite Hget. cbn [contacts set_contacts].
    unfold in_list. destruct (decide (i = cid)) as [->|Hi].
    + rewrite bool_decide_eq_false_2, bool_decide_eq_true_2 by (done || by left). by rewrite Hg, Hg1.
    + rewrite Hne by done. rewrite (bool_decide_ext (i ∈ cid :: r) (i ∈ r)); [done|].
      rewrite elem_of_cons. naive_solver.
  - intros i Hi. destruct (Hall i) as (x & Hx & Hxu); [by right|]. exists x. split; [|done].
    cbn. rewrite Hne; [done|]. by intros ->.
Qed.

Lemma claim_postgres_spec s w status n now cutoff db db' ids :
  table_wf (contacts db) → claim_postgres s w status n now cutoff db = (db', ids) →
  let due := due_contacts (locked s) db status n now cutoff in
  (∀ i, i ∈ ids ↔ i ∈ map ct_id due) ∧ claimed_rows w now (map ct_id due) db db'.
Proof.
  intros Hwf. unfold claim_postgres. intros [= <- <-]. cbn zeta.
  set (due := due_contacts _ _ _ _ _ _). split.
  - intros i. rewrite list_elem_of_fmap. split.
    + intros (c & -> & [_ Hc]%list_elem_of_In%select_In). unfold in_list in Hc. by bools.
    + intros Hi. pose proof Hi as (c & -> & Hc%list_elem_of_In)%list_elem_of_fmap. exists c. split; [done|].
      apply list_elem_of_In, select_In. split; [by apply due_contacts_In in Hc as [? _]|].
      unfold in_list. by apply bool_decide_eq_true_2.
  - split_and!; [done|by apply update_where_wf|]. intros i.
    etrans; [exact (get_update_where _ _ (claim_contact_id w now) i (contacts db))|].
    destruct (get i (contacts db)) as [c|] eqn:E; cbn [option_map].
    + apply get_Some in E as [_ Hi]. change (row_id c) with (ct_id c) in Hi. rewrite Hi.
      by destruct (in_list i _).
    + by destruct (in_list i _).
Qed.

(** Both engines claim exactly the due contacts of their candidate query. *)
Lemma claim_due_contacts_spec s settings lease w status limit u db db' cs :
  table_wf (contacts db) →
  claim_due_contacts s settings lease w status limit u db = (db', cs) →
  let skip := if is_postgres s then locked s else (λ _, false) in
  let due := due_contacts skip db status (effective_limit settings limit) u (lease_cutoff lease u) in
  claimed_rows w u (map ct_id due) db db' ∧ NoDup (map ct_id cs) ∧
  ∀ c', In c' cs ↔ ∃ c, In c due ∧ c' = claim_contact w u c.
Proof.
  intros Hwf. unfold claim_due_contacts. cbn zeta.
  destruct (if is_postgres s then claim_postgres s w status _ u _ db else claim_sqlite w status _ u _ db)
    as [db1 ids] eqn:E.
  set (skip := if is_postgres s then locked s else (λ _, false)).
  set (due := due_contacts skip db status _ u _).
  assert ((∀ i, i ∈ ids ↔ i ∈ map ct_id due) ∧ claimed_rows w u (map ct_id due) db db1) as [Hids Hrows].
  { unfold due, skip. destruct (is_postgres s); [by apply claim_postgres_spec|].
    unfold claim_sqlite in E. apply claim_each_sqlite_spec in E as [-> ?]; [done|done| |].
    - by apply due_contacts_NoDup.
    - intros i (c & -> & Hc%list_elem_of_In)%list_elem_of_fmap.
      apply due_contacts_In in Hc as (Hin & Hd & _). exists c. split; [by apply (get_complete _ c)|].
      unfold contact_due in Hd. by bools. }
  destruct Hrows as (Hdb & Hwf1 & Hget).
  assert (∀ c', (In c' (rows (contacts db1)) ∧ ct_id c' ∈ ids) ↔ ∃ c, In c due ∧ c' = claim_contact w u c)
    as Hcs.
  { intros c'. split.
    - intros [Hin Hi]. rewrite Hids in Hi. pose proof (get_complete _ c' Hwf1 Hin) as Hg.
      rewrite Hget in Hg. unfold in_list in Hg. change (row_id c') with (ct_id c') in Hg.
      rewrite bool_decide_eq_true_2 in Hg by done.
      apply list_elem_of_fmap in Hi as (c & Hci & Hc%list_elem_of_In). exists c. split; [done|].
      apply due_contacts_In in Hc as (Hcr & _). pose proof (get_complete _ c Hwf Hcr) as Hgc.
      change (row_id c) with (ct_id c) in Hgc. rewrite Hci, Hgc in Hg. by injection Hg as <-.
    - intros (c & Hc & ->). assert (ct_id c ∈ map ct_id due) as Hi
        by (apply list_elem_of_fmap; exists c; split; [done|by apply list_elem_of_In]).
      split; [|cbn; by apply Hids]. apply due_contacts_In in Hc as (Hcr & _).
      assert (get (ct_id c) (contacts db1) = Some (claim_contact w u c)) as Hg1.
      { rewrite Hget. unfold in_list. rewrite bool_decide_eq_true_2 by done.
        by rewrite (get_complete _ c Hwf Hcr : get (ct_id c) _ = _). }
      by apply get_Some in Hg1 as [? _]. }
  intros Hres. assert (db' = db1 ∧ NoDup (map ct_id cs) ∧
    ∀ c', In c' cs ↔ In c' (rows (contacts db1)) ∧ ct_id c' ∈ ids) as (-> & Hnd & Hin).
  { destruct ids as [|i ids']; injection Hres as <- <-; (split; [done|]); split.
    - constructor.
    - intros c'. split; [done|]. by intros [_ ?%not_elem_of_nil].
    - by apply select_NoDup_ids.
    - intros c'. rewrite select_In. unfold in_list. by rewrite bool_decide_eq_true. }
  split_and!; [done|done|]. intros c'. by rewrite Hin, Hcs.
Qed.

(** ** Theorems *)

(** A claim takes the oldest queued dispatch that has its message.  On both
    engines, a successful claim picks a QUEUED dispatch with a message, no
    unlocked such dispatch is older, the row becomes SENDING under the
    worker's claim with its other columns kept, and nothing else in the
    database changes; no claim is made exactly when every such dispatch is
    locked by another PostgreSQL transaction. *)
Theorem claim_takes_oldest_ready s w now u db db' r :
  table_wf (dispatches db) → claim_next_external_dispatch s w now u db = (db', r) →
  match r with
  | Some c => ∃ d, get (cl_dispatch_id c) (dispatches db) = Some d ∧ claimable_send d = true ∧
      (∀ d', In d' (rows (dispatches db)) → claimable_send d' = true →
             (is_postgres s && locked s (ed_id d')) = false → ed_id d ≤ ed_id d') ∧
      c = mkClaim (ed_id d) (ed_organization_id d) w (naive_utc now u) ∧
      get (ed_id d) (dispatches db') = Some (mark_claimed SENDING w (naive_utc now u) u d) ∧
      owns SENDING c (mark_claimed SENDING w (naive_utc now u) u d) = true ∧
      (∀ j, j ≠ ed_id d → get j (dispatches db') = get j (dispatches db)) ∧
      db' = set_dispatches (dispatches db') db
  | None => db' = db ∧ ∀ d, In d (rows (dispatches db)) → claimable_send d = true →
              is_postgres s = true ∧ locked s (ed_id d) = true
  end.
Proof.
  intros Hwf E. destruct r as [c|]; [|by apply (claim_next_None claimable_send SENDING s w now u)].
  pose proof (claim_next_effect _ _ _ _ _ _ _ _ _ Hwf E) as (d0 & Hg0 & _ & _ & _ & _ & Hg' & Hne & _ & Hdb).
  apply claim_next_Some in E as (d & Ht & Hg & Hc & -> & _); [|done]. cbn [cl_dispatch_id] in *.
  assert (d0 = d) as -> by congruence. exists d. split_and!; try done.
  - intros d' Hin Hc' Hl. eapply (select_first_least _ _ d d' Hwf Ht Hin). by rewrite Hc', Hl.
  - apply owns_spec. done.
Qed.

(** Two claims never get the same dispatch.  Whatever sessions, workers and
    clocks, a dispatch claimed for sending is not handed out again by any
    later claim of either kind. *)
Theorem claims_are_exclusive s s' w w' now now' u u' db db1 db2 c c' :
  table_wf (dispatches db) →
  claim_next_external_dispatch s w now u db = (db1, Some c) →
  claim_next_external_dispatch s' w' now' u' db1 = (db2, Some c') ∨
  claim_next_generation_dispatch s' w' now' u' db1 = (db2, Some c') →
  cl_dispatch_id c' ≠ cl_dispatch_id c.
Proof.
  intros Hwf E1 E2. apply claim_next_effect in E1 as (d & _ & _ & _ & _ & _ & Hg & _ & Hwf1 & _); [|done].
  destruct E2 as [E2|E2]; apply claim_next_effect in E2 as (d' & Hg' & Hc & _); [|done| |done];
    intros Heq; rewrite Heq, Hg in Hg'; injection Hg' as <-; by cbn in Hc.
Qed.

(** The fenced outcome write is exact.  For the three outcome states it never
    raises: if the row is still SENDING in the claim's organization, under the
    claim's worker and the claim's time, it takes the outcome, its claim is
    cleared and the linked message follows; otherwise nothing at all changes.
    Every other state is refused. *)
Theorem fenced_outcome_write c st e u db d :
  table_wf (dispatches db) → get (cl_dispatch_id c) (dispatches db) = Some d →
  match message_status_of st with
  | None => ∃ err, finish_external_dispatch c st e u db = Err err
  | Some ms =>
      ∃ db' won, finish_external_dispatch c st e u db = Ok (db', won) ∧
      (won = true ↔ ed_organization_id d = cl_organization_id c ∧ ed_state d = SENDING ∧
                    ed_claimed_by d = Some (cl_worker_id c) ∧ ed_claimed_at d = Some (cl_claimed_at c)) ∧
      (won = false → db' = db) ∧
      (won = true → get (cl_dispatch_id c) (dispatches db') = Some (finished st e u d) ∧
         (∀ j, j ≠ cl_dispatch_id c → get j (dispatches db') = get j (dispatches db)) ∧
         ∀ m, ed_message_id d = Some (msg_id m) → get (msg_id m) (messages db) = Some m →
           get (msg_id m) (messages db') = Some (set_msg_error_message e (set_msg_status ms m)))
  end.
Proof.
  intros Hwf Hg. destruct (message_status_of st) as [ms|] eqn:Ems.
  - destruct (finish_total c st e u db) as (db' & won & E); [by rewrite Ems|]. exists db', won.
    split; [done|]. apply finish_Ok in E as (ms' & Hms & [(-> & d' & Hd' & Ho & Hg' & Hne & _ & Hm & _)|
      (-> & -> & Hno)]); [| |done]; rewrite Hms in Ems; injection Ems as ->.
    + assert (d' = d) as -> by congruence. apply owns_spec in Ho as (? & ? & ? & ?).
      split_and!; [by split_and!|done|]. intros _. split_and!; [done|done|].
      intros m Hmid Hgm. rewrite Hm. unfold outcome_messages.
      rewrite update_message_get by done. rewrite Hgm, Hmid. cbn. by rewrite bool_decide_eq_true_2.
    + split_and!; [|done|done]. split; [done|]. intros Ho. specialize (Hno d Hg).
      by rewrite (proj2 (owns_spec SENDING c d) Ho) in Hno.
  - unfold finish_external_dispatch. rewrite Ems. by eexists.
Qed.

(** An expired SENDING lease becomes UNKNOWN and is never requeued.  The sweep
    reports exactly the rows it read (expired, unlocked, oldest first, at most
    the limit); each becomes UNKNOWN with its claim cleared, its linked
    message leaves SENDING or DRAFT for UNKNOWN, every other dispatch and
    message is untouched, and a second sweep with the same clock finds none of
    them again. *)
Theorem lease_recovery_to_unknown s settings now lease n u db db' rs :
  table_wf (dispatches db) → table_wf (messages db) →
  recover_expired_external_dispatches s settings now lease n u db = (db', rs) →
  let cutoff := naive_utc now u - seconds (default (external_dispatch_lease_seconds settings) lease) in
  let batch := sweep_batch s (sending_expired cutoff) n db in
  rs = map recovered_of batch ∧ (length rs ≤ n)%nat ∧
  (∀ row, In row batch → ∃ d', get (ed_id row) (dispatches db') = Some d' ∧ ed_state d' = UNKNOWN ∧
     ed_claimed_by d' = None ∧ ed_claimed_at d' = None ∧ ed_message_id d' = ed_message_id row ∧
     sending_expired cutoff d' = false) ∧
  (∀ j, j ∉ map ed_id batch → get j (dispatches db') = get j (dispatches db)) ∧
  (∀ j m, get j (messages db) = Some m → ∃ m', get j (messages db') = Some m' ∧
     msg_body m' = msg_body m ∧
     (if existsb (λ row, bool_decide (ed_message_id row = Some j)) batch && pre_outcome m
      then msg_status m' = MS_UNKNOWN else m' = m)).
Proof.
  intros Hd Hm E. cbn zeta. unfold recover_expired_external_dispatches in E.
  set (cutoff := naive_utc now u - _) in *. set (batch := sweep_batch _ _ _ db) in *.
  apply recover_rows_spec in E as (-> & Hd' & Hm' & Hrow & Hne & Hmsg & _);
    [|done|done|by apply sweep_batch_ok].
  split_and!; [done| | |done|].
  - rewrite length_map. unfold batch, sweep_batch. rewrite length_take. lia.
  - intros row Hin. eexists. split; [by apply Hrow|done].
  - intros j m Hj. rewrite Hmsg, Hj. eexists. split; [done|]. unfold sweep_message.
    destruct (List.find _ batch) as [row|] eqn:Ef.
    + apply find_some in Ef as [Hin Hp].
      assert (existsb (λ row, bool_decide (ed_message_id row = Some j)) batch = true) as ->
        by (apply existsb_exists; eauto).
      by destruct (pre_outcome m).
    + assert (existsb (λ row, bool_decide (ed_message_id row = Some j)) batch = false) as ->; [|done].
      apply not_true_is_false. intros (row & Hin & Hp)%existsb_exists.
      by rewrite (find_none _ _ Ef row Hin) in Hp.
Qed.

(** The native scheduler claims only what it may.  On both engines, the
    contacts returned are at most the limit; each was in the requested status,
    due, free or with an expired lease, and of a campaign that no integration
    manages; each is now leased to the worker; every other contact is
    untouched. *)
Theorem contact_claims_sound s settings lease w status limit u db db' cs :
  table_wf (contacts db) →
  claim_due_contacts s settings lease w status limit u db = (db', cs) →
  (length cs ≤ Z.to_nat (effective_limit settings limit))%nat ∧
  (∀ c', In c' cs → ∃ c, get (ct_id c') (contacts db) = Some c ∧ c' = claim_contact w u c ∧
     get (ct_id c') (contacts db') = Some c' ∧
     contact_due db status u (lease_cutoff lease u) c = true ∧
     contact_is_integration_managed db (Some c) = false) ∧
  (∀ i, i ∉ map ct_id cs → get i (contacts db') = get i (contacts db)).
Proof.
  intros Hwf E. apply claim_due_contacts_spec in E as ((Hdb & Hwf' & Hget) & Hnd & Hcs); [|done].
  set (due := due_contacts _ _ _ _ _ _) in *.
  assert (∀ i, i ∈ map ct_id cs ↔ i ∈ map ct_id due) as Hids.
  { intros i. rewrite !list_elem_of_fmap. split.
    - intros (c' & -> & (c & Hc & ->)%list_elem_of_In%Hcs). exists c. split; [done|by apply list_elem_of_In].
    - intros (c & -> & Hc%list_elem_of_In). exists (claim_contact w u c). split; [done|].
      apply list_elem_of_In, Hcs. by exists c. }
  split_and!.
  - assert (length (map ct_id cs) ≤ length (map ct_id due))%nat as Hlen.
    { apply NoDup_incl_length; [by apply NoDup_ListNoDup|]. intros i Hi. apply list_elem_of_In, Hids.
      by apply list_elem_of_In. }
    rewrite !length_map in Hlen. etrans; [exact Hlen|]. unfold due, due_contacts. rewrite length_take. lia.
  - intros c' (c & Hc & ->)%Hcs. exists c. pose proof (due_contacts_In _ _ _ _ _ _ _ Hc) as (Hin & Hd & _).
    pose proof (get_complete _ c Hwf Hin) as Hg. split_and!; [done|done| |done|].
    + cbn. rewrite Hget. unfold in_list. rewrite bool_decide_eq_true_2; [by rewrite (Hg : get (ct_id c) _ = _)|].
      apply list_elem_of_fmap. exists c. split; [done|by apply list_elem_of_In].
    + unfold contact_due in Hd. bools. cbn. unfold contact_campaign.
      destruct (get (ct_campaign_id c) (campaigns db)) as [cm|] eqn:Ecm; [|done]. cbn.
      apply get_Some in Ecm as [Hcm Hcid]. destruct (cp_integration_source cm) eqn:Es; [|done]. exfalso.
      assert (existsb (λ cm, bool_decide (cp_id cm = ct_campaign_id c)
        && is_not_none (cp_integration_source cm)) (rows (campaigns db)) = true) as Ht; [|congruence].
      apply existsb_exists. exists cm. split; [done|]. change (row_id cm) with (cp_id cm) in Hcid.
      by rewrite bool_decide_eq_true_2, Es.
  - intros i Hi. rewrite Hget. unfold in_list. rewrite bool_decide_eq_false_2; [done|]. by rewrite <- Hids.
Qed.

(** A contact's lease excludes other workers.  A contact claimed at [u] is not
    claimed again, by any worker on any engine, by a call whose lease cutoff
    has not passed [u]. *)
Theorem contact_lease_exclusive s s' settings settings' lease lease' w w' st st' n n' u u' db db1 db2 cs cs' :
  table_wf (contacts db) →
  claim_due_contacts s settings lease w st n u db = (db1, cs) →
  claim_due_contacts s' settings' lease' w' st' n' u' db1 = (db2, cs') →
  lease_cutoff lease' u' ≤ u →
  ∀ i, i ∈ map ct_id cs → i ∉ map ct_id cs'.
Proof.
  intros Hwf E1 E2 Hl i Hi Hi'.
  apply claim_due_contacts_spec in E1 as ((_ & Hwf1 & Hget) & _ & Hcs1); [|done].
  apply list_elem_of_fmap in Hi as (c1 & -> & (c0 & Hc0 & ->)%list_elem_of_In%Hcs1).
  apply claim_due_contacts_spec in E2 as (_ & _ & Hcs2); [|done].
  apply list_elem_of_fmap in Hi' as (c2 & Hid & (c & Hc & ->)%list_elem_of_In%Hcs2).
  apply due_contacts_In in Hc as (Hin & Hd & _). cbn in Hid.
  assert (get (ct_id c0) (contacts db1) = Some (claim_contact w u c0)) as Hg.
  { rewrite Hget. unfold in_list. rewrite bool_decide_eq_true_2
      by (apply list_elem_of_fmap; exists c0; split; [done|by apply list_elem_of_In]).
    apply due_contacts_In in Hc0 as (Hin0 & _).
    by rewrite (get_complete _ c0 Hwf Hin0 : get (ct_id c0) _ = _). }
  pose proof (get_complete _ c Hwf1 Hin : get (ct_id c) _ = _) as Hgc. rewrite <- Hid, Hg in Hgc.
  injection Hgc as <-. unfold contact_due, unclaimed_or_expired in Hd. bools.
  match goal with H : _ || _ = true |- _ => apply orb_prop in H as [H|H]; cbn in H; bools; [done|lia] end.
Qed.

(** *** Witnesses *)

Definition sqlite_session : Session := mkSession false (λ _, false).
Definition postgres_session : Session := mkSession true (λ _, false).
Definition sample_claim : ClaimedDispatch := mkClaim 1 "acme" "w1" 100.

Lemma claim_takes_oldest_ready_witness :
  ∃ db' c d, claim_next_external_dispatch postgres_session "w1" None 100 sample_db = (db', Some c) ∧
    get (cl_dispatch_id c) (dispatches sample_db) = Some d ∧ cl_dispatch_id c = 1.
Proof.
  destruct (claim_next_external_dispatch postgres_session "w1" None 100 sample_db) as [db' r] eqn:E.
  pose proof (claim_takes_oldest_ready _ _ _ _ _ _ _ (wf_dispatches _ sample_db_wf) E) as H.
  destruct r as [c|]; [|exfalso; vm_compute in E; discriminate E].
  destruct H as (d & Hg & _). exists db', c, d. split_and!; [done|done|].
  vm_compute in E. injection E as _ <-. reflexivity.
Defined.

Lemma claims_are_exclusive_witness :
  ∃ db1 db2 c c',
    claim_next_external_dispatch sqlite_session "w1" None 100 sample_db = (db1, Some c) ∧
    claim_next_generation_dispatch postgres_session "w2" None 101 db1 = (db2, Some c') ∧
    cl_dispatch_id c' ≠ cl_dispatch_id c.
Proof.
  destruct (claim_next_external_dispatch sqlite_session "w1" None 100 sample_db) as [db1 [c|]] eqn:E1;
    [|exfalso; vm_compute in E1; discriminate E1].
  destruct (claim_next_generation_dispatch postgres_session "w2" None 101 db1) as [db2 [c'|]] eqn:E2.
  - exists db1, db2, c, c'. split_and!; [done|done|].
    exact (claims_are_exclusive _ _ _ _ _ _ _ _ _ _ _ _ _ (wf_dispatches _ sample_db_wf) E1 (or_intror E2)).
  - exfalso. vm_compute in E1. injection E1 as <- _. vm_compute in E2. discriminate E2.
Defined.

Lemma fenced_outcome_write_witness :
  ∃ db', finish_external_dispatch sample_claim SENT None 200 sending_db = Ok (db', true) ∧
    get 1 (dispatches db') = Some (finished SENT None 200 sending_dispatch).
Proof.
  pose proof (fenced_outcome_write sample_claim SENT None 200 sending_db sending_dispatch
    (wf_dispatches _ sending_db_wf) eq_refl) as (db' & won & E & Hwon & _ & H).
  assert (won = true) as -> by (by apply Hwon). exists db'. split; [done|by apply H].
Defined.

Lemma lease_recovery_to_unknown_witness :
  ∃ db' rs d', recover_expired_external_dispatches postgres_session default_settings None (Some 1) 10 2000000
      sending_db = (db', rs) ∧ length rs = 1%nat ∧ get 1 (dispatches db') = Some d' ∧ ed_state d' = UNKNOWN.
Proof.
  destruct (recover_expired_external_dispatches postgres_session default_settings None (Some 1) 10 2000000
    sending_db) as [db' rs] eqn:E.
  destruct (lease_recovery_to_unknown _ _ _ _ _ _ _ _ _ (wf_dispatches _ sending_db_wf)
    (wf_messages _ sending_db_wf) E) as (Hrs & _ & Hrow & _).
  destruct (Hrow sending_dispatch) as (d' & Hg & Hs & _); [vm_compute; by left|].
  exists db', rs, d'. split_and!; [done|by rewrite Hrs|done|done].
Defined.

Lemma contact_claims_sound_witness :
  ∃ db' c', claim_due_contacts sqlite_session default_settings 300 "w1" CS_ACTIVE None 1000 sample_db
      = (db', [c']) ∧ get 2 (contacts db') = Some c' ∧
    contact_is_integration_managed sample_db (Some native_contact) = false.
Proof.
  destruct (claim_due_contacts sqlite_session default_settings 300 "w1" CS_ACTIVE None 1000 sample_db)
    as [db' cs] eqn:E.
  pose proof (contact_claims_sound _ _ _ _ _ _ _ _ _ _ (wf_contacts _ sample_db_wf) E) as (_ & Hc & _).
  assert (cs = [claim_contact "w1" 1000 native_contact]) as -> by (vm_compute in E; by injection E as _ <-).
  destruct (Hc (claim_contact "w1" 1000 native_contact)) as (c & Hg & _ & Hg' & _ & Hm); [by left|].
  exists db', (claim_contact "w1" 1000 native_contact). split_and!; [done|exact Hg'|].
  assert (c = native_contact) as <- by (vm_compute in Hg; by injection Hg as <-). exact Hm.
Defined.

Lemma contact_lease_exclusive_witness :
  ∃ db1 db2 cs cs',
    claim_due_contacts sqlite_session default_settings 300 "w1" CS_ACTIVE None 1000 sample_db = (db1, cs) ∧
    claim_due_contacts postgres_session default_settings 300 "w2" CS_ACTIVE None 2000 db1 = (db2, cs') ∧
    (2 ∈ map ct_id cs) ∧ (2 ∉ map ct_id cs').
Proof.
  destruct (claim_due_contacts sqlite_session default_settings 300 "w1" CS_ACTIVE None 1000 sample_db)
    as [db1 cs] eqn:E1.
  destruct (claim_due_contacts postgres_session default_settings 300 "w2" CS_ACTIVE None 2000 db1)
    as [db2 cs'] eqn:E2.
  assert (2 ∈ map ct_id cs) as Hin
    by (vm_compute in E1; injection E1 as _ <-; cbn; by apply list_elem_of_singleton).
  exists db1, db2, cs, cs'. split_and!; [done|done|done|].
  apply (contact_lease_exclusive _ _ _ _ _ _ _ _ _ _ _ _ _ _ _ _ _ _ _ (wf_contacts _ sample_db_wf) E1 E2);
    [vm_compute; discriminate|done].
Defined.
