(* ===== verification/Lifecycle.v ===== *)
(** * The dispatch lifecycle as a specification

    An abstract automaton of one dispatch ([phase], [phase_step]), the
    changes the code makes to one row ([dispatch_step]) and the relation
    [evolves] between two databases: every dispatch is kept and has made a
    finite number of such changes, and new dispatches start queued.  Every
    operation of [WorkClaiming] is an [evolves] step; the lifecycle guarantees
    (terminal states stay, a dispatch that reached SENDING is never queued
    again, accepted columns are write-once) are then proved once, on the
    automaton.  Sources: the [ExternalDispatchState] and [ExternalDispatch]
    documentation in [src/mailer_agent/models.py] and
    [src/mailer_agent/followup/work_claiming.py]. *)

From stdpp Require Import relations.
From S2P Require Import Prelude Sql Models Config WorkClaiming.

(** ** The abstract automaton *)

Inductive phase :=
  | AwaitingGeneration
  | Generating
  | Ready
  | InFlight
  | Delivered
  | Refused
  | Ambiguous.
#[global] Instance phase_eq_dec : EqDecision phase.
Proof. solve_decision. Defined.

Inductive phase_step : phase → phase → Prop :=
  | ph_take_generation : phase_step AwaitingGeneration Generating
  | ph_generated : phase_step Generating Ready
  | ph_generation_failed : phase_step Generating Refused
  | ph_generation_lost : phase_step Generating AwaitingGeneration
  | ph_take_send : phase_step Ready InFlight
  | ph_sent : phase_step InFlight Delivered
  | ph_failed : phase_step InFlight Refused
  | ph_unknown : phase_step InFlight Ambiguous.

(** The phase of a row: a queued row with no message still needs generation. *)
Definition phase_of (d : ExternalDispatch) : phase :=
  match ed_state d with
  | QUEUED => if is_none (ed_message_id d) then AwaitingGeneration else Ready
  | GENERATING => Generating
  | SENDING => InFlight
  | SENT => Delivered
  | FAILED => Refused
  | UNKNOWN => Ambiguous
  end.

(** ** Changes of one row *)

Definition outcome_state (st : ExternalDispatchState) : bool :=
  is_not_none (message_status_of st).

Inductive dispatch_step (d : ExternalDispatch) : ExternalDispatch → Prop :=
  | ds_claim_send w t u :
      claimable_send d = true → dispatch_step d (mark_claimed SENDING w t u d)
  | ds_claim_generation w t u :
      claimable_generation d = true → dispatch_step d (mark_claimed GENERATING w t u d)
  | ds_generated m u :
      ed_state d = GENERATING → ed_message_id d = None →
      dispatch_step d (set_ed_message_id (Some m) (mark_released QUEUED u d))
  | ds_generation_failed e u :
      ed_state d = GENERATING → ed_message_id d = None →
      dispatch_step d (finished FAILED (Some e) u d)
  | ds_requeued u :
      ed_state d = GENERATING → ed_message_id d = None →
      dispatch_step d (mark_released QUEUED u d)
  | ds_outcome st e u :
      ed_state d = SENDING → outcome_state st = true → dispatch_step d (finished st e u d)
  | ds_annotated note u :
      ed_state d = UNKNOWN → dispatch_step d (annotated note u d).

(** A dispatch as the intake endpoints create it. *)
Definition initial_dispatch (d : ExternalDispatch) : Prop :=
  ed_state d = QUEUED ∧ ed_claimed_by d = None ∧ ed_claimed_at d = None ∧
  ed_error_message d = None.

(** The columns fixed at acceptance. *)
Definition same_identity (d d' : ExternalDispatch) : Prop :=
  ed_id d' = ed_id d ∧ ed_organization_id d' = ed_organization_id d ∧
  ed_idempotency_key d' = ed_idempotency_key d ∧
  ed_external_action_id d' = ed_external_action_id d ∧
  ed_correlation_id d' = ed_correlation_id d ∧
  ed_campaign_id d' = ed_campaign_id d ∧ ed_contact_id d' = ed_contact_id d ∧
  ed_mailbox_id d' = ed_mailbox_id d ∧
  ed_request_fingerprint d' = ed_request_fingerprint d ∧
  ed_grounding_context d' = ed_grounding_context d ∧
  ed_public_reference d' = ed_public_reference d ∧ ed_created_at d' = ed_created_at d.

(** Shape of a row: a claim is held exactly while GENERATING or SENDING; a row
    being generated has no message; a row that reached SENDING, SENT or
    UNKNOWN has one. *)
Definition dispatch_shape (d : ExternalDispatch) : Prop :=
  (match ed_state d with
   | GENERATING | SENDING => is_Some (ed_claimed_by d) ∧ is_Some (ed_claimed_at d)
   | _ => ed_claimed_by d = None ∧ ed_claimed_at d = None
   end) ∧
  (match ed_state d with
   | GENERATING => ed_message_id d = None
   | SENDING | SENT | UNKNOWN => is_Some (ed_message_id d)
   | QUEUED | FAILED => True
   end).

#[global] Instance same_identity_preorder : PreOrder same_identity.
Proof.
  split; unfold same_identity; [by intros d|].
  intros a b c Hab Hbc. destruct_and!. split_and!; congruence.
Qed.

(** ** The automaton's guarantees *)

Lemma dispatch_step_identity d d' : dispatch_step d d' → same_identity d d'.
Proof. by destruct 1. Qed.

Lemma dispatch_steps_identity d d' : rtc dispatch_step d d' → same_identity d d'.
Proof. induction 1; [done|]. etrans; [by apply dispatch_step_identity|done]. Qed.

(** Refinement: a change of a row is a step of the automaton, or leaves its
    phase alone (annotation of an ambiguous dispatch). *)
Lemma dispatch_step_refines d d' :
  dispatch_step d d' → phase_step (phase_of d) (phase_of d') ∨ phase_of d' = phase_of d.
Proof.
  unfold phase_of. destruct 1 as [w t u Hc|w t u Hc|m u Hs Hm|e u Hs Hm|u Hs Hm|st e u Hs Ho|n u Hs];
    cbn; rewrite ?Hs.
  - apply andb_prop in Hc as [Hs Hm]. bools. rewrite Hs.
    match goal with H : ed_message_id d = Some _ |- _ => rewrite H end. left; constructor.
  - apply andb_prop in Hc as [Hs Hm]. bools. rewrite Hs, Hm. left; constructor.
  - left; constructor.
  - left; constructor.
  - rewrite Hm. left; constructor.
  - left. destruct st; try done; constructor.
  - by right.
Qed.

Lemma dispatch_steps_refine d d' :
  rtc dispatch_step d d' → rtc phase_step (phase_of d) (phase_of d').
Proof.
  induction 1 as [|d d1 d2 Hs _ IH]; [done|].
  destruct (dispatch_step_refines _ _ Hs) as [Hp|Hp]; [by eapply rtc_l|by rewrite <- Hp].
Qed.

(** The phases reachable from a dispatch that was handed to SMTP. *)
Definition past_handover (p : phase) : bool :=
  match p with InFlight | Delivered | Refused | Ambiguous => true | _ => false end.
Definition terminal (p : phase) : bool :=
  match p with Delivered | Refused | Ambiguous => true | _ => false end.

Lemma past_handover_closed p q :
  rtc phase_step p q → past_handover p = true → past_handover q = true.
Proof. induction 1 as [|p q r Hs _ IH]; [done|]. intros Hp. apply IH. by destruct Hs. Qed.

Lemma terminal_closed p q : rtc phase_step p q → terminal p = true → q = p.
Proof. induction 1 as [|p q r Hs _ IH]; [done|]. intros Hp. by destruct Hs. Qed.

(** A dispatch row keeps its shape. *)
Lemma dispatch_step_shape d d' : dispatch_step d d' → dispatch_shape d → dispatch_shape d'.
Proof.
  unfold dispatch_shape.
  destruct 1 as [w t u Hc|w t u Hc|m u Hs Hm|e u Hs Hm|u Hs Hm|st e u Hs Ho|n u Hs]; cbn;
    rewrite ?Hs; intros [H1 H2].
  - apply andb_prop in Hc as [_ Hm]. bools. split; [eauto|]. by rewrite H.
  - apply andb_prop in Hc as [_ Hm]. bools. eauto.
  - done.
  - done.
  - done.
  - by destruct st.
  - done.
Qed.

Lemma dispatch_steps_shape d d' : rtc dispatch_step d d' → dispatch_shape d → dispatch_shape d'.
Proof. induction 1; [done|]. intros. eauto using dispatch_step_shape. Qed.

Lemma initial_shape d : initial_dispatch d → dispatch_shape d.
Proof. intros (Hs & Hb & Ha & _). unfold dispatch_shape. by rewrite Hs. Qed.

(** Once a message is attached it stays attached. *)
Lemma dispatch_steps_message d d' m :
  rtc dispatch_step d d' → ed_message_id d = Some m → ed_message_id d' = Some m.
Proof.
  induction 1 as [|d d1 d2 Hs _ IH]; [done|]. intros Hm. apply IH.
  destruct Hs; cbn; congruence.
Qed.

(** ** Evolution of the dispatch table *)

Record evolves (db db' : Db) : Prop := {
  ev_wf : table_wf (dispatches db) → table_wf (dispatches db');
  ev_kept : ∀ i d, get i (dispatches db) = Some d →
              ∃ d', get i (dispatches db') = Some d' ∧ rtc dispatch_step d d';
  ev_new : ∀ i d', get i (dispatches db') = Some d' → get i (dispatches db) = None →
              ∃ d0, initial_dispatch d0 ∧ rtc dispatch_step d0 d'
}.

#[global] Instance evolves_preorder : PreOrder evolves.
Proof.
  split.
  - intros db. split; [done|by eauto using rtc_refl|congruence].
  - intros a b c [Hwf1 Hk1 Hn1] [Hwf2 Hk2 Hn2]. split; [by auto| |].
    + intros i d Hg. destruct (Hk1 _ _ Hg) as (d1 & Hg1 & Hs1).
      destruct (Hk2 _ _ Hg1) as (d2 & Hg2 & Hs2). exists d2. split; [done|by etrans].
    + intros i d' Hg Hnone. destruct (get i (dispatches b)) as [d1|] eqn:E.
      * destruct (Hn1 _ _ E Hnone) as (d0 & Hi & Hs). destruct (Hk2 _ _ E) as (d2 & Hg2 & Hs2).
        assert (d2 = d') as -> by congruence. exists d0. split; [done|by etrans].
      * by apply Hn2 in Hg.
Qed.

(** One row changes by one step, all others stay. *)
Lemma evolves_one i d d' db db' :
  get i (dispatches db) = Some d → get i (dispatches db') = Some d' →
  (∀ j, j ≠ i → get j (dispatches db') = get j (dispatches db)) →
  (table_wf (dispatches db) → table_wf (dispatches db')) →
  dispatch_step d d' → evolves db db'.
Proof.
  intros Hg Hg' Hne Hwf Hs. split; [done| |].
  - intros j x Hx. destruct (decide (j = i)) as [->|Hj].
    + exists d'. split; [done|]. assert (x = d) as -> by congruence. by apply rtc_once.
    + exists x. by rewrite Hne.
  - intros j x Hx Hn. destruct (decide (j = i)) as [->|Hj]; [congruence|].
    rewrite Hne in Hx by done. congruence.
Qed.

Lemma evolves_same db db' : dispatches db' = dispatches db → evolves db db'.
Proof.
  intros E. split; rewrite E; [done|by eauto using rtc_refl|congruence].
Qed.

(** *** Every operation of the claiming layer is an evolution *)

Section Operations.
Context (db db' : Db) (Hwf : table_wf (dispatches db)).

Lemma exec_update_evolves i p f ok :
  (∀ d, row_id (f d) = row_id d) →
  (∀ d, p d = true → dispatch_step d (f d)) →
  exec_update i p f db = (db', ok) → evolves db db'.
Proof using Hwf.
  intros Hid Hstep E.
  apply exec_update_inv in E as [(_ & Hwf' & _ & d & Hg & Hp & Hg' & Hne)|(_ & -> & _)]; try done.
  by eapply (evolves_one i d (f d)); eauto.
Qed.

Lemma claim_send_evolves s w now u c :
  claim_next_external_dispatch s w now u db = (db', c) → evolves db db'.
Proof using Hwf.
  destruct c as [c|]; intros E.
  - apply claim_next_effect in E as (d & Hg & Hc & _ & _ & _ & Hg' & Hne & Hwf' & _); [|done].
    by eapply evolves_one; eauto using ds_claim_send.
  - by apply claim_next_None in E as [-> _].
Qed.

Lemma claim_generation_evolves s w now u c :
  claim_next_generation_dispatch s w now u db = (db', c) → evolves db db'.
Proof using Hwf.
  destruct c as [c|]; intros E.
  - apply claim_next_effect in E as (d & Hg & Hc & _ & _ & _ & Hg' & Hne & Hwf' & _); [|done].
    by eapply evolves_one; eauto using ds_claim_generation.
  - by apply claim_next_None in E as [-> _].
Qed.

Lemma finish_evolves c st e u won :
  finish_external_dispatch c st e u db = Ok (db', won) → evolves db db'.
Proof using Hwf.
  intros E. apply finish_Ok in E as (ms & Hms & [(_ & d & Hg & Ho & Hg' & Hne & Hwf' & _)|(_ & -> & _)]);
    [|done..].
  apply owns_spec in Ho as (_ & Hs & _).
  eapply (evolves_one (cl_dispatch_id c) d (finished st e u d)); [done..|].
  apply ds_outcome; [done|]. unfold outcome_state. by rewrite Hms.
Qed.

Lemma complete_generation_evolves c m u ok :
  complete_generation c m u db = (db', ok) → evolves db db'.
Proof using Hwf.
  apply exec_update_evolves; [done|]. intros d Hf. apply andb_prop in Hf as [Ho Hm]. bools.
  apply owns_spec in Ho as (_ & Hs & _). by apply ds_generated.
Qed.

Lemma fail_generation_evolves c e u ok :
  fail_generation c e u db = (db', ok) → evolves db db'.
Proof using Hwf.
  apply exec_update_evolves; [done|]. intros d Hf. apply andb_prop in Hf as [Ho Hm]. bools.
  apply owns_spec in Ho as (_ & Hs & _). by apply ds_generation_failed.
Qed.

Lemma annotate_evolves i o n u ok :
  annotate_unknown_dispatch i o n u db = (db', ok) → evolves db db'.
Proof using Hwf.
  apply exec_update_evolves; [done|]. intros d Hf. bools. by apply ds_annotated.
Qed.

(** A batch of rows that each make one step. *)
Lemma evolves_batch (batch : list ExternalDispatch) (f : ExternalDispatch → ExternalDispatch) :
  (∀ row, In row batch → get (ed_id row) (dispatches db) = Some row ∧ dispatch_step row (f row)) →
  (∀ row, In row batch → get (ed_id row) (dispatches db') = Some (f row)) →
  (∀ j, j ∉ map ed_id batch → get j (dispatches db') = get j (dispatches db)) →
  table_wf (dispatches db') → evolves db db'.
Proof using Hwf.
  intros Hrow Hf Hne Hwf'. split; [done| |].
  - intros i d Hg. destruct (decide (i ∈ map ed_id batch)) as [Hi|Hi].
    + apply list_elem_of_In, in_map_iff in Hi as (row & <- & Hin).
      destruct (Hrow _ Hin) as [Hg0 Hs]. assert (d = row) as -> by congruence.
      exists (f row). split; [by apply Hf|by apply rtc_once].
    + exists d. by rewrite Hne.
  - intros i d Hg Hn. destruct (decide (i ∈ map ed_id batch)) as [Hi|Hi].
    + apply list_elem_of_In, in_map_iff in Hi as (row & <- & Hin).
      destruct (Hrow _ Hin) as [Hg0 _]. congruence.
    + rewrite Hne in Hg by done. congruence.
Qed.

Lemma recover_sending_evolves s settings now lease n u rs :
  table_wf (messages db) →
  recover_expired_external_dispatches s settings now lease n u db = (db', rs) → evolves db db'.
Proof using Hwf.
  intros Hm E. pose proof (sweep_batch_ok s
    (sending_expired (naive_utc now u - seconds (default (external_dispatch_lease_seconds settings) lease)))
    n db Hwf) as Hb.
  apply recover_rows_spec in E as (_ & Hwf' & _ & Hrow & Hne & _); [|done..].
  eapply (evolves_batch _ (λ row, to_unknown (lease_expired_reason row _) u row)); [|by apply Hrow|done..].
  intros row Hin. destruct (proj2 Hb row Hin) as [Hg He]. split; [done|].
  apply andb_prop in He as [Hs _]. bools. by apply (ds_outcome _ UNKNOWN (Some _)).
Qed.

Lemma recover_generations_evolves s settings now lease n u ids :
  recover_expired_generations s settings now lease n u db = (db', ids) → evolves db db'.
Proof using Hwf.
  intros E. pose proof (sweep_batch_ok s
    (generation_expired (naive_utc now u
       - seconds (default (external_dispatch_generation_lease_seconds settings) lease)))
    n db Hwf) as Hb.
  apply requeue_rows_spec in E as (_ & Hwf' & Hrow & Hne & _); [|done..].
  eapply (evolves_batch _ (mark_released QUEUED u)); [|by apply Hrow|done..].
  intros row Hin. destruct (proj2 Hb row Hin) as [Hg He]. split; [done|].
  apply andb_prop in He as [He _]. bools. by apply ds_requeued.
Qed.

End Operations.

#[export] Hint Resolve claim_send_evolves claim_generation_evolves finish_evolves
  complete_generation_evolves fail_generation_evolves annotate_evolves
  recover_sending_evolves recover_generations_evolves : mail.
