(* ===== verification/Sender.v ===== *)
(** * Outbound mail ([src/mailer_agent/mail/sender.py])

    [send_email] against an SMTP server.  The server's behaviour is an
    argument: for each connection attempt, which of the smtplib calls raise
    and what.  A run returns the result together with the trace of smtplib
    calls it made, so that theorems can speak about what was transmitted.
    Python exceptions are a class of smtplib's (or of the standard library's)
    hierarchy and the text [str(e)]; [BaseException]s that are not
    [Exception]s (an interrupt) are not represented. *)

From S2P Require Import Prelude Config.

(** ** Exceptions and their class hierarchy *)

Inductive exn_class :=
  | C_Exception
  | C_OSError
  | C_ConnectionError
  | C_TimeoutError
  | C_SMTPException
  | C_SMTPServerDisconnected
  | C_SMTPResponseException
  | C_SMTPConnectError
  | C_SMTPHeloError
  | C_SMTPAuthenticationError
  | C_SMTPSenderRefused
  | C_SMTPDataError
  | C_SMTPRecipientsRefused
  | C_SMTPNotSupportedError
  | C_AmbiguousSendError
  | C_ValueError
  | C_Other (name : string).
#[global] Instance exn_class_eq_dec : EqDecision exn_class.
Proof. solve_decision. Defined.

(** Immediate base class ([smtplib]: [SMTPException] derives from [OSError]). *)
Definition base_class (c : exn_class) : option exn_class :=
  match c with
  | C_Exception => None
  | C_OSError | C_AmbiguousSendError | C_ValueError | C_Other _ => Some C_Exception
  | C_ConnectionError | C_TimeoutError | C_SMTPException => Some C_OSError
  | C_SMTPServerDisconnected | C_SMTPResponseException
  | C_SMTPRecipientsRefused | C_SMTPNotSupportedError => Some C_SMTPException
  | C_SMTPConnectError | C_SMTPHeloError | C_SMTPAuthenticationError
  | C_SMTPSenderRefused | C_SMTPDataError => Some C_SMTPResponseException
  end.

(** [issubclass]: the hierarchy is at most four levels deep. *)
Fixpoint subclass_fuel (fuel : nat) (c d : exn_class) : bool :=
  (c == d) ||
  match fuel with
  | O => false
  | S k => match base_class c with None => false | Some b => subclass_fuel k b d end
  end.
Definition subclass : exn_class → exn_class → bool := subclass_fuel 5.

Record exn := mkExn { exn_cls : exn_class; exn_str : string }.
#[global] Instance exn_eq_dec : EqDecision exn.
Proof. solve_decision. Defined.

Definition isinstance (e : exn) (classes : list exn_class) : bool :=
  existsb (subclass (exn_cls e)) classes.

(** [type(e).__name__]. *)
Definition type_name (c : exn_class) : string :=
  match c with
  | C_Exception => "Exception" | C_OSError => "OSError"
  | C_ConnectionError => "ConnectionError" | C_TimeoutError => "TimeoutError"
  | C_SMTPException => "SMTPException"
  | C_SMTPServerDisconnected => "SMTPServerDisconnected"
  | C_SMTPResponseException => "SMTPResponseException"
  | C_SMTPConnectError => "SMTPConnectError" | C_SMTPHeloError => "SMTPHeloError"
  | C_SMTPAuthenticationError => "SMTPAuthenticationError"
  | C_SMTPSenderRefused => "SMTPSenderRefused" | C_SMTPDataError => "SMTPDataError"
  | C_SMTPRecipientsRefused => "SMTPRecipientsRefused"
  | C_SMTPNotSupportedError => "SMTPNotSupportedError"
  | C_AmbiguousSendError => "AmbiguousSendError" | C_ValueError => "ValueError"
  | C_Other n => n
  end.

Definition TRANSIENT_SMTP_ERRORS : list exn_class :=
  [C_SMTPServerDisconnected; C_SMTPConnectError; C_SMTPResponseException;
   C_ConnectionError; C_TimeoutError; C_OSError].

Definition EXPLICIT_REFUSAL_ERRORS : list exn_class :=
  [C_SMTPRecipientsRefused; C_SMTPSenderRefused; C_SMTPHeloError;
   C_SMTPAuthenticationError; C_SMTPNotSupportedError].

Definition is_retryable_smtp_error (e : exn) : bool :=
  isinstance e TRANSIENT_SMTP_ERRORS && negb (isinstance e EXPLICIT_REFUSAL_ERRORS).

(** ** Data *)

Record SmtpConfig := mkSmtpConfig {
  sc_host : string;
  sc_port : Z;
  sc_use_tls : bool;
  sc_username : string;
  sc_password : string
}.

Inductive SendOutcome := SO_SENT | SO_FAILED | SO_UNKNOWN.
#[global] Instance SendOutcome_eq_dec : EqDecision SendOutcome.
Proof. solve_decision. Defined.
Definition SendOutcome_value (o : SendOutcome) : string :=
  match o with SO_SENT => "sent" | SO_FAILED => "failed" | SO_UNKNOWN => "unknown" end.

Record SendResult := mkSendResult {
  sr_success : bool;
  sr_message_id : option string;
  sr_error : option string;
  sr_outcome : SendOutcome
}.

(** A MIME message: its headers in order and its text part. *)
Record MimeMessage := mkMime {
  mime_headers : list (string * string);
  mime_text : string
}.

(** ** Message identity *)

(** [email.utils.make_msgid]: centiseconds, process id and 64 random bits. *)
Record MsgidSeed := mkSeed { timeval : Z; seed_pid : Z; randint : Z }.

Definition make_msgid (seed : MsgidSeed) (domain : string) : string :=
  "<" +:+ pretty (timeval seed) +:+ "." +:+ pretty (seed_pid seed) +:+ "."
  +:+ pretty (randint seed) +:+ "@" +:+ domain +:+ ">".

(** [from_email.split("@")[-1] if "@" in from_email else "localhost"]. *)
Definition sender_domain (from_email : string) : string :=
  if Str.contains "@" from_email
  then default "" (last (Str.split_on "@"%char from_email))
  else "localhost".

Definition generate_message_id (seed : MsgidSeed) (from_email : string) : string :=
  make_msgid seed (sender_domain from_email).

Definition invalid_message_id (value : string) : bool :=
  (Str.len value <? 3)%nat
  || negb (Str.startswith "<" value && bool_decide (Str.last_char value = Some ">"%char))
  || Str.any_char (λ c, bool_decide (c = "013"%char) || bool_decide (c = "010"%char)
                        || bool_decide (c = "000"%char)) value
  || Str.any_char Str.isspace value.

Definition validate_message_id_header (value : string) : result exn string :=
  if invalid_message_id value
  then Err (mkExn C_ValueError ("invalid message_id_header: " +:+ Str.repr value))
  else Ok value.

(** ** The SMTP server and the calls made on it *)

(** How the smtplib calls of one connection behave; [None] means the call
    returns.  [at_sendmail] covers rendering the message ([as_string]) and the
    SMTP transaction; [at_exit] is QUIT and close when the [with] block ends. *)
Record Attempt := mkAttempt {
  at_connect : option exn;
  at_starttls : option exn;
  at_login : option exn;
  at_sendmail : option exn;
  at_exit : option exn
}.

Inductive smtp_event :=
  | EvConnect (host : string) (port : Z)
  | EvStartTls
  | EvLogin (username password : string)
  | EvSendmail (from to : string) (msg : MimeMessage) (res : option exn).

Definition is_sendmail (ev : smtp_event) : bool :=
  match ev with EvSendmail _ _ _ _ => true | _ => false end.

Definition smtp_config_or_default (settings : Settings) (cfg : option SmtpConfig) : SmtpConfig :=
  match cfg with
  | Some c => c
  | None => mkSmtpConfig (smtp_host settings) (smtp_port settings) (smtp_use_tls settings)
              (smtp_username settings) (smtp_password settings)
  end.

Definition ambiguous (e : exn) : exn :=
  mkExn C_AmbiguousSendError
    ("Error during SMTP transmission -- delivery status unknown: " +:+ exn_str e).

(** The inner [try] of the [with] block: STARTTLS, login, sendmail.  The error
    is what [body_error] remembers. *)
Definition smtp_body (cfg : SmtpConfig) (a : Attempt) (from to : string) (msg : MimeMessage)
    : result exn unit * list smtp_event :=
  let tls_events := if sc_use_tls cfg then [EvStartTls] else [] in
  match (if sc_use_tls cfg then at_starttls a else None) with
  | Some e => (Err e, tls_events)
  | None =>
      let login_events := tls_events ++ [EvLogin (sc_username cfg) (sc_password cfg)] in
      match at_login a with
      | Some e => (Err e, login_events)
      | None =>
          (match at_sendmail a with
           | None => Ok ()
           | Some e => Err (if isinstance e EXPLICIT_REFUSAL_ERRORS then e else ambiguous e)
           end,
           login_events ++ [EvSendmail from to msg (at_sendmail a)])
      end
  end.

(** The outer [except Exception as err]: the body's own error decides, an error
    of the teardown after acceptance is only logged. *)
Definition smtp_outer_handler (accepted : bool) (body_error : option exn) (err : exn)
    : result exn unit :=
  match body_error with
  | Some b => Err b
  | None => if accepted then Ok () else Err err
  end.

(** One run of the function body: connect, the [with] block, then [__exit__],
    whose error replaces the body's while it propagates. *)
Definition smtp_send_once (cfg : SmtpConfig) (a : Attempt) (from to : string) (msg : MimeMessage)
    : result exn unit * list smtp_event :=
  match at_connect a with
  | Some e => (smtp_outer_handler false None e, [EvConnect (sc_host cfg) (sc_port cfg)])
  | None =>
      let '(body, events) := smtp_body cfg a from to msg in
      let '(accepted, body_error) :=
        match body with Ok _ => (true, None) | Err e => (false, Some e) end in
      let escaped := match at_exit a with Some x => Some x | None => body_error end in
      (match escaped with
       | None => Ok ()
       | Some err => smtp_outer_handler accepted body_error err
       end,
       EvConnect (sc_host cfg) (sc_port cfg) :: events)
  end.

(** tenacity: one attempt and [more] further ones while the error is
    retryable; [reraise=True] surfaces the last error. *)
Fixpoint retrying (more : nat) (k : nat) (env : nat → Attempt) (cfg : SmtpConfig)
    (from to : string) (msg : MimeMessage) : result exn unit * list smtp_event :=
  let '(r, trace) := smtp_send_once cfg (env k) from to msg in
  match r with
  | Ok _ => (r, trace)
  | Err e =>
      if is_retryable_smtp_error e then
        match more with
        | O => (r, trace)
        | S m => let '(r', trace') := retrying m (S k) env cfg from to msg in (r', trace ++ trace')
        end
      else (r, trace)
  end.

(** [stop_after_attempt(3)]. *)
Definition smtp_send_with_retry (settings : Settings) (env : nat → Attempt) (msg : MimeMessage)
    (from_email to_email : string) (smtp_config : option SmtpConfig)
    : result exn unit * list smtp_event :=
  retrying 2 0 env (smtp_config_or_default settings smtp_config) from_email to_email msg.

(** ** [send_email] *)

Record SendArgs := mkSendArgs {
  sa_to_email : string;
  sa_from_email : string;
  sa_from_name : string;
  sa_subject : string;
  sa_body_text : string;
  sa_reply_to : option string;
  sa_in_reply_to_header : option string;
  sa_references_header : option string;
  sa_message_id_header : option string;
  sa_smtp_config : option SmtpConfig
}.

Definition header_if (name : string) (v : option string) : list (string * string) :=
  match v with None | Some "" => [] | Some s => [(name, s)] end.

Definition build_mime (args : SendArgs) (msg_id : string) : MimeMessage :=
  mkMime
    ([("Subject", sa_subject args);
      ("From", sa_from_name args +:+ " <" +:+ sa_from_email args +:+ ">");
      ("To", sa_to_email args);
      ("Message-ID", msg_id)]
     ++ header_if "Reply-To" (sa_reply_to args)
     ++ header_if "In-Reply-To" (sa_in_reply_to_header args)
     ++ (if truthy (sa_references_header args) then header_if "References" (sa_references_header args)
         else header_if "References" (sa_in_reply_to_header args)))
    (sa_body_text args).

Definition send_email (settings : Settings) (env : nat → Attempt) (seed : MsgidSeed) (args : SendArgs)
    : result exn SendResult * list smtp_event :=
  match (match sa_message_id_header args with
         | Some h => validate_message_id_header h
         | None => Ok (generate_message_id seed (sa_from_email args))
         end) with
  | Err e => (Err e, [])
  | Ok msg_id =>
      let msg := build_mime args msg_id in
      if negb (live_sending_enabled settings)
      then (Ok (mkSendResult true (Some msg_id) None SO_SENT), [])
      else
        let '(r, trace) := smtp_send_with_retry settings env msg (sa_from_email args)
                             (sa_to_email args) (sa_smtp_config args) in
        (Ok (match r with
             | Ok _ => mkSendResult true (Some msg_id) None SO_SENT
             | Err e =>
                 mkSendResult false (Some msg_id) (Some (exn_str e))
                   (if isinstance e [C_AmbiguousSendError] then SO_UNKNOWN else SO_FAILED)
             end), trace)
  end.

(** ** Lemmas: the transmission phase *)

Definition sendmails (trace : list smtp_event) : nat := length (List.filter is_sendmail trace).

Lemma sendmails_app t t' : sendmails (t ++ t') = (sendmails t + sendmails t')%nat.
Proof. unfold sendmails. by rewrite List.filter_app, length_app. Qed.

Lemma ambiguous_not_retryable e : is_retryable_smtp_error (ambiguous e) = false.
Proof. reflexivity. Qed.

Lemma ambiguous_isinstance e : isinstance (ambiguous e) [C_AmbiguousSendError] = true.
Proof. reflexivity. Qed.

Lemma refusal_not_retryable e :
  isinstance e EXPLICIT_REFUSAL_ERRORS = true → is_retryable_smtp_error e = false.
Proof. intros H. unfold is_retryable_smtp_error. by rewrite H, andb_false_r. Qed.

Lemma ambiguous_class e :
  isinstance e [C_AmbiguousSendError] = true → exn_cls e = C_AmbiguousSendError.
Proof. destruct e as [c s]; cbn. by destruct c. Qed.

(** What a connection to the configured server goes through before a message
    is handed over. *)
Definition session_of (cfg : SmtpConfig) : list smtp_event :=
  EvConnect (sc_host cfg) (sc_port cfg) ::
  (if sc_use_tls cfg then [EvStartTls] else []) ++ [EvLogin (sc_username cfg) (sc_password cfg)].

Lemma session_no_sendmail cfg : sendmails (session_of cfg) = 0%nat.
Proof. unfold session_of. by destruct (sc_use_tls cfg). Qed.

(** The four shapes of one attempt: it fails before the message is handed
    over; or the server accepts it; or refuses it; or the outcome is unknown.
    The teardown's own error never changes the verdict. *)
Lemma smtp_send_once_cases cfg a from to msg r trace :
  smtp_send_once cfg a from to msg = (r, trace) →
  (sendmails trace = 0%nat ∧ ∃ e, r = Err e ∧
     (at_connect a = Some e ∨ at_starttls a = Some e ∨ at_login a = Some e))
  ∨ (trace = session_of cfg ++ [EvSendmail from to msg (at_sendmail a)] ∧
       r = match at_sendmail a with
           | None => Ok ()
           | Some e => Err (if isinstance e EXPLICIT_REFUSAL_ERRORS then e else ambiguous e)
           end).
Proof.
  unfold smtp_send_once. destruct (at_connect a) as [e|] eqn:Ec.
  { intros [= <- <-]. left. split; [done|]. eauto. }
  unfold smtp_body.
  destruct (if sc_use_tls cfg then at_starttls a else None) as [e|] eqn:Et.
  { intros [= <- <-]. left. split; [by destruct (sc_use_tls cfg)|].
    exists e. destruct (sc_use_tls cfg); [|done]. split; [by destruct (at_exit a)|eauto]. }
  destruct (at_login a) as [e|] eqn:El.
  { intros [= <- <-]. left. split; [by destruct (sc_use_tls cfg)|].
    exists e. split; [by destruct (at_exit a)|eauto]. }
  destruct (at_sendmail a) as [e|] eqn:Es; intros [= <- <-]; right; (split; [done|by destruct (at_exit a)]).
Qed.

(** If the message was handed over, no further attempt is made. *)
Lemma sendmail_not_retried cfg a from to msg e trace :
  smtp_send_once cfg a from to msg = (Err e, trace) → is_retryable_smtp_error e = true →
  sendmails trace = 0%nat.
Proof.
  intros [(H & _)|(-> & Hr)]%smtp_send_once_cases Hret; [done|].
  destruct (at_sendmail a) as [x|]; [|done].
  destruct (isinstance x EXPLICIT_REFUSAL_ERRORS) eqn:E; injection Hr as ->; [|done].
  by rewrite (refusal_not_retryable x E) in Hret.
Qed.

(** The retry loop: a prefix of attempts that never reached sendmail, then one
    attempt whose result is the result of the loop. *)
Lemma retrying_last more : ∀ k env cfg from to msg r trace,
  retrying more k env cfg from to msg = (r, trace) →
  ∃ j pre last, (k ≤ j ≤ k + more)%nat ∧ trace = pre ++ last ∧ sendmails pre = 0%nat ∧
    smtp_send_once cfg (env j) from to msg = (r, last).
Proof.
  induction more as [|m IH]; intros k env cfg from to msg r trace; cbn;
    destruct (smtp_send_once cfg (env k) from to msg) as [[u|e] t0] eqn:E;
    try destruct (is_retryable_smtp_error e) eqn:Er;
    try (intros [= <- <-]; exists k, [], t0; split_and!; done || lia).
  destruct (retrying m (S k) env cfg from to msg) as [r1 t1] eqn:E1. intros [= <- <-].
  apply IH in E1 as (j & pre & last & Hj & -> & Hpre & Hs).
  exists j, (t0 ++ pre), last. rewrite sendmails_app, Hpre, (app_assoc t0).
  rewrite (sendmail_not_retried _ _ _ _ _ _ _ E Er). split_and!; done || lia.
Qed.

(** ** Outcome of [send_email] *)

Lemma send_email_live settings env seed args r trace :
  live_sending_enabled settings = true →
  send_email settings env seed args = (Ok r, trace) →
  ∃ msg_id j pre last v,
    (match sa_message_id_header args with
     | Some h => msg_id = h ∧ invalid_message_id h = false
     | None => msg_id = generate_message_id seed (sa_from_email args)
     end) ∧
    (j ≤ 2)%nat ∧ trace = pre ++ last ∧ sendmails pre = 0%nat ∧
    smtp_send_once (smtp_config_or_default settings (sa_smtp_config args)) (env j)
      (sa_from_email args) (sa_to_email args) (build_mime args msg_id) = (v, last) ∧
    r = match v with
        | Ok _ => mkSendResult true (Some msg_id) None SO_SENT
        | Err e => mkSendResult false (Some msg_id) (Some (exn_str e))
                     (if isinstance e [C_AmbiguousSendError] then SO_UNKNOWN else SO_FAILED)
        end.
Proof.
  intros Hlive. unfold send_email. rewrite Hlive. cbn [negb].
  destruct (match sa_message_id_header args with
            | Some h => validate_message_id_header h | None => _ end) as [msg_id|e] eqn:Em; [|done].
  destruct (smtp_send_with_retry _ _ _ _ _ _) as [v t] eqn:Er. intros [= <- <-].
  apply retrying_last in Er as (j & pre & last & Hj & -> & Hpre & Hs).
  exists msg_id, j, pre, last, v. split_and!; try done; [|lia].
  destruct (sa_message_id_header args) as [h|]; [|by injection Em as <-].
  unfold validate_message_id_header in Em. destruct (invalid_message_id h) eqn:Ei; [done|].
  by injection Em as <-.
Qed.

Lemma send_email_sendmails settings env seed args :
  (sendmails (snd (send_email settings env seed args)) ≤ 1)%nat.
Proof.
  destruct (live_sending_enabled settings) eqn:Hl.
  2: { unfold send_email. rewrite Hl. destruct (match sa_message_id_header args with
         | Some h => _ | None => _ end); cbn; lia. }
  destruct (send_email settings env seed args) as [[r|e] trace] eqn:E; cbn [snd].
  - apply send_email_live in E as (msg_id & j & pre & last & v & _ & _ & -> & Hpre & Hs & _); [|done].
    rewrite sendmails_app, Hpre.
    apply smtp_send_once_cases in Hs as [(-> & _)|(-> & _)]; [lia|].
    rewrite sendmails_app, session_no_sendmail. cbn. lia.
  - unfold send_email in E. rewrite Hl in E. cbn [negb] in E.
    destruct (match sa_message_id_header args with | Some h => _ | None => _ end).
    + destruct (smtp_send_with_retry _ _ _ _ _ _). done.
    + injection E as _ <-. cbn. lia.
Qed.

Lemma no_sendmail_In trace f t m res : sendmails trace = 0%nat → ¬ In (EvSendmail f t m res) trace.
Proof.
  intros Hn Hin. unfold sendmails in Hn. apply nil_length_inv in Hn.
  assert (In (EvSendmail f t m res) (List.filter is_sendmail trace)) as H
    by (apply filter_In; done).
  by rewrite Hn in H.
Qed.

Definition is_connect (ev : smtp_event) : bool :=
  match ev with EvConnect _ _ => true | _ => false end.
Definition connects (trace : list smtp_event) : nat := length (List.filter is_connect trace).

Lemma connects_app t t' : connects (t ++ t') = (connects t + connects t')%nat.
Proof. unfold connects. by rewrite List.filter_app, length_app. Qed.

Lemma smtp_send_once_connects cfg a from to msg : connects (snd (smtp_send_once cfg a from to msg)) = 1%nat.
Proof.
  unfold smtp_send_once. destruct (at_connect a); [done|]. unfold smtp_body.
  destruct (sc_use_tls cfg), (at_starttls a), (at_login a), (at_sendmail a), (at_exit a); cbn;
    repeat case_match; done.
Qed.

Lemma retrying_connects more : ∀ k env cfg from to msg,
  (connects (snd (retrying more k env cfg from to msg)) ≤ S more)%nat.
Proof.
  induction more as [|m IH]; intros k env cfg from to msg; cbn;
    pose proof (smtp_send_once_connects cfg (env k) from to msg) as Hc;
    destruct (smtp_send_once cfg (env k) from to msg) as [[u|e] t0]; cbn [snd] in *;
    try (destruct (is_retryable_smtp_error e)); cbn [snd] in *; try lia.
  specialize (IH (S k) env cfg from to msg).
  destruct (retrying m (S k) env cfg from to msg) as [r1 t1]. cbn [snd] in *.
  rewrite connects_app. lia.
Qed.

(** Every message handed over is the one built from the arguments. *)
Lemma send_email_payload settings env seed args f t m res :
  In (EvSendmail f t m res) (snd (send_email settings env seed args)) →
  f = sa_from_email args ∧ t = sa_to_email args ∧
  ∃ h, m = build_mime args h ∧
    match sa_message_id_header args with
    | Some h' => h = h'
    | None => h = generate_message_id seed (sa_from_email args)
    end.
Proof.
  destruct (live_sending_enabled settings) eqn:Hl.
  2: { unfold send_email. rewrite Hl. by destruct (match sa_message_id_header args with
         | Some h => _ | None => _ end). }
  destruct (send_email settings env seed args) as [[r|e] trace] eqn:E; cbn [snd].
  - apply send_email_live in E as (msg_id & j & pre & last & v & Hid & _ & -> & Hpre & Hs & _); [|done].
    intros [Hin|Hin]%in_app_or; [by apply no_sendmail_In in Hin|].
    apply smtp_send_once_cases in Hs as [(Hn & _)|(-> & _)];
      [by apply no_sendmail_In in Hin|].
    apply in_app_or in Hin as [Hin|[[= <- <- <- <-]|[]]];
      [by apply no_sendmail_In in Hin; [|apply session_no_sendmail]|].
    split_and!; [done..|]. exists msg_id. split; [done|].
    destruct (sa_message_id_header args); [by destruct Hid|done].
  - unfold send_email in E. rewrite Hl in E. cbn [negb] in E.
    destruct (match sa_message_id_header args with | Some h => _ | None => _ end).
    + by destruct (smtp_send_with_retry _ _ _ _ _ _).
    + by injection E as _ <-.
Qed.

(** C21: whatever the SMTP server does, one call of [send_email] hands the
    message to the server at most once: connection failures may be retried,
    but once [sendmail] was called (accepted, refused or ambiguous) no further
    attempt follows; at most three connections are opened. *)
Theorem send_email_transmits_at_most_once settings env seed args :
  (sendmails (snd (send_email settings env seed args)) ≤ 1)%nat ∧
  (connects (snd (send_email settings env seed args)) ≤ 3)%nat.
Proof.
  split; [apply send_email_sendmails|]. unfold send_email.
  destruct (match sa_message_id_header args with | Some h => _ | None => _ end); [|cbn; lia].
  destruct (negb _); [cbn; lia|]. unfold smtp_send_with_retry.
  match goal with |- context [retrying 2 0 env ?cfg ?f ?t ?m] =>
    pose proof (retrying_connects 2 0 env cfg f t m) as Hc; destruct (retrying 2 0 env cfg f t m) end.
  exact Hc.
Qed.

(** smtplib does not raise this module's own exception class. *)
Definition smtplib_errors (env : nat → Attempt) : Prop :=
  ∀ k e, at_connect (env k) = Some e ∨ at_starttls (env k) = Some e ∨ at_login (env k) = Some e →
         exn_cls e ≠ C_AmbiguousSendError.

(** What an outcome says about the transmission of [msg] over a connection to
    the server of [cfg]. *)
Definition outcome_evidence (cfg : SmtpConfig) (o : SendOutcome) (from to : string) (msg : MimeMessage)
    (trace : list smtp_event) : Prop :=
  match o with
  | SO_SENT => ∃ pre, trace = pre ++ session_of cfg ++ [EvSendmail from to msg None]
  | SO_FAILED => ∀ f t m res, In (EvSendmail f t m res) trace →
                   ∃ e, res = Some e ∧ isinstance e EXPLICIT_REFUSAL_ERRORS = true
  | SO_UNKNOWN => ∃ pre e, trace = pre ++ session_of cfg ++ [EvSendmail from to msg (Some e)] ∧
                   isinstance e EXPLICIT_REFUSAL_ERRORS = false
  end.

(** Evidence of the last attempt carries over to the whole trace. *)
Lemma outcome_evidence_prefix cfg o from to msg pre last :
  sendmails pre = 0%nat → outcome_evidence cfg o from to msg last →
  outcome_evidence cfg o from to msg (pre ++ last).
Proof.
  intros Hpre. destruct o; cbn.
  - intros [p ->]. exists (pre ++ p). by rewrite (app_assoc pre).
  - intros H f t m res [Hin|Hin]%in_app_or; [|by eapply H].
    by apply no_sendmail_In in Hin.
  - intros (p & e & -> & He). exists (pre ++ p), e. by rewrite (app_assoc pre).
Qed.

Lemma smtp_send_once_evidence cfg a from to msg v trace :
  (∀ e, at_connect a = Some e ∨ at_starttls a = Some e ∨ at_login a = Some e →
        exn_cls e ≠ C_AmbiguousSendError) →
  smtp_send_once cfg a from to msg = (v, trace) →
  outcome_evidence cfg
    (match v with
     | Ok _ => SO_SENT
     | Err e => if isinstance e [C_AmbiguousSendError] then SO_UNKNOWN else SO_FAILED
     end) from to msg trace.
Proof.
  pose proof (session_no_sendmail cfg) as Hn'.
  intros Hlib [(Hn & e & -> & He)|(-> & ->)]%smtp_send_once_cases.
  - destruct (isinstance e [C_AmbiguousSendError]) eqn:E.
    + apply ambiguous_class in E. by apply Hlib in He.
    + intros f t m res Hin. by apply no_sendmail_In in Hin.
  - destruct (at_sendmail a) as [e|]; [|by exists []].
    destruct (isinstance e EXPLICIT_REFUSAL_ERRORS) eqn:E.
    + destruct (isinstance e [C_AmbiguousSendError]) eqn:E'.
      { apply ambiguous_class in E'. destruct e as [c s]; cbn in E'. by subst. }
      intros f t m res [Hin|[[= <- <- <- <-]|[]]]%in_app_or; [by apply no_sendmail_In in Hin|eauto].
    + rewrite ambiguous_isinstance. by exists [], e.
Qed.

(** What [send_email] answers.  It raises only for a given Message-ID that is
    not valid, before anything is sent.  Otherwise it reports the Message-ID
    given, or the one generated, and success exactly when the outcome is SENT;
    with live sending off no connection is made and SENT is reported all the
    same; with live sending on the outcome has its evidence on the wire. *)
Definition send_justified (settings : Settings) (seed : MsgidSeed) (args : SendArgs)
    (res : result exn SendResult) (trace : list smtp_event) : Prop :=
  match res with
  | Err _ => trace = [] ∧ ∃ h, sa_message_id_header args = Some h ∧ invalid_message_id h = true
  | Ok r =>
      let msg_id := default (generate_message_id seed (sa_from_email args)) (sa_message_id_header args) in
      sr_message_id r = Some msg_id ∧ sr_success r = bool_decide (sr_outcome r = SO_SENT) ∧
      if live_sending_enabled settings
      then outcome_evidence (smtp_config_or_default settings (sa_smtp_config args)) (sr_outcome r)
             (sa_from_email args) (sa_to_email args) (build_mime args msg_id) trace
      else sr_outcome r = SO_SENT ∧ trace = []
  end.

Lemma send_email_justified settings env seed args res trace :
  smtplib_errors env → send_email settings env seed args = (res, trace) →
  send_justified settings seed args res trace.
Proof.
  intros Hlib. destruct res as [r|x]; cbn.
  - destruct (live_sending_enabled settings) eqn:Hl; intros E.
    + apply send_email_live in E as (msg_id & j & pre & last & v & Hid & _ & -> & Hpre & Hs & ->); [|done].
      assert (msg_id = default (generate_message_id seed (sa_from_email args)) (sa_message_id_header args)) as <-
        by (destruct (sa_message_id_header args); [by destruct Hid|done]).
      split_and!; [by destruct v|by destruct v as [|e]; [|cbn [sr_success sr_outcome]; destruct (isinstance e _)]|].
      apply outcome_evidence_prefix; [done|].
      apply smtp_send_once_evidence in Hs; [by destruct v|apply Hlib].
    + unfold send_email, validate_message_id_header in E. rewrite Hl in E.
      destruct (sa_message_id_header args) as [h|]; [destruct (invalid_message_id h)|]; cbn in E; [done|by injection E as <- <-..].
  - unfold send_email, validate_message_id_header.
    destruct (sa_message_id_header args) as [h|]; [destruct (invalid_message_id h) eqn:Ei|].
    1: { intros [= _ <-]. eauto. }
    all: destruct (negb _); [done|]; by destruct (smtp_send_with_retry _ _ _ _ _ _).
Qed.

(** C22: every answer of [send_email] is justified, in both modes, for every
    behaviour of the SMTP server in which smtplib does not itself raise this
    module's [AmbiguousSendError].  The call raises only for a given
    Message-ID that is not valid, before anything is sent; the result carries
    the given (or the generated) Message-ID, and success exactly when the
    outcome is SENT.  With live sending enabled, the outcome is backed by what
    happened on the wire: SENT, a connection to the configured server (the one
    passed, else the deployment's) accepted exactly this message; FAILED,
    every hand-over, if there was any, was explicitly refused; UNKNOWN, the
    message was handed to that server and the call failed without an explicit
    refusal.  With live sending disabled (dry run) no network call is made and
    SENT is reported. *)
Theorem send_email_outcome_justified settings env seed args :
  smtplib_errors env →
  send_justified settings seed args (fst (send_email settings env seed args)) (snd (send_email settings env seed args)).
Proof. intros Hlib. apply (send_email_justified settings env); [done|apply surjective_pairing]. Qed.

(** The caller's Message-ID is the one transmitted: with a valid
    [message_id_header] the result and the Message-ID header of every
    transmitted message carry exactly that value. *)
Theorem send_email_uses_given_message_id settings env seed args h :
  sa_message_id_header args = Some h → invalid_message_id h = false →
  ∃ r, fst (send_email settings env seed args) = Ok r ∧ sr_message_id r = Some h ∧
    ∀ f t m res, In (EvSendmail f t m res) (snd (send_email settings env seed args)) →
      assoc "Message-ID" (mime_headers m) = Some h ∧ mime_text m = sa_body_text args.
Proof.
  intros Hh Hv.
  destruct (live_sending_enabled settings) eqn:Hl.
  2: { unfold send_email, validate_message_id_header. rewrite Hh, Hv, Hl.
       eexists. by split_and!; [| |intros ? ? ? ? []]. }
  destruct (send_email settings env seed args) as [[r|e] trace] eqn:E; cbn [fst snd].
  2: { unfold send_email, validate_message_id_header in E. rewrite Hh, Hv, Hl in E. cbn [negb] in E.
       by destruct (smtp_send_with_retry _ _ _ _ _ _). }
  apply send_email_live in E as (msg_id & j & pre & last & v & Hid & _ & -> & Hpre & Hs & ->); [|done].
  rewrite Hh in Hid. destruct Hid as [-> _]. eexists. split_and!; [done|by destruct v|].
  intros f t m res [Hin|Hin]%in_app_or; [by apply no_sendmail_In in Hin|].
  apply smtp_send_once_cases in Hs as [(Hn & _)|(-> & _)];
    [by apply no_sendmail_In in Hin|].
  apply in_app_or in Hin as [Hin|[[= <- <- <- <-]|[]]];
      [by apply no_sendmail_In in Hin; [|apply session_no_sendmail]|].
  done.
Qed.

(** In dry-run mode ([LIVE_SENDING_ENABLED] off) [send_email] makes no
    network call at all and yet reports SENT. *)
Theorem send_email_dry_run settings env seed args r trace :
  live_sending_enabled settings = false →
  send_email settings env seed args = (Ok r, trace) →
  trace = [] ∧ sr_outcome r = SO_SENT ∧ sr_success r = true.
Proof.
  intros Hl. unfold send_email. rewrite Hl.
  destruct (match sa_message_id_header args with | Some h => _ | None => _ end); cbn; [|done].
  by intros [= <- <-].
Qed.

(** *** Witnesses *)

(** First connection refused, second one loses the connection during DATA. *)
Definition flaky_server (k : nat) : Attempt :=
  match k with
  | O => mkAttempt (Some (mkExn C_ConnectionError "refused")) None None None None
  | _ => mkAttempt None None None (Some (mkExn C_SMTPServerDisconnected "lost"))
           (Some (mkExn C_SMTPResponseException "quit"))
  end.

Definition sample_args : SendArgs :=
  mkSendArgs "to@x.io" "me@y.io" "Me" "Hi" "Body" None None None (Some "<1.2.3@y.io>") None.

Definition sample_seed : MsgidSeed := mkSeed 1 2 3.

Lemma send_email_outcome_justified_witness :
  ∃ r trace, send_email live_settings flaky_server sample_seed sample_args = (Ok r, trace) ∧
    sr_outcome r = SO_UNKNOWN ∧
    outcome_evidence (smtp_config_or_default live_settings None) SO_UNKNOWN "me@y.io" "to@x.io"
      (build_mime sample_args "<1.2.3@y.io>") trace.
Proof.
  eexists _, _. split; [vm_compute; reflexivity|]. split; [reflexivity|].
  exact (proj2 (proj2 (send_email_outcome_justified live_settings flaky_server sample_seed sample_args
    ltac:(intros [|k] e; cbn; intros [H|[H|H]]; inversion H; subst; discriminate)))).
Defined.

Lemma send_email_uses_given_message_id_witness :
  ∃ r, fst (send_email live_settings flaky_server sample_seed sample_args) = Ok r ∧
       sr_message_id r = Some "<1.2.3@y.io>".
Proof.
  destruct (send_email_uses_given_message_id live_settings flaky_server sample_seed sample_args
    "<1.2.3@y.io>" eq_refl ltac:(vm_compute; reflexivity)) as (r & Hr & Hid & _).
  exists r. split; assumption.
Defined.

Lemma send_email_dry_run_witness :
  ∃ r trace, send_email default_settings flaky_server sample_seed sample_args = (Ok r, trace) ∧
    trace = [].
Proof.
  eexists _, _. split; [vm_compute; reflexivity|].
  apply (send_email_dry_run default_settings flaky_server sample_seed sample_args _ _
    eq_refl eq_refl).
Defined.
