(* ===== verification/Regex.v ===== *)
(** * Regular expressions as Python's [re] runs them

    The fragment of [re] the program's patterns use: characters and classes,
    sequence, ordered alternation, greedy repetition, [\b].  [m] is the
    backtracking matcher (leftmost, first alternative first, greedy), in
    continuation style; [finditer] scans for non-overlapping matches. *)

From S2P Require Import Prelude.

Inductive re :=
  | Eps
  | Chr (p : ascii → bool)
  | Seq (a b : re)
  | Alt (a b : re)
  | Star (a : re)
  | WordB.

(** The matcher's position: the character before it, the text after it and
    its offset. *)
Record pos := mkPos { prev : option ascii; rest : list ascii; off : nat }.

Definition is_word (o : option ascii) : bool :=
  match o with None => false | Some c => Str.isword c end.

(** [\b]: exactly one side is a word character. *)
Definition at_boundary (p : pos) : bool :=
  xorb (is_word (prev p)) (is_word (head (rest p))).

(** Greedy repetition of a step that must make progress. *)
Fixpoint star_loop (step : pos → (pos → option pos) → option pos) (fuel : nat) (p : pos)
    (k : pos → option pos) : option pos :=
  match fuel with
  | O => k p
  | S n =>
      match step p (λ q, if (off p <? off q)%nat then star_loop step n q k else None) with
      | Some r => Some r
      | None => k p
      end
  end.

Fixpoint m (r : re) (p : pos) (k : pos → option pos) : option pos :=
  match r with
  | Eps => k p
  | Chr f =>
      match rest p with
      | c :: cs => if f c then k (mkPos (Some c) cs (S (off p))) else None
      | [] => None
      end
  | Seq a b => m a p (λ q, m b q k)
  | Alt a b => match m a p k with Some x => Some x | None => m b p k end
  | Star a => star_loop (m a) (length (rest p)) p k
  | WordB => if at_boundary p then k p else None
  end.

(** [pattern.match] at a position: the end of the match. *)
Definition match_at (r : re) (p : pos) : option pos := m r p Some.

Definition advance (p : pos) : option pos :=
  match rest p with [] => None | c :: cs => Some (mkPos (Some c) cs (S (off p))) end.

Definition start_pos (s : string) : pos := mkPos None (String.list_ascii_of_string s) 0.

(** [pattern.finditer(s)]: the spans of the matches, left to right; [fuel]
    bounds the number of positions visited. *)
Fixpoint scan (r : re) (fuel : nat) (p : pos) : list (nat * nat) :=
  match fuel with
  | O => []
  | S n =>
      match match_at r p with
      | Some q =>
          (off p, off q) ::
          (if (off p <? off q)%nat then scan r n q
           else match advance p with Some p' => scan r n p' | None => [] end)
      | None => match advance p with Some p' => scan r n p' | None => [] end
      end
  end.

Definition finditer (r : re) (s : string) : list (nat * nat) :=
  scan r (S (String.length s)) (start_pos s).

(** [bool(pattern.search(s))]. *)
Definition search (r : re) (s : string) : bool :=
  match finditer r s with [] => false | _ => true end.

(** [s[i:j]]. *)
Definition slice (i j : nat) (s : string) : string := String.substring i (j - i) s.

(** ** Pattern notation *)

Definition one (c : ascii) : re := Chr (λ x, bool_decide (x = c)).
(** A literal under [re.IGNORECASE]. *)
Definition ichar (c : ascii) : re :=
  Chr (λ x, bool_decide (Str.lower_ascii x = Str.lower_ascii c)).
Fixpoint ilit (s : string) : re :=
  match s with
  | "" => Eps
  | String c "" => ichar c
  | String c r => Seq (ichar c) (ilit r)
  end.
Fixpoint lit (s : string) : re :=
  match s with
  | "" => Eps
  | String c "" => one c
  | String c r => Seq (one c) (lit r)
  end.
Definition digit : re := Chr Str.isdigit.
Definition space : re := Chr Str.isspace.
Definition plus (r : re) : re := Seq r (Star r).
Definition opt (r : re) : re := Alt r Eps.
Fixpoint seqs (l : list re) : re :=
  match l with [] => Eps | [r] => r | r :: t => Seq r (seqs t) end.
Fixpoint alts (l : list re) : re :=
  match l with [] => Eps | [r] => r | r :: t => Alt r (alts t) end.
Definition ilits (l : list string) : re := alts (map ilit l).

(** ** Facts about matching

    A pattern made of a literal between word boundaries is found exactly when
    the text splits around an occurrence whose two ends are boundaries. *)

Fixpoint eat (s : list ascii) (p : pos) : option pos :=
  match s with
  | [] => Some p
  | c :: cs =>
      match rest p with
      | x :: xs => if bool_decide (x = c) then eat cs (mkPos (Some x) xs (S (off p))) else None
      | [] => None
      end
  end.

Lemma m_lit s p k :
  m (lit s) p k = match eat (String.list_ascii_of_string s) p with Some q => k q | None => None end.
Proof.
  revert p. induction s as [|c s IH]; intros p; [done|].
  destruct s as [|c' s'].
  - cbn. destruct (rest p); [done|]. by case_bool_decide.
  - cbn [lit m String.list_ascii_of_string eat one]. destruct (rest p) as [|x xs]; [done|].
    case_bool_decide; [|done]. apply IH.
Qed.

Lemma eat_spec w p q :
  eat w p = Some q ↔
  rest p = w ++ rest q ∧ off q = (off p + length w)%nat ∧
  prev q = match last w with Some c => Some c | None => prev p end.
Proof.
  revert p. induction w as [|c w IH]; intros p; cbn [eat].
  - split; [intros [= ->]; cbn; split_and!; [done|lia|done]|].
    intros (Hr & Ho & Hp). cbn in *. destruct p, q; cbn in *. subst. f_equal. f_equal. lia.
  - destruct (rest p) as [|x xs] eqn:E.
    + split; [done|]. by intros (Hr & _).
    + case_bool_decide as Hx.
      * subst x. rewrite IH. cbn [rest off prev length].
        rewrite last_cons. split; intros (Hr & Ho & Hp); split_and!; try (cbn in *; lia).
        -- cbn. by f_equal.
        -- by destruct (last w).
        -- cbn in Hr. by injection Hr as ->.
        -- by destruct (last w).
      * split; [done|]. intros (Hr & _). cbn in Hr. by injection Hr as ->.
Qed.

(** The text around a position: [l] before, [rest] after. *)
Definition pos_after (l rst : list ascii) : pos := mkPos (last l) rst (length l).

(** A whole-token occurrence of [w] in [t]. *)
Definition token_in (w t : list ascii) : Prop :=
  ∃ l r, t = l ++ w ++ r ∧
    xorb (is_word (last l)) (is_word (head (w ++ r))) = true ∧
    xorb (is_word (last (l ++ w))) (is_word (head r)) = true.

Definition token_re (s : string) : re := Seq WordB (Seq (lit s) WordB).

Lemma match_token s l rst :
  s ≠ "" →
  is_Some (match_at (token_re s) (pos_after l rst)) ↔
  ∃ r, rst = String.list_ascii_of_string s ++ r ∧
       xorb (is_word (last l)) (is_word (head rst)) = true ∧
       xorb (is_word (last (l ++ String.list_ascii_of_string s))) (is_word (head r)) = true.
Proof.
  intros Hs. unfold match_at, token_re. cbn [m]. unfold at_boundary. cbn [prev rest pos_after].
  set (w := String.list_ascii_of_string s).
  assert (w ≠ []) as Hw by (destruct s; done).
  assert (∀ l' : list ascii, last (l' ++ w) = last w) as Hlast.
  { intros l'. rewrite last_app. destruct (last w) eqn:E; [done|]. by apply last_None in E. }
  rewrite Hlast, m_lit. fold w.
  destruct (xorb (is_word (last l)) (is_word (head rst))) eqn:Eb.
  2: { split; [by intros []|]. by intros (r & _ & ? & _). }
  destruct (eat w (pos_after l rst)) as [q|] eqn:Eq.
  - apply eat_spec in Eq as (Hr & _ & Hp). cbn in Hr, Hp. unfold at_boundary.
    assert (prev q = last w) as ->.
    { rewrite Hp. destruct (last w) eqn:E; [done|]. by apply last_None in E. }
    split.
    + intros [x Hx]. exists (rest q). split_and!; [done..|]. by case_match.
    + intros (r & Hr' & _ & Hb). rewrite Hr' in Hr. apply app_inv_head in Hr as <-. rewrite Hb. eauto.
  - split; [by intros []|]. intros (r & -> & _ & _). exfalso.
    assert (eat w (pos_after l (w ++ r)) = Some (mkPos (last w) r (length l + length w))) as E.
    { apply eat_spec. cbn. split_and!; [done|done|]. destruct (last w) eqn:E; [done|].
      by apply last_None in E. }
    congruence.
Qed.

Lemma advance_after l c cs : advance (pos_after l (c :: cs)) = Some (pos_after (l ++ [c]) cs).
Proof.
  unfold advance, pos_after. cbn. rewrite last_snoc, length_app. cbn. do 2 f_equal. lia.
Qed.

Lemma scan_nil r rst : ∀ l fuel,
  (length rst < fuel)%nat →
  scan r fuel (pos_after l rst) = [] ↔
  ∀ l' r', rst = l' ++ r' → match_at r (pos_after (l ++ l') r') = None.
Proof.
  induction rst as [|c cs IH]; intros l fuel Hf; (destruct fuel as [|n]; [lia|]); cbn [scan].
  - destruct (match_at r (pos_after l [])) as [q|] eqn:E; cbn.
    + split; [done|]. intros H. specialize (H [] [] eq_refl). rewrite app_nil_r in H. congruence.
    + split; [|done]. intros _ l' r' [-> ->]%eq_sym%app_eq_nil. by rewrite app_nil_r.
  - destruct (match_at r (pos_after l (c :: cs))) as [q|] eqn:E.
    + split; [done|]. intros H. specialize (H [] (c :: cs) eq_refl).
      rewrite app_nil_r in H. congruence.
    + rewrite advance_after. rewrite IH by (cbn in Hf; lia). split.
      * intros H [|c' l'] r'; cbn.
        -- intros <-. by rewrite app_nil_r.
        -- intros [= -> ->]. specialize (H l' r' eq_refl). by rewrite <- app_assoc in H.
      * intros H l' r' ->. specialize (H (c :: l') r' eq_refl). by rewrite <- app_assoc.
Qed.

(** [search] finds a match exactly when some position of the text has one. *)
Lemma search_spec r s :
  search r s = true ↔
  ∃ l rst, String.list_ascii_of_string s = l ++ rst ∧ is_Some (match_at r (pos_after l rst)).
Proof.
  unfold search, finditer.
  change (start_pos s) with (pos_after [] (String.list_ascii_of_string s)).
  assert (length (String.list_ascii_of_string s) < S (String.length s))%nat as Hlen.
  { clear. induction s as [|c s IH]; cbn in *; lia. }
  pose proof (scan_nil r (String.list_ascii_of_string s) [] _ Hlen) as H.
  destruct (scan _ _ _) as [|x xs] eqn:E.
  - split; [done|]. intros (l & rst & Hs & [q Hq]).
    pose proof (proj1 H eq_refl l rst Hs) as Hn. cbn in Hn. congruence.
  - split; [intros _|done]. clear E.
    destruct (decide (Exists (λ n, is_Some (match_at r
      (pos_after (take n (String.list_ascii_of_string s)) (drop n (String.list_ascii_of_string s)))))
      (seq 0 (S (length (String.list_ascii_of_string s)))))) as [He|He].
    + apply Exists_exists in He as (n & _ & Hn).
      exists (take n (String.list_ascii_of_string s)), (drop n (String.list_ascii_of_string s)).
      by rewrite take_drop.
    + exfalso. assert (x :: xs = []) as Hx; [|done]. apply H. intros l' r' Hs. cbn.
      destruct (match_at r (pos_after l' r')) eqn:Em; [|done]. exfalso. apply He.
      apply Exists_exists. exists (length l'). rewrite Hs, take_app_length, drop_app_length, Em.
      split; [|eauto]. apply elem_of_seq. rewrite length_app. lia.
Qed.

(** Searching for a whole token. *)
Lemma search_token s t :
  s ≠ "" →
  search (token_re s) t = true ↔
  token_in (String.list_ascii_of_string s) (String.list_ascii_of_string t).
Proof.
  intros Hs. rewrite search_spec. split.
  - intros (l & rst & Ht & Hm). apply match_token in Hm as (r & -> & H1 & H2); [|done].
    exists l, r. done.
  - intros (l & r & Ht & H1 & H2). exists l, (String.list_ascii_of_string s ++ r). split; [done|].
    apply match_token; eauto.
Qed.

(** A token stays a token when the text is extended by separators that are
    not word characters. *)
Lemma token_in_extend w t pre post :
  w ≠ [] → is_word (last pre) = false → is_word (head post) = false →
  token_in w t → token_in w (pre ++ t ++ post).
Proof.
  intros Hw Hpre Hpost (l & r & -> & H1 & H2). exists (pre ++ l), (r ++ post).
  split_and!.
  - by rewrite !app_assoc.
  - destruct w as [|c w]; [done|]. cbn in *. rewrite last_app. destruct (last l); [done|].
    by rewrite Hpre.
  - assert (last ((pre ++ l) ++ w) = last (l ++ w)) as ->.
    { rewrite !last_app. destruct (last w) eqn:E; [done|]. by apply last_None in E. }
    destruct r as [|c r]; cbn in *; [by rewrite Hpost|done].
Qed.

(** ** What a match consumes *)

(** Every character class of the pattern lies within [P]. *)
Fixpoint re_within (P : ascii → Prop) (r : re) : Prop :=
  match r with
  | Eps | WordB => True
  | Chr f => ∀ c, f c = true → P c
  | Seq a b | Alt a b => re_within P a ∧ re_within P b
  | Star a => re_within P a
  end.

(** Length of the shortest match. *)
Fixpoint re_min (r : re) : nat :=
  match r with
  | Eps | WordB | Star _ => 0
  | Chr _ => 1
  | Seq a b => re_min a + re_min b
  | Alt a b => Nat.min (re_min a) (re_min b)
  end.

(** [q] is reached from [p] by consuming [w]. *)
Definition consumes (p : pos) (w : list ascii) (q : pos) : Prop :=
  rest p = w ++ rest q ∧ off q = (off p + length w)%nat.

Lemma consumes_trans p w q w' r : consumes p w q → consumes q w' r → consumes p (w ++ w') r.
Proof.
  intros [H1 H2] [H3 H4]. split; [by rewrite H1, H3, app_assoc|]. rewrite length_app. lia.
Qed.

(** A matcher whose successes consume a word of [P] of length at least [n]. *)
Definition sound_step (P : ascii → Prop) (n : nat)
    (step : pos → (pos → option pos) → option pos) : Prop :=
  ∀ p k x, step p k = Some x →
    ∃ q w, k q = Some x ∧ consumes p w q ∧ Forall P w ∧ (n ≤ length w)%nat.

Lemma star_loop_sound P n step fuel :
  sound_step P n step → sound_step P 0 (star_loop step fuel).
Proof.
  intros Hs. induction fuel as [|f IH]; intros p k x; cbn [star_loop].
  - intros Hk. exists p, []. split_and!; [done|by split; cbn; [|lia]|constructor|cbn; lia].
  - destruct (step p _) as [y|] eqn:E.
    + intros [= ->]. apply Hs in E as (q & w & Hq & Hc & Hw & _).
      destruct (off p <? off q)%nat; [|done].
      apply IH in Hq as (q' & w' & Hk & Hc' & Hw' & _).
      exists q', (w ++ w'). split_and!; [done|by eauto using consumes_trans|by apply Forall_app|lia].
    + intros Hk. exists p, []. split_and!; [done|by split; cbn; [|lia]|constructor|cbn; lia].
Qed.

Lemma m_sound P r : re_within P r → sound_step P (re_min r) (m r).
Proof.
  induction r as [|f|a IHa b IHb|a IHa b IHb|a IHa|]; cbn [re_within re_min];
    intros HP p k x; cbn [m].
  - intros Hk. exists p, []. split_and!; [done|by split; cbn; [|lia]|constructor|cbn; lia].
  - destruct (rest p) as [|c cs] eqn:Er; [done|]. destruct (f c) eqn:Ef; [|done].
    intros Hk. exists (mkPos (Some c) cs (S (off p))), [c].
    split_and!; [done|split; cbn; [done|lia]|by constructor; [apply HP|]|cbn; lia].
  - destruct HP as [Ha Hb]. intros H.
    apply (IHa Ha) in H as (q & w & H & Hc & Hw & Hn).
    apply (IHb Hb) in H as (q' & w' & H & Hc' & Hw' & Hn').
    exists q', (w ++ w'). split_and!; [done|by eauto using consumes_trans|by apply Forall_app|].
    rewrite length_app. lia.
  - destruct HP as [Ha Hb]. destruct (m a p k) as [y|] eqn:E.
    + intros [= ->]. apply (IHa Ha) in E as (q & w & ? & ? & ? & ?). exists q, w.
      split_and!; [done..|lia].
    + intros H. apply (IHb Hb) in H as (q & w & ? & ? & ? & ?). exists q, w.
      split_and!; [done..|lia].
  - apply (star_loop_sound P (re_min a)). by apply IHa.
  - destruct (at_boundary p); [|done]. intros Hk. exists p, [].
    split_and!; [done|by split; cbn; [|lia]|constructor|cbn; lia].
Qed.

(** Positions of a scan stay inside the text. *)
Definition inside (t : list ascii) (p : pos) : Prop :=
  rest p = drop (off p) t ∧ (off p ≤ length t)%nat.

Lemma consumes_inside t p w q : inside t p → consumes p w q →
  inside t q ∧ w = take (off q - off p) (drop (off p) t).
Proof.
  intros [Hr Ho] [Hc Hl].
  assert (length (drop (off p) t) = (length w + length (rest q))%nat) as Hlen
    by (by rewrite <- Hr, Hc, length_app).
  rewrite length_drop in Hlen. split; [split|].
  - rewrite Hl, <- drop_drop, <- Hr, Hc. by rewrite drop_app_length.
  - lia.
  - rewrite <- Hr, Hc, Hl. replace (off p + length w - off p)%nat with (length w) by lia.
    by rewrite take_app_length.
Qed.

Lemma scan_spans P r t fuel : re_within P r → ∀ p, inside t p →
  ∀ i j, In (i, j) (scan r fuel p) →
    (i + re_min r ≤ j ≤ length t)%nat ∧ Forall P (take (j - i) (drop i t)).
Proof.
  intros HP. induction fuel as [|n IH]; intros p Hp i j; cbn [scan]; [done|].
  assert (∀ p', advance p = Some p' → inside t p') as Hadv.
  { unfold advance. intros p'. destruct (rest p) as [|c cs] eqn:E; [done|]. intros [= <-].
    destruct (consumes_inside t p [c] (mkPos (Some c) cs (S (off p)))) as [H _]; [done| |done].
    split; cbn; [done|lia]. }
  destruct (match_at r p) as [q|] eqn:E.
  - apply (m_sound P r HP) in E as (q' & w & [= ->] & Hc & Hw & Hn).
    destruct (consumes_inside _ _ _ _ Hp Hc) as [Hq ->].
    pose proof Hq as Hin_q. destruct Hp as [_ Hop], Hq as [_ Hoq], Hc as [_ Hl].
    intros [[= <- <-]|Hin].
    + split; [|done]. split; lia.
    + destruct (off p <? off q)%nat.
      * by eapply IH.
      * destruct (advance p) eqn:Ea; [|done]. eauto.
  - destruct (advance p) eqn:Ea; [|done]. eauto.
Qed.

Lemma list_ascii_app a b :
  String.list_ascii_of_string (a +:+ b)
  = String.list_ascii_of_string a ++ String.list_ascii_of_string b.
Proof. induction a as [|c a IH]; [done|]. rewrite string_app_cons. cbn. by rewrite IH. Qed.

Lemma list_ascii_length s : length (String.list_ascii_of_string s) = String.length s.
Proof. induction s; cbn; [done|lia]. Qed.

Lemma list_ascii_substring s : ∀ i n,
  String.list_ascii_of_string (String.substring i n s)
  = take n (drop i (String.list_ascii_of_string s)).
Proof.
  induction s as [|c s IH]; intros [|i] [|n]; cbn; try done; by rewrite IH.
Qed.

Lemma inside_start s : inside (String.list_ascii_of_string s) (start_pos s).
Proof. split; cbn; [by rewrite drop_0|lia]. Qed.

(** The text of a match of a pattern within [P] is made of [P] characters and
    at least as long as the shortest match. *)
Lemma finditer_text P r s i j :
  re_within P r → In (i, j) (finditer r s) →
  Forall P (String.list_ascii_of_string (slice i j s)) ∧
  (re_min r ≤ String.length (slice i j s))%nat.
Proof.
  intros HP Hin. destruct (scan_spans P r _ _ HP _ (inside_start s) _ _ Hin) as [[H1 H2] H3].
  unfold slice. rewrite <- list_ascii_length, list_ascii_substring. split; [done|].
  rewrite length_take, length_drop. lia.
Qed.

(** ** Occurrences in joined texts *)

Definition occurs (w t : list ascii) : Prop := ∃ l r, t = l ++ w ++ r.

Lemma no_sep_split (sep : ascii) w a b l r :
  w ≠ [] → sep ∉ w → a ++ sep :: b = l ++ w ++ r →
  (∃ r', a = l ++ w ++ r' ∧ r = r' ++ sep :: b) ∨ (∃ l', l = a ++ sep :: l' ∧ b = l' ++ w ++ r).
Proof.
  intros Hw Hsep. revert l. induction a as [|x a IH]; intros l; cbn.
  - destruct l as [|y l]; cbn.
    + destruct w as [|z w]; [done|]. intros [= -> _]. exfalso. apply Hsep. by left.
    + intros [= <- Heq]. right. eauto.
  - destruct l as [|y l]; cbn.
    + destruct w as [|z w]; [done|]. cbn. intros [= -> Heq]. left.
      assert (∀ a' w', sep ∉ w' → a' ++ sep :: b = w' ++ r →
        ∃ r', a' = w' ++ r' ∧ r = r' ++ sep :: b) as Haux.
      { clear. intros a'. induction a' as [|c a' IHa]; intros [|d w'] Hn; cbn.
        - intros <-. by exists [].
        - intros [= -> _]. exfalso. apply Hn. by left.
        - intros <-. by exists (c :: a').
        - intros [= -> H]. destruct (IHa w') as (r' & -> & ->); [|done|by exists r'].
          intros Hd. apply Hn. by right. }
      destruct (Haux a w) as (r' & -> & ->); [|done|by exists r'].
      intros Hd. apply Hsep. by right.
    + intros [= <- Heq]. apply IH in Heq as [(r' & -> & ->)|(l' & -> & ->)]; [left|right]; eauto.
Qed.

Lemma occurs_join2 sep w a b :
  w ≠ [] → sep ∉ w → occurs w (a ++ sep :: b) ↔ occurs w a ∨ occurs w b.
Proof.
  intros Hw Hs. split.
  - intros (l & r & H). apply no_sep_split in H as [(r' & -> & _)|(l' & _ & ->)]; [| |done..].
    + left. by exists l, r'.
    + right. by exists l', r.
  - intros [(l & r & ->)|(l & r & ->)].
    + exists l, (r ++ sep :: b). by rewrite <- !app_assoc.
    + exists (a ++ sep :: l), r. by rewrite <- !app_assoc.
Qed.

Lemma token_join2 sep w a b :
  w ≠ [] → sep ∉ w → Str.isword sep = false →
  token_in w (a ++ sep :: b) ↔ token_in w a ∨ token_in w b.
Proof.
  intros Hw Hs Hsep. split.
  - intros (l & r & H & H1 & H2).
    apply no_sep_split in H as [(r' & -> & ->)|(l' & -> & ->)]; [| |done..].
    + left. exists l, r'. split_and!; [done| |].
      * destruct w; [done|]. done.
      * destruct r'; cbn in *; [by rewrite Hsep in H2|done].
    + right. exists l', r. split_and!; [done| |].
      * destruct w; [done|]. cbn in *. rewrite last_app, last_cons in H1.
        destruct (last l'); [done|]. cbn in *. by rewrite Hsep in H1.
      * rewrite !last_app in *. by destruct (last w) eqn:E; [|apply last_None in E].
  - intros [H|H].
    + apply (token_in_extend w a [] (sep :: b)); done.
    + replace (a ++ sep :: b) with ((a ++ [sep]) ++ b ++ []) by
        (by rewrite app_nil_r, <- app_assoc).
      apply token_in_extend; try done. by rewrite last_snoc.
Qed.
