(* ===== verification/Threading.v ===== *)
(** * Message identities and threading headers

    The header helpers of [src/mailer_agent/mail/imap_reader.py] and
    [src/mailer_agent/mail/reply_handler_v2.py], and the conversation
    transcript of [src/mailer_agent/memory/store.py]. *)

From S2P Require Import Prelude Sql Models Regex.

(** ** Message identities *)

Definition SYNTHETIC_ID_PREFIX : string := "synthetic:".
Definition MAX_MESSAGE_ID_LEN : nat := 998.

Definition is_synthetic_id (value : option string) : bool :=
  match value with
  | None | Some "" => false
  | Some s => Str.startswith SYNTHETIC_ID_PREFIX s
  end.

(** A character the search for white space and control characters finds. *)
Definition bad_id_char (c : ascii) : bool :=
  Str.isspace c || (nat_of_ascii c <? 32)%nat || (nat_of_ascii c =? 127)%nat.

Definition usable_message_id (value : option string) : option string :=
  match value with
  | None => None
  | Some s =>
      let v := Str.strip s in
      if (v == "") || (MAX_MESSAGE_ID_LEN <? Str.len v)%nat then None
      else if Str.any_char bad_id_char v then None
      else Some v
  end.

(** [_real_message_id] of [api/integrations_generated.py]. *)
Definition real_message_id (value : option string) : option string :=
  match usable_message_id value with
  | None => None
  | Some u => if is_synthetic_id (Some u) then None else Some u
  end.

(** [_normalize_message_id]: the angle-bracketed form; [None] and the empty
    string are returned as they are. *)
Definition normalize_message_id (value : option string) : option string :=
  match value with
  | None => None
  | Some "" => Some ""
  | Some s =>
      let v := Str.strip s in
      if v == "" then None
      else
        let v := if Str.startswith "<" v then v else "<" +:+ v in
        let v := if bool_decide (Str.last_char v = Some ">"%char) then v else v +:+ ">" in
        Some v
  end.

(** ** Subjects *)

(** [^\s*re\s*:\s*], case-insensitive. *)
Definition RE_PREFIX : re :=
  seqs [Star space; ichar "r"%char; ichar "e"%char; Star space; one ":"%char; Star space].
Definition has_re_prefix (s : string) : bool := is_not_none (match_at RE_PREFIX (start_pos s)).

Definition as_reply_subject (original_subject : option string) : string :=
  match original_subject with
  | None | Some "" => "Re: our conversation"
  | Some s => if has_re_prefix s then Str.strip s else "Re: " +:+ Str.strip s
  end.

(** ** References *)

(** The loop over the candidates: truthy and not seen before. *)
Fixpoint dedupe (seen : list string) (l : list (option string)) : list string :=
  match l with
  | [] => []
  | o :: r =>
      match o with
      | None | Some "" => dedupe seen r
      | Some x => if in_list x seen then dedupe seen r else x :: dedupe (x :: seen) r
      end
  end.

Definition build_references_header (parent_references : list string)
    (parent_in_reply_to parent_message_id : option string) : option string :=
  match dedupe [] (map Some parent_references ++ [parent_in_reply_to; parent_message_id]) with
  | [] => None
  | l => Some (Str.join " " l)
  end.

(** ** Conversation transcript *)

Definition RECENT_MESSAGES_VERBATIM : nat := 6.

Definition conversational_evidence (l : list Message) : list Message :=
  List.filter (λ m, match msg_direction m with
                    | INBOUND => true
                    | OUTBOUND => msg_status m == MS_SENT
                    end) l.

Definition created_le (a b : Message) : Prop := msg_created_at a ≤ msg_created_at b.
#[global] Instance created_le_dec : RelDecision created_le.
Proof. intros a b. unfold created_le. apply _. Defined.

(** [contact.messages]: the relationship, ordered by [created_at]. *)
Definition contact_messages (db : Db) (contact : Contact) : list Message :=
  merge_sort created_le (select (λ m, msg_contact_id m == ct_id contact) (messages db)).

Definition strftime_date (t : Z) : string :=
  let '(y, m, d) := Clock.civil (t / 1000000 / 86400) in
  Clock.pad 4 y +:+ "-" +:+ Clock.pad 2 m +:+ "-" +:+ Clock.pad 2 d.

Definition newline : string := String (ascii_of_nat 10) "".

Definition transcript_entry (m : Message) : string :=
  "[" +:+ strftime_date (msg_created_at m) +:+ "] "
  +:+ (match msg_direction m with OUTBOUND => "US (sent)" | INBOUND => "THEM (received)" end)
  +:+ (if truthy (msg_subject m) then " | Subject: " +:+ default "" (msg_subject m) else "")
  +:+ newline +:+ Str.strip (msg_body m).

Definition first_contact_placeholder : string := "(no messages sent yet -- this is the first contact)".

(** [l[-n:]]. *)
Definition last_n {A} (n : nat) (l : list A) : list A := drop (length l - n) l.

Definition build_conversation_context (db : Db) (contact : Contact) : string :=
  match conversational_evidence (contact_messages db contact) with
  | [] => first_contact_placeholder
  | evidence =>
      Str.join (newline +:+ newline +:+ "---" +:+ newline +:+ newline)
        ((if truthy (ct_memory_summary contact)
          then ["[Summary of earlier conversation]: " +:+ default "" (ct_memory_summary contact)]
          else [])
         ++ map transcript_entry (last_n RECENT_MESSAGES_VERBATIM evidence))
  end.

(** ** Facts *)

Lemma usable_message_id_spec value v :
  usable_message_id value = Some v →
  v ≠ "" ∧ (Str.len v ≤ MAX_MESSAGE_ID_LEN)%nat ∧ Str.any_char bad_id_char v = false.
Proof.
  unfold usable_message_id. destruct value as [s|]; [|done].
  destruct ((Str.strip s == "") || _) eqn:E; [done|].
  destruct (Str.any_char _ _) eqn:Eb; [done|]. intros [= <-]. bools.
  apply Nat.ltb_ge in H0. done.
Qed.

Lemma dedupe_NoDup l : ∀ seen,
  NoDup (dedupe seen l) ∧ ∀ x, x ∈ dedupe seen l → (x ∉ seen) ∧ x ≠ "" ∧ Some x ∈ l.
Proof.
  induction l as [|o l IH]; intros seen; cbn.
  { split; [constructor|]. by intros x ?%not_elem_of_nil. }
  assert (NoDup (dedupe seen l) ∧ ∀ x, x ∈ dedupe seen l → (x ∉ seen) ∧ x ≠ "" ∧ Some x ∈ o :: l)
    as Hskip.
  { destruct (IH seen) as [H1 H2]. split; [done|]. intros x Hx.
    destruct (H2 x Hx) as (? & ? & ?). split_and!; try done. by right. }
  destruct o as [[|c s]|]; [exact Hskip| |exact Hskip].
  unfold in_list. case_bool_decide as Hin; [exact Hskip|].
  destruct (IH (String c s :: seen)) as [H1 H2]. split.
  - constructor; [|done]. intros Hx. destruct (H2 _ Hx) as [Hn _]. apply Hn. by left.
  - intros x [->|Hx]%elem_of_cons; [split_and!; [done|done|by left]|].
    destruct (H2 _ Hx) as (Hn & ? & ?). split_and!; [|done|by right].
    intros ?. apply Hn. by right.
Qed.

Lemma dedupe_complete l x : ∀ seen,
  Some x ∈ l → x ≠ "" → x ∉ seen → x ∈ dedupe seen l.
Proof.
  induction l as [|o l IH]; intros seen Hx Hne Hs; [by apply not_elem_of_nil in Hx|].
  apply elem_of_cons in Hx as [<-|Hx]; cbn.
  - destruct x as [|c s]; [done|]. unfold in_list. rewrite bool_decide_eq_false_2 by done. by left.
  - destruct o as [[|c s]|]; [by apply IH| |by apply IH].
    unfold in_list. case_bool_decide; [by apply IH|].
    destruct (decide (x = String c s)) as [->|Hn]; [by left|]. right. apply IH; try done.
    by intros [?|?]%elem_of_cons.
Qed.

(** ** Facts: subjects *)

Lemma rstrip_blank s : Str.rstrip s = "" → Forall (λ c, Str.isspace c = true) (String.list_ascii_of_string s).
Proof.
  induction s as [|c s IH]; cbn; [constructor|].
  destruct (Str.rstrip s); [|done]. destruct (Str.isspace c) eqn:E; [|done]. constructor; auto.
Qed.

Lemma strip_blank s : Str.strip s = "" → Forall (λ c, Str.isspace c = true) (String.list_ascii_of_string s).
Proof.
  unfold Str.strip. induction s as [|c s IH]; cbn [Str.lstrip]; [constructor|].
  destruct (Str.isspace c) eqn:E; [|apply rstrip_blank]. intros H. cbn. constructor; auto.
Qed.

(** A subject with a reply prefix has a visible character. *)
Lemma has_re_prefix_visible s : has_re_prefix s = true → Str.strip s ≠ "".
Proof.
  unfold has_re_prefix, match_at, RE_PREFIX. cbn [seqs m]. intros [x Hx]%is_not_none_true Hs.
  apply strip_blank in Hs.
  apply (star_loop_sound (λ _, True) 0 (m space)) in Hx as (q & w & Hq & [Hr _] & _ & _).
  2: { intros p k y Hy. apply (m_sound (λ _, True) space) in Hy as (q & w & ? & ? & ? & _); [|done].
       exists q, w. split_and!; [done..|lia]. }
  cbn in Hq. destruct (rest q) as [|c cs] eqn:Eq; [done|].
  destruct (bool_decide (Str.lower_ascii c = _)) eqn:Ec; [|done]. bools.
  cbn in Hr. rewrite Hr in Hs. apply Forall_app in Hs as [_ Hs]. inversion Hs as [|? ? Hc _]; subst.
  revert Ec Hc. destruct c as [[] [] [] [] [] [] [] []]; vm_compute; discriminate.
Qed.

Lemma as_reply_subject_nonempty s : as_reply_subject s ≠ "".
Proof.
  unfold as_reply_subject. destruct s as [[|c r]|]; [done| |done].
  destruct (has_re_prefix (String c r)) eqn:E; [by apply has_re_prefix_visible|done].
Qed.

(** ** Facts: identities written into headers *)

Definition no_space (s : string) : Prop := Forall (λ c, Str.isspace c = false) (String.list_ascii_of_string s).

Lemma no_bad_char_no_space s : Str.any_char bad_id_char s = false → no_space s.
Proof.
  unfold no_space. induction s as [|c s IH]; cbn; [constructor|].
  intros [Hc Hs]%orb_false_elim. constructor; [|auto]. unfold bad_id_char in Hc. by bools.
Qed.

Lemma strip_no_space s : no_space s → Str.strip s = s.
Proof.
  assert (∀ t, no_space t → Str.rstrip t = t) as Hr.
  { induction t as [|c t IH]; [done|]. intros H. inversion H as [|? ? Hc Ht]; subst. cbn.
    rewrite (IH Ht). destruct t; [by rewrite Hc|done]. }
  intros H. unfold Str.strip. destruct s as [|c s]; [done|]. inversion H as [|? ? Hc Hs]; subst.
  cbn [Str.lstrip]. rewrite Hc. by apply Hr.
Qed.

Lemma real_message_id_spec value v :
  real_message_id value = Some v →
  v ≠ "" ∧ Str.any_char bad_id_char v = false ∧ is_synthetic_id (Some v) = false.
Proof.
  unfold real_message_id. destruct (usable_message_id value) as [u|] eqn:E; [|done].
  destruct (is_synthetic_id (Some u)) eqn:Es; [done|]. intros [= <-].
  by apply usable_message_id_spec in E as (? & _ & ?).
Qed.

(** An accepted identity is accepted again, unchanged. *)
Lemma real_message_id_idemp value v :
  real_message_id value = Some v → real_message_id (Some v) = Some v.
Proof.
  intros H. pose proof (real_message_id_spec _ _ H) as (Hne & Hb & Hs). revert H.
  unfold real_message_id at 1. destruct (usable_message_id value) as [u|] eqn:E; [|done].
  intros Hu. assert (u = v) as -> by (destruct (is_synthetic_id (Some u)); congruence).
  apply usable_message_id_spec in E as (_ & Hl & _).
  unfold real_message_id, usable_message_id.
  rewrite (strip_no_space v) by by apply no_bad_char_no_space.
  rewrite (bool_decide_eq_false_2 (v = "")) by done.
  rewrite (proj2 (Nat.ltb_ge _ _) Hl), Hb. cbn [orb]. by rewrite Hs.
Qed.
