(* ===== verification/Grounding.v ===== *)
(** * Grounding validation ([src/mailer_agent/llm/grounding.py])

    The claim extraction and the check of each claim against the approved
    source text, with [GroundingValidation] of
    [src/mailer_agent/semantic_models.py].  The patterns are the source's,
    written with the combinators of [Regex]; the euro sign is not a Latin-1
    character and so cannot occur in the modelled texts. *)

From Stdlib Require Import QArith.
From S2P Require Import Prelude Regex.

#[global] Open Scope Z_scope.
#[global] Open Scope py_scope.

(** ** Patterns *)

Definition number_re : re := Seq (plus digit) (opt (Seq (one "."%char) (plus digit))).
Definition is_char (n : nat) (c : ascii) : bool := Nat.eqb (nat_of_ascii c) n.

Definition PCT_PATTERN : re :=
  seqs [WordB; number_re; Star space;
        alts [ilit "%"; ilit "percent"; ilit "x faster"; ilit "x roi"; ilit "x return";
              Chr (is_char 215)]].

Definition DOLLAR_PATTERN : re :=
  seqs [Chr (λ c, is_char 36 c || is_char 163 c || is_char 165 c); Star space; digit;
        Star (Chr (λ c, Str.isdigit c || is_char 44 c || is_char 46 c));
        opt (Seq (Star space) (alts [ichar "k"%char; ichar "m"%char; ichar "b"%char]))].

Definition HEADCOUNT_PATTERN : re :=
  seqs [WordB; plus digit; plus space;
        ilits ["companies"; "customers"; "clients"; "users"; "teams"; "organizations";
               "businesses"; "startups"; "brands"; "retailers"; "chains"]].

Definition time_unit : re :=
  alts (map (λ u, Seq (ilit u) (opt (ilit "s"))) ["hour"; "day"; "minute"; "week"]).

Definition TIME_CLAIM_PATTERN : re :=
  seqs [WordB; ilits ["within"; "in under"; "in less than"; "under"; "less than"];
        plus space; plus digit; Star space; time_unit].

Definition SETUP_TIME_PATTERN : re :=
  seqs [WordB;
        alts [ilit "setup"; Seq (ilit "install") (opt (ilit "ation"));
              Seq (ilit "deploy") (opt (ilit "ment")); Seq (ilit "onboard") (opt (ilit "ing"));
              Seq (ilit "implement") (opt (ilit "ation"))];
        plus space;
        opt (Seq (ilit "time") (plus space));
        opt (Seq (ilit "is") (plus space));
        opt (Seq (ilit "only") (plus space));
        opt (seqs [ilit "take"; opt (ilit "s"); plus space]);
        opt (Seq (ilit "in") (plus space));
        opt (alts [Seq (ilit "under") (plus space);
                   seqs [ilit "less"; plus space; ilit "than"; plus space];
                   Seq (ilit "within") (plus space)]);
        plus digit; Star space; time_unit].

Definition GUARANTEE_PATTERN : re :=
  seqs [WordB;
        alts [Seq (ilit "guarantee") (opt (ilit "d"));
              Seq (ilit "warrant") (opt (alts [ilit "y"; ilit "ied"]));
              Seq (ilit "promise") (opt (ilit "d"));
              seqs [ilit "committed"; plus space; ilit "to"];
              Seq (ilit "assure") (opt (ilit "d"))];
        WordB].

Definition PRICING_TERMS : re :=
  seqs [WordB;
        alts (map ilit ["price"; "pricing"; "cost"; "costs"; "fee"; "fees"; "rate"; "rates";
                        "discount"; "discounts"; "budget"; "budgets"; "afford"; "affordable";
                        "cheap"; "expensive"; "quote"; "proposal"; "contract"; "subscription"]
              ++ [seqs [ilit "per"; plus space; ilits ["seat"; "user"; "month"; "year"]];
                  ilit "monthly"; ilit "annually";
                  seqs [ilit "free"; plus space; ilit "trial"];
                  seqs [ilit "trial"; plus space; ilit "period"];
                  Seq (ilit "available") (opt (ilit "ility"))]);
        WordB].

Definition AVAILABILITY_PATTERN : re :=
  let next_period := seqs [ilit "next"; plus space; ilits ["week"; "month"]] in
  seqs [WordB;
        alts [seqs [ilit "available"; plus space;
                    alts [ilit "now"; ilit "today"; ilit "immediately";
                          seqs [ilit "this"; plus space; ilit "week"]]];
              seqs [ilit "launch"; opt (alts [ilit "ing"; ilit "es"]); plus space;
                    alts [next_period; ilit "soon"; ilit "shortly"]];
              seqs [ilit "ship"; opt (alts [ilit "ping"; ilit "s"]); plus space; next_period]];
        WordB].

(** ** Claim extraction *)

Fixpoint newlines_to_spaces (s : string) : string :=
  match s with
  | "" => ""
  | String c r => String (if is_char 10 c then " "%char else c) (newlines_to_spaces r)
  end.

(** The context window of a match: [body[start-before : end+after]], newlines
    replaced, stripped. *)
Definition snippet (body : string) (before after : nat) (span : nat * nat) : string :=
  let start := (fst span - before)%nat in
  let stop := Nat.min (String.length body) (snd span + after) in
  Str.strip (newlines_to_spaces (slice start stop body)).

Definition quoted (label snip : string) : string :=
  label +:+ ": " +:+ String (ascii_of_nat 171) (snip +:+ String (ascii_of_nat 187) "").

Definition claims_of (label : string) (r : re) (before after : nat) (body : string) : list string :=
  map (λ span, quoted label (snippet body before after span)) (finditer r body).

Definition extract_factual_claims (body : string) : list string :=
  claims_of "metric" PCT_PATTERN 20 20 body
  ++ claims_of "money" DOLLAR_PATTERN 20 20 body
  ++ claims_of "scale" HEADCOUNT_PATTERN 10 30 body
  ++ claims_of "time-claim" TIME_CLAIM_PATTERN 10 30 body
  ++ claims_of "setup-claim" SETUP_TIME_PATTERN 5 30 body
  ++ claims_of "guarantee" GUARANTEE_PATTERN 20 40 body.

(** ** Source-text lookup *)

Definition build_approved_corpus (sources : list (option string)) : string :=
  Str.join " " (map Str.lower (List.filter (λ s, negb (bool_decide (s = ""))) (omap id sources))).

Definition numeric_value_in_corpus (numeric_str corpus : string) : bool :=
  search (token_re numeric_str) corpus.

Definition extract_numeric (claim_snippet : string) : list string :=
  map (λ span, slice (fst span) (snd span) claim_snippet) (finditer number_re claim_snippet).

(** ** Validation *)

Record GroundingValidation := mkGrounding {
  is_grounded : bool;
  unsupported_claims : list string;
  supported_claims : list string;
  confidence : Q;
  validation_notes : string;
  review_required : bool;
  review_reasons : list string
}.

Definition is_safe_to_send (g : GroundingValidation) : bool :=
  is_grounded g && bool_decide (unsupported_claims g = []) && negb (review_required g).

Definition hard_block (g : GroundingValidation) : bool :=
  negb (is_grounded g) || negb (bool_decide (unsupported_claims g = [])).

(** The loop body: is this claim traceable to the corpus? *)
Definition claim_supported (corpus claim : string) : bool :=
  let numerics := extract_numeric claim in
  let by_numbers :=
    if negb (bool_decide (numerics = [])) && negb (bool_decide (corpus = ""))
    then forallb (λ num, numeric_value_in_corpus num corpus) numerics
    else if bool_decide (corpus = "") then bool_decide (numerics = [])
    else true in
  if Str.startswith "guarantee:" claim
     && negb (Str.contains "guarantee" corpus) && negb (Str.contains "warrant" corpus)
  then false
  else by_numbers.

(** [sorted(set(...))]: insertion into an ordered list without duplicates. *)
Fixpoint insert_sorted (x : string) (l : list string) : list string :=
  match l with
  | [] => [x]
  | y :: r =>
      match String.compare x y with
      | Lt => x :: l
      | Eq => l
      | Gt => y :: insert_sorted x r
      end
  end.
Definition sorted_set (l : list string) : list string := fold_right insert_sorted [] l.

Definition pricing_terms_found (body : string) : list string :=
  map (λ span, Str.lower (slice (fst span) (snd span) body)) (finditer PRICING_TERMS body).

Definition validate_grounding (draft_body : string)
    (proof_points context_notes conversation_transcript value_prop : option string)
    : GroundingValidation :=
  let corpus :=
    build_approved_corpus [proof_points; context_notes; conversation_transcript; value_prop] in
  let claims := extract_factual_claims draft_body in
  let pricing := search PRICING_TERMS draft_body in
  let availability := search AVAILABILITY_PATTERN draft_body in
  let notes :=
    (if pricing
     then ["Draft contains pricing/cost/availability language — requires human review."] else [])
    ++ (if availability
        then ["Draft contains availability/launch timeline claim — requires human review."] else []) in
  let reasons :=
    (if pricing
     then ["pricing-terms: " +:+ Str.join ", " (take 5 (sorted_set (pricing_terms_found draft_body)))]
     else [])
    ++ (if availability then ["availability-claim detected"] else []) in
  let pricing_flagged := pricing || availability in
  let supported := List.filter (claim_supported corpus) claims in
  let unsupported := List.filter (λ c, negb (claim_supported corpus c)) claims in
  let total := (length supported + length unsupported)%nat in
  let confidence :=
    if Nat.eqb total 0 then 1%Q
    else Qmake (Z.of_nat (length supported)) (Pos.of_nat total) in
  mkGrounding
    (bool_decide (unsupported = []))
    unsupported supported
    (if pricing_flagged then 0%Q else confidence)
    (match notes, unsupported with
     | _ :: _, _ => Str.join "; " notes
     | [], _ :: _ => pretty (Z.of_nat (length unsupported)) +:+ " unsupported claim(s) found"
     | [], [] => "All claims traceable to approved source material"
     end)
    pricing_flagged reasons.

#[global] Arguments extract_factual_claims : simpl never.
#[global] Arguments claim_supported : simpl never.
#[global] Arguments build_approved_corpus : simpl never.
#[global] Arguments validate_grounding : simpl never.
#[global] Arguments pricing_terms_found : simpl never.
#[global] Arguments search : simpl never.

(** ** Facts about the corpus *)

Definition corpus_parts (sources : list (option string)) : list string :=
  map Str.lower (List.filter (λ s, negb (bool_decide (s = ""))) (omap id sources)).

Lemma join_cons sep x l :
  l ≠ [] → Str.join sep (x :: l) = x +:+ sep +:+ Str.join sep l.
Proof. by destruct l. Qed.

(** A property of occurrences that distributes over a space-joined pair
    distributes over the whole join. *)
Lemma join_exists (Q : list ascii → Prop) ps :
  ¬ Q [] →
  (∀ a b, Q (a ++ " "%char :: b) ↔ Q a ∨ Q b) →
  Q (String.list_ascii_of_string (Str.join " " ps)) ↔
  Exists (λ p, Q (String.list_ascii_of_string p)) ps.
Proof.
  intros Hnil Hcat. induction ps as [|p ps IH].
  - cbn. split; [done|]. by intros ?%Exists_nil.
  - destruct (decide (ps = [])) as [->|Hps].
    + cbn. rewrite Exists_cons, Exists_nil. tauto.
    + rewrite join_cons, !list_ascii_app by done. cbn. rewrite Hcat, IH, Exists_cons. done.
Qed.

Lemma contains_spec sub s :
  Str.contains sub s = true ↔
  occurs (String.list_ascii_of_string sub) (String.list_ascii_of_string s).
Proof.
  assert (∀ a b, Str.startswith a b = true ↔ ∃ r, String.list_ascii_of_string b
    = String.list_ascii_of_string a ++ r) as Hst.
  { intros a. induction a as [|c a IH]; intros [|d b]; cbn.
    - split; [by exists []|done].
    - split; [|done]. intros _. by eexists.
    - split; [done|]. by intros [r [=]].
    - rewrite andb_true_iff, bool_decide_eq_true, IH. split.
      + intros [-> [r ->]]. by exists r.
      + intros [r [= -> Hr]]. eauto. }
  induction s as [|c s IH]; cbn; rewrite orb_true_iff, Hst.
  - split.
    + intros [[r Hr]|]; [|done]. by exists [], r.
    + intros ([|x l] & r & H); [|done]. left. by exists r.
  - rewrite IH. split.
    + intros [[r Hr]|(l & r & Hr)]; [by exists [], r|]. exists (c :: l), r. cbn. by f_equal.
    + intros ([|x l] & r & H); [left; by exists r|]. right. injection H as -> H. by exists l, r.
Qed.

Lemma occurs_nil w : w ≠ [] → ¬ occurs w [].
Proof. intros Hw ([|] & r & H); [|done]. by destruct w. Qed.
Lemma token_nil w : w ≠ [] → ¬ token_in w [].
Proof. intros Hw (l & r & H & _). apply (occurs_nil w Hw). by exists l, r. Qed.

(** Digits and the decimal point. *)
Definition numeric_char (c : ascii) : Prop := Str.isdigit c = true ∨ c = "."%char.

Lemma extract_numeric_chars num claim :
  In num (extract_numeric claim) →
  num ≠ "" ∧ Forall numeric_char (String.list_ascii_of_string num).
Proof.
  intros [[i j] [<- Hin]]%in_map_iff. cbn [fst snd].
  destruct (finditer_text numeric_char number_re claim i j) as [Hall Hlen]; [|done|].
  - cbn. unfold numeric_char. split_and!; try (by left); try done.
    intros c Hc. bools. by right.
  - split; [|done]. intros Hn. rewrite Hn in Hlen. cbn in Hlen. lia.
Qed.

Lemma numeric_no_space w : Forall numeric_char w → " "%char ∉ w.
Proof.
  intros H Hin. apply (proj1 (Forall_forall _ _) H) in Hin as [Hd|Hd]; [|done].
  by vm_compute in Hd.
Qed.

Lemma keyword_no_space k :
  k = "guarantee" ∨ k = "warrant" → " "%char ∉ String.list_ascii_of_string k.
Proof. intros [->| ->]; refine (bool_decide_unpack _ _); vm_compute; exact I. Qed.

(** Where a keyword or a number is found in the corpus, one source has it. *)
Lemma contains_corpus sub sources :
  sub ≠ "" → " "%char ∉ String.list_ascii_of_string sub →
  Str.contains sub (build_approved_corpus sources) = true ↔
  Exists (λ p, Str.contains sub p = true) (corpus_parts sources).
Proof.
  intros Hs Hsp. rewrite contains_spec. unfold build_approved_corpus.
  assert (String.list_ascii_of_string sub ≠ []) as Hne by by destruct sub.
  rewrite (join_exists (occurs (String.list_ascii_of_string sub))).
  - unfold corpus_parts. split; intros HE; (eapply Exists_impl; [exact HE|]);
      intros p; by rewrite contains_spec.
  - by apply occurs_nil.
  - intros a b. by apply occurs_join2.
Qed.

Lemma numeric_corpus num sources :
  num ≠ "" → " "%char ∉ String.list_ascii_of_string num →
  numeric_value_in_corpus num (build_approved_corpus sources) = true ↔
  Exists (λ p, numeric_value_in_corpus num p = true) (corpus_parts sources).
Proof.
  intros Hs Hsp. unfold numeric_value_in_corpus. rewrite search_token by done.
  unfold build_approved_corpus.
  assert (String.list_ascii_of_string num ≠ []) as Hne by by destruct num.
  rewrite (join_exists (token_in (String.list_ascii_of_string num))).
  - unfold corpus_parts. split; intros HE; (eapply Exists_impl; [exact HE|]);
      intros p; by rewrite search_token.
  - by apply token_nil.
  - intros a b. by apply token_join2.
Qed.

Lemma corpus_empty sources :
  build_approved_corpus sources = "" ↔ corpus_parts sources = [].
Proof.
  unfold build_approved_corpus. fold (corpus_parts sources).
  assert (∀ p, In p (corpus_parts sources) → p ≠ "") as Hne.
  { intros p [s [<- [_ Hs]%filter_In]]%in_map_iff. bools. by destruct s. }
  destruct (corpus_parts sources) as [|p ps] eqn:E; [done|].
  split; [|done]. intros Hj. exfalso. apply (Hne p); [by left|].
  destruct ps as [|q ps]; [done|]. rewrite join_cons in Hj by done.
  by destruct p.
Qed.

(** [sources'] offers at least the texts of [sources]. *)
Definition sources_extend (sources sources' : list (option string)) : Prop :=
  ∀ s, In (Some s) sources → In (Some s) sources'.

Lemma corpus_parts_extend sources sources' p :
  sources_extend sources sources' → In p (corpus_parts sources) → In p (corpus_parts sources').
Proof.
  intros Hext [s [<- [Hs Hne]%filter_In]]%in_map_iff. apply in_map_iff. exists s. split; [done|].
  apply filter_In. split; [|done]. clear Hne.
  apply list_elem_of_In, list_elem_of_omap in Hs as (o & Ho & Hoid). cbn in Hoid. subst o.
  apply list_elem_of_In, list_elem_of_omap. exists (Some s). split; [|done].
  apply list_elem_of_In, Hext, list_elem_of_In, Ho.
Qed.

(** More approved text never makes a supported claim unsupported. *)
Lemma claim_supported_extend sources sources' claim :
  sources_extend sources sources' →
  claim_supported (build_approved_corpus sources) claim = true →
  claim_supported (build_approved_corpus sources') claim = true.
Proof.
  intros Hext.
  assert (∀ Q : string → Prop, Exists Q (corpus_parts sources) → Exists Q (corpus_parts sources'))
    as Hex.
  { intros Q [p [Hp HQ]]%Exists_exists. apply Exists_exists. exists p. split; [|done].
    apply list_elem_of_In. eapply corpus_parts_extend; [done|]. by apply list_elem_of_In. }
  unfold claim_supported.
  destruct (Str.startswith "guarantee:" claim && _ && _) eqn:Eg; [done|].
  intros Hnum.
  destruct (Str.startswith "guarantee:" claim && _ && _) eqn:Eg' in |- *.
  { apply andb_prop in Eg' as [Eg' Hw]. apply andb_prop in Eg' as [Hst Hg]. bools.
    rewrite Hst in Eg. cbn in Eg. apply andb_false_iff in Eg as [Eg|Eg]; bools.
    - apply (contains_corpus "guarantee") in Eg; [|done|by apply keyword_no_space; auto].
      apply Hex in Eg. apply contains_corpus in Eg; [congruence|done|by apply keyword_no_space; auto].
    - apply (contains_corpus "warrant") in Eg; [|done|by apply keyword_no_space; auto].
      apply Hex in Eg. apply contains_corpus in Eg; [congruence|done|by apply keyword_no_space; auto]. }
  destruct (bool_decide (extract_numeric claim = [])) eqn:En; cbn in Hnum |- *;
    [by destruct (bool_decide (build_approved_corpus sources' = ""))|].
  destruct (bool_decide (build_approved_corpus sources = "")) eqn:Ec; cbn in Hnum; [done|].
  rewrite forallb_forall in Hnum.
  assert (∀ num, In num (extract_numeric claim) →
    numeric_value_in_corpus num (build_approved_corpus sources') = true) as Hall.
  { intros num Hin. destruct (extract_numeric_chars _ _ Hin) as [Hne Hch].
    apply numeric_corpus; [done|by apply numeric_no_space|]. apply Hex.
    apply numeric_corpus; [done|by apply numeric_no_space|]. auto. }
  destruct (bool_decide (build_approved_corpus sources' = "")) eqn:Ec'; cbn.
  - bools. apply corpus_empty in Ec'. exfalso. apply Ec, corpus_empty.
    destruct (corpus_parts sources) as [|p ps] eqn:E; [done|].
    assert (In p (corpus_parts sources')) as Hp
      by (eapply corpus_parts_extend; [done|rewrite E; by left]).
    by rewrite Ec' in Hp.
  - by apply forallb_forall.
Qed.

(** ** Validation *)

Lemma hard_block_spec body pp cn tr vp :
  hard_block (validate_grounding body pp cn tr vp) = true ↔
  ∃ claim, In claim (extract_factual_claims body) ∧
    claim_supported (build_approved_corpus [pp; cn; tr; vp]) claim = false.
Proof.
  unfold hard_block, validate_grounding. cbn [is_grounded unsupported_claims].
  rewrite orb_diag, negb_true_iff, bool_decide_eq_false.
  split.
  - intros Hne. destruct (List.filter _ _) as [|c l] eqn:E; [done|].
    assert (In c (c :: l)) as Hin by by left. rewrite <- E in Hin.
    apply filter_In in Hin as [Hin Hc]. bools. eauto.
  - intros (c & Hin & Hc) Hnil.
    assert (In c []) as Hbad; [|done]. rewrite <- Hnil. apply filter_In. by rewrite Hc.
Qed.

(** Approving less text never unblocks a message.  If a draft is
    hard-blocked when checked against a list of approved sources (with the
    conversation transcript, say), it is hard-blocked against any subset of
    them (the transcript dropped): the exact-message path, which passes no
    transcript, is at least as strict as the approval gate. *)
Theorem grounding_block_antitone body pp cn tr vp pp' cn' tr' vp' :
  sources_extend [pp; cn; tr; vp] [pp'; cn'; tr'; vp'] →
  hard_block (validate_grounding body pp' cn' tr' vp') = true →
  hard_block (validate_grounding body pp cn tr vp) = true.
Proof.
  rewrite !hard_block_spec. intros Hext (c & Hin & Hc). exists c. split; [done|].
  destruct (claim_supported (build_approved_corpus [pp; cn; tr; vp]) c) eqn:E; [|done].
  by rewrite (claim_supported_extend _ _ _ Hext E) in Hc.
Qed.

Definition bold_body : string := "We cut response time by 40% for 50 customers.".

Lemma grounding_block_antitone_witness :
  hard_block (validate_grounding bold_body (Some "cut response time 40%") None None None) = true.
Proof.
  apply (grounding_block_antitone bold_body (Some "cut response time 40%") None None None
           (Some "cut response time 40%") None (Some "we have 60 brands") None).
  - intros s. cbn. naive_solver.
  - vm_compute. reflexivity.
Defined.

(** The verdict of the validator.  A message is hard-blocked exactly when
    one of its extracted claims is not traceable to the approved sources; the
    pricing and availability vocabulary never blocks, it only asks for review
    and withholds silent sending; and every extracted claim is classified
    exactly once. *)
Theorem validate_grounding_verdict body pp cn tr vp :
  let g := validate_grounding body pp cn tr vp in
  hard_block g = negb (is_grounded g) ∧
  is_grounded g = forallb (claim_supported (build_approved_corpus [pp; cn; tr; vp]))
                    (extract_factual_claims body) ∧
  is_safe_to_send g = is_grounded g && negb (search PRICING_TERMS body || search AVAILABILITY_PATTERN body) ∧
  supported_claims g ++ unsupported_claims g ≡ₚ extract_factual_claims body.
Proof.
  set (sup := claim_supported (build_approved_corpus [pp; cn; tr; vp])).
  assert (∀ l, bool_decide (List.filter (λ c, negb (sup c)) l = []) = forallb sup l) as Hf.
  { intros l. induction l as [|c l IH]; [done|]. cbn. destruct (sup c); cbn; [apply IH|done]. }
  assert (∀ l, List.filter sup l ++ List.filter (λ c, negb (sup c)) l ≡ₚ l) as Hp.
  { intros l. induction l as [|c l IH]; cbn; [done|]. destruct (sup c); cbn.
    - by rewrite IH.
    - by rewrite <- Permutation_middle, IH. }
  cbv zeta. unfold hard_block, is_safe_to_send, validate_grounding. fold sup.
  cbn [is_grounded unsupported_claims supported_claims review_required]. rewrite Hf.
  split_and!; [by rewrite orb_diag|done|by rewrite andb_diag|apply Hp].
Qed.
