(* ===== verification/ExactMessage.v ===== *)
(** * Exact-message boundary, suppression and mailbox secrets

    [src/mailer_agent/mail/exact_message.py], [src/mailer_agent/suppression.py]
    and [src/mailer_agent/mailbox_secrets.py]: building the one message of an
    operation, turning a stored message into send arguments, the grounding
    gate, the suppression lookup and the encryption of credentials.  The
    Fernet cipher of the [cryptography] package is an interface. *)

From S2P Require Import Prelude Sql Models Config Samples Sender Regex Grounding.

(** ** Suppression *)

Definition is_email_suppressed (db : Db) (email_addr : string) (org_id : option string) : bool :=
  is_not_none
    (select_first
       (λ e, (sup_email e == email_addr)
             && match org_id with
                | None => true
                | Some o => sup_organization_id e == Some o
                end)
       (suppressions db)).

(** ** Mailbox secrets *)

Inductive fernet_result :=
  | FPlain (plaintext : string)
  | FInvalidToken
  | FRaises (e : exn).

(** The cipher: which keys are well formed, encryption (with its random
    nonce) and decryption under a key. *)
Class Fernet := {
  fernet_key_ok : string → bool;
  fernet_encrypt : string → string → string → string;
  fernet_decrypt : string → string → fernet_result
}.

(** Documented behaviour: a token decrypts under the key that made it. *)
Class FernetLaws (F : Fernet) := {
  fernet_roundtrip : ∀ key nonce s,
    fernet_key_ok key = true → fernet_decrypt key (fernet_encrypt key nonce s) = FPlain s
}.

Inductive secret_error :=
  | MailboxEncryptionUnavailable (message : string)
  | MailboxDecryptionError (message : string)
  | SecretOther (e : exn).

Section Secrets.
Context `{Fernet}.

(** [_fernet]: the stripped key, refused when empty or malformed. *)
Definition fernet_key (settings : Settings) : result secret_error string :=
  let key := Str.strip (mailbox_encryption_key settings) in
  if key == "" then Err (MailboxEncryptionUnavailable "MAILBOX_ENCRYPTION_KEY is not configured")
  else if fernet_key_ok key then Ok key
  else Err (MailboxEncryptionUnavailable "MAILBOX_ENCRYPTION_KEY is not a valid Fernet key").

Definition encrypt_secret (settings : Settings) (nonce plaintext : string)
    : result secret_error string :=
  key ← fernet_key settings; mret (fernet_encrypt key nonce plaintext).

Definition decrypt_secret (settings : Settings) (token : string) : result secret_error string :=
  key ← fernet_key settings;
  match fernet_decrypt key token with
  | FPlain s => Ok s
  | FInvalidToken =>
      Err (MailboxDecryptionError
             "stored mailbox credential cannot be decrypted with the configured key")
  | FRaises e => Err (SecretOther e)
  end.

Record MailboxCredentials := mkCredentials {
  mc_email_address : string;
  mc_smtp_host : string;
  mc_smtp_port : Z;
  mc_smtp_use_tls : bool;
  mc_smtp_username : string;
  mc_smtp_password : string;
  mc_imap_host : option string;
  mc_imap_port : option Z;
  mc_imap_username : option string;
  mc_imap_password : option string
}.

Definition get_mailbox_credentials (settings : Settings) (mb : Mailbox)
    : result secret_error MailboxCredentials :=
  imap_password ←
    (if truthy (mb_imap_password_enc mb)
     then p ← decrypt_secret settings (default "" (mb_imap_password_enc mb)); mret (Some p)
     else Ok None);
  smtp_password ← decrypt_secret settings (mb_smtp_password_enc mb);
  mret (mkCredentials (mb_email_address mb) (mb_smtp_host mb) (mb_smtp_port mb)
          (mb_smtp_use_tls mb) (mb_smtp_username mb) smtp_password
          (mb_imap_host mb) (mb_imap_port mb) (mb_imap_username mb) imap_password).
End Secrets.

(** ** Construction of the one message *)

(** The unattached [Message]; the primary key, creation time and reply
    reference are column defaults filled at INSERT. *)
Definition create_authorized_message (contact_id : Z) (subject : option string) (body : string)
    (created_at : Z) (reply_reference : string) (id : Z) : Message :=
  {| msg_id := id;
     msg_contact_id := contact_id;
     msg_direction := OUTBOUND;
     msg_message_type := Some MT_INITIAL;
     msg_subject := subject;
     msg_body := body;
     msg_status := MS_DRAFT;
     msg_message_id_header := None;
     msg_in_reply_to_header := None;
     msg_references_header := None;
     msg_detected_intent := None;
     msg_intent_confidence := None;
     msg_semantic_analysis := None;
     msg_classification_success := None;
     msg_classification_failure_reason := None;
     msg_error_message := None;
     msg_mailbox_id := None;
     msg_created_at := created_at;
     msg_reply_reference := Some reply_reference |}.

(** ** Send input *)

Record ExactSendInput := mkExactSendInput {
  xi_to_email : string;
  xi_from_email : string;
  xi_from_name : string;
  xi_subject : string;
  xi_body_text : string;
  xi_reply_to : option string;
  xi_in_reply_to_header : option string;
  xi_references_header : option string
}.

Definition set_xi_from_email (v : string) (i : ExactSendInput) : ExactSendInput :=
  mkExactSendInput (xi_to_email i) v (xi_from_name i) (xi_subject i) (xi_body_text i)
    (xi_reply_to i) (xi_in_reply_to_header i) (xi_references_header i).

(** [as_send_email_kwargs] completed with the two arguments the worker adds. *)
Definition as_send_email_kwargs (i : ExactSendInput) (message_id : option string)
    (cfg : option SmtpConfig) : SendArgs :=
  let irt := if truthy (xi_in_reply_to_header i) then xi_in_reply_to_header i else None in
  mkSendArgs (xi_to_email i) (xi_from_email i) (xi_from_name i) (xi_subject i) (xi_body_text i)
    (xi_reply_to i) irt
    (if is_not_none irt && truthy (xi_references_header i) then xi_references_header i else None)
    message_id cfg.

(** [ExactMessageError] with its text. *)
Definition assert_wired (message : Message) (contact : Contact) (campaign : Campaign)
    : result string unit :=
  _ ← raise_if (msg_direction message != OUTBOUND)
        ("message " +:+ pretty (msg_id message) +:+ " is not outbound");
  _ ← raise_if (msg_status message != MS_DRAFT)
        ("message " +:+ pretty (msg_id message) +:+ " is not pre-send (status="
         +:+ MessageStatus_value (msg_status message) +:+ ")");
  _ ← raise_if (msg_contact_id message != ct_id contact)
        ("message " +:+ pretty (msg_id message) +:+ " does not belong to contact "
         +:+ pretty (ct_id contact));
  raise_if (ct_campaign_id contact != cp_id campaign)
    ("contact " +:+ pretty (ct_id contact) +:+ " does not belong to campaign "
     +:+ pretty (cp_id campaign)).

Definition build_exact_send_input (message : Message) (contact : Contact) (campaign : Campaign)
    : result string ExactSendInput :=
  _ ← assert_wired message contact campaign;
  mret (mkExactSendInput (ct_email contact) (cp_sender_email campaign) (cp_sender_name campaign)
          (default "" (msg_subject message)) (msg_body message) (cp_reply_to_email campaign)
          (msg_in_reply_to_header message) (msg_references_header message)).

(** ** The grounding gate *)

Record ExactGroundingDecision := mkDecision {
  gd_blocked : bool;
  gd_review_required : bool;
  gd_error_message : option string;
  gd_validation : GroundingValidation
}.

Definition attribute_error (ty attr : string) : exn :=
  mkExn (C_Other "AttributeError")
    ("'" +:+ ty +:+ "' object has no attribute '" +:+ attr +:+ "'").

Definition json_type (j : json) : string :=
  match j with
  | JNull => "NoneType" | JBool _ => "bool" | JInt _ => "int" | JFloat _ => "float" | JStr _ => "str"
  | JList _ => "list" | JObj _ => "dict" | JNonFinite _ => "float"
  end.

Definition json_falsy (j : json) : bool :=
  match j with
  | JNull | JBool false | JInt 0 | JStr "" | JList [] | JObj [] => true
  | JFloat q => Qeq_bool q 0
  | _ => false
  end.

(** A source handed to the corpus builder: falsy values are skipped, and
    [.lower()] of a value that is not a string raises. *)
Definition json_source (j : json) : result exn (option string) :=
  if json_falsy j then Ok None
  else match j with JStr s => Ok (Some s) | _ => Err (attribute_error (json_type j) "lower") end.

Definition blocked_message (v : GroundingValidation) : string :=
  "Message failed grounding safety check and was not sent: "
  +:+ validation_notes v +:+ ". Unsupported/fabricated claims: "
  +:+ Str.repr_list (unsupported_claims v) +:+ ".".

Inductive grounding_exn :=
  | GE_ExactMessageError (message : string)
  | GE_Other (e : exn).

Definition lift_wired (r : result string unit) : result grounding_exn unit :=
  match r with Ok u => Ok u | Err s => Err (GE_ExactMessageError s) end.
Definition lift_exn {A} (r : result exn A) : result grounding_exn A :=
  match r with Ok u => Ok u | Err e => Err (GE_Other e) end.

Definition evaluate_exact_message_grounding (message : Message) (contact : Contact)
    (campaign : Campaign) (grounding_context : option json)
    : result grounding_exn ExactGroundingDecision :=
  _ ← lift_wired (assert_wired message contact campaign);
  validation ←
    match grounding_context with
    | None | Some JNull =>
        Ok (validate_grounding (msg_body message) (cp_proof_points campaign)
              (ct_context_notes contact) None (Some (cp_value_prop campaign)))
    | Some (JObj fields) =>
        context_notes ← lift_exn (json_source (jget "context_notes" fields));
        transcript ← lift_exn (json_source (jget "conversation_transcript" fields));
        value_prop ← lift_exn (json_source (jget "value_prop" fields));
        mret (validate_grounding (msg_body message) None context_notes transcript value_prop)
    | Some j => Err (GE_Other (attribute_error (json_type j) "get"))
    end;
  let blocked := hard_block validation in
  mret (mkDecision blocked (review_required validation)
          (if blocked then Some (blocked_message validation) else None) validation).

(** ** Facts *)

Lemma assert_wired_Ok message contact campaign u :
  assert_wired message contact campaign = Ok u ↔
  msg_direction message = OUTBOUND ∧ msg_status message = MS_DRAFT ∧
  msg_contact_id message = ct_id contact ∧ ct_campaign_id contact = cp_id campaign.
Proof.
  unfold assert_wired. split.
  - intros H. inv_result. bools. done.
  - intros (-> & -> & -> & ->). rewrite !bool_decide_eq_true_2 by done. by destruct u.
Qed.

(** The send input carries the stored message verbatim. *)
Lemma build_exact_send_input_Ok message contact campaign i :
  build_exact_send_input message contact campaign = Ok i →
  msg_status message = MS_DRAFT ∧ msg_direction message = OUTBOUND ∧
  xi_body_text i = msg_body message ∧ xi_subject i = default "" (msg_subject message) ∧
  xi_to_email i = ct_email contact ∧
  xi_in_reply_to_header i = msg_in_reply_to_header message ∧
  xi_references_header i = msg_references_header message.
Proof.
  unfold build_exact_send_input. intros H. inv_result.
  match goal with H : assert_wired _ _ _ = Ok _ |- _ => apply assert_wired_Ok in H end.
  by destruct_and!.
Qed.

Lemma suppressed_spec db email org :
  is_email_suppressed db email org = true ↔
  ∃ e, In e (rows (suppressions db)) ∧ sup_email e = email ∧
       (∀ o, org = Some o → sup_organization_id e = Some o).
Proof.
  unfold is_email_suppressed. rewrite is_not_none_true. split.
  - intros [e He]. apply select_first_Some in He as [Hin He]. bools. exists e.
    split_and!; try done. intros o ->. by bools.
  - intros (e & Hin & He & Ho).
    destruct (select_first _ _) as [x|] eqn:E; [by eexists|exfalso].
    pose proof (proj1 (select_first_None _ _) E e Hin) as Hn. cbn in Hn.
    rewrite bool_decide_eq_true_2 in Hn by done. destruct org as [o|]; [|done].
    by rewrite bool_decide_eq_true_2 in Hn by auto.
Qed.

Lemma get_credentials_Ok `{Fernet} settings mb c :
  get_mailbox_credentials settings mb = Ok c →
  mc_email_address c = mb_email_address mb ∧ mc_smtp_host c = mb_smtp_host mb ∧
  decrypt_secret settings (mb_smtp_password_enc mb) = Ok (mc_smtp_password c).
Proof. unfold get_mailbox_credentials. intros E. inv_result. done. Qed.

(** ** Theorems *)

(** A dispatch with its own generation context is grounded against that
    context alone: whatever other requests write to the shared campaign and
    contact rows (offer, proof points, notes), the decision for the message is
    the same. *)
Theorem snapshot_grounding_isolated message contact campaign contact' campaign' fields :
  ct_id contact' = ct_id contact → ct_campaign_id contact' = ct_campaign_id contact →
  cp_id campaign' = cp_id campaign →
  evaluate_exact_message_grounding message contact' campaign' (Some (JObj fields)) =
  evaluate_exact_message_grounding message contact campaign (Some (JObj fields)).
Proof.
  intros H1 H2 H3. unfold evaluate_exact_message_grounding.
  assert (assert_wired message contact' campaign' = assert_wired message contact campaign) as ->; [|done].
  unfold assert_wired. by rewrite H1, H2, H3.
Qed.

(** Mailbox credentials survive storage.  With a usable key, what
    [encrypt_secret] stored is what [get_mailbox_credentials] returns, for the
    SMTP and the optional IMAP password; without one both fail closed. *)
Theorem mailbox_credentials_roundtrip `{F : Fernet} `{!FernetLaws F} settings mb nonce nonce' smtp imap :
  (∀ token, encrypt_secret settings nonce smtp = Ok token → mb_smtp_password_enc mb = token) →
  (∀ token, encrypt_secret settings nonce' imap = Ok token →
     mb_imap_password_enc mb = Some token ∧ token ≠ "") →
  match fernet_key settings with
  | Ok _ => ∃ c, get_mailbox_credentials settings mb = Ok c ∧ mc_smtp_password c = smtp ∧
              mc_imap_password c = Some imap ∧ mc_smtp_host c = mb_smtp_host mb ∧
              mc_smtp_username c = mb_smtp_username mb
  | Err e => encrypt_secret settings nonce smtp = Err e ∧
             decrypt_secret settings (mb_smtp_password_enc mb) = Err e
  end.
Proof.
  unfold get_mailbox_credentials, encrypt_secret, decrypt_secret.
  destruct (fernet_key settings) as [key|e] eqn:Ek; cbn; [|done]. intros Hs Hi.
  assert (fernet_key_ok key = true) as Hok.
  { unfold fernet_key in Ek. destruct (bool_decide _); [done|].
    destruct (fernet_key_ok (Str.strip _)) eqn:E; [|done]. by injection Ek as <-. }
  rewrite (Hs _ eq_refl). destruct (Hi _ eq_refl) as [-> Hne].
  assert (truthy (Some (fernet_encrypt key nonce' imap)) = true) as ->
    by (by destruct (fernet_encrypt key nonce' imap)).
  cbn. rewrite !fernet_roundtrip by done. by eexists.
Qed.

(** *** Witnesses *)

(** A toy cipher: a token is the plaintext behind one letter. *)
Definition sample_fernet : Fernet := {|
  fernet_key_ok := λ _, true;
  fernet_encrypt := λ _ _ s, String "T"%char s;
  fernet_decrypt := λ _ t, match t with String _ s => FPlain s | "" => FInvalidToken end
|}.
Lemma sample_fernet_laws : FernetLaws sample_fernet.
Proof. by split. Qed.

Lemma mailbox_credentials_roundtrip_witness :
  ∃ c, @get_mailbox_credentials sample_fernet live_settings
         (mkMailbox 1 "mb1" "acme" "ann@acme.io" "smtp" 587 true "ann" "Ts3cret" None None None
            (Some "Timap") MB_ACTIVE 0 0) = Ok c ∧
       mc_smtp_password c = "s3cret" ∧ mc_imap_password c = Some "imap".
Proof.
  destruct (@mailbox_credentials_roundtrip sample_fernet sample_fernet_laws live_settings
    (mkMailbox 1 "mb1" "acme" "ann@acme.io" "smtp" 587 true "ann" "Ts3cret" None None None
       (Some "Timap") MB_ACTIVE 0 0) "n" "n" "s3cret" "imap") as (c & Hc & Hs & Hi & _).
  - intros token E. vm_compute in E. by injection E as <-.
  - intros token E. vm_compute in E. injection E as <-. by split.
  - exists c. by split_and!.
Defined.
