(* ===== verification/LlmSchemas.v ===== *)
(** * Response schemas ([src/mailer_agent/llm/schemas.py])

    The strict JSON schemas sent with the three structured calls, and which
    values they admit.  In strict mode every property is required and no other
    is allowed; a union with null is a nullable type. *)

From S2P Require Import Prelude.

#[local] Open Scope bool_scope.

Inductive schema :=
  | TString | TBoolean | TNumber
  | TNullable (s : schema)
  | TArray (items : schema)
  | TObject (properties : list (string * schema)).

(** Whether a value is admitted.  The fields of an object are as many as the
    properties, and each property is one of them, with a value of its type. *)
Fixpoint admits (s : schema) (j : json) : bool :=
  match s with
  | TString => match j with JStr _ => true | _ => false end
  | TBoolean => match j with JBool _ => true | _ => false end
  | TNumber => match j with JInt _ | JFloat _ => true | _ => false end
  | TNullable s' => match j with JNull => true | _ => admits s' j end
  | TArray s' => match j with JList l => forallb (admits s') l | _ => false end
  | TObject properties =>
      match j with
      | JObj fields =>
          (length fields =? length properties)%nat &&
          forallb (λ p, match assoc (fst p) fields with Some v => admits (snd p) v | None => false end) properties
      | _ => false
      end
  end.

Definition FACT_SCHEMA : schema :=
  TObject [("value", TString); ("certainty", TString); ("evidence", TNullable TString);
           ("supersedes", TNullable TString)].

Definition FACT_SCHEMA_NO_SUPERSEDES : schema :=
  TObject [("value", TString); ("certainty", TString); ("evidence", TNullable TString)].

Definition TIMING_SCHEMA : schema :=
  TObject [("expression", TString); ("kind", TString); ("normalized_target", TNullable TString);
           ("certainty", TString); ("commitment_strength", TString); ("requires_clarification", TBoolean)].

Definition CLASSIFIER_JSON_SCHEMA : schema :=
  TObject
    [("intents", TArray TString); ("speech_act", TString); ("sentiment", TString); ("buying_stage", TString);
     ("user_goal", TNullable TString); ("pain_points", TArray TString); ("objections_raised", TArray TString);
     ("constraints", TArray TString); ("urgency", TString); ("has_pricing_question", TBoolean);
     ("has_budget_signal", TBoolean); ("has_decision_maker_signal", TBoolean); ("has_commitment_signal", TBoolean);
     ("procurement_signal", TBoolean); ("requested_information", TArray TString);
     ("questions_asked", TArray TString); ("commitments_made", TArray TString);
     ("current_solution", TNullable FACT_SCHEMA); ("competitors_mentioned", TArray FACT_SCHEMA_NO_SUPERSEDES);
     ("new_facts", TArray FACT_SCHEMA); ("contradicted_facts", TArray TString); ("unresolved_items", TArray TString);
     ("timing", TNullable TIMING_SCHEMA); ("confidence", TNumber); ("uncertain_aspects", TArray TString);
     ("reasoning", TString); ("requires_human_review", TBoolean); ("human_review_reason", TNullable TString)].

Definition PLANNER_JSON_SCHEMA : schema :=
  TObject
    [("action_type", TString); ("objective", TString); ("reason", TString); ("required_information", TArray TString);
     ("confidence", TNumber); ("requires_human_review", TBoolean); ("review_reason", TNullable TString)].

Definition RESPONDER_JSON_SCHEMA : schema :=
  TObject [("subject", TString); ("body", TString); ("reasoning", TString)].

(** A property of a concrete schema. *)
Ltac listed := cbn; repeat first [left; reflexivity | right].

(** ** Facts *)

Lemma admits_object properties j :
  admits (TObject properties) j = true →
  ∃ fields, j = JObj fields ∧
    ∀ k s, In (k, s) properties → ∃ v, assoc k fields = Some v ∧ admits s v = true.
Proof.
  destruct j as [| | | | | |fields|]; try done. intros [_ Hp]%andb_prop. exists fields. split; [done|].
  intros k s Hin. eapply forallb_forall in Hp; [|exact Hin]. cbn in Hp.
  destruct (assoc k fields) as [v|]; [by exists v|done].
Qed.

(** Nothing else is allowed: each key of an admitted object is a property. *)
Lemma admits_object_keys properties fields :
  NoDup (map fst properties) → admits (TObject properties) (JObj fields) = true →
  ∀ k, In k (map fst fields) → In k (map fst properties).
Proof.
  intros Hnd [Hlen Hp]%andb_prop. apply Nat.eqb_eq in Hlen.
  assert (incl (map fst properties) (map fst fields)) as Hincl.
  { intros k [[k' s] [<- Hin]]%in_map_iff. eapply forallb_forall in Hp; [|exact Hin]. cbn in *.
    clear -Hp. induction fields as [|[a v] r IH]; [done|]. cbn in *. case_bool_decide; [by left|right; auto]. }
  intros k Hk. revert k Hk. apply NoDup_length_incl; [by apply NoDup_ListNoDup|rewrite !length_map; lia|done].
Qed.

Lemma admits_string j : admits TString j = true → ∃ s, j = JStr s.
Proof. destruct j; try done. eauto. Qed.
Lemma admits_boolean j : admits TBoolean j = true → ∃ b, j = JBool b.
Proof. destruct j; try done. eauto. Qed.
Lemma admits_nullable_string j : admits (TNullable TString) j = true → ∃ o, j = jopt o.
Proof. destruct j as [| | | |s| | |]; try done; [by exists None|by exists (Some s)]. Qed.
Lemma admits_strings j : admits (TArray TString) j = true → ∃ l, j = JList (map JStr l).
Proof.
  destruct j as [| | | | |l| |]; try done. intros Hl. cbn in Hl. induction l as [|x l IH]; [by exists []|].
  cbn in Hl. apply andb_prop in Hl as [[s ->]%admits_string Hl]. destruct (IH Hl) as [m Hm].
  injection Hm as ->. by exists (s :: m).
Qed.
Lemma admits_array s j : admits (TArray s) j = true → ∃ l, j = JList l ∧ ∀ x, In x l → admits s x = true.
Proof. destruct j as [| | | | |l| |]; try done. intros Hl. exists l. split; [done|]. by apply forallb_forall. Qed.
