(* ===== verification/LlmRouting.v ===== *)
(** * Model routing ([src/mailer_agent/llm/provider_v2.py])

    Calls of the language model: the classification of SDK errors, the retries
    of one model, the rotation over response modes and models, and the lenient
    extraction of JSON.  The SDK is the interface [GroqSdk]: what each HTTP
    call does, which may differ from call to call.  The router returns the
    trace of its calls and waits.  It implements the interface [LlmProvider]
    on which the drafting agent, the planner and the classifier rely. *)

From stdpp Require Import sets.
From Stdlib Require Import Lqa.
From S2P Require Import Prelude Config SemanticModels Sender Regex Grounding ExactMessage Llm LlmSchemas.

#[local] Open Scope bool_scope.

(** ** Models *)

Record ModelCapabilities := mkCapabilities {
  supports_strict_json_schema : bool;
  supports_reasoning_effort : bool;
  reasoning_effort_values : list string
}.

Definition MODEL_CAPABILITIES : list (string * ModelCapabilities) :=
  [("openai/gpt-oss-120b", mkCapabilities true true ["low"; "medium"; "high"]);
   ("openai/gpt-oss-20b", mkCapabilities true true ["low"; "medium"; "high"]);
   ("qwen/qwen3.8-27b", mkCapabilities true true ["none"; "low"; "medium"; "high"])].
Definition DEFAULT_CAPABILITIES : ModelCapabilities := mkCapabilities false false [].

Definition get_model_capabilities (model : string) : ModelCapabilities :=
  default DEFAULT_CAPABILITIES (assoc model MODEL_CAPABILITIES).

(** [_reasoning_kwargs(model).get("reasoning_effort")] *)
Definition reasoning_kwargs (settings : Settings) (model : string) : option string :=
  let caps := get_model_capabilities model in
  if negb (supports_reasoning_effort caps) then None
  else if negb (in_list (llm_reasoning_effort settings) (reasoning_effort_values caps)) then None
  else Some (llm_reasoning_effort settings).

Definition MAX_MODELS_TO_TRY : nat := 3.
Definition MAX_TOTAL_ATTEMPTS : Z := 12.

Fixpoint ordered_unique (seen l : list string) : list string :=
  match l with
  | [] => []
  | m :: r => if in_list m seen then ordered_unique seen r else m :: ordered_unique (m :: seen) r
  end.
Definition models_to_try (settings : Settings) : list string :=
  take MAX_MODELS_TO_TRY (ordered_unique [] (llm_model settings :: llm_fallback_models_list settings)).

(** ** Errors *)

(** An exception of the SDK: its text, its status code or that of its response
    (when they are integers), and the response's headers. *)
Record SdkError := mkSdkError {
  xe_str : string;
  xe_status_code : option Z;
  xe_response_status : option Z;
  xe_headers : option (string → option string)
}.

(** [float(s)]; [None] is the ValueError. *)
Inductive pyfloat := Finite (q : Q) | PosInf | NegInf | NaN.
Class FloatOfString := float_of_string : string → option pyfloat.

Record ProviderFault := mkFault {
  pf_class : provider_class;
  pf_message : string;
  pf_retry_after : option Q
}.
Definition fault (c : provider_class) (m : string) : ProviderFault := mkFault c m None.

(** [max(0.5, min(seconds, 30.0)) + 0.5]; a comparison with NaN is false, so
    that [min] and then [max] keep their first arguments. *)
Definition bound_retry_after (seconds : pyfloat) : Q :=
  (match seconds with
   | Finite q => if Qle_bool q (1 # 2) then 1 # 2 else if Qle_bool q 30 then q else 30
   | PosInf => 30
   | NegInf | NaN => 1 # 2
   end + (1 # 2))%Q.

(** [try again in ([\d.]+)\s*s] *)
Definition hint_prefix : string := "try again in ".
Definition is_hint_char (c : ascii) : bool := Str.isdigit c || bool_decide (c = "."%char).
Definition RETRY_AFTER_PATTERN : re :=
  seqs [ilit hint_prefix; plus (Chr is_hint_char); Star space; ilit "s"].

Fixpoint take_while (p : ascii → bool) (s : string) : string :=
  match s with
  | "" => ""
  | String c r => if p c then String c (take_while p r) else ""
  end.

(** Group 1 of the first match: neither white space nor an s is a character of
    the group, so it is the whole run of digits and dots. *)
Definition retry_hint (error_str : string) : option string :=
  match finditer RETRY_AFTER_PATTERN error_str with
  | [] => None
  | (i, j) :: _ => Some (take_while is_hint_char (slice (i + String.length hint_prefix) j error_str))
  end.

Section Errors.
Context `{FloatOfString}.

Definition parse_retry_after_from_body (error_str : string) : option Q :=
  match retry_hint error_str with
  | None => None
  | Some g => bound_retry_after <$> float_of_string g
  end.

Definition extract_retry_after_seconds (e : SdkError) (error_str : string) : option Q :=
  let raw := match xe_headers e with
             | Some headers => if truthy (headers "retry-after") then headers "retry-after" else headers "Retry-After"
             | None => None
             end in
  match (if truthy raw then raw else None) ≫= float_of_string with
  | Some seconds => Some (bound_retry_after seconds)
  | None => parse_retry_after_from_body error_str
  end.

Definition SCHEMA_REQUEST_REJECTED_PATTERNS : list string :=
  ["invalid schema"; "invalid json_schema"; "invalid 'response_format'"; "invalid response_format"; "schema must be";
   "does not match json schema specification"; "invalid_schema"].
Definition is_schema_request_rejected (error_str : string) : bool :=
  existsb (λ p, Str.contains p error_str) SCHEMA_REQUEST_REJECTED_PATTERNS.

Definition MODEL_UNAVAILABLE_PATTERNS : list string :=
  ["model_not_found"; "does not exist"; "model not found"; "no such model"; "unknown model"; "has been decommissioned"].
Definition is_model_unavailable (error_str : string) : bool :=
  existsb (λ p, Str.contains p error_str) MODEL_UNAVAILABLE_PATTERNS.

(** [_TOKEN_xxx.search(error_str)] *)
Definition token (code error_str : string) : bool := search (token_re code) error_str.

Definition extract_status_code (e : SdkError) : option Z :=
  match xe_status_code e with Some s => Some s | None => xe_response_status e end.

Definition invalid_json (error_str : string) : bool :=
  Str.contains "json_validate_failed" error_str || Str.contains "invalid json" error_str.

Definition rate_limited (e : SdkError) (error_str : string) : ProviderFault :=
  mkFault RateLimitError ("Rate limit exceeded: " +:+ xe_str e) (extract_retry_after_seconds e error_str).
Definition schema_rejected (e : SdkError) : ProviderFault :=
  fault ProviderValidationError
    ("Bad request (schema/request rejected, not a model output issue): " +:+ xe_str e).

(** The part that trusts a status code; [None] falls through to the text. *)
Definition classify_by_status (e : SdkError) (error_str : string) (status_code : Z) : option ProviderFault :=
  if (status_code =? 404) || is_model_unavailable error_str then
    Some (fault ModelUnavailableError ("Model unavailable: " +:+ xe_str e))
  else if in_list status_code [401; 403] then
    Some (fault AuthenticationError ("Authentication failed: " +:+ xe_str e))
  else if status_code =? 429 then Some (rate_limited e error_str)
  else if in_list status_code [500; 502; 503; 504] then
    Some (fault ProviderUnavailableError ("Provider server error: " +:+ xe_str e))
  else if status_code =? 400 then
    if is_schema_request_rejected error_str then Some (schema_rejected e)
    else if invalid_json error_str then
      Some (fault MalformedOutputError ("Invalid JSON from model: " +:+ xe_str e))
    else Some (fault ProviderValidationError ("Bad request: " +:+ xe_str e))
  else None.

Definition classify_by_text (e : SdkError) (error_str : string) : ProviderFault :=
  if token "404" error_str || is_model_unavailable error_str then
    fault ModelUnavailableError ("Model unavailable: " +:+ xe_str e)
  else if token "401" error_str || token "403" error_str || Str.contains "authentication" error_str
          || Str.contains "invalid api key" error_str then
    fault AuthenticationError ("Authentication failed: " +:+ xe_str e)
  else if token "429" error_str || Str.contains "rate_limit" error_str
          || Str.contains "too many requests" error_str then rate_limited e error_str
  else if token "500" error_str || token "502" error_str || token "503" error_str || token "504" error_str then
    fault ProviderUnavailableError ("Provider server error: " +:+ xe_str e)
  else if is_schema_request_rejected error_str then schema_rejected e
  else if invalid_json error_str then fault MalformedOutputError ("Invalid JSON from model: " +:+ xe_str e)
  else if token "400" error_str then fault ProviderValidationError ("Bad request: " +:+ xe_str e)
  else if Str.contains "timeout" error_str || Str.contains "timed out" error_str then
    fault ProviderTimeoutError ("Request timeout: " +:+ xe_str e)
  else fault (LLMProviderError UNKNOWN_ERROR) (xe_str e).

Definition classify_error (e : SdkError) : ProviderFault :=
  let error_str := Str.lower (xe_str e) in
  match extract_status_code e ≫= classify_by_status e error_str with
  | Some f => f
  | None => classify_by_text e error_str
  end.
End Errors.

(** ** JSON in the answer *)

(** [json.loads(s)]: the value, or the text of the JSONDecodeError. *)
Class JsonText := loads : string → result string json.

Definition backtick : ascii := "`"%char.
Fixpoint lstrip_char (c : ascii) (s : string) : string :=
  match s with
  | "" => ""
  | String x r => if bool_decide (x = c) then lstrip_char c r else s
  end.
Fixpoint rstrip_char (c : ascii) (s : string) : string :=
  match s with
  | "" => ""
  | String x r =>
      match rstrip_char c r with
      | "" => if bool_decide (x = c) then "" else String x ""
      | r' => String x r'
      end
  end.

(** [s.find(c)] and [s.rfind(c)]; [None] is -1. *)
Fixpoint find_char (c : ascii) (s : string) : option nat :=
  match s with
  | "" => None
  | String x r => if bool_decide (x = c) then Some 0%nat else S <$> find_char c r
  end.
Fixpoint rfind_char (c : ascii) (s : string) : option nat :=
  match s with
  | "" => None
  | String x r =>
      match rfind_char c r with
      | Some n => Some (S n)
      | None => if bool_decide (x = c) then Some 0%nat else None
      end
  end.

Definition unfenced (raw : string) : string :=
  let cleaned := Str.strip raw in
  if Str.startswith "```" cleaned then
    let cleaned := rstrip_char backtick (lstrip_char backtick cleaned) in
    Str.strip (if Str.startswith "json" cleaned then slice 4 (String.length cleaned) cleaned else cleaned)
  else cleaned.

Definition parse_json `{JsonText} (raw : string) : result ProviderFault json :=
  let cleaned := unfenced raw in
  match loads cleaned with
  | Ok j => Ok j
  | Err _ =>
      let missing :=
        fault MalformedOutputError ("No JSON object found in output: " +:+ slice 0 200 raw +:+ "...") in
      match find_char "{"%char cleaned, rfind_char "}"%char cleaned with
      | Some start, Some end_ =>
          if (start <? end_)%nat then
            match loads (slice start (S end_) cleaned) with
            | Ok j => Ok j
            | Err m => Err (fault MalformedOutputError ("Could not extract valid JSON: " +:+ m))
            end
          else Err missing
      | _, _ => Err missing
      end
  end.

(** ** One model *)

Inductive ResponseMode := StrictSchema (s : schema) | JsonObject | Lenient.
Definition mode_name (mode : ResponseMode) : string :=
  match mode with StrictSchema _ => "strict_schema" | JsonObject => "json_object" | Lenient => "lenient" end.

(** The arguments of [client.chat.completions.create]; the two messages are
    those of the request. *)
Record ChatRequest := mkChat {
  cq_model : string;
  cq_request : LlmRequest;
  cq_temperature : Q;
  cq_max_tokens : Z;
  cq_mode : ResponseMode;
  cq_reasoning_effort : option string
}.

Inductive sdk_outcome :=
  | Completed (content : option string)
  | SdkRaised (e : SdkError).
(** What the call does that is made after so many events. *)
Class GroqSdk := groq_create : nat → ChatRequest → sdk_outcome.

(** How long tenacity sleeps before the next attempt: the time the provider
    asked for, or the exponential backoff with jitter of that attempt. *)
Inductive wait := RetryAfter (seconds : Q) | Backoff (attempt : nat).
Inductive chat_event := Http (q : ChatRequest) (o : sdk_outcome) | Waited (w : wait).

Definition wait_strategy (attempt : nat) (f : ProviderFault) : wait :=
  match pf_class f, pf_retry_after f with
  | RateLimitError, Some s => RetryAfter s
  | _, _ => Backoff attempt
  end.

(** [retry_if_exception_type((RateLimitError, TimeoutError, ProviderUnavailableError))],
    which is also [_FAILOVER_ELIGIBLE_TRANSIENT]. *)
Definition transient (c : provider_class) : bool :=
  match c with RateLimitError | ProviderTimeoutError | ProviderUnavailableError => true | _ => false end.

(** How the loop over one model's modes ends: with an answer, with an
    exception, or by going on to the next model. *)
Inductive routed (A : Type) := Answered (a : A) | RaisedFault (f : ProviderFault) | NextModel.
Arguments Answered {A} a.
Arguments RaisedFault {A} f.
Arguments NextModel {A}.

Section Calls.
Context `{FloatOfString} `{JsonText} `{GroqSdk}.

(** One run of the body: no client without a key. *)
Definition chat_once (settings : Settings) (n : nat) (q : ChatRequest) : result ProviderFault string * list chat_event :=
  if groq_api_key settings == "" then
    (Err (fault ProviderUnavailableError "GROQ_API_KEY is not configured"), [])
  else
    let o := groq_create n q in
    (match o with
     | Completed content =>
         let stripped := Str.strip (default "" content) in
         if stripped == "" then Err (fault MalformedOutputError "LLM returned empty content") else Ok stripped
     | SdkRaised e => Err (classify_error e)
     end, [Http q o]).

(** tenacity: attempt number [k], and [more] further ones after a transient
    error; [reraise=True] surfaces the last error. *)
Fixpoint chatting (more k : nat) (settings : Settings) (n : nat) (q : ChatRequest)
    : result ProviderFault string * list chat_event :=
  let '(r, trace) := chat_once settings n q in
  match r, more with
  | Err f, S more' =>
      if transient (pf_class f) then
        let waited := trace ++ [Waited (wait_strategy k f)] in
        let '(r', trace') := chatting more' (S k) settings (n + length waited) q in (r', waited ++ trace')
      else (r, trace)
  | _, _ => (r, trace)
  end.
(** [stop_after_attempt(3)]. *)
Definition chat_with_retry (settings : Settings) (n : nat) (q : ChatRequest)
    : result ProviderFault string * list chat_event := chatting 2 1 settings n q.

(** ** The router *)

Definition request_for (settings : Settings) (q : LlmRequest) (model : string) (mode : ResponseMode) : ChatRequest :=
  mkChat model q (default (llm_temperature settings) (lq_temperature q))
    (default (llm_max_tokens settings) (lq_max_tokens q)) mode (reasoning_kwargs settings model).

(** What the router carries along: [total_attempts], [last_error] and the
    events so far. *)
Record Routing := mkRouting { ro_attempts : Z; ro_last : option ProviderFault; ro_trace : list chat_event }.
Definition attempted (last : option ProviderFault) (events : list chat_event) (ro : Routing) : Routing :=
  mkRouting (ro_attempts ro + 1) last (ro_trace ro ++ events).

(** The handlers of both routers for an error of [model]. *)
Definition on_fault {A} (model_index : nat) (f : ProviderFault) : routed A :=
  match pf_class f with
  | ModelUnavailableError => if (model_index =? 0)%nat then RaisedFault f else NextModel
  | c => if transient c then NextModel else RaisedFault f
  end.

Definition attempt_plan (json_schema : option schema) (model : string) : list ResponseMode :=
  match json_schema with
  | Some s => if supports_strict_json_schema (get_model_capabilities model) then [StrictSchema s] else []
  | None => []
  end ++ [JsonObject; Lenient].

(** A call and the parsing of its answer. *)
Definition attempt_json (settings : Settings) (ro : Routing) (q : ChatRequest)
    : result ProviderFault json * list chat_event :=
  let '(r, events) := chat_with_retry settings (length (ro_trace ro)) q in
  (match r with Ok content => parse_json content | Err f => Err f end, events).

Fixpoint try_modes (settings : Settings) (q : LlmRequest) (model_index : nat) (model : string)
    (plan : list ResponseMode) (ro : Routing) : routed LLMJsonResult * Routing :=
  match plan with
  | [] => (NextModel, ro)
  | mode :: rest =>
      if MAX_TOTAL_ATTEMPTS <=? ro_attempts ro then
        (RaisedFault (default (fault (LLMProviderError UNKNOWN_ERROR) "Max LLM attempts exhausted") (ro_last ro)), ro)
      else
        let '(r, events) := attempt_json settings ro (request_for settings q model mode) in
        match r with
        | Ok data =>
            let ro := attempted (ro_last ro) events ro in
            (Answered (mkJsonResult data model (llm_model settings) (ro_attempts ro) (0 <? model_index)%nat
                         (mode_name mode)), ro)
        | Err f =>
            let ro := attempted (Some f) events ro in
            match pf_class f with
            | MalformedOutputError => try_modes settings q model_index model rest ro
            | _ => (on_fault model_index f, ro)
            end
        end
  end.

Fixpoint try_models (settings : Settings) (q : LlmRequest) (json_schema : option schema) (model_index : nat)
    (models : list string) (ro : Routing) : result ProviderFault LLMJsonResult * Routing :=
  match models with
  | [] => (Err (default (fault (LLMProviderError UNKNOWN_ERROR) "No models configured") (ro_last ro)), ro)
  | model :: rest =>
      match try_modes settings q model_index model (attempt_plan json_schema model) ro with
      | (Answered a, ro) => (Ok a, ro)
      | (RaisedFault f, ro) => (Err f, ro)
      | (NextModel, ro) => try_models settings q json_schema (S model_index) rest ro
      end
  end.

Definition route_json (settings : Settings) (q : LlmRequest) (json_schema : option schema)
    : result ProviderFault LLMJsonResult * Routing :=
  try_models settings q json_schema 0 (models_to_try settings) (mkRouting 0 None []).

Record LLMTextResult := mkTextResult {
  lt_text : string;
  lt_model_used : string;
  lt_requested_model : string;
  lt_attempts : Z;
  lt_used_fallback : bool
}.

(** [break] leaves the loop and raises the last error; [raise None] is a
    TypeError. *)
Definition raise_last (last : option ProviderFault) : provider_exn :=
  match last with
  | Some f => ProviderError (pf_class f) (pf_message f)
  | None => ProviderOther (mkExn (C_Other "TypeError") "exceptions must derive from BaseException")
  end.

Fixpoint text_models (settings : Settings) (q : LlmRequest) (model_index : nat) (models : list string) (ro : Routing)
    : result provider_exn LLMTextResult * Routing :=
  match models with
  | [] => (Err (raise_last (ro_last ro)), ro)
  | model :: rest =>
      if MAX_TOTAL_ATTEMPTS <=? ro_attempts ro then (Err (raise_last (ro_last ro)), ro)
      else
        let '(r, events) := chat_with_retry settings (length (ro_trace ro)) (request_for settings q model Lenient) in
        match r with
        | Ok content =>
            let ro := attempted (ro_last ro) events ro in
            (Ok (mkTextResult content model (llm_model settings) (ro_attempts ro) (0 <? model_index)%nat), ro)
        | Err f =>
            let ro := attempted (Some f) events ro in
            match on_fault model_index f with
            | NextModel => text_models settings q (S model_index) rest ro
            | Answered c => (Ok c, ro)
            | RaisedFault f => (Err (ProviderError (pf_class f) (pf_message f)), ro)
            end
        end
  end.

Definition route_text (settings : Settings) (q : LlmRequest) : result provider_exn LLMTextResult * Routing :=
  text_models settings q 0 (models_to_try settings) (mkRouting 0 None []).

(** The schema that goes with an operation. *)
Definition schema_of (operation : string) : option schema :=
  if operation == "classifier" then Some CLASSIFIER_JSON_SCHEMA
  else if operation == "planner" then Some PLANNER_JSON_SCHEMA
  else if operation == "responder" then Some RESPONDER_JSON_SCHEMA
  else None.

#[global] Instance groq_provider (settings : Settings) : LlmProvider := {|
  is_llm_available := negb (groq_api_key settings == "");
  provider_call_json := λ q,
    match fst (route_json settings q (schema_of (lq_operation q))) with
    | Ok r => Ok r
    | Err f => Err (ProviderError (pf_class f) (pf_message f))
    end;
  provider_call_text := λ q,
    match fst (route_text settings q) with Ok r => Ok (lt_text r) | Err e => Err e end
|}.
End Calls.

(** ** Facts *)

(** *** Models *)

Lemma ordered_unique_spec l : ∀ seen,
  NoDup (ordered_unique seen l) ∧ ∀ m, m ∈ ordered_unique seen l ↔ m ∈ l ∧ m ∉ seen.
Proof.
  induction l as [|x l IH]; intros seen; cbn [ordered_unique]; [split; [constructor|set_solver]|].
  unfold in_list. case_bool_decide.
  - destruct (IH seen) as [Hn Hm]. split; [done|]. intros m. rewrite Hm. set_solver.
  - destruct (IH (x :: seen)) as [Hn Hm]. split; [constructor; [rewrite Hm; set_solver|done]|].
    intros m. rewrite !elem_of_cons, Hm. destruct (decide (m = x)); set_solver.
Qed.

Lemma models_to_try_spec settings :
  NoDup (models_to_try settings) ∧ (length (models_to_try settings) ≤ 3)%nat ∧
  models_to_try settings !! 0%nat = Some (llm_model settings) ∧
  ∀ m, m ∈ models_to_try settings → m = llm_model settings ∨ m ∈ llm_fallback_models_list settings.
Proof.
  destruct (ordered_unique_spec (llm_model settings :: llm_fallback_models_list settings) []) as [Hn Hm].
  unfold models_to_try. split_and!.
  - rewrite <- (take_drop MAX_MODELS_TO_TRY) in Hn. by apply NoDup_app in Hn as [? _].
  - rewrite length_take. unfold MAX_MODELS_TO_TRY. lia.
  - done.
  - intros m Hin. assert (m ∈ ordered_unique [] (llm_model settings :: llm_fallback_models_list settings)) as Hm'.
    { rewrite <- (take_drop MAX_MODELS_TO_TRY). apply elem_of_app. by left. }
    apply Hm in Hm'. set_solver.
Qed.

Lemma primary_index settings i model :
  models_to_try settings !! i = Some model → (i =? 0)%nat = (model == llm_model settings).
Proof.
  destruct (models_to_try_spec settings) as (Hn & _ & H0 & _). intros Hi.
  destruct (i =? 0)%nat eqn:E; symmetry; [apply bool_decide_eq_true|apply bool_decide_eq_false].
  - apply Nat.eqb_eq in E as ->. congruence.
  - intros ->. apply Nat.eqb_neq in E. apply E. by eapply NoDup_lookup.
Qed.

(** *** Waits *)

Lemma bound_retry_after_range s : (1 <= bound_retry_after s)%Q ∧ (bound_retry_after s <= 61 # 2)%Q.
Proof.
  destruct s as [q| | |]; unfold bound_retry_after; try lra.
  destruct (Qle_bool q (1 # 2)) eqn:E1; [lra|]. destruct (Qle_bool q 30) eqn:E2; [|lra].
  apply Qle_bool_iff in E2. assert (¬ (q <= 1 # 2)%Q) as E3%Qnot_le_lt by (rewrite <- Qle_bool_iff; by rewrite E1).
  lra.
Qed.

Lemma wait_range `{FloatOfString} e s seconds :
  extract_retry_after_seconds e s = Some seconds → (1 <= seconds)%Q ∧ (seconds <= 61 # 2)%Q.
Proof.
  unfold extract_retry_after_seconds, parse_retry_after_from_body.
  destruct (_ ≫= float_of_string) as [x|]; [intros [= <-]; apply bound_retry_after_range|].
  destruct (retry_hint s) as [g|]; [|done]. destruct (float_of_string g) as [x|]; [|done].
  intros [= <-]. apply bound_retry_after_range.
Qed.

Definition fault_range (f : ProviderFault) : Prop :=
  ∀ seconds, pf_retry_after f = Some seconds → (1 <= seconds)%Q ∧ (seconds <= 61 # 2)%Q.

Lemma classify_error_range `{FloatOfString} e : fault_range (classify_error e).
Proof.
  unfold classify_error, classify_by_status, classify_by_text, rate_limited, schema_rejected.
  destruct (extract_status_code e) as [code|]; cbn [mbind option_bind];
    repeat match goal with |- context [if ?b then _ else _] => destruct b end;
    intros seconds; cbn; (done || apply wait_range).
Qed.

(** *** One model *)

(** The requests of a trace, and the error an outcome stands for. *)
Definition requests (l : list chat_event) : list ChatRequest :=
  omap (λ e, match e with Http q _ => Some q | Waited _ => None end) l.

Lemma requests_app l l' : requests (l ++ l') = requests l ++ requests l'.
Proof. apply omap_app. Qed.

Section Tries.
Context `{FloatOfString} `{JsonText} `{GroqSdk}.

Definition fault_of (o : sdk_outcome) : option ProviderFault :=
  match o with
  | Completed c =>
      if Str.strip (default "" c) == "" then Some (fault MalformedOutputError "LLM returned empty content") else None
  | SdkRaised e => Some (classify_error e)
  end.

Definition bounded_wait (w : wait) : Prop :=
  match w with RetryAfter s => (1 <= s)%Q ∧ (s <= 61 # 2)%Q | Backoff k => (1 ≤ k ≤ 2)%nat end.

(** The events of the calls for one request before its last one. *)
Definition passing (q : ChatRequest) (e : chat_event) : Prop :=
  match e with
  | Http q' o => q' = q ∧ ∃ f, fault_of o = Some f ∧ transient (pf_class f) = true
  | Waited w => bounded_wait w
  end.

Definition no_key : ProviderFault := fault ProviderUnavailableError "GROQ_API_KEY is not configured".

Lemma chat_once_spec settings n q r tr :
  chat_once settings n q = (r, tr) →
  (r = Err no_key ∧ tr = []) ∨
  ∃ o, tr = [Http q o] ∧ o = groq_create n q ∧
    match r with
    | Ok c => fault_of o = None ∧ ∃ content, o = Completed (Some content) ∧ c = Str.strip content
    | Err f => fault_of o = Some f ∧ fault_range f
    end.
Proof.
  unfold chat_once. case_bool_decide; [intros [= <- <-]; by left|].
  intros [= <- <-]. right. exists (groq_create n q). split; [done|]. split; [done|].
  destruct (groq_create n q) as [[c|]|e]; cbn.
  - case_bool_decide; [done|]. split; [done|]. by exists c.
  - done.
  - split; [done|apply classify_error_range].
Qed.

Lemma wait_strategy_bounded k f : (1 ≤ k ≤ 2)%nat → fault_range f → bounded_wait (wait_strategy k f).
Proof.
  intros Hk Hf. unfold wait_strategy. destruct (pf_retry_after f) eqn:E; destruct (pf_class f); try done.
  by apply Hf.
Qed.

Lemma chatting_spec more : ∀ k settings n q r tr,
  (1 ≤ k)%nat → (k + more ≤ 3)%nat →
  chatting more k settings n q = (r, tr) →
  (length (requests tr) ≤ S more)%nat ∧
  ((r = Err no_key ∧ Forall (passing q) tr) ∨
   ∃ pre o, tr = pre ++ [Http q o] ∧ Forall (passing q) pre ∧
     match r with
     | Ok c => ∃ content, o = Completed (Some content) ∧ c = Str.strip content ∧ c ≠ ""
     | Err f => fault_of o = Some f
     end).
Proof.
  induction more as [|more IH]; intros k settings n q r tr Hk Hm; cbn [chatting];
    destruct (chat_once settings n q) as [r0 tr0] eqn:E; apply chat_once_spec in E as Hone.
  - assert (match r0 with Ok _ | _ => (r0, tr0) end = (r0, tr0)) as -> by (by destruct r0). intros [= <- <-].
    destruct Hone as [[-> ->]|(o & -> & _ & Ho)]; [split; [cbn; lia|by left]|]. split; [cbn; lia|]. right.
    exists [], o. split_and!; [done|done|]. destruct r0; [|by destruct Ho].
    destruct Ho as (Hf & content & -> & ->). exists content. split_and!; [done|done|]. cbn in Hf. by case_bool_decide.
  - destruct r0 as [c|f].
    + intros [= <- <-]. destruct Hone as [[? ?]|(o & -> & _ & Hf & content & -> & ->)]; [done|]. split; [cbn; lia|].
      right. exists [], (Completed (Some content)). split_and!; [done|done|]. exists content. split_and!; [done|done|].
      cbn in Hf. by case_bool_decide.
    + destruct (transient (pf_class f)) eqn:Et.
      2:{ intros [= <- <-]. destruct Hone as [[[= ->] _]|(o & -> & _ & Ho & _)]; [done|]. split; [cbn; lia|].
          right. exists [], o. by split_and!. }
      destruct (chatting more _ _ _ _) as [r1 tr1] eqn:E1. intros [= <- <-].
      assert (Forall (passing q) (tr0 ++ [Waited (wait_strategy k f)]) ∧ (length (requests tr0) ≤ 1)%nat) as [Hp Hl].
      { destruct Hone as [[[= ->] ->]|(o & -> & _ & Ho & Hr)]; (split; [|cbn; lia]).
        - apply Forall_singleton. cbn. lia.
        - constructor; [by split; [|exists f]|]. apply Forall_singleton.
          apply wait_strategy_bounded; [lia|done]. }
      apply IH in E1 as [Hl1 Hcase]; [|lia|lia]. split.
      { rewrite !requests_app, !length_app. cbn. lia. }
      destruct Hcase as [[-> Hp1]|(pre & o & -> & Hp1 & Ho)].
      * left. split; [done|]. by apply Forall_app.
      * right. exists ((tr0 ++ [Waited (wait_strategy k f)]) ++ pre), o. split_and!; [by rewrite !app_assoc| |done].
        by apply Forall_app.
Qed.

(** *** The router *)

(** A request as the router may make it for a call. *)
Record well_formed_call (settings : Settings) (q : LlmRequest) (json_schema : option schema) (c : ChatRequest) : Prop := {
  wc_model : cq_model c ∈ models_to_try settings;
  wc_request : cq_request c = q;
  wc_effort : ∀ e, cq_reasoning_effort c = Some e →
    e ∈ reasoning_effort_values (get_model_capabilities (cq_model c));
  wc_schema : ∀ s, cq_mode c = StrictSchema s →
    json_schema = Some s ∧ supports_strict_json_schema (get_model_capabilities (cq_model c)) = true
}.

(** The faults after which the router goes on. *)
Definition tolerable (primary : bool) (f : ProviderFault) : Prop :=
  transient (pf_class f) = true ∨ pf_class f = MalformedOutputError ∨
  (pf_class f = ModelUnavailableError ∧ primary = false).

#[global] Instance tolerable_dec primary f : Decision (tolerable primary f).
Proof.
  unfold tolerable. destruct (pf_class f), primary; cbn; first [by left; auto|by right; naive_solver].
Defined.

Definition tolerated (settings : Settings) (c : ChatRequest) (o : sdk_outcome) : Prop :=
  match o with
  | Completed content =>
      Str.strip (default "" content) = "" ∨ ∃ f, parse_json (Str.strip (default "" content)) = Err f
  | SdkRaised e => tolerable (cq_model c == llm_model settings) (classify_error e)
  end.

Definition event_fine (settings : Settings) (q : LlmRequest) (json_schema : option schema) (e : chat_event) : Prop :=
  match e with
  | Http c o => well_formed_call settings q json_schema c ∧ tolerated settings c o
  | Waited w => bounded_wait w
  end.

(** The call that ends the routing with an error, and the one that answers. *)
Definition stopped (settings : Settings) (q : LlmRequest) (json_schema : option schema) (f : ProviderFault)
    (tr : list chat_event) : Prop :=
  ∃ pre c e, tr = pre ++ [Http c (SdkRaised e)] ∧ Forall (event_fine settings q json_schema) pre ∧
    well_formed_call settings q json_schema c ∧ ¬ tolerated settings c (SdkRaised e) ∧ f = classify_error e.
Definition answered (settings : Settings) (q : LlmRequest) (json_schema : option schema) (a : LLMJsonResult)
    (ro : Routing) : Prop :=
  ∃ pre c content, ro_trace ro = pre ++ [Http c (Completed (Some content))] ∧
    Forall (event_fine settings q json_schema) pre ∧ well_formed_call settings q json_schema c ∧
    parse_json (Str.strip content) = Ok (lj_data a) ∧ lj_model_used a = cq_model c ∧
    lj_response_mode a = mode_name (cq_mode c) ∧ lj_requested_model a = llm_model settings ∧
    lj_used_fallback a = negb (cq_model c == llm_model settings) ∧ lj_attempts a = ro_attempts ro.

Lemma parse_json_malformed raw f : parse_json raw = Err f → pf_class f = MalformedOutputError.
Proof.
  unfold parse_json. destruct (loads _); [done|].
  destruct (find_char "{"%char (unfenced raw)) as [i|]; [|by intros [= <-]].
  destruct (rfind_char "}"%char (unfenced raw)) as [j|]; [|by intros [= <-]].
  destruct (i <? j)%nat; [|by intros [= <-]]. destruct (loads _); [done|]. by intros [= <-].
Qed.

Lemma passing_fine settings q json_schema c e :
  well_formed_call settings q json_schema c → passing c e → event_fine settings q json_schema e.
Proof.
  intros Hc. destruct e as [c' o|w]; [|done]. intros (-> & f & Hf & Ht). split; [done|].
  destruct o as [content|x]; cbn in *; [left; by case_bool_decide|]. left. by injection Hf as ->.
Qed.

Lemma request_for_wf settings q json_schema model mode :
  model ∈ models_to_try settings → mode ∈ attempt_plan json_schema model →
  well_formed_call settings q json_schema (request_for settings q model mode).
Proof.
  intros Hm Hp. split; cbn; [done|done| |].
  - intros e. unfold reasoning_kwargs. destruct (supports_reasoning_effort _); cbn; [|done].
    destruct (in_list _ _) eqn:E; cbn; [|done]. intros [= <-]. unfold in_list in E. by bools.
  - intros s ->. unfold attempt_plan in Hp. destruct json_schema as [s'|]; [|set_solver].
    destruct (supports_strict_json_schema _); set_solver.
Qed.

(** One attempt: at most three requests; a fault after which the router goes
    on leaves only fine events, any other ends the trace. *)
Lemma attempt_json_spec settings q json_schema ro c r events :
  well_formed_call settings q json_schema c →
  attempt_json settings ro c = (r, events) →
  (length (requests events) ≤ 3)%nat ∧
  match r with
  | Ok data => ∃ pre content, events = pre ++ [Http c (Completed (Some content))] ∧
      Forall (event_fine settings q json_schema) pre ∧ parse_json (Str.strip content) = Ok data
  | Err f =>
      (tolerable (cq_model c == llm_model settings) f ∧ Forall (event_fine settings q json_schema) events) ∨
      (¬ tolerable (cq_model c == llm_model settings) f ∧
       ∃ pre e, events = pre ++ [Http c (SdkRaised e)] ∧ Forall (event_fine settings q json_schema) pre ∧
         f = classify_error e)
  end.
Proof.
  intros Hc. unfold attempt_json, chat_with_retry.
  destruct (chatting 2 1 settings _ c) as [r0 tr] eqn:E. intros [= <- <-].
  apply chatting_spec in E as [Hl Hcase]; [|lia|lia]. split; [lia|].
  assert (∀ l, Forall (passing c) l → Forall (event_fine settings q json_schema) l) as Hpass.
  { intros l Hf. eapply Forall_impl; [exact Hf|]. intros e. by apply passing_fine. }
  destruct Hcase as [[-> Hp]|(pre & o & -> & Hp & Ho)].
  { left. split; [by left|by apply Hpass]. }
  destruct r0 as [content'|f].
  - destruct Ho as (content & -> & -> & _). destruct (parse_json (Str.strip content)) as [data|f] eqn:Ej.
    + exists pre, content. split_and!; [done|by apply Hpass|done].
    + left. split; [right; left; by eapply parse_json_malformed|]. apply Forall_app. split; [by apply Hpass|].
      apply Forall_singleton. split; [done|]. right. by exists f.
  - destruct o as [content|e]; cbn in Ho.
    + case_bool_decide as Hs; [|done]. injection Ho as <-. left. split; [right; by left|].
      apply Forall_app. split; [by apply Hpass|]. apply Forall_singleton. split; [done|by left].
    + injection Ho as <-. destruct (tolerable_dec (cq_model c == llm_model settings) (classify_error e)) as [Ht|Ht].
      * left. split; [done|]. apply Forall_app. split; [by apply Hpass|]. apply Forall_singleton. by split.
      * right. split; [done|]. exists pre, e. split_and!; [done|by apply Hpass|done].
Qed.

Lemma on_fault_spec {A} model_index settings model f :
  models_to_try settings !! model_index = Some model → pf_class f ≠ MalformedOutputError →
  (on_fault (A:=A) model_index f = NextModel ∧ tolerable (model == llm_model settings) f) ∨
  (on_fault (A:=A) model_index f = RaisedFault f ∧ ¬ tolerable (model == llm_model settings) f).
Proof.
  intros Hm Hne. rewrite <- (primary_index _ _ _ Hm). unfold on_fault, tolerable.
  destruct (pf_class f); cbn; try (left; split; [done|by left]); try (right; split; [done|naive_solver]).
  destruct (model_index =? 0)%nat; [right|left]; (split; [done|]); naive_solver.
Qed.

Lemma try_modes_spec settings q json_schema model_index model plan : ∀ ro res ro',
  models_to_try settings !! model_index = Some model → plan ⊆ attempt_plan json_schema model →
  ro_attempts ro + Z.of_nat (length plan) ≤ MAX_TOTAL_ATTEMPTS →
  Forall (event_fine settings q json_schema) (ro_trace ro) →
  try_modes settings q model_index model plan ro = (res, ro') →
  (ro_attempts ro ≤ ro_attempts ro' ≤ ro_attempts ro + Z.of_nat (length plan)) ∧
  Z.of_nat (length (requests (ro_trace ro'))) - Z.of_nat (length (requests (ro_trace ro)))
    ≤ 3 * (ro_attempts ro' - ro_attempts ro) ∧
  match res with
  | Answered a => answered settings q json_schema a ro'
  | RaisedFault f => stopped settings q json_schema f (ro_trace ro')
  | NextModel => Forall (event_fine settings q json_schema) (ro_trace ro') ∧
      (plan = [] ∧ ro' = ro ∨ ∃ f, ro_last ro' = Some f ∧ tolerable (model == llm_model settings) f)
  end.
Proof.
  induction plan as [|mode plan IH]; intros ro res ro' Hm Hsub Hcap Hfine; cbn [try_modes length].
  { intros [= <- <-]. split; [lia|]. split; [lia|]. split; [done|by left]. }
  cbn [length] in Hcap. destruct (MAX_TOTAL_ATTEMPTS <=? ro_attempts ro) eqn:Ecap; [bools; lia|].
  assert (well_formed_call settings q json_schema (request_for settings q model mode)) as Hc.
  { apply request_for_wf; [by eapply list_elem_of_lookup_2|set_solver]. }
  destruct (attempt_json _ _ _) as [[data|f] events] eqn:Ea;
    apply (attempt_json_spec _ _ _ _ _ _ _ Hc) in Ea as [Hl Ha]; cbn [request_for cq_model] in Ha.
  { intros [= <- <-]. cbn [attempted ro_attempts ro_trace]. rewrite requests_app, length_app.
    destruct Ha as (pre & content & -> & Hpre & Hj). split; [lia|]; split; [lia|].
    exists (ro_trace ro ++ pre), (request_for settings q model mode), content.
    split_and!; [cbn [attempted ro_trace]; by rewrite app_assoc|by apply Forall_app|done|done|done|done|done| |done].
    cbn. rewrite <- (primary_index _ _ _ Hm). by destruct model_index. }
  set (ro1 := attempted (Some f) events ro).
  assert (ro_attempts ro1 = ro_attempts ro + 1 ∧ ro_trace ro1 = ro_trace ro ++ events ∧ ro_last ro1 = Some f)
    as (Hat & Htr & Hlast) by done.
  assert (pf_class f ≠ MalformedOutputError →
    (on_fault (A:=LLMJsonResult) model_index f, ro1) = (res, ro') →
    (ro_attempts ro ≤ ro_attempts ro' ≤ ro_attempts ro + Z.of_nat (S (length plan))) ∧
    Z.of_nat (length (requests (ro_trace ro'))) - Z.of_nat (length (requests (ro_trace ro)))
      ≤ 3 * (ro_attempts ro' - ro_attempts ro) ∧
    match res with
    | Answered a => answered settings q json_schema a ro'
    | RaisedFault f => stopped settings q json_schema f (ro_trace ro')
    | NextModel => Forall (event_fine settings q json_schema) (ro_trace ro') ∧
        (mode :: plan = [] ∧ ro' = ro ∨ ∃ f, ro_last ro' = Some f ∧ tolerable (model == llm_model settings) f)
    end) as Hother.
  { intros Hne [= <- <-]. rewrite Hat, Htr, requests_app, length_app.
    split; [lia|]; split; [lia|].
    destruct (on_fault_spec (A:=LLMJsonResult) model_index settings model f Hm Hne) as [[-> Ht]|[-> Ht]].
    - destruct Ha as [[_ He]|[? _]]; [|done]. split; [by apply Forall_app|]. right. by exists f.
    - destruct Ha as [[? _]|(_ & pre & e & -> & Hpre & ->)]; [done|].
      exists (ro_trace ro ++ pre), (request_for settings q model mode), e.
      split_and!; [by rewrite app_assoc|by apply Forall_app|done|done|done]. }
  destruct (pf_class f) eqn:Ef; try (apply Hother; done).
  clear Hother. intros E. apply IH in E as ([Hlo Hhi] & Hcount & Hres); [|done|set_solver| |].
  - rewrite Hat in *. rewrite Htr, requests_app, length_app in Hcount. split; [lia|]; split; [lia|].
    destruct res; [done|done|]. destruct Hres as [? [[-> ->]|?]]; (split; [done|]); right; [|done].
    exists f. split; [done|]. right. by left.
  - rewrite Hat. lia.
  - rewrite Htr. apply Forall_app. split; [done|]. destruct Ha as [[_ ?]|[Hn _]]; [done|].
    exfalso. apply Hn. right. by left.
Qed.
Lemma attempt_plan_length json_schema model : (2 ≤ length (attempt_plan json_schema model) ≤ 3)%nat.
Proof. unfold attempt_plan. destruct json_schema; [destruct (supports_strict_json_schema _)|]; cbn; lia. Qed.

(** What a routing that started with nothing may end as. *)
Definition routing_end (settings : Settings) (q : LlmRequest) (json_schema : option schema)
    (r : result ProviderFault LLMJsonResult) (ro : Routing) : Prop :=
  match r with
  | Ok a => answered settings q json_schema a ro
  | Err f => stopped settings q json_schema f (ro_trace ro) ∨
      (Forall (event_fine settings q json_schema) (ro_trace ro) ∧ ∃ primary, tolerable primary f)
  end.

Lemma try_models_spec settings q json_schema models : ∀ model_index ro r ro',
  (∀ j model, models !! j = Some model → models_to_try settings !! (model_index + j)%nat = Some model) →
  ro_attempts ro + 3 * Z.of_nat (length models) ≤ MAX_TOTAL_ATTEMPTS →
  Forall (event_fine settings q json_schema) (ro_trace ro) →
  (models = [] → ∃ f primary, ro_last ro = Some f ∧ tolerable primary f) →
  try_models settings q json_schema model_index models ro = (r, ro') →
  (ro_attempts ro ≤ ro_attempts ro' ≤ ro_attempts ro + 3 * Z.of_nat (length models)) ∧
  Z.of_nat (length (requests (ro_trace ro'))) - Z.of_nat (length (requests (ro_trace ro)))
    ≤ 3 * (ro_attempts ro' - ro_attempts ro) ∧
  routing_end settings q json_schema r ro'.
Proof.
  induction models as [|model models IH]; intros model_index ro r ro' Hm Hcap Hfine Hlast; cbn [try_models].
  { intros [= <- <-]. split; [cbn; lia|]. split; [lia|]. right. split; [done|].
    destruct (Hlast eq_refl) as (f & primary & -> & Ht). by exists primary. }
  pose proof (attempt_plan_length json_schema model) as Hlen. cbn [length] in *.
  destruct (try_modes _ _ _ _ _ _) as [res ro1] eqn:E. apply (try_modes_spec _ _ json_schema) in E
    as (Hat & Hcount & Hres); [|rewrite <- (Nat.add_0_r model_index); by apply Hm|done|lia|done].
  destruct res as [a|f|].
  - intros [= <- <-]. split; [lia|]. split; [lia|done].
  - intros [= <- <-]. split; [lia|]. split; [lia|by left].
  - destruct Hres as [Hfine1 [[Hnil _]|Hlast1]]; [rewrite Hnil in Hlen; cbn in Hlen; lia|].
    intros E2. apply IH in E2 as (Hat2 & Hcount2 & Hend).
    + split; [lia|]. split; [lia|done].
    + intros j x Hj. rewrite Nat.add_succ_comm. by apply Hm.
    + lia.
    + done.
    + intros _. destruct Hlast1 as (f & Hf & Ht). by eexists f, _.
Qed.

Lemma route_json_spec settings q json_schema r ro :
  route_json settings q json_schema = (r, ro) →
  0 ≤ ro_attempts ro ≤ 9 ∧ Z.of_nat (length (requests (ro_trace ro))) ≤ 3 * ro_attempts ro ∧
  routing_end settings q json_schema r ro.
Proof.
  destruct (models_to_try_spec settings) as (_ & Hlen & Hhd & _). unfold route_json. intros E.
  apply try_models_spec in E as (Hat & Hcount & Hend); [|done|cbn [ro_attempts]; unfold MAX_TOTAL_ATTEMPTS; lia|constructor|].
  - cbn [ro_attempts ro_trace requests omap list_omap length] in *. split; [lia|]. split; [lia|done].
  - intros Hnil. by rewrite Hnil in Hhd.
Qed.

(** C31: a model call is bounded.  However many fallback models are configured
    and whatever the service does, a structured call makes at most nine
    attempts and twenty-seven HTTP requests, each to one of the first three
    distinct models, with the caller's prompt, a reasoning effort that model
    accepts, and the strict schema only where the model supports it; every
    wait the provider asked for is between 1 and 30.5 seconds.  So the cap of
    twelve attempts is never reached. *)
Theorem model_call_bounded settings q json_schema :
  let '(r, ro) := route_json settings q json_schema in
  0 ≤ ro_attempts ro ≤ 9 ∧ 9 < MAX_TOTAL_ATTEMPTS ∧ (length (requests (ro_trace ro)) ≤ 27)%nat ∧
  (length (models_to_try settings) ≤ 3)%nat ∧ NoDup (models_to_try settings) ∧
  (∀ c, c ∈ requests (ro_trace ro) → well_formed_call settings q json_schema c) ∧
  (∀ w, Waited w ∈ ro_trace ro → bounded_wait w).
Proof.
  destruct (route_json settings q json_schema) as [r ro] eqn:E. apply route_json_spec in E as (Hat & Hcount & Hend).
  destruct (models_to_try_spec settings) as (Hnd & Hlen & _).
  assert (∃ pre tl, ro_trace ro = pre ++ tl ∧ Forall (event_fine settings q json_schema) pre ∧
    (tl = [] ∨ ∃ c o, tl = [Http c o] ∧ well_formed_call settings q json_schema c)) as (pre & tl & Htr & Hpre & Htl).
  { destruct r as [a|f]; [destruct Hend as (pre & c & content & -> & ? & ? & _)
                         |destruct Hend as [(pre & c & e & -> & ? & ? & _)|[? _]]].
    - eexists pre, _. split_and!; [done|done|]. right. by eexists c, _.
    - eexists pre, _. split_and!; [done|done|]. right. by eexists c, _.
    - exists (ro_trace ro), []. split_and!; [by rewrite app_nil_r|done|by left]. }
  rewrite Forall_forall in Hpre.
  split_and!; [lia|lia|done|lia|done|done| |].
  - intros c (e & He & Hc)%list_elem_of_omap. destruct e as [c' o|]; [|done]. injection Hc as ->.
    rewrite Htr in He. apply elem_of_app in He as [He|He]; [by apply Hpre in He as [? _]|].
    destruct Htl as [->|(c' & o' & -> & Hc')]; [by apply not_elem_of_nil in He|].
    by apply list_elem_of_singleton in He as [= -> ->].
  - intros w He. rewrite Htr in He. apply elem_of_app in He as [He|He]; [by apply Hpre in He|].
    destruct Htl as [->|(c' & o' & -> & _)]; [by apply not_elem_of_nil in He|].
    by apply list_elem_of_singleton in He.
Qed.

Lemma snoc_split {A} (l r l' : list A) x y :
  l ++ x :: r = l' ++ [y] → (r = [] ∧ x = y) ∨ x ∈ l'.
Proof.
  destruct r as [|z r _] using rev_ind.
  - intros [_ [= ->]]%app_inj_2; [by left|done].
  - change (x :: r ++ [z]) with ((x :: r) ++ [z]). rewrite app_assoc.
    intros [<- _]%app_inj_2; [|done]. right. apply elem_of_app. right. by left.
Qed.

(** The fate of a call the router does not tolerate: it is the last one. *)
Lemma untolerated_last settings q json_schema r ro pre c o post :
  routing_end settings q json_schema r ro → ro_trace ro = pre ++ Http c o :: post → ¬ tolerated settings c o →
  post = [] ∧
  match o with
  | SdkRaised e => r = Err (classify_error e)
  | Completed content => ∃ a, r = Ok a ∧ lj_model_used a = cq_model c ∧
      parse_json (Str.strip (default "" content)) = Ok (lj_data a)
  end.
Proof.
  intros Hend Htr Hn.
  assert (∀ l, Forall (event_fine settings q json_schema) l → Http c o ∉ l) as Hout.
  { intros l Hl Hin. rewrite Forall_forall in Hl. by apply Hl in Hin as [_ ?]. }
  destruct r as [a|f].
  - destruct Hend as (pre' & c' & content & Ha & Hpre & _ & Hj & Hm & _). rewrite Htr in Ha.
    apply snoc_split in Ha as [[-> [= -> ->]]|Hin]; [|by apply Hout in Hin]. split; [done|]. by exists a.
  - destruct Hend as [(pre' & c' & e & Ha & Hpre & _ & _ & ->)|[Hall _]].
    + rewrite Htr in Ha. apply snoc_split in Ha as [[-> [= -> ->]]|Hin]; [done|by apply Hout in Hin].
    + exfalso. apply (Hout _ Hall). rewrite Htr. apply elem_of_app. right. by left.
Qed.

(** An answer is attributed to the call that gave it.  If a structured call
    succeeds, its last HTTP request is the one that was answered: the reported
    model, response mode and number of attempts are those of that request, the
    data is what its text parses to, [requested_model] is the configured one,
    and the fallback flag is set exactly when another model answered; every
    earlier request had failed in a way the router may go on from. *)
Theorem answer_is_attributed settings q json_schema a ro :
  route_json settings q json_schema = (Ok a, ro) →
  ∃ pre c content, ro_trace ro = pre ++ [Http c (Completed (Some content))] ∧
    parse_json (Str.strip content) = Ok (lj_data a) ∧ lj_model_used a = cq_model c ∧
    lj_model_used a ∈ models_to_try settings ∧ lj_response_mode a = mode_name (cq_mode c) ∧
    lj_requested_model a = llm_model settings ∧
    (lj_used_fallback a = true ↔ lj_model_used a ≠ lj_requested_model a) ∧ lj_attempts a = ro_attempts ro ∧
    ∀ c' o, Http c' o ∈ pre → tolerated settings c' o.
Proof.
  intros (_ & _ & pre & c & content & Htr & Hpre & Hc & Hj & Hm & Hr & Hq & Hf & Ha)%route_json_spec.
  exists pre, c, content. split_and!; try done.
  - rewrite Hm. apply Hc.
  - rewrite Hf, Hm, Hq. by rewrite negb_true_iff, bool_decide_eq_false.
  - intros c' o Hin. rewrite Forall_forall in Hpre. by apply Hpre in Hin as [_ ?].
Qed.

(** C27: a permanent fault is neither retried nor routed around.  If a request is
    answered with an authentication error, a rejected request or schema, an
    unknown error, or if the primary model does not exist, that request is the
    last one and the caller gets exactly that error; nothing is sent to
    another model.  Conversely, when the router does give up, it is for such
    an error or because every request it made failed transiently, without
    usable JSON, or for a missing fallback model. *)
Theorem permanent_fault_ends_routing settings q json_schema r ro :
  route_json settings q json_schema = (r, ro) →
  (∀ pre c e post, ro_trace ro = pre ++ Http c (SdkRaised e) :: post →
     let k := pf_class (classify_error e) in
     k = AuthenticationError ∨ k = ProviderValidationError ∨ (∃ x, k = LLMProviderError x) ∨
     (k = ModelUnavailableError ∧ cq_model c = llm_model settings) →
     post = [] ∧ r = Err (classify_error e)) ∧
  (∀ f, r = Err f →
     (∃ pre c e, ro_trace ro = pre ++ [Http c (SdkRaised e)] ∧ ¬ tolerated settings c (SdkRaised e) ∧
        f = classify_error e) ∨
     ∀ c o, Http c o ∈ ro_trace ro → tolerated settings c o).
Proof.
  intros (_ & _ & Hend)%route_json_spec. split.
  - intros pre c e post Htr k Hk. eapply (untolerated_last _ _ _ _ _ _ _ (SdkRaised e)); [exact Hend|exact Htr|].
    cbn. unfold tolerable. fold k. destruct k; cbn in *; intros Ht; try naive_solver.
    destruct Hk as [|[|[[]|[_ Hp]]]]; [done|done|done|]. rewrite bool_decide_eq_true_2 in Ht by done. naive_solver.
  - intros f ->. destruct Hend as [(pre & c & e & Htr & _ & _ & Hn & ->)|[Hall _]].
    + left. by exists pre, c, e.
    + right. intros c o Hin. rewrite Forall_forall in Hall. by apply Hall in Hin as [_ ?].
Qed.

(** A free-text call: at most nine requests, one attempt per model, and an
    answer is the stripped text of its last request. *)
Lemma text_models_spec settings q models : ∀ model_index ro r ro',
  (∀ j model, models !! j = Some model → models_to_try settings !! (model_index + j)%nat = Some model) →
  text_models settings q model_index models ro = (r, ro') →
  (length (requests (ro_trace ro')) ≤ length (requests (ro_trace ro)) + 3 * length models)%nat ∧
  match r with
  | Ok a => ∃ pre c content, ro_trace ro' = pre ++ [Http c (Completed (Some content))] ∧
      lt_text a = Str.strip content ∧ lt_text a ≠ "" ∧ lt_model_used a = cq_model c ∧
      lt_model_used a ∈ models_to_try settings ∧ lt_used_fallback a = negb (lt_model_used a == llm_model settings)
  | Err _ => True
  end.
Proof.
  induction models as [|model models IH]; intros model_index ro r ro' Hm; cbn [text_models].
  { intros [= <- <-]. cbn. split; [lia|done]. }
  destruct (_ <=? _); [intros [= <- <-]; split; [lia|done]|].
  destruct (chat_with_retry _ _ _) as [r0 events] eqn:E. apply chatting_spec in E as [Hl Hcase]; [|lia|lia].
  assert (models_to_try settings !! model_index = Some model) as Hi by (rewrite <- (Nat.add_0_r model_index); by apply Hm).
  destruct r0 as [content'|f].
  - intros [= <- <-]. cbn [attempted ro_trace]. rewrite requests_app, length_app. split; [cbn [length]; lia|].
    destruct Hcase as [[? _]|(pre & o & -> & _ & content & -> & -> & Hne)]; [done|].
    eexists (ro_trace ro ++ pre), _, content. split_and!; [by rewrite app_assoc|done|done|done|by eapply list_elem_of_lookup_2|].
    cbn. rewrite <- (primary_index _ _ _ Hi). by destruct model_index.
  - destruct (on_fault (A:=LLMTextResult) model_index f) as [a|f'|] eqn:Eo.
    + unfold on_fault in Eo. destruct (pf_class f); cbn in Eo; try done. by destruct (model_index =? 0)%nat.
    + intros [= <- <-]. cbn [attempted ro_trace]. rewrite requests_app, length_app. split; [cbn [length]; lia|done].
    + intros E2. apply IH in E2 as [Hl2 Hr].
      * split; [|done]. cbn [attempted ro_trace] in Hl2. rewrite requests_app, length_app in Hl2. cbn [length]. lia.
      * intros j x Hj. rewrite Nat.add_succ_comm. by apply Hm.
Qed.

(** A free-text call is bounded and attributed too. *)
Theorem text_call_bounded settings q r ro :
  route_text settings q = (r, ro) →
  (length (requests (ro_trace ro)) ≤ 9)%nat ∧
  ∀ a, r = Ok a → ∃ pre c content, ro_trace ro = pre ++ [Http c (Completed (Some content))] ∧
    lt_text a = Str.strip content ∧ lt_text a ≠ "" ∧ lt_model_used a = cq_model c ∧
    lt_model_used a ∈ models_to_try settings ∧ lt_used_fallback a = negb (lt_model_used a == llm_model settings).
Proof.
  unfold route_text. intros [Hl Hr]%text_models_spec; [|done].
  destruct (models_to_try_spec settings) as (_ & Hlen & _). cbn [ro_trace requests omap list_omap length] in Hl. split; [lia|]. by intros a ->.
Qed.
End Tries.

(** *** Errors *)

(** An error is classified by its status code, and by its text only as far
    as whole codes go.  With a status code, 401 and 403 are authentication
    errors, 429 is a rate limit, 500 to 504 (but 501) mean the provider, 404
    the model, and 400 the request, unless the text blames the generated JSON;
    only a text that says the model does not exist overrides it.  Without one,
    a 401 or 403 in the text counts exactly when it stands as a token of its
    own, so that a count such as 4016 is never taken for an authentication
    error. *)
Theorem error_classification `{FloatOfString} e :
  let error_str := Str.lower (xe_str e) in
  let k := pf_class (classify_error e) in
  (∀ code, extract_status_code e = Some code → is_model_unavailable error_str = false →
     (code = 404 → k = ModelUnavailableError) ∧
     (code = 401 ∨ code = 403 → k = AuthenticationError) ∧
     (code = 429 → k = RateLimitError) ∧
     (code ∈ [500; 502; 503; 504] → k = ProviderUnavailableError) ∧
     (code = 400 → (k = MalformedOutputError ↔ invalid_json error_str = true ∧ is_schema_request_rejected error_str = false)
                   ∧ (k ≠ MalformedOutputError → k = ProviderValidationError))) ∧
  (extract_status_code e = None →
     let whole code := token_in (String.list_ascii_of_string code) (String.list_ascii_of_string error_str) in
     k = AuthenticationError ↔
     (whole "401" ∨ whole "403" ∨ Str.contains "authentication" error_str = true
      ∨ Str.contains "invalid api key" error_str = true) ∧
     ¬ whole "404" ∧ is_model_unavailable error_str = false).
Proof.
  cbv zeta. unfold classify_error. cbv zeta. set (s := Str.lower (xe_str e)). split.
  - intros code -> Hu. cbn [mbind option_bind]. unfold classify_by_status. rewrite Hu, orb_false_r.
    split_and!.
    + by intros ->.
    + by intros [-> | ->].
    + by intros ->.
    + rewrite !elem_of_cons. intros [->|[->|[->|[->|Hin]]]]; try done. by apply not_elem_of_nil in Hin.
    + intros ->. change (in_list 400 [401; 403]) with false. change (in_list 400 [500; 502; 503; 504]) with false.
      cbn [Z.eqb Pos.eqb].
      destruct (is_schema_request_rejected s), (invalid_json s);
        (split; [split; [intros Hk; try done|intros [? ?]; done]|intros Hk; done]).
  - intros ->. cbn [mbind option_bind]. unfold classify_by_text.
    assert (∀ w, w ∈ ["401"; "403"; "404"] →
      token w s = true ↔ token_in (String.list_ascii_of_string w) (String.list_ascii_of_string s)) as Htok.
    { intros w Hw. apply search_token. set_solver. }
    rewrite <- !Htok by set_solver.
    match goal with |- pf_class (if ?b1 then _ else if ?b2 then _ else ?rest) = _ ↔ _ =>
      set (B1 := b1); set (B2 := b2); assert (pf_class rest ≠ AuthenticationError) as Hrest end.
    { repeat match goal with |- context [if ?b then _ else _] => destruct b end; done. }
    assert (B1 = false ↔ token "404" s ≠ true ∧ is_model_unavailable s = false) as H1.
    { unfold B1. by rewrite orb_false_iff, not_true_iff_false. }
    assert (B2 = true ↔ token "401" s = true ∨ token "403" s = true ∨ Str.contains "authentication" s = true
      ∨ Str.contains "invalid api key" s = true) as H2.
    { unfold B2. rewrite !orb_true_iff. tauto. }
    rewrite <- H1, <- H2. destruct B1, B2; (split; [intros Hk|intros [? ?]]; done).
Qed.

(** *** JSON in prose and fences *)

Lemma lstrip_visible c r : Str.isspace c = false → Str.lstrip (String c r) = String c r.
Proof. intros Hc. cbn [Str.lstrip]. by rewrite Hc. Qed.
Lemma lstrip_space c r : Str.isspace c = true → Str.lstrip (String c r) = Str.lstrip r.
Proof. intros Hc. cbn [Str.lstrip]. by rewrite Hc. Qed.
Lemma rstrip_visible s c : Str.isspace c = false → Str.rstrip (s +:+ String c "") = s +:+ String c "".
Proof.
  intros Hc. induction s as [|x s IH]; [change ("" +:+ String c "") with (String c ""); cbn [Str.rstrip]; by rewrite Hc|].
  change (String x s +:+ String c "") with (String x (s +:+ String c "")). cbn [Str.rstrip]. rewrite IH. by destruct s.
Qed.
Lemma rstrip_space s c : Str.isspace c = true → Str.rstrip (s +:+ String c "") = Str.rstrip s.
Proof.
  intros Hc. induction s as [|x s IH]; [change ("" +:+ String c "") with (String c ""); cbn [Str.rstrip]; by rewrite Hc|].
  change (String x s +:+ String c "") with (String x (s +:+ String c "")). cbn [Str.rstrip]. by rewrite IH.
Qed.
Lemma rstrip_char_other s c x : x ≠ c → rstrip_char c (s +:+ String x "") = s +:+ String x "".
Proof.
  intros Hx. induction s as [|y s IH].
  - change ("" +:+ String x "") with (String x ""). cbn. by rewrite bool_decide_eq_false_2.
  - rewrite string_app_cons. cbn [rstrip_char]. rewrite IH. by destruct s.
Qed.
Lemma rstrip_char_same s c : rstrip_char c (s +:+ String c "") = rstrip_char c s.
Proof.
  induction s as [|y s IH].
  - change ("" +:+ String c "") with (String c ""). cbn. by rewrite bool_decide_eq_true_2.
  - rewrite string_app_cons. cbn [rstrip_char]. by rewrite IH.
Qed.

Lemma string_of_list_ascii_app a b :
  String.string_of_list_ascii (a ++ b) = String.string_of_list_ascii a +:+ String.string_of_list_ascii b.
Proof. induction a as [|c a IH]; [done|]. cbn. by rewrite IH, string_app_cons. Qed.
Lemma append_length (a b : string) : String.length (a +:+ b) = (String.length a + String.length b)%nat.
Proof. induction a as [|x a IH]; [done|]. rewrite string_app_cons. cbn. by rewrite IH. Qed.
Lemma substring_prefix b c : String.substring 0 (String.length b) (b +:+ c) = b.
Proof. induction b as [|x b IH]; [by destruct c|]. rewrite string_app_cons. cbn. by rewrite IH. Qed.
Lemma substring_middle a b c : String.substring (String.length a) (String.length b) (a +:+ b +:+ c) = b.
Proof. induction a as [|x a IH]; [exact (substring_prefix b c)|]. rewrite string_app_cons. exact IH. Qed.
Lemma slice_middle a b c : slice (String.length a) (String.length a + String.length b) (a +:+ b +:+ c) = b.
Proof. unfold slice. replace (_ - _)%nat with (String.length b) by lia. apply substring_middle. Qed.

Lemma find_char_first c pre r : find_char c pre = None → find_char c (pre +:+ String c r) = Some (String.length pre).
Proof.
  induction pre as [|x pre IH].
  - intros _. change ("" +:+ String c r) with (String c r). cbn. by rewrite bool_decide_eq_true_2.
  - rewrite string_app_cons. cbn [find_char]. case_bool_decide; [done|].
    destruct (find_char c pre); [done|]. intros _. by rewrite IH.
Qed.
Lemma rfind_char_last c s post : rfind_char c post = None → rfind_char c (s +:+ String c post) = Some (String.length s).
Proof.
  intros Hp. induction s as [|x s IH].
  - change ("" +:+ String c post) with (String c post). cbn. by rewrite Hp, bool_decide_eq_true_2.
  - rewrite string_app_cons. cbn [rfind_char]. by rewrite IH.
Qed.

(** The fence a model puts around its answer: three backticks, and a language
    on the first line. *)
Definition fence : string := "```".
Definition fenced (text : string) : string := fence +:+ "json" +:+ Threading.newline +:+ text +:+ Threading.newline +:+ fence.

(** The text of a JSON object. *)
Definition braces (mid : string) : string := String "{" (mid +:+ "}").

Lemma braces_visible mid : Str.rstrip (braces mid) = braces mid.
Proof. unfold braces. rewrite <- string_app_cons. by apply rstrip_visible. Qed.

Lemma strip_braces a mid b :
  Forall (λ c, Str.isspace c = true) a → Forall (λ c, Str.isspace c = true) b →
  Str.strip (String.string_of_list_ascii a +:+ braces mid +:+ String.string_of_list_ascii b) = braces mid.
Proof.
  intros Ha Hb. unfold Str.strip. induction Ha as [|c a Hc _ IH].
  - change (String.string_of_list_ascii [] +:+ ?x) with x.
    change (braces mid +:+ ?x) with (String "{" ((mid +:+ "}") +:+ x)). rewrite lstrip_visible by done.
    rewrite <- string_app_cons. fold (braces mid).
    induction b as [|c b IHb] using rev_ind; [rewrite string_app_nil_r; apply braces_visible|].
    apply Forall_app in Hb as [Hb Hc]. rewrite Forall_singleton in Hc. rewrite string_of_list_ascii_app, <- string_app_assoc.
    change (String.string_of_list_ascii [c]) with (String c ""). rewrite rstrip_space by done. by apply IHb.
  - change (String.string_of_list_ascii (c :: a)) with (String c (String.string_of_list_ascii a)).
    rewrite string_app_cons, lstrip_space by done. exact IH.
Qed.

Lemma unfenced_fenced mid : unfenced (fenced (braces mid)) = braces mid.
Proof.
  set (nl := Threading.newline). set (text := braces mid). unfold unfenced.
  assert (Str.strip (fenced text) = fenced text) as ->.
  { unfold Str.strip. change (fenced text) with (String "`" ("``" +:+ "json" +:+ nl +:+ text +:+ nl +:+ fence)).
    rewrite lstrip_visible by done.
    assert (∀ x, x +:+ fence = (x +:+ "``") +:+ "`") as Hf by (intros; by rewrite string_app_assoc).
    rewrite <- !string_app_assoc, Hf, <- string_app_cons. by apply rstrip_visible. }
  change (Str.startswith "```" (fenced text)) with true. cbv iota zeta.
  change (lstrip_char backtick (fenced text)) with ("json" +:+ nl +:+ text +:+ nl +:+ fence).
  assert (∀ x, x +:+ fence = ((x +:+ "`") +:+ "`") +:+ "`") as Hf by (intros; by rewrite !string_app_assoc).
  rewrite <- !string_app_assoc, Hf, !rstrip_char_same.
  assert (∀ x, rstrip_char backtick (x +:+ nl) = x +:+ nl) as Hnl by (intros x; by apply rstrip_char_other).
  rewrite Hnl, !string_app_assoc.
  change (Str.startswith "json" _) with true. cbv iota.
  assert (slice 4 (String.length ("json" +:+ nl +:+ text +:+ nl)) ("json" +:+ nl +:+ text +:+ nl) = nl +:+ text +:+ nl) as ->.
  { rewrite append_length. rewrite <- (string_app_nil_r (nl +:+ text +:+ nl)) at 2. apply (slice_middle "json"). }
  apply (strip_braces [ascii_of_nat 10] mid [ascii_of_nat 10]); by repeat constructor.
Qed.

(** An answer is recovered from its wrapping.  If a text between braces is
    JSON, the parser finds it when it stands alone, with any white space
    around it, inside a Markdown fence marked json, and inside prose without
    braces around it when the whole is not JSON itself; and it
    never makes up a value: whatever it returns is what [json.loads] returns
    for a part of the text. *)
Theorem json_recovered `{JsonText} mid j :
  loads (braces mid) = Ok j →
  (∀ a b, Forall (λ c, Str.isspace c = true) a → Forall (λ c, Str.isspace c = true) b →
     parse_json (String.string_of_list_ascii a +:+ braces mid +:+ String.string_of_list_ascii b) = Ok j) ∧
  parse_json (fenced (braces mid)) = Ok j ∧
  (∀ raw pre post, unfenced raw = pre +:+ braces mid +:+ post → find_char "{" pre = None → rfind_char "}" post = None →
     (∃ m, loads (unfenced raw) = Err m) → parse_json raw = Ok j) ∧
  (∀ raw j', parse_json raw = Ok j' → ∃ i n, loads (String.substring i n (unfenced raw)) = Ok j').
Proof.
  intros Hl. split_and!.
  - intros a b Ha Hb. unfold parse_json.
    assert (unfenced (String.string_of_list_ascii a +:+ braces mid +:+ String.string_of_list_ascii b) = braces mid) as ->.
    { unfold unfenced. by rewrite strip_braces. }
    by rewrite Hl.
  - unfold parse_json. by rewrite unfenced_fenced, Hl.
  - intros raw pre post Hu Hpre Hpost [m Hm]. unfold parse_json. rewrite Hm, Hu.
    change (braces mid +:+ post) with (String "{" ((mid +:+ "}") +:+ post)).
    rewrite find_char_first by done. rewrite string_app_assoc, <- string_app_cons, <- string_app_assoc.
    change ("}" +:+ post) with (String "}" post). rewrite rfind_char_last by done.
    rewrite append_length. cbn [String.length].
    assert ((String.length pre <? String.length pre + S (String.length mid))%nat = true) as -> by (apply Nat.ltb_lt; lia).
    assert (slice (String.length pre) (S (String.length pre + S (String.length mid)))
              ((pre +:+ String "{" mid) +:+ String "}" post) = braces mid) as ->; [|by rewrite Hl].
    pose proof (slice_middle pre (braces mid) post) as Hs.
    assert (String.length (braces mid) = S (S (String.length mid))) as Hlen.
    { unfold braces. cbn. rewrite append_length. cbn. lia. }
    rewrite Hlen in Hs. replace (S (String.length pre + S (String.length mid)))
      with (String.length pre + S (S (String.length mid)))%nat by lia.
    assert ((pre +:+ String "{" mid) +:+ String "}" post = pre +:+ braces mid +:+ post) as ->; [|done].
    unfold braces. by rewrite string_app_assoc, !string_app_cons, string_app_assoc.
  - intros raw j'. unfold parse_json. destruct (loads (unfenced raw)) as [x|m] eqn:E.
    + intros [= <-]. exists 0%nat, (String.length (unfenced raw)).
      rewrite <- (string_app_nil_r (unfenced raw)) at 2. by rewrite substring_prefix.
    + destruct (find_char "{" (unfenced raw)) as [i|]; [|done]. destruct (rfind_char "}" (unfenced raw)) as [k|]; [|done].
      destruct (i <? k)%nat; [|done]. destruct (loads (slice _ _ _)) as [x|m'] eqn:E2; [|done].
      intros [= <-]. by eexists _, _.
Qed.

(** ** Call metrics *)

Record LLMMetrics := mkMetrics {
  total_calls : Z;
  successful_calls : Z;
  failed_calls : Z;
  rate_limits : Z;
  timeouts : Z;
  malformed_outputs : Z;
  total_retry_attempts : Z
}.
Definition new_metrics : LLMMetrics := mkMetrics 0 0 0 0 0 0 0.

Definition record_success (x : LLMMetrics) : LLMMetrics :=
  mkMetrics (total_calls x + 1) (successful_calls x + 1) (failed_calls x) (rate_limits x) (timeouts x)
    (malformed_outputs x) (total_retry_attempts x).
Definition record_failure (error : provider_class) (x : LLMMetrics) : LLMMetrics :=
  let add (c : bool) (n : Z) := if c then n + 1 else n in
  mkMetrics (total_calls x + 1) (successful_calls x) (failed_calls x + 1)
    (add (match error with RateLimitError => true | _ => false end) (rate_limits x))
    (add (match error with ProviderTimeoutError => true | _ => false end) (timeouts x))
    (add (match error with MalformedOutputError => true | _ => false end) (malformed_outputs x))
    (total_retry_attempts x).
Definition success_rate (x : LLMMetrics) : Q :=
  if 0 <? total_calls x then inject_Z (successful_calls x) / inject_Z (total_calls x) else 0.

(** A history of calls: [None] is a success. *)
Definition recorded (h : list (option provider_class)) : LLMMetrics :=
  fold_left (λ x o, match o with None => record_success x | Some e => record_failure e x end) h new_metrics.
Definition occurrences (p : option provider_class → bool) (h : list (option provider_class)) : Z :=
  Z.of_nat (length (List.filter p h)).

Lemma occurrences_snoc p h o : occurrences p (h ++ [o]) = occurrences p h + (if p o then 1 else 0).
Proof. unfold occurrences. rewrite List.filter_app, length_app. cbn. destruct (p o); cbn; lia. Qed.

Lemma recorded_counts h :
  recorded h = mkMetrics (Z.of_nat (length h)) (occurrences is_none h) (occurrences is_not_none h)
    (occurrences (λ o, match o with Some RateLimitError => true | _ => false end) h)
    (occurrences (λ o, match o with Some ProviderTimeoutError => true | _ => false end) h)
    (occurrences (λ o, match o with Some MalformedOutputError => true | _ => false end) h) 0.
Proof.
  induction h as [|o h IH] using rev_ind; [done|]. unfold recorded. rewrite fold_left_app. fold (recorded h).
  rewrite IH, !occurrences_snoc, length_app.
  destruct o as [[]|]; cbn [fold_left]; unfold record_success, record_failure; cbn [total_calls successful_calls failed_calls rate_limits
    timeouts malformed_outputs total_retry_attempts is_none is_not_none negb length]; f_equal; lia.
Qed.

(** The counters are those of the calls made: successes and failures add up to
    all calls, each named kind of failure is counted exactly, and the success
    rate is a fraction between 0 and 1. *)
Theorem metrics_count_calls h :
  total_calls (recorded h) = Z.of_nat (length h) ∧
  successful_calls (recorded h) + failed_calls (recorded h) = total_calls (recorded h) ∧
  rate_limits (recorded h) + timeouts (recorded h) + malformed_outputs (recorded h) ≤ failed_calls (recorded h) ∧
  (0 <= success_rate (recorded h))%Q ∧ (success_rate (recorded h) <= 1)%Q.
Proof.
  rewrite recorded_counts. cbn [total_calls successful_calls failed_calls rate_limits timeouts malformed_outputs].
  assert (occurrences is_none h + occurrences is_not_none h = Z.of_nat (length h)) as Hsum.
  { induction h as [|o h IH] using rev_ind; [done|]. rewrite !occurrences_snoc, length_app. destruct o; cbn [is_not_none is_none negb length]; lia. }
  assert (0 ≤ occurrences is_none h ∧ 0 ≤ occurrences is_not_none h) as [Hs Hf] by (unfold occurrences; lia).
  split_and!; [done|done| | |].
  - clear. induction h as [|o h IH] using rev_ind; [done|]. rewrite !occurrences_snoc. destruct o as [[]|]; cbn [is_not_none is_none negb]; lia.
  - unfold success_rate. cbn [total_calls successful_calls]. destruct (0 <? Z.of_nat (length h)) eqn:E; [|done]. bools.
    apply Qle_shift_div_l; [unfold Qlt; cbn; lia|]. unfold Qle; cbn. lia.
  - unfold success_rate. cbn [total_calls successful_calls]. destruct (0 <? Z.of_nat (length h)) eqn:E; [|done]. bools.
    apply Qle_shift_div_r; [unfold Qlt; cbn; lia|]. unfold Qle; cbn. lia.
Qed.

(** *** Witnesses *)

Definition no_number : FloatOfString := λ _, None.
Definition empty_object : JsonText := λ s, if s == "{}" then Ok (JObj []) else Err "Expecting value: line 1 column 1 (char 0)".

(** The primary model is rate limited; the fallback answers in prose first. *)
Definition busy_sdk : GroqSdk := λ _ c,
  if cq_model c == "openai/gpt-oss-120b"
  then SdkRaised (mkSdkError "Rate limit reached: Requested 4016" (Some 429) None None)
  else match cq_mode c with StrictSchema _ => Completed (Some "Sure!") | _ => Completed (Some " {} ") end.
Definition locked_sdk : GroqSdk := λ _ _, SdkRaised (mkSdkError "Error 401: bad key" None None None).

#[local] Abbreviation sample_call := (mkLlmRequest "planner" "What next?" None None).
#[local] Abbreviation busy_route :=
  (route_json (H:=no_number) (H0:=empty_object) (H1:=busy_sdk) live_settings sample_call (Some PLANNER_JSON_SCHEMA)).
#[local] Abbreviation locked_route :=
  (route_json (H:=no_number) (H0:=empty_object) (H1:=locked_sdk) live_settings sample_call (Some PLANNER_JSON_SCHEMA)).

Example busy_requests :
  map (λ c, (cq_model c, mode_name (cq_mode c))) (requests (ro_trace (snd busy_route)))
  = [("openai/gpt-oss-120b", "strict_schema"); ("openai/gpt-oss-120b", "strict_schema");
     ("openai/gpt-oss-120b", "strict_schema"); ("openai/gpt-oss-20b", "strict_schema");
     ("openai/gpt-oss-20b", "json_object")].
Proof. vm_compute. reflexivity. Qed.

Lemma answer_is_attributed_witness :
  ∃ a ro, busy_route = (Ok a, ro) ∧ lj_model_used a = "openai/gpt-oss-20b" ∧ lj_used_fallback a = true.
Proof.
  destruct busy_route as [[a|f] ro] eqn:E; [|vm_compute in E; discriminate E].
  destruct (answer_is_attributed (H:=no_number) (H0:=empty_object) (H1:=busy_sdk) _ _ _ _ _ E)
    as (pre & c & content & _ & _ & Hm & _ & _ & Hq & Hf & _).
  exists a, ro. split; [reflexivity|].
  assert (lj_model_used a = "openai/gpt-oss-20b") as Hmodel by (vm_compute in E; injection E as <- _; reflexivity).
  split; [exact Hmodel|]. apply Hf. rewrite Hq, Hmodel. discriminate.
Defined.

Lemma permanent_fault_ends_routing_witness :
  ∃ r ro c e, locked_route = (r, ro) ∧ ro_trace ro = [Http c (SdkRaised e)] ∧
    r = Err (classify_error (H:=no_number) e) ∧ pf_class (classify_error (H:=no_number) e) = AuthenticationError.
Proof.
  destruct locked_route as [r ro] eqn:E.
  destruct (permanent_fault_ends_routing (H:=no_number) (H0:=empty_object) (H1:=locked_sdk) _ _ _ _ _ E) as [Hstop _].
  assert (∃ c, ro_trace ro = [Http c (SdkRaised (mkSdkError "Error 401: bad key" None None None))]) as [c Hc].
  { vm_compute in E. injection E as _ <-. eexists. reflexivity. }
  exists r, ro, c, (mkSdkError "Error 401: bad key" None None None). split; [reflexivity|]. split; [exact Hc|].
  assert (pf_class (classify_error (H:=no_number) (mkSdkError "Error 401: bad key" None None None)) = AuthenticationError)
    as Hk by (vm_compute; reflexivity).
  split; [|exact Hk]. apply (Hstop [] c _ [] Hc). left. exact Hk.
Defined.

Lemma error_classification_witness :
  pf_class (classify_error (H:=no_number) (mkSdkError "Rate limit reached: Requested 4016" (Some 429) None None))
  = RateLimitError.
Proof.
  apply (proj1 (error_classification (H:=no_number)
    (mkSdkError "Rate limit reached: Requested 4016" (Some 429) None None)) 429); vm_compute; reflexivity.
Defined.

Lemma json_recovered_witness :
  loads (JsonText := empty_object) (braces "") = Ok (JObj []) ∧
  parse_json (H:=empty_object) (fenced (braces "")) = Ok (JObj []).
Proof.
  split; [reflexivity|]. exact (proj1 (proj2 (json_recovered (H:=empty_object) "" (JObj []) eq_refl))).
Defined.

Lemma text_call_bounded_witness :
  ∃ r ro, route_text (H:=no_number) (H1:=locked_sdk) live_settings sample_call = (r, ro) ∧
    (length (requests (ro_trace ro)) ≤ 9)%nat.
Proof.
  destruct (route_text (H:=no_number) (H1:=locked_sdk) live_settings sample_call) as [r ro] eqn:E.
  exists r, ro. split; [reflexivity|]. exact (proj1 (text_call_bounded (H:=no_number) (H1:=locked_sdk) _ _ _ _ E)).
Defined.
