(* ===== verification/Redaction.v ===== *)
(** * Redaction of secrets ([_redact_secrets] of [src/mailer_agent/llm/provider_v2.py])

    The text of a provider's error is logged with the configured key replaced.
    What is left shows the key nowhere, not even across the edges of a
    replacement, for every key that the replacement itself does not spell. *)

From S2P Require Import Prelude Config.

#[local] Open Scope bool_scope.

Definition REDACTED : string := "***REDACTED***".

(** [s.replace(old, new)] for a non-empty [old]: the leftmost occurrences that
    do not overlap; [skip] characters of one are still to be dropped. *)
Fixpoint replace (old new : string) (skip : nat) (s : string) : string :=
  match s with
  | "" => ""
  | String c r =>
      match skip with
      | S k => replace old new k r
      | O => if Str.startswith old s then new +:+ replace old new (Str.len old - 1) r
             else String c (replace old new 0 r)
      end
  end.

Definition redact_secrets (settings : Settings) (text : string) : string :=
  let key := groq_api_key settings in
  if key == "" then text else replace key REDACTED 0 text.

(** ** Facts *)

Definition star : ascii := "*"%char.
Fixpoint star_free (k : string) : Prop := match k with "" => True | String c r => c ≠ star ∧ star_free r end.

Lemma startswith_cons c k d s : Str.startswith (String c k) (String d s) = bool_decide (c = d) && Str.startswith k s.
Proof. done. Qed.
Lemma startswith_star_head c k t : c ≠ star → Str.startswith (String c k) (String star t) = false.
Proof. intros Hc. by rewrite startswith_cons, bool_decide_eq_false_2. Qed.

(** A key without stars never reaches over a star. *)
Lemma startswith_star k u t : star_free k → Str.startswith k (u +:+ String star t) = Str.startswith k u.
Proof.
  revert k. induction u as [|d u IH]; intros [|c k] Hk; try done; cbn in Hk; destruct Hk as [Hc Hk].
  - by apply startswith_star_head.
  - by rewrite string_app_cons, !startswith_cons, IH.
Qed.

Lemma contains_star k u t : star_free k → k ≠ "" →
  Str.contains k (u +:+ String star t) = Str.contains k u || Str.contains k t.
Proof.
  intros Hk Hne. induction u as [|d u IH].
  - destruct k as [|c k]; [done|]. cbn [Str.contains String.append append]. change (("" +:+ String star t)) with (String star t).
    cbn -[Str.startswith]. by rewrite startswith_star_head by apply Hk.
  - rewrite string_app_cons. cbn -[Str.startswith]. rewrite <- string_app_cons, startswith_star, IH by done. by rewrite orb_assoc.
Qed.

Lemma contains_redacted k t : star_free k → k ≠ "" → Str.contains k "REDACTED" = false →
  Str.contains k (REDACTED +:+ t) = Str.contains k t.
Proof.
  intros Hk Hne Hr. unfold REDACTED. assert (Str.contains k "" = false) as He by (by destruct k).
  change ("***REDACTED***" +:+ t) with ("" +:+ String star ("" +:+ String star ("" +:+ String star
    ("REDACTED" +:+ String star ("" +:+ String star ("" +:+ String star t)))))).
  by rewrite !contains_star, He, Hr by done.
Qed.

(** What the output starts with, the text started with. *)
Lemma startswith_replace key k s : star_free k → Str.startswith k (replace key REDACTED 0 s) = true → Str.startswith k s = true.
Proof.
  revert k. induction s as [|d s IH]; intros [|c k] Hk Hs; try done. destruct Hk as [Hc Hk].
  cbn -[Str.startswith REDACTED] in Hs. destruct (Str.startswith key (String d s)).
  - change (REDACTED +:+ ?t) with (String star ("**REDACTED***" +:+ t)) in Hs. by rewrite startswith_star_head in Hs.
  - rewrite startswith_cons in Hs |- *. apply andb_true_iff in Hs as [-> Hs]. by rewrite (IH k).
Qed.

Lemma replace_hides key s : star_free key → key ≠ "" → Str.contains key "REDACTED" = false →
  ∀ skip, Str.contains key (replace key REDACTED skip s) = false.
Proof.
  intros Hk Hne Hr. induction s as [|d s IH]; intros skip; [by destruct key, skip|].
  destruct skip as [|skip]; [|apply IH]. cbn -[Str.startswith REDACTED Str.contains].
  destruct (Str.startswith key (String d s)) eqn:E; [rewrite contains_redacted by done; apply IH|].
  cbn -[Str.startswith]. rewrite IH, orb_false_r. apply not_true_is_false. intros Hs.
  assert (Str.startswith key (String d s) = true); [|congruence].
  apply (startswith_replace key); [done|]. cbn -[Str.startswith REDACTED]. by rewrite E.
Qed.

(** A logged provider error does not show the key.  For every configured key
    that has no star and is no part of the word REDACTED, as the provider's
    keys are, the redacted text contains the key nowhere, whatever the provider
    wrote; and a text that does not contain the key is logged as it is. *)
Theorem redacted_text_hides_key settings text :
  groq_api_key settings ≠ "" → star_free (groq_api_key settings) → Str.contains (groq_api_key settings) "REDACTED" = false →
  Str.contains (groq_api_key settings) (redact_secrets settings text) = false ∧
  (Str.contains (groq_api_key settings) text = false → redact_secrets settings text = text).
Proof.
  intros Hne Hk Hr. unfold redact_secrets. cbv zeta. rewrite bool_decide_eq_false_2 by done. split; [by apply replace_hides|].
  induction text as [|d s IH]; [done|]. cbn -[Str.startswith]. intros [-> Hs]%orb_false_iff. by rewrite IH.
Qed.

Lemma redacted_text_hides_key_witness :
  redact_secrets (sample_settings "" false) "401: bad key gskgsk." = "401: bad key ***REDACTED******REDACTED***." ∧
  Str.contains "gsk" (redact_secrets (sample_settings "" false) "401: bad key gskgsk.") = false.
Proof.
  split; [reflexivity|].
  apply (redacted_text_hides_key (sample_settings "" false) "401: bad key gskgsk."); [done| |reflexivity].
  repeat split; done.
Defined.
