(* ===== verification/Memory.v ===== *)
(** * Conversation memory ([src/mailer_agent/memory/store.py])

    State reconciliation over the stored analyses of a contact's inbound
    messages, its rendering for the planner, and the rolling summary.  The
    stored analyses are JSON and are read as Python reads them: an attribute of
    the wrong type raises. *)

From S2P Require Import Prelude Sql Models Samples SemanticModels Sender Regex Threading Grounding ExactMessage Llm.

(** ** Python on JSON values *)

Definition type_error (message : string) : exn := mkExn (C_Other "TypeError") message.

Fixpoint chars (s : string) : list json :=
  match s with "" => [] | String c r => JStr (String c "") :: chars r end.

(** [for x in j]: a list's items, a dict's keys, a string's characters. *)
Definition py_iter (j : json) : result exn (list json) :=
  match j with
  | JList l => Ok l
  | JObj fields => Ok (map (λ x, JStr (fst x)) fields)
  | JStr s => Ok (chars s)
  | _ => Err (type_error ("'" +:+ json_type j +:+ "' object is not iterable"))
  end.

Definition json_number (j : json) : option Q :=
  match j with
  | JBool b => Some (if b then 1 else 0)%Q
  | JInt n => Some (inject_Z n)
  | JFloat q => Some q
  | _ => None
  end.

(** [a == b]: numbers and booleans compare by value, dicts by their members. *)
Fixpoint json_eqb (a b : json) {struct a} : bool :=
  match a, b with
  | JNull, JNull => true
  | JStr s, JStr t => s == t
  | JList l, JList l' =>
      (fix go l l' := match l, l' with
                      | [], [] => true
                      | x :: r, y :: r' => json_eqb x y && go r r'
                      | _, _ => false
                      end) l l'
  | JObj f, JObj g =>
      (length f =? length g)%nat &&
      (fix go f := match f with
                   | [] => true
                   | (k, v) :: r => match assoc k g with Some w => json_eqb v w && go r | None => false end
                   end) f
  | JNonFinite x, JNonFinite y => (x == y) && (x != NaN)
  | _, _ =>
      match json_number a, json_number b with Some x, Some y => Qeq_bool x y | _, _ => false end
  end.

(** ** Reconciled knowledge *)

Inductive FactStatus := FS_CURRENT | FS_SUPERSEDED.
#[global] Instance FactStatus_eq_dec : EqDecision FactStatus.
Proof. solve_decision. Defined.

Record ReconciledFact := mkRFact {
  rf_value : json;
  rf_certainty : json;
  rf_status : FactStatus;
  rf_evidence : json;
  rf_source_message_id : json;
  rf_observed_at : json
}.
Definition set_rf_status (v : FactStatus) (f : ReconciledFact) : ReconciledFact :=
  mkRFact (rf_value f) (rf_certainty f) v (rf_evidence f) (rf_source_message_id f) (rf_observed_at f).

Record ReconciledKnowledge := mkKnowledge {
  rk_current_solution : option ReconciledFact;
  rk_current_solution_history : list ReconciledFact;
  rk_facts : list ReconciledFact;
  rk_unresolved_items : json;
  rk_contradicted_notes : list json
}.
Definition empty_knowledge : ReconciledKnowledge := mkKnowledge None [] [] (JList []) [].

(** [_mk(raw)] on a dict. *)
Definition mk_fact (raw : list (string * json)) : ReconciledFact :=
  let certainty := jget "certainty" raw in
  mkRFact (default (JStr "") (assoc "value" raw))
    (if json_falsy certainty then JStr "unknown" else certainty) FS_CURRENT
    (jget "evidence" raw) (jget "source_message_id" raw) (jget "observed_at" raw).

Definition is_current_value (v : json) (f : ReconciledFact) : bool :=
  (rf_status f == FS_CURRENT) && json_eqb (rf_value f) v.

Definition reconcile_solution (cs : json) (k : ReconciledKnowledge) : result exn ReconciledKnowledge :=
  if json_falsy cs then Ok k
  else match cs with
       | JObj raw =>
           if json_falsy (jget "value" raw) then Ok k
           else Ok (mkKnowledge (Some (mk_fact raw))
                      (match rk_current_solution k with
                       | Some old => rk_current_solution_history k ++ [set_rf_status FS_SUPERSEDED old]
                       | None => rk_current_solution_history k
                       end)
                      (rk_facts k) (rk_unresolved_items k) (rk_contradicted_notes k))
       | _ => Err (attribute_error (json_type cs) "get")
       end.

(** One item of [new_facts]. *)
Definition reconcile_fact (raw_fact : json) (facts : list ReconciledFact) : result exn (list ReconciledFact) :=
  if json_falsy raw_fact then Ok facts
  else match raw_fact with
       | JObj raw =>
           let value := jget "value" raw in
           if json_falsy value then Ok facts
           else
             let supersedes := jget "supersedes" raw in
             let facts :=
               if json_falsy supersedes then facts
               else map (λ f, if is_current_value supersedes f then set_rf_status FS_SUPERSEDED f else f) facts in
             if existsb (is_current_value value) facts then Ok facts
             else Ok (facts ++ [mk_fact raw])
       | _ => Err (attribute_error (json_type raw_fact) "get")
       end.

Fixpoint reconcile_facts (raws : list json) (facts : list ReconciledFact) : result exn (list ReconciledFact) :=
  match raws with
  | [] => Ok facts
  | r :: rest => facts' ← reconcile_fact r facts; reconcile_facts rest facts'
  end.

(** The body of the loop over the inbound messages. *)
Definition reconcile_message (analysis : json) (k : ReconciledKnowledge) : result exn ReconciledKnowledge :=
  match analysis with
  | JObj a =>
      k ← reconcile_solution (jget "current_solution" a) k;
      let raw := jget "new_facts" a in
      items ← (if json_falsy raw then Ok [] else py_iter raw);
      facts ← reconcile_facts items (rk_facts k);
      let unresolved := jget "unresolved_items" a in
      let contradicted := jget "contradicted_facts" a in
      notes ← (if json_falsy contradicted then Ok [] else py_iter contradicted);
      mret (mkKnowledge (rk_current_solution k) (rk_current_solution_history k) facts
              (if json_falsy unresolved then rk_unresolved_items k else unresolved)
              (rk_contradicted_notes k ++ notes))
  | _ => Ok k
  end.

Fixpoint reconcile_all (analyses : list json) (k : ReconciledKnowledge) : result exn ReconciledKnowledge :=
  match analyses with
  | [] => Ok k
  | a :: r => k' ← reconcile_message a k; reconcile_all r k'
  end.

(** [m.semantic_analysis] is truthy. *)
Definition has_analysis (m : Message) : bool :=
  match msg_semantic_analysis m with Some j => negb (json_falsy j) | None => false end.

(** The key [(created_at is None, created_at, id or 0)]. *)
Definition created_id_le (a b : Message) : Prop :=
  msg_created_at a < msg_created_at b ∨ (msg_created_at a = msg_created_at b ∧ msg_id a ≤ msg_id b).
#[global] Instance created_id_le_dec : RelDecision created_id_le.
Proof. intros a b. unfold created_id_le. apply _. Defined.

Definition classified_inbound (l : list Message) : list Message :=
  merge_sort created_id_le (List.filter (λ m, (msg_direction m == INBOUND) && has_analysis m) l).

(** [l] is [contact.messages]. *)
Definition reconcile_known_facts (l : list Message) : result exn ReconciledKnowledge :=
  reconcile_all (map (λ m, default JNull (msg_semantic_analysis m)) (classified_inbound l)) empty_knowledge.

(** ** Rendering *)

(** [repr] of a float (the shortest decimal that reads back as it). *)
Class FloatRepr := float_repr : Q → string.

Section Rendering.
Context `{FloatRepr}.

Fixpoint py_repr (j : json) : string :=
  match j with
  | JNull => "None"
  | JBool b => if b then "True" else "False"
  | JInt n => pretty n
  | JFloat q => float_repr q
  | JStr s => Str.repr s
  | JList l => "[" +:+ Str.join ", " (map py_repr l) +:+ "]"
  | JObj f => "{" +:+ Str.join ", " (map (λ x, Str.repr (fst x) +:+ ": " +:+ py_repr (snd x)) f) +:+ "}"
  | JNonFinite x => match x with NaN => "nan" | Infinity => "inf" | NegInfinity => "-inf" end
  end.
Definition py_str (j : json) : string := match j with JStr s => s | _ => py_repr j end.

(** [", ".join(f.value for f in l)] raises at the first value that is not a string. *)
Fixpoint str_values (n : nat) (l : list ReconciledFact) : result exn (list string) :=
  match l with
  | [] => Ok []
  | f :: r =>
      match rf_value f with
      | JStr s => vs ← str_values (S n) r; mret (s :: vs)
      | j => Err (type_error ("sequence item " +:+ pretty n +:+ ": expected str instance, "
                              +:+ json_type j +:+ " found"))
      end
  end.

Definition build_known_facts_context (l : list Message) : result exn string :=
  k ← reconcile_known_facts l;
  let current_facts := List.filter (λ f, rf_status f == FS_CURRENT) (rk_facts k) in
  let superseded_facts := List.filter (λ f, rf_status f == FS_SUPERSEDED) (rk_facts k) in
  superseded ← (match superseded_facts with
                | [] => Ok []
                | fs => vs ← str_values 0 fs;
                        mret ["superseded facts (history, no longer current): " +:+ Str.join ", " vs]
                end);
  mret (Str.join newline
    (match rk_current_solution k with
     | Some cs => ["current_solution: " +:+ py_str (rf_value cs) +:+ " (certainty=" +:+ py_str (rf_certainty cs) +:+ ")"]
     | None => []
     end
     ++ map (λ h, "current_solution (superseded, no longer current): " +:+ py_str (rf_value h))
          (rk_current_solution_history k)
     ++ map (λ f, "fact: " +:+ py_str (rf_value f) +:+ " (certainty=" +:+ py_str (rf_certainty f) +:+ ")")
          current_facts
     ++ superseded
     ++ (match rk_contradicted_notes k with
         | [] => []
         | notes => ["contradictions noted during conversation: " +:+ py_repr (JList notes)]
         end)
     ++ (if json_falsy (rk_unresolved_items k) then []
         else ["still unresolved as of latest message: " +:+ py_str (rk_unresolved_items k)]))).
End Rendering.

(** ** Rolling summary *)

Definition SUMMARIZE_THRESHOLD : nat := 8.

(** [l[:-n]]. *)
Definition all_but_last_n {A} (n : nat) (l : list A) : list A := take (length l - n) l.

Definition summary_request (contact : Contact) (to_summarize : list Message) : LlmRequest :=
  let transcript :=
    Str.join (newline +:+ newline)
      (map (λ m, "[" +:+ MessageDirection_value (msg_direction m) +:+ "] " +:+ py_or (msg_subject m) ""
                 +:+ newline +:+ msg_body m) to_summarize) in
  let prior_summary :=
    if truthy (ct_memory_summary contact)
    then "Prior summary: " +:+ default "" (ct_memory_summary contact) +:+ newline +:+ newline else "" in
  mkLlmRequest "memory_summary"
    (prior_summary +:+ "New messages to fold in:" +:+ newline +:+ newline +:+ transcript)
    (Some (1 # 10)) (Some 220).

(** The contact afterwards; [l] is [contact.messages].  An error of the model
    leaves it as it is, anything else escapes. *)
Definition maybe_summarize_older_messages `{LlmProvider} (l : list Message) (contact : Contact)
    : result exn Contact :=
  let evidence := conversational_evidence l in
  if (length evidence <=? SUMMARIZE_THRESHOLD)%nat then Ok contact
  else match all_but_last_n RECENT_MESSAGES_VERBATIM evidence with
       | [] => Ok contact
       | to_summarize =>
           match call_llm_text (summary_request contact to_summarize) with
           | Ok text => Ok (set_ct_memory_summary (Some text) contact)
           | Err (LLMUnavailableError _ | LLMOutputError _) => Ok contact
           | Err (LlmOther e) => Err e
           end
       end.

(** ** Specification

    What a conversation has established, on the interpretations themselves:
    the solutions named so far, oldest first; every fact with its status; the
    open items of the last message that had any; all contradictions. *)

Record Known := mkKnown {
  kn_solutions : list SemanticFact;
  kn_facts : list (SemanticFact * FactStatus);
  kn_unresolved : list string;
  kn_notes : list string
}.
Definition nothing_known : Known := mkKnown [] [] [] [].

Definition is_known (v : string) (x : SemanticFact * FactStatus) : bool :=
  (snd x == FS_CURRENT) && (fc_value (fst x) == v).

Definition supersede (s : option string) (facts : list (SemanticFact * FactStatus))
    : list (SemanticFact * FactStatus) :=
  match s with
  | None | Some "" => facts
  | Some v => map (λ x, if is_known v x then (fst x, FS_SUPERSEDED) else x) facts
  end.

Definition learn_fact (facts : list (SemanticFact * FactStatus)) (f : SemanticFact)
    : list (SemanticFact * FactStatus) :=
  if fc_value f == "" then facts
  else let facts := supersede (fc_supersedes f) facts in
       if existsb (is_known (fc_value f)) facts then facts else facts ++ [(f, FS_CURRENT)].

Definition stated (f : SemanticFact) : bool := fc_value f != "".

Definition learn (k : Known) (i : SemanticIntent) : Known :=
  mkKnown (kn_solutions k ++ List.filter stated (option_list (si_current_solution i)))
    (fold_left learn_fact (si_new_facts i) (kn_facts k))
    (match si_unresolved_items i with [] => kn_unresolved k | l => l end)
    (kn_notes k ++ si_contradicted_facts i).

Definition embed_fact (st : FactStatus) (f : SemanticFact) : ReconciledFact :=
  mkRFact (JStr (fc_value f)) (JStr (Certainty_value (fc_certainty f))) st (jopt (fc_evidence f))
    (jopt_int (fc_source_message_id f)) (jopt (fc_observed_at f)).

Definition embed (k : Known) : ReconciledKnowledge :=
  mkKnowledge (embed_fact FS_CURRENT <$> last (kn_solutions k))
    (map (embed_fact FS_SUPERSEDED) (removelast (kn_solutions k)))
    (map (λ x, embed_fact (snd x) (fst x)) (kn_facts k))
    (jstrs (kn_unresolved k)) (map JStr (kn_notes k)).

(** ** The code refines the specification *)

Lemma json_falsy_str s : json_falsy (JStr s) = (s == "").
Proof. by destruct s. Qed.

Lemma json_falsy_strs l : json_falsy (jstrs l) = match l with [] => true | _ => false end.
Proof. by destruct l. Qed.

Lemma mk_fact_embed f : ∃ raw, serialize_fact f = JObj raw ∧ raw ≠ [] ∧ mk_fact raw = embed_fact FS_CURRENT f ∧
  jget "value" raw = JStr (fc_value f) ∧ jget "supersedes" raw = jopt (fc_supersedes f).
Proof.
  eexists. split_and!; [reflexivity|discriminate| |reflexivity|reflexivity].
  unfold mk_fact, embed_fact. by destruct (fc_certainty f).
Qed.

Lemma is_current_embed v x :
  is_current_value (JStr v) (embed_fact (snd x) (fst x)) = is_known v x.
Proof. destruct x as [f st]. reflexivity. Qed.

Lemma supersede_embed s facts :
  (if json_falsy (jopt s) then map (λ x, embed_fact (snd x) (fst x)) facts
   else map (λ f, if is_current_value (jopt s) f then set_rf_status FS_SUPERSEDED f else f)
          (map (λ x, embed_fact (snd x) (fst x)) facts))
  = map (λ x, embed_fact (snd x) (fst x)) (supersede s facts).
Proof.
  destruct s as [[|c s]|]; try done. cbn [jopt json_falsy supersede]. rewrite !map_map. apply map_ext.
  intros x. rewrite is_current_embed. by destruct (is_known _ x), x.
Qed.

Lemma reconcile_fact_refines f facts :
  reconcile_fact (serialize_fact f) (map (λ x, embed_fact (snd x) (fst x)) facts)
  = Ok (map (λ x, embed_fact (snd x) (fst x)) (learn_fact facts f)).
Proof.
  destruct (mk_fact_embed f) as (raw & -> & Hne & Hmk & Hv & Hs).
  unfold reconcile_fact, learn_fact. destruct raw as [|p raw]; [done|]. cbn [json_falsy].
  rewrite Hv, Hs, json_falsy_str. case_bool_decide; [done|]. rewrite supersede_embed, existsb_map.
  rewrite (existsb_ext _ (is_known (fc_value f))) by (intros; apply is_current_embed).
  case_match; [done|]. rewrite Hmk, map_app. done.
Qed.

Lemma reconcile_facts_refines fs : ∀ facts,
  reconcile_facts (map serialize_fact fs) (map (λ x, embed_fact (snd x) (fst x)) facts)
  = Ok (map (λ x, embed_fact (snd x) (fst x)) (fold_left learn_fact fs facts)).
Proof.
  induction fs as [|f fs IH]; intros facts; [done|]. cbn [map reconcile_facts fold_left].
  rewrite reconcile_fact_refines. cbn [mbind result_bind]. apply IH.
Qed.

Lemma reconcile_solution_refines (o : option SemanticFact) k :
  reconcile_solution (jnullable serialize_fact o) (embed k)
  = Ok (embed (mkKnown (kn_solutions k ++ List.filter stated (option_list o)) (kn_facts k)
                 (kn_unresolved k) (kn_notes k))).
Proof.
  destruct o as [f|]; cbn [jnullable].
  2: { change (List.filter stated (option_list None)) with (@nil SemanticFact).
       rewrite app_nil_r. by destruct k. }
  change (List.filter stated (option_list (Some f))) with (if stated f then [f] else []).
  destruct (mk_fact_embed f) as (raw & -> & Hne & Hmk & Hv & _).
  unfold reconcile_solution. destruct raw as [|p raw]; [done|]. cbn [json_falsy].
  rewrite Hv, json_falsy_str. unfold stated. case_bool_decide; cbn [negb].
  { rewrite app_nil_r. by destruct k. }
  rewrite Hmk. unfold embed; cbn. rewrite last_snoc, removelast_last. do 2 f_equal.
  destruct (kn_solutions k) as [|x l _] using rev_ind; [done|].
  rewrite last_snoc, removelast_last, map_app. done.
Qed.

Lemma py_iter_strs l :
  (if json_falsy (jstrs l) then Ok [] else py_iter (jstrs l)) = Ok (map JStr l).
Proof. by destruct l. Qed.

Lemma reconcile_message_refines i k :
  reconcile_message (serialize_semantic_intent i) (embed k) = Ok (embed (learn k i)).
Proof.
  assert (∃ a, serialize_semantic_intent i = JObj a ∧
    jget "current_solution" a = jnullable serialize_fact (si_current_solution i) ∧
    jget "new_facts" a = JList (map serialize_fact (si_new_facts i)) ∧
    jget "unresolved_items" a = jstrs (si_unresolved_items i) ∧
    jget "contradicted_facts" a = jstrs (si_contradicted_facts i)) as (a & -> & Hc & Hf & Hu & Hn)
    by (eexists; split_and!; reflexivity).
  unfold reconcile_message. rewrite Hc, Hf, Hu, Hn, reconcile_solution_refines. cbn [mbind result_bind].
  assert ((if json_falsy (JList (map serialize_fact (si_new_facts i))) then Ok []
           else py_iter (JList (map serialize_fact (si_new_facts i))))
          = @Ok exn _ (map serialize_fact (si_new_facts i))) as -> by (by destruct (si_new_facts i)).
  cbn [mbind result_bind]. cbn [embed rk_facts]. rewrite reconcile_facts_refines, py_iter_strs.
  cbn [mbind result_bind mret result_ret]. unfold embed, learn; cbn [kn_solutions kn_facts kn_unresolved kn_notes
    rk_current_solution rk_current_solution_history rk_unresolved_items rk_contradicted_notes].
  rewrite map_app, json_falsy_strs. by destruct (si_unresolved_items i).
Qed.

Lemma reconcile_all_refines intents : ∀ k,
  reconcile_all (map serialize_semantic_intent intents) (embed k) = Ok (embed (fold_left learn intents k)).
Proof.
  induction intents as [|i r IH]; intros k; [done|]. cbn [map reconcile_all fold_left].
  rewrite reconcile_message_refines. cbn [mbind result_bind]. apply IH.
Qed.

(** ** What the specification keeps *)

Definition all_facts (intents : list SemanticIntent) : list SemanticFact := concat (map si_new_facts intents).
Definition all_solutions (intents : list SemanticIntent) : list SemanticFact :=
  List.filter stated (concat (map (λ i, option_list (si_current_solution i)) intents)).

Lemma learn_all intents : ∀ k,
  kn_facts (fold_left learn intents k) = fold_left learn_fact (all_facts intents) (kn_facts k) ∧
  kn_solutions (fold_left learn intents k) = kn_solutions k ++ all_solutions intents.
Proof.
  unfold all_facts, all_solutions.
  induction intents as [|i r IH]; intros k; cbn [fold_left map concat].
  { by rewrite app_nil_r. }
  destruct (IH (learn k i)) as [-> ->]. cbn [learn kn_facts kn_solutions].
  by rewrite fold_left_app, List.filter_app, app_assoc.
Qed.

Definition currents (l : list (SemanticFact * FactStatus)) : list string :=
  map (λ x, fc_value (fst x)) (List.filter (λ x, snd x == FS_CURRENT) l).

Lemma currents_In v l : In v (currents l) ↔ existsb (is_known v) l = true.
Proof.
  unfold currents. rewrite in_map_iff, existsb_exists. split.
  - intros (x & <- & [Hx Hs]%filter_In). exists x. split; [done|]. unfold is_known. rewrite Hs. cbn.
    by apply bool_decide_eq_true.
  - intros (x & Hx & Hk). unfold is_known in Hk. exists x. rewrite filter_In. by bools; rewrite bool_decide_eq_true.
Qed.

(** Superseding keeps the facts and their order, and only removes a value
    from the current ones. *)
Lemma supersede_fst s l : map fst (supersede s l) = map fst l.
Proof.
  destruct s as [[|c s]|]; try done. cbn. rewrite map_map. apply map_ext. intros x. by case_match.
Qed.

Lemma supersede_currents s l :
  NoDup (currents l) →
  NoDup (currents (supersede s l)) ∧ ∀ v, In v (currents (supersede s l)) → In v (currents l).
Proof.
  destruct s as [[|c s]|]; try done. cbn [supersede]. set (w := String c s).
  induction l as [|[f st] l IH]; [done|]. unfold currents; cbn [map List.filter].
  destruct (is_known w (f, st)) eqn:Ek; cbn [fst snd].
  - unfold is_known in Ek. cbn [fst snd] in Ek. bools. subst st.
    rewrite bool_decide_eq_true_2, bool_decide_eq_false_2 by done. cbn [map].
    intros [_ Hd]%NoDup_cons. destruct (IH Hd) as [IH1 IH2]. split; [done|]. intros v Hv. right. by apply IH2.
  - destruct (bool_decide (st = FS_CURRENT)); cbn [map].
    + intros [Hn Hd]%NoDup_cons. destruct (IH Hd) as [IH1 IH2]. split.
      * apply NoDup_cons. split; [|done]. intros Hf%list_elem_of_In. apply Hn, list_elem_of_In. by apply IH2.
      * intros v [<-|Hv]; [by left|right; by apply IH2].
    + exact IH.
Qed.

Lemma supersede_In s l x :
  In x (supersede s l) →
  In x l ∨ snd x = FS_SUPERSEDED ∧ s = Some (fc_value (fst x)).
Proof.
  destruct s as [[|c s]|]; [by left| |by left]. cbn. rewrite in_map_iff. intros (y & <- & Hy).
  unfold is_known. repeat case_match; bools; [right|by left..]. cbn. split; congruence.
Qed.

Lemma learned_facts_inv fs :
  let l := fold_left learn_fact fs [] in
  NoDup (currents l) ∧
  (∀ f, In f fs → stated f = true → ∃ x, In x l ∧ fc_value (fst x) = fc_value f) ∧
  (∀ x, In x l → In (fst x) fs ∧ stated (fst x) = true) ∧
  (∀ x, In x l → snd x = FS_SUPERSEDED → ∃ f, In f fs ∧ fc_supersedes f = Some (fc_value (fst x))).
Proof.
  cbn zeta. induction fs as [|f fs (Hd & Hall & Hfrom & Hsup)] using rev_ind.
  { split_and!; [constructor|by intros ? []..]. }
  rewrite fold_left_app; cbn [fold_left]. set (l := fold_left learn_fact fs []) in *.
  unfold learn_fact at 1 2 3 4. case_bool_decide as Hv.
  { split_and!; [done| | |].
    - intros g [Hg|[<-|[]]]%in_app_iff Hst; [by apply Hall|].
      unfold stated in Hst. by rewrite bool_decide_eq_true_2 in Hst.
    - intros x Hx. destruct (Hfrom x Hx). split; [apply in_app_iff; by left|done].
    - intros x Hx Hs. destruct (Hsup x Hx Hs) as (g & ? & ?). exists g. split; [apply in_app_iff; by left|done]. }
  destruct (supersede_currents (fc_supersedes f) l Hd) as [Hd' Hc'].
  assert (∀ x, In x (supersede (fc_supersedes f) l) → In (fst x) fs ∧ stated (fst x) = true) as Hfrom'.
  { intros x Hx. apply (in_map fst) in Hx. rewrite supersede_fst in Hx. apply in_map_iff in Hx as (y & <- & Hy).
    by apply Hfrom. }
  assert (∀ x, In x (supersede (fc_supersedes f) l) → snd x = FS_SUPERSEDED →
    ∃ g, In g (fs ++ [f]) ∧ fc_supersedes g = Some (fc_value (fst x))) as Hsup'.
  { intros x [Hx|[_ Hx]]%supersede_In Hs.
    - destruct (Hsup x Hx Hs) as (g & ? & ?). exists g. split; [apply in_app_iff; by left|done].
    - exists f. split; [apply in_app_iff; right; by left|done]. }
  assert (∀ g, In g fs → stated g = true →
    ∃ x, In x (supersede (fc_supersedes f) l) ∧ fc_value (fst x) = fc_value g) as Hall'.
  { intros g Hg Hst. destruct (Hall g Hg Hst) as (x & Hx & <-). apply (in_map fst) in Hx.
    rewrite <- (supersede_fst (fc_supersedes f)) in Hx. apply in_map_iff in Hx as (y & Hy & Hin).
    exists y. by rewrite Hy. }
  destruct (existsb _ _) eqn:Ex.
  - split_and!; [done| | |done].
    + intros g [Hg|[<-|[]]]%in_app_iff Hst; [by apply Hall'|].
      apply existsb_exists in Ex as (x & Hx & Hk). exists x. unfold is_known in Hk. by bools.
    + intros x Hx. destruct (Hfrom' x Hx). split; [apply in_app_iff; by left|done].
  - split_and!.
    + unfold currents. rewrite List.filter_app, map_app. cbn [List.filter snd].
      rewrite bool_decide_eq_true_2 by done. cbn [map fst]. apply NoDup_app. split_and!; [done| |apply NoDup_singleton].
      intros v Hin%list_elem_of_In ->%list_elem_of_singleton. apply currents_In in Hin. congruence.
    + intros g [Hg|[<-|[]]]%in_app_iff Hst.
      * destruct (Hall' g Hg Hst) as (x & ? & ?). exists x. split; [apply in_app_iff; by left|done].
      * exists (f, FS_CURRENT). split; [apply in_app_iff; right; by left|done].
    + intros x [Hx|[<-|[]]]%in_app_iff.
      * destruct (Hfrom' x Hx). split; [apply in_app_iff; by left|done].
      * split; [apply in_app_iff; right; by left|]. unfold stated. cbn. by rewrite bool_decide_eq_false_2.
    + intros x [Hx|[<-|[]]]%in_app_iff Hs; [by apply Hsup'|done].
Qed.

(** ** The order of a conversation *)

(** [h] is the history in [l]: all its inbound rows that carry an analysis, each
    with the interpretation that was stored, strictly from the earliest to the
    latest (by time, then by primary key). *)
Definition earlier (a b : Message) : Prop :=
  msg_created_at a < msg_created_at b ∨ (msg_created_at a = msg_created_at b ∧ msg_id a < msg_id b).

Record history (l : list Message) (h : list (Message * SemanticIntent)) : Prop := {
  hi_ids : NoDup (map msg_id l);
  hi_chronological : StronglySorted earlier (map fst h);
  hi_complete : ∀ m j, In m l → msg_direction m = INBOUND → msg_semantic_analysis m = Some j → json_falsy j = false →
    In m (map fst h);
  hi_stored : ∀ m i, In (m, i) h →
    In m l ∧ msg_direction m = INBOUND ∧ msg_semantic_analysis m = Some (serialize_semantic_intent i)
}.

#[local] Instance created_id_le_total : Total created_id_le.
Proof. intros a b. unfold created_id_le. lia. Qed.
#[local] Instance created_id_le_trans : Transitive created_id_le.
Proof. intros a b c. unfold created_id_le. lia. Qed.

Lemma earlier_sorted l : StronglySorted earlier l → StronglySorted created_id_le l ∧ NoDup l.
Proof.
  induction 1 as [|a l Hl [IH1 IH2] Ha]; [by repeat constructor|]. split; constructor; try done.
  - eapply Forall_impl; [exact Ha|]. unfold earlier, created_id_le. lia.
  - intros Hin. rewrite Forall_forall in Ha. apply Ha in Hin. unfold earlier in Hin. lia.
Qed.

Lemma stored_truthy i : json_falsy (serialize_semantic_intent i) = false.
Proof. done. Qed.

(** The sort of the code recovers that order. *)
Lemma classified_inbound_history l h : history l h → classified_inbound l = map fst h.
Proof.
  intros [Hid Hs Hall Hst]. apply earlier_sorted in Hs as [Hs Hnd].
  set (f := List.filter (λ m, (msg_direction m == INBOUND) && has_analysis m) l).
  assert (∀ m, m ∈ map fst h ↔ m ∈ f) as Hin.
  { intros m. rewrite !list_elem_of_In. unfold f. rewrite filter_In, andb_true_iff, bool_decide_eq_true.
    unfold has_analysis. split.
    - intros ((m' & i) & <- & Hh)%in_map_iff. destruct (Hst _ _ Hh) as (? & ? & Ha). cbn [fst]. by rewrite Ha.
    - intros (Hl & Hd & Ha). destruct (msg_semantic_analysis m) as [j|] eqn:E; [|done].
      apply (Hall m j); try done. by apply negb_true_iff. }
  unfold classified_inbound. fold f.
  apply (StronglySorted_unique_strong created_id_le).
  - intros a b Ha Hb H1 H2. rewrite merge_sort_Permutation in Ha. apply list_elem_of_In, filter_In in Ha as [Ha _].
    apply Hin, list_elem_of_In, filter_In in Hb as [Hb _].
    assert (msg_id a = msg_id b) as He by (unfold created_id_le in *; lia).
    clear -Hid Ha Hb He. induction l as [|x l IH]; [done|]. cbn in Hid. apply NoDup_cons in Hid as [Hx Hid].
    rewrite list_elem_of_In in Hx. destruct Ha as [->|Ha], Hb as [->|Hb]; [done| | |by apply IH].
    + destruct Hx. rewrite He. by apply in_map.
    + destruct Hx. rewrite <- He. by apply in_map.
  - apply StronglySorted_merge_sort; apply _.
  - done.
  - rewrite merge_sort_Permutation. apply NoDup_Permutation; [|done|intros m; by rewrite Hin].
    apply NoDup_ListNoDup, List.NoDup_filter, NoDup_ListNoDup. by apply (NoDup_fmap_1 msg_id).
Qed.

(** ** Theorem *)

(** C19: reconciliation keeps history and never mixes it with the present.  Take
    a contact all of whose inbound analyses are interpretations stored with the
    declared types, and their history [h] from the earliest message to the
    latest (whatever the order of the rows).  Reconciliation does not raise; the
    current solution is the one stated last, and all earlier ones are kept, in
    that order, marked superseded; every fact the prospect ever stated is still
    listed, each entry is one that was stated, no value is current twice, and
    an entry is marked superseded only when a stated fact names its exact value
    as the one it replaces.  (A stored value of another type, which the
    classifier lets through, can make reconciliation raise:
    [untyped_note_raises].) *)
Theorem reconciliation_keeps_history l h :
  history l h →
  let intents := map snd h in
  ∃ k, reconcile_known_facts l = Ok k ∧
    rk_current_solution k = embed_fact FS_CURRENT <$> last (all_solutions intents) ∧
    rk_current_solution_history k = map (embed_fact FS_SUPERSEDED) (removelast (all_solutions intents)) ∧
    NoDup (map rf_value (List.filter (λ r, rf_status r == FS_CURRENT) (rk_facts k))) ∧
    (∀ f, In f (all_facts intents) → stated f = true →
       ∃ r, In r (rk_facts k) ∧ rf_value r = JStr (fc_value f)) ∧
    (∀ r, In r (rk_facts k) →
       (∃ f, In f (all_facts intents) ∧ r = embed_fact (rf_status r) f) ∧
       (rf_status r = FS_SUPERSEDED →
        ∃ f s, In f (all_facts intents) ∧ fc_supersedes f = Some s ∧ rf_value r = JStr s)).
Proof.
  intros Hl intents. exists (embed (fold_left learn intents nothing_known)).
  assert (reconcile_known_facts l = Ok (embed (fold_left learn intents nothing_known))) as ->.
  { unfold reconcile_known_facts. change empty_knowledge with (embed nothing_known).
    rewrite <- reconcile_all_refines, (classified_inbound_history l h Hl). f_equal. unfold intents. rewrite !map_map.
    apply map_ext_in. intros [m i] Hin. cbn [fst snd]. destruct (hi_stored _ _ Hl m i Hin) as (_ & _ & ->). done. }
  split; [done|]. destruct (learn_all intents nothing_known) as [Hf Hs].
  destruct (learned_facts_inv (all_facts intents)) as (Hd & Hall & Hfrom & Hsup).
  cbn [nothing_known kn_facts kn_solutions app] in Hf, Hs. cbn [embed rk_current_solution
    rk_current_solution_history rk_facts]. rewrite Hf, Hs.
  set (fs := fold_left learn_fact (all_facts intents) []) in *. split_and!; [done|done| | |].
  - replace (map rf_value _) with (map JStr (currents fs)); [by apply NoDup_fmap_2; [intros ? ? [=]|]|].
    unfold currents. clear. induction fs as [|[f st] r IH]; [done|]. cbn [map List.filter fst snd embed_fact rf_status].
    case_match; cbn; by rewrite IH.
  - intros f Hin Hst. destruct (Hall f Hin Hst) as (x & Hx & Hv). exists (embed_fact (snd x) (fst x)).
    split; [apply in_map_iff; by exists x|]. cbn. by rewrite Hv.
  - intros r (x & <- & Hx)%in_map_iff. cbn [rf_status rf_value embed_fact]. split.
    + exists (fst x). split; [by apply Hfrom|done].
    + intros Hs'. destruct (Hsup x Hx Hs') as (f & ? & ?). by exists f, (fc_value (fst x)).
Qed.

(** *** Witness *)

Definition fact_of (v : string) (supersedes : option string) : SemanticFact :=
  mkFact v CT_EXPLICIT true None supersedes None None.
Definition turn (solution : option SemanticFact) (facts : list SemanticFact) : SemanticIntent :=
  mkIntent [NEUTRAL] None ST_NEUTRAL BS_UNAWARE None [] [] [] UL_NO_TIMELINE false false false false false
    [] [] [] solution [] facts [] [] None (9 # 10) [] "" false None.
Definition turns : list SemanticIntent :=
  [turn (Some (fact_of "Salesforce" None)) [fact_of "team of 50" None; fact_of "based in Oslo" None];
   turn (Some (fact_of "HubSpot" None)) [fact_of "team of 60" (Some "team of 50")]].
Definition turn_message (n : Z) (i : SemanticIntent) : Message :=
  mkMessage n 1 INBOUND None None "text" MS_RECEIVED None None None None None
    (Some (serialize_semantic_intent i)) None None None None n None.
(** Two turns, the rows in the wrong order. *)
Definition turn_history : list (Message * SemanticIntent) := imap (λ n i, (turn_message (Z.of_nat n) i, i)) turns.
Definition turn_messages : list Message := rev (map fst turn_history).

Lemma turn_history_ok : history turn_messages turn_history.
Proof.
  split.
  - apply (bool_decide_unpack _). vm_compute. exact I.
  - repeat constructor; vm_compute; auto.
  - intros m j Hin _ _ _. unfold turn_messages in Hin. by apply in_rev in Hin.
  - intros m i Hin. split.
    + unfold turn_messages. rewrite <- in_rev. by apply (in_map fst) in Hin.
    + repeat (destruct Hin as [[= <- <-]|Hin]; [split; reflexivity|]). destruct Hin.
Qed.

Lemma reconciliation_keeps_history_witness :
  ∃ k, reconcile_known_facts turn_messages = Ok k ∧
       rk_current_solution k = Some (embed_fact FS_CURRENT (fact_of "HubSpot" None)) ∧
       map rf_status (rk_facts k) = [FS_SUPERSEDED; FS_CURRENT; FS_CURRENT].
Proof.
  destruct (reconciliation_keeps_history turn_messages turn_history turn_history_ok) as (k & Hk & Hs & _).
  exists k. split; [exact Hk|]. split; [rewrite Hs; reflexivity|].
  vm_compute in Hk. injection Hk as <-. reflexivity.
Defined.

(** The classifier stores [contradicted_facts] as the model gave it; a number
    there makes every later reading of the conversation raise. *)
Example untyped_note_raises :
  reconcile_known_facts
    [mkMessage 1 1 INBOUND None None "text" MS_RECEIVED None None None None None
       (Some (JObj [("intents", jstrs ["neutral"]); ("contradicted_facts", JInt 5)])) None None None None 1 None]
  = Err (type_error "'int' object is not iterable").
Proof. vm_compute. reflexivity. Qed.
