(* ===== verification/SemanticParsing.v ===== *)
(** * Reading the model's classification ([src/mailer_agent/semantic/classifier.py])

    The shape check and the parser between the JSON a model returns and a
    [SemanticIntent]; together with the provider they implement the interface
    [SemanticReader] of [Classifier].

    The parser hands some values on unchecked.  [SemanticIntent] has the types
    the response schema gives them, so for a value of another type (and for a
    confidence given as text, NaN or an infinity), which the source carries
    along, the parser of this file says [Untyped].  That is not a refusal: the
    reader then answers anything at all ([Unspecified]), so that what is proved
    of the reader and of its clients holds whatever becomes of such a value.
    Where Python raises, the exception is modelled ([Raises]) and comes first. *)

From S2P Require Import Prelude Sql Models Samples SemanticModels Sender Regex Threading Grounding ExactMessage Llm LlmSchemas Memory Classifier.

#[local] Open Scope bool_scope.

(** ** Enumerations by value *)

(** A [str] enumeration: its members and their values. *)
Class WireEnum (A : Type) := {
  members : list A;
  wire : A → string;
  wire_inj x y : wire x = wire y → x = y;
  members_complete x : In x members
}.

(** [E(value)]; [None] is the ValueError. *)
Definition of_wire `{WireEnum A} (j : json) : option A :=
  match j with JStr s => find (λ a, wire a == s) members | _ => None end.

Lemma of_wire_wire `{WireEnum A} (a : A) : of_wire (JStr (wire a)) = Some a.
Proof.
  cbn. destruct (find _ members) as [b|] eqn:E.
  - apply find_some in E as [_ Hb]. bools. by rewrite (wire_inj _ _ Hb).
  - exfalso. eapply find_none in E; [|apply (members_complete a)]. bools. done.
Qed.

Ltac wire_members := match goal with x : _ |- _ => destruct x; cbn; tauto end.

#[global] Program Instance IntentType_wire : WireEnum IntentType := {|
  members := [POSITIVE_INTEREST; QUESTION; OBJECTION; NOT_INTERESTED; MEETING_REQUEST; PRICING_REQUEST;
              INFORMATION_REQUEST; OUT_OF_OFFICE; UNSUBSCRIBE; REFERRAL; TIMING_CONSTRAINT; NEUTRAL];
  wire := IntentType_value; wire_inj := IntentType_value_inj |}.
Next Obligation. wire_members. Qed.
#[global] Program Instance SpeechAct_wire : WireEnum SpeechAct := {|
  members := [SA_STATEMENT; SA_QUESTION; SA_REQUEST; SA_COMMITMENT; SA_REJECTION; SA_ACKNOWLEDGMENT];
  wire := SpeechAct_value; wire_inj := SpeechAct_value_inj |}.
Next Obligation. wire_members. Qed.
#[global] Program Instance SentimentType_wire : WireEnum SentimentType := {|
  members := [ST_POSITIVE; ST_NEUTRAL; ST_NEGATIVE; ST_MIXED];
  wire := SentimentType_value; wire_inj := SentimentType_value_inj |}.
Next Obligation. wire_members. Qed.
#[global] Program Instance BuyingStage_wire : WireEnum BuyingStage := {|
  members := [BS_UNAWARE; BS_AWARE; BS_CONSIDERING; BS_EVALUATING; BS_DECIDING; BS_COMMITTED; BS_REJECTED; BS_NURTURE];
  wire := BuyingStage_value; wire_inj := BuyingStage_value_inj |}.
Next Obligation. wire_members. Qed.
#[global] Program Instance UrgencyLevel_wire : WireEnum UrgencyLevel := {|
  members := [UL_IMMEDIATE; UL_NEAR_TERM; UL_LONG_TERM; UL_NO_TIMELINE];
  wire := UrgencyLevel_value; wire_inj := UrgencyLevel_value_inj |}.
Next Obligation. wire_members. Qed.
#[global] Program Instance Certainty_wire : WireEnum Certainty := {|
  members := [CT_EXPLICIT; CT_STRONGLY_INFERRED; CT_WEAKLY_INFERRED; CT_UNKNOWN];
  wire := Certainty_value; wire_inj := Certainty_value_inj |}.
Next Obligation. wire_members. Qed.
#[global] Program Instance TimingKind_wire : WireEnum TimingKind := {|
  members := [TK_SPECIFIC_DATE; TK_RELATIVE_PERIOD; TK_QUARTER; TK_CONDITIONAL; TK_VAGUE];
  wire := TimingKind_value; wire_inj := TimingKind_value_inj |}.
Next Obligation. wire_members. Qed.

#[global] Instance Certainty_eq_dec : EqDecision Certainty.
Proof. solve_decision. Defined.

(** ** Fields *)

Inductive parse_error :=
  | Raises (e : exn)
  | Untyped (field : string).

#[local] Abbreviation fields := (list (string * json)).

(** [d.get(k, []) or []] where a list of strings is expected. *)
Definition text_of (j : json) : option string := match j with JStr s => Some s | _ => None end.
Definition typed_strings (k : string) (d : fields) : result parse_error (list string) :=
  let v := jget k d in
  if json_falsy v then Ok []
  else match v with
       | JList l => match mapM text_of l with Some ss => Ok ss | None => Err (Untyped k) end
       | _ => Err (Untyped k)
       end.
(** [d.get(k, False)] *)
Definition typed_bool (k : string) (d : fields) : result parse_error bool :=
  match assoc k d with
  | None => Ok false
  | Some (JBool b) => Ok b
  | Some _ => Err (Untyped k)
  end.
(** [d.get(k)] *)
Definition typed_opt (k : string) (d : fields) : result parse_error (option string) :=
  match jget k d with
  | JNull => Ok None
  | JStr s => Ok (Some s)
  | _ => Err (Untyped k)
  end.
(** [d.get(k) or None] *)
Definition typed_truthy (k : string) (d : fields) : result parse_error (option string) :=
  let v := jget k d in
  if json_falsy v then Ok None else match v with JStr s => Ok (Some s) | _ => Err (Untyped k) end.
(** [d.get(k, "")] *)
Definition typed_text (k : string) (d : fields) : result parse_error string :=
  match assoc k d with
  | None => Ok ""
  | Some (JStr s) => Ok s
  | Some _ => Err (Untyped k)
  end.
(** [float(n)]: to the nearest of the 53-bit significands, ties to even; beyond
    the largest finite float it raises. *)
Definition float_of_Z (n : Z) : option Q :=
  let a := Z.abs n in
  if a <=? 2 ^ 53 then Some (inject_Z n)
  else
    let e := Z.log2 a - 52 in
    let m := a / 2 ^ e in
    let r := a mod 2 ^ e in
    let up := (2 ^ (e - 1) <? r) || ((r =? 2 ^ (e - 1)) && Z.odd m) in
    let v := (if up then m + 1 else m) * 2 ^ e in
    if 2 ^ 1024 <=? v then None else Some (inject_Z (Z.sgn n * v)).
Definition overflow_error : exn := mkExn (C_Other "OverflowError") "int too large to convert to float".

(** The float a number is read as. *)
Definition float_value (j : json) : option Q :=
  match j with
  | JBool b => Some (if b then 1 else 0)%Q
  | JInt n => float_of_Z n
  | JFloat q => Some q
  | _ => None
  end.

(** [float(d.get(k, 0.5))].  Text is parsed as a float, and NaN and the
    infinities are kept; neither is a [Q]. *)
Definition typed_float (k : string) (d : fields) : result parse_error Q :=
  match default (JFloat (1 # 2)) (assoc k d) with
  | JFloat q => Ok q
  | JInt n => match float_of_Z n with Some q => Ok q | None => Err (Raises overflow_error) end
  | JBool b => Ok (if b then 1 else 0)%Q
  | JStr _ | JNonFinite _ => Err (Untyped k)
  | j => Err (Raises (type_error ("float() argument must be a string or a real number, not '"
                                  +:+ json_type j +:+ "'")))
  end.

(** [for x in d.get(k, []) or []] *)
Definition as_parse {A} (r : result exn A) : result parse_error A :=
  match r with Ok a => Ok a | Err e => Err (Raises e) end.
Definition items_of (k : string) (d : fields) : result parse_error (list json) :=
  let v := jget k d in if json_falsy v then Ok [] else as_parse (py_iter v).

(** ** The parser *)

Section Parser.
Context `{FloatRepr}.

Definition parse_certainty (value : json) : Certainty := default CT_UNKNOWN (of_wire value).

(** [str(v) if v else None] *)
Definition str_or_none (v : json) : option string := if json_falsy v then None else Some (py_str v).

Definition parse_semantic_fact (raw : json) : result parse_error (option SemanticFact) :=
  match raw with
  | JObj d =>
      match str_or_none (jget "value" d) with
      | None => Ok None
      | Some value =>
          let certainty := parse_certainty (jget "certainty" d) in
          evidence ← typed_opt "evidence" d;
          mret (Some (mkFact value certainty (bool_decide (certainty = CT_EXPLICIT)) evidence
                        (str_or_none (jget "supersedes" d)) None None))
      end
  | _ => Ok None
  end.

Fixpoint parse_facts (l : list json) : result parse_error (list SemanticFact) :=
  match l with
  | [] => Ok []
  | c :: r =>
      f ← parse_semantic_fact c;
      fs ← parse_facts r;
      mret (match f with Some f => f :: fs | None => fs end)
  end.

Definition parse_timing_signal (raw : json) : result parse_error (option TimingSignal) :=
  match raw with
  | JObj d =>
      match str_or_none (jget "expression" d) with
      | None => Ok None
      | Some expression =>
          let kind := if json_falsy (jget "kind" d) then None else of_wire (jget "kind" d) in
          normalized_target ← typed_truthy "normalized_target" d;
          commitment_strength ← typed_opt "commitment_strength" d;
          mret (Some (mkTiming expression kind normalized_target (parse_certainty (jget "certainty" d))
                        commitment_strength
                        (negb (json_falsy (default (JBool false) (assoc "requires_clarification" d))))))
      end
  | _ => Ok None
  end.

Definition required_keys : list string := ["intents"; "sentiment"; "buying_stage"; "confidence"].

Definition string_le (a b : string) : Prop := String.leb a b = true.
#[global] Instance string_le_dec a b : Decision (string_le a b) := bool_eq_dec _ _.

(** The error is the text of a [ValidationError]. *)
Definition validate_response_shape (response : json) : result string fields :=
  match response with
  | JObj d =>
      if existsb (λ key, is_not_none (assoc key d)) required_keys then Ok d
      else Err ("LLM response is missing all required classification keys "
                +:+ "(" +:+ Str.join ", " (map Str.repr required_keys) +:+ ")"
                +:+ " -- got keys: " +:+ Str.repr_list (merge_sort string_le (map fst d)))
  | _ => Err ("LLM response is not a JSON object: " +:+ json_type response)
  end.

(** An enumeration with a default; an unknown value falls back to it. *)
Definition enum_or `{WireEnum A} (k : string) (fallback : A) (d : fields) : A :=
  match assoc k d with
  | None => fallback
  | Some v => default fallback (of_wire v)
  end.

Definition parse_intents (d : fields) : result parse_error (list IntentType) :=
  items ← as_parse (py_iter (default (JList [JStr "neutral"]) (assoc "intents" d)));
  mret (match omap of_wire items with [] => [NEUTRAL] | intents => intents end).

(** First what may raise, in the order of the source, then the rest. *)
Definition parse_semantic_response (d : fields) : result parse_error SemanticIntent :=
  intents ← parse_intents d;
  competitors ← items_of "competitors_mentioned" d;
  facts ← items_of "new_facts" d;
  confidence ← typed_float "confidence" d;
  current_solution ← parse_semantic_fact (jget "current_solution" d);
  competitors_mentioned ← parse_facts competitors;
  new_facts ← parse_facts facts;
  timing ← parse_timing_signal (jget "timing" d);
  user_goal ← typed_truthy "user_goal" d;
  pain_points ← typed_strings "pain_points" d;
  objections_raised ← typed_strings "objections_raised" d;
  constraints ← typed_strings "constraints" d;
  has_pricing_question ← typed_bool "has_pricing_question" d;
  has_budget_signal ← typed_bool "has_budget_signal" d;
  has_decision_maker_signal ← typed_bool "has_decision_maker_signal" d;
  has_commitment_signal ← typed_bool "has_commitment_signal" d;
  procurement_signal ← typed_bool "procurement_signal" d;
  requested_information ← typed_strings "requested_information" d;
  questions_asked ← typed_strings "questions_asked" d;
  commitments_made ← typed_strings "commitments_made" d;
  contradicted_facts ← typed_strings "contradicted_facts" d;
  unresolved_items ← typed_strings "unresolved_items" d;
  uncertain_aspects ← typed_strings "uncertain_aspects" d;
  reasoning ← typed_text "reasoning" d;
  requires_human_review ← typed_bool "requires_human_review" d;
  human_review_reason ← typed_opt "human_review_reason" d;
  let speech_act := if json_falsy (jget "speech_act" d) then None else of_wire (jget "speech_act" d) in
  mret (mkIntent intents speech_act (enum_or "sentiment" ST_NEUTRAL d) (enum_or "buying_stage" BS_UNAWARE d)
          user_goal pain_points objections_raised constraints (enum_or "urgency" UL_NO_TIMELINE d)
          has_pricing_question has_budget_signal has_decision_maker_signal has_commitment_signal
          procurement_signal requested_information questions_asked commitments_made current_solution
          competitors_mentioned new_facts contradicted_facts unresolved_items timing confidence
          uncertain_aspects reasoning requires_human_review human_review_reason).

(** ** The reader *)

(** What the rest of the program makes of a response with values outside the
    types of the schema: anything. *)
Class Unspecified (A : Type) := unspecified : list (string * json) → A.

#[global] Instance provider_reader `{LlmProvider} `{Unspecified (result provider_exn Reading)} : SemanticReader :=
  λ q,
    llm_result ← provider_call_json q;
    match validate_response_shape (lj_data llm_result) with
    | Err m => Err (ProviderError ProviderValidationError m)
    | Ok d =>
        match parse_semantic_response d with
        | Ok i => Ok (mkReading i (Some (lj_model_used llm_result)) (Some (lj_used_fallback llm_result))
                        (Some (lj_response_mode llm_result)) (Some (lj_attempts llm_result)))
        | Err (Raises e) => Err (ProviderOther e)
        | Err (Untyped _) => unspecified d
        end
    end.
End Parser.

(** ** Facts *)

(** Integers a float holds exactly, and those it cannot hold. *)
Lemma float_of_Z_exact n : Z.abs n ≤ 2 ^ 53 → float_of_Z n = Some (inject_Z n).
Proof. intros Hn. unfold float_of_Z. by rewrite (proj2 (Z.leb_le _ _) Hn). Qed.

Lemma float_of_Z_None n : float_of_Z n = None → 2 ^ 1023 ≤ Z.abs n.
Proof.
  unfold float_of_Z. cbv zeta. set (a := Z.abs n). destruct (a <=? 2 ^ 53) eqn:Ea; [done|].
  apply Z.leb_gt in Ea. set (e := Z.log2 a - 52). assert (0 < 2 ^ 53) as Hp by lia.
  assert (53 ≤ Z.log2 a) as Hl by (apply Z.log2_le_pow2; lia).
  destruct (Z.log2_spec a ltac:(lia)) as [Hlo Hhi].
  set (m := a / 2 ^ e). assert (m < 2 ^ 53) as Hm.
  { apply Z.div_lt_upper_bound; [apply Z.pow_pos_nonneg; lia|]. rewrite <- Z.pow_add_r by lia.
    replace (e + 53) with (Z.succ (Z.log2 a)) by lia. exact Hhi. }
  match goal with |- (if 2 ^ 1024 <=? (if ?up then _ else _) * _ then _ else _) = _ → _ => set (u := up) end.
  destruct (2 ^ 1024 <=? _) eqn:Ev; [|done]. intros _. apply Z.leb_le in Ev.
  assert (2 ^ 1024 ≤ 2 ^ Z.succ (Z.log2 a)) as Hv.
  { etrans; [exact Ev|]. replace (Z.succ (Z.log2 a)) with (53 + e) by lia. rewrite Z.pow_add_r by lia.
    apply Z.mul_le_mono_nonneg_r; [apply Z.pow_nonneg; lia|]. destruct u; lia. }
  apply Z.pow_le_mono_r_iff in Hv; [|lia|lia].
  etrans; [|exact Hlo]. apply Z.pow_le_mono_r; lia.
Qed.

(** *** Fields of a stored or admitted value *)

Lemma mapM_texts l : mapM text_of (map JStr l) = Some l.
Proof. induction l as [|s l IH]; [done|]. cbn in *. by rewrite IH. Qed.

Lemma jget_assoc k d v : assoc k d = Some v → jget k d = v.
Proof. unfold jget. by intros ->. Qed.
Lemma typed_strings_stored k d l : jget k d = jstrs l → typed_strings k d = Ok l.
Proof. unfold typed_strings. intros ->. destruct l as [|s l]; [done|]. cbn [jstrs json_falsy map]. change (JStr s :: map JStr l) with (map JStr (s :: l)). by rewrite mapM_texts. Qed.
Lemma typed_bool_stored k d b : assoc k d = Some (JBool b) → typed_bool k d = Ok b.
Proof. unfold typed_bool. by intros ->. Qed.
Lemma typed_opt_stored k d o : jget k d = jopt o → typed_opt k d = Ok o.
Proof. unfold typed_opt. intros ->. by destruct o. Qed.
Lemma typed_truthy_stored k d o :
  jget k d = jopt o → typed_truthy k d = Ok (match o with Some "" => None | _ => o end).
Proof. unfold typed_truthy. intros ->. by destruct o as [[|c s]|]. Qed.
Lemma typed_text_stored k d s : assoc k d = Some (JStr s) → typed_text k d = Ok s.
Proof. unfold typed_text. by intros ->. Qed.
Lemma items_of_stored k d l : jget k d = JList l → items_of k d = Ok l.
Proof. unfold items_of. intros ->. by destruct l. Qed.
Lemma enum_or_stored `{WireEnum A} k (x a : A) d : assoc k d = Some (JStr (wire a)) → enum_or k x d = a.
Proof. unfold enum_or. intros ->. by rewrite of_wire_wire. Qed.

(** A truthy value reads back as it was written. *)
Lemma typed_truthy_Ok k d o : typed_truthy k d = Ok o → o ≠ Some "".
Proof.
  unfold typed_truthy. destruct (json_falsy _) eqn:E; [by intros [= <-]|].
  destruct (jget k d) as [| | | |[|c s]| | |]; try done. by intros [= <-].
Qed.

Lemma wire_not_empty_act a : SpeechAct_value a ≠ "".
Proof. by destruct a. Qed.
Lemma wire_not_empty_kind a : TimingKind_value a ≠ "".
Proof. by destruct a. Qed.

(** The optional enumerations: [E(v) if v else None]. *)
Lemma optional_enum `{WireEnum A} (o : option A) :
  (∀ a, wire a ≠ "") →
  (if json_falsy (jopt (wire <$> o)) then None else of_wire (jopt (wire <$> o))) = o.
Proof.
  intros Hne. destruct o as [a|]; [|done]. cbn [fmap option_fmap option_map jopt].
  rewrite of_wire_wire. destruct (json_falsy (JStr (wire a))) eqn:E; [|done].
  cbn in E. specialize (Hne a). by destruct (wire a).
Qed.

(** *** The stored form *)

Lemma pretty_N_go_nonempty x : ∀ s, s ≠ "" → pretty_N_go x s ≠ "".
Proof.
  induction (N.lt_wf_0 x) as [x _ IH]. intros s Hs. destruct (decide (x = 0%N)) as [->|Hx].
  - by rewrite pretty_N_go_0.
  - rewrite pretty_N_go_step by lia. apply IH; [apply N.div_lt; lia|done].
Qed.
Lemma pretty_Z_nonempty (n : Z) : pretty n ≠ "".
Proof.
  destruct n as [|p|p]; [done| |done]. change (pretty (N.pos p) ≠ ""). unfold pretty, pretty_N.
  destruct (decide (N.pos p = 0%N)); [done|]. rewrite pretty_N_go_step by lia. by apply pretty_N_go_nonempty.
Qed.

(** The shortest decimal of a float is not empty. *)
Class FloatReprLaws `{FloatRepr} := float_repr_nonempty : ∀ q, float_repr q ≠ "".

Section Stored.
Context `{FloatRepr}.

(** What the parser establishes of a fact, a time and an interpretation. *)
Record fact_read (f : SemanticFact) : Prop := {
  fr_value : fc_value f ≠ "";
  fr_explicit : fc_explicit f = bool_decide (fc_certainty f = CT_EXPLICIT);
  fr_supersedes : fc_supersedes f ≠ Some "";
  fr_provenance : fc_source_message_id f = None ∧ fc_observed_at f = None
}.
Definition timing_read (t : TimingSignal) : Prop := tm_expression t ≠ "" ∧ tm_normalized_target t ≠ Some "".
Record intent_read (i : SemanticIntent) : Prop := {
  ir_intents : si_intents i ≠ [];
  ir_goal : si_user_goal i ≠ Some "";
  ir_facts : Forall fact_read (intent_facts i);
  ir_timing : ∀ t, si_timing i = Some t → timing_read t
}.

Lemma py_str_nonempty `{!FloatReprLaws} v s : str_or_none v = Some s → s ≠ "".
Proof.
  unfold str_or_none. destruct (json_falsy v) eqn:E; [done|]. intros [= <-].
  destruct v as [|[]|n|q|[|c s]|l|f|[]]; try done; cbn; [apply pretty_Z_nonempty|apply float_repr_nonempty].
Qed.

Lemma str_or_none_stored s : s ≠ "" → str_or_none (JStr s) = Some s.
Proof. by destruct s. Qed.

Lemma parse_fact_stored m t f : fact_read f → parse_semantic_fact (serialize_fact (stamp m t f)) = Ok (Some f).
Proof.
  intros [Hv He Hs [Hm Ho]]. unfold parse_semantic_fact, serialize_fact.
  change (jget "value" _) with (JStr (fc_value (stamp m t f))). rewrite str_or_none_stored by done.
  erewrite typed_opt_stored by reflexivity. cbn [mbind result_bind mret result_ret].
  change (jget "certainty" _) with (JStr (wire (fc_certainty f))).
  change (jget "supersedes" _) with (jopt (fc_supersedes f)).
  unfold parse_certainty. rewrite of_wire_wire. cbn [from_option id].
  assert (str_or_none (jopt (fc_supersedes f)) = fc_supersedes f) as ->.
  { destruct (fc_supersedes f) as [[|c x]|]; done. }
  destruct f; cbn in *. by subst.
Qed.

Lemma parse_facts_stored m t l :
  Forall fact_read l → parse_facts (map serialize_fact (map (stamp m t) l)) = Ok l.
Proof.
  induction 1 as [|f l Hf _ IH]; [done|]. cbn [map parse_facts].
  rewrite parse_fact_stored by done. cbn [mbind result_bind]. by rewrite IH.
Qed.

Lemma parse_timing_stored t : timing_read t → parse_timing_signal (serialize_timing t) = Ok (Some t).
Proof.
  intros [He Hn]. unfold parse_timing_signal, serialize_timing.
  change (jget "expression" _) with (JStr (tm_expression t)). rewrite str_or_none_stored by done.
  erewrite typed_truthy_stored by reflexivity. erewrite typed_opt_stored by reflexivity.
  cbn [mbind result_bind mret result_ret].
  change (jget "kind" _) with (jopt (wire <$> tm_kind t)). rewrite optional_enum by apply wire_not_empty_kind.
  change (jget "certainty" _) with (JStr (wire (tm_certainty t))). unfold parse_certainty. rewrite of_wire_wire.
  destruct t as [e k [[|c n]|] ct cs []]; done.
Qed.

Lemma parse_intents_stored d l :
  l ≠ [] → assoc "intents" d = Some (jstrs (map IntentType_value l)) → parse_intents d = Ok l.
Proof.
  intros Hl Ha. unfold parse_intents. rewrite Ha. unfold jstrs. cbn [from_option id py_iter as_parse mbind result_bind].
  assert (omap of_wire (map JStr (map IntentType_value l)) = l) as ->.
  { clear. induction l as [|x l IH]; [done|]. cbn [map omap list_omap].
    change (IntentType_value x) with (wire x). by rewrite of_wire_wire, IH. }
  by destruct l.
Qed.

Lemma parse_solution_stored m t o :
  Forall fact_read (option_list o) →
  parse_semantic_fact (jnullable serialize_fact (stamp m t <$> o)) = Ok o.
Proof. destruct o as [f|]; [|done]. intros Hf. apply parse_fact_stored. by inversion Hf. Qed.
Lemma parse_timing_field_stored o :
  (∀ t, o = Some t → timing_read t) → parse_timing_signal (jnullable serialize_timing o) = Ok o.
Proof. destruct o as [t|]; [|done]. intros Ht. by apply parse_timing_stored, Ht. Qed.

Lemma parse_stored m t i :
  intent_read i →
  ∃ d, serialize_semantic_intent (attach_fact_provenance m t i) = JObj d ∧ parse_semantic_response d = Ok i.
Proof.
  intros [Hi Hg Hf Ht]. eexists. split; [reflexivity|].
  apply Forall_app in Hf as [Hcs [Hcm Hnf]%Forall_app].
  match goal with |- parse_semantic_response ?d = _ => set (D := d) end.
  unfold parse_semantic_response.
  rewrite (parse_intents_stored D (si_intents i) Hi eq_refl).
  rewrite (items_of_stored "competitors_mentioned" D (map serialize_fact (map (stamp m t) (si_competitors_mentioned i))) eq_refl).
  rewrite (items_of_stored "new_facts" D (map serialize_fact (map (stamp m t) (si_new_facts i))) eq_refl).
  change (typed_float "confidence" D) with (Ok (E:=parse_error) (si_confidence i)).
  cbn [mbind result_bind]. rewrite !parse_facts_stored by done.
  change (jget "current_solution" D) with (jnullable serialize_fact (stamp m t <$> si_current_solution i)).
  change (jget "timing" D) with (jnullable serialize_timing (si_timing i)).
  rewrite parse_solution_stored, parse_timing_field_stored by done.
  rewrite (typed_truthy_stored "user_goal" D (si_user_goal i) eq_refl).
  rewrite (typed_strings_stored "pain_points" D (si_pain_points i) eq_refl).
  rewrite (typed_strings_stored "objections_raised" D (si_objections_raised i) eq_refl).
  rewrite (typed_strings_stored "constraints" D (si_constraints i) eq_refl).
  rewrite (typed_strings_stored "requested_information" D (si_requested_information i) eq_refl).
  rewrite (typed_strings_stored "questions_asked" D (si_questions_asked i) eq_refl).
  rewrite (typed_strings_stored "commitments_made" D (si_commitments_made i) eq_refl).
  rewrite (typed_strings_stored "contradicted_facts" D (si_contradicted_facts i) eq_refl).
  rewrite (typed_strings_stored "unresolved_items" D (si_unresolved_items i) eq_refl).
  rewrite (typed_strings_stored "uncertain_aspects" D (si_uncertain_aspects i) eq_refl).
  rewrite (typed_bool_stored "has_pricing_question" D (si_has_pricing_question i) eq_refl).
  rewrite (typed_bool_stored "has_budget_signal" D (si_has_budget_signal i) eq_refl).
  rewrite (typed_bool_stored "has_decision_maker_signal" D (si_has_decision_maker_signal i) eq_refl).
  rewrite (typed_bool_stored "has_commitment_signal" D (si_has_commitment_signal i) eq_refl).
  rewrite (typed_bool_stored "procurement_signal" D (si_procurement_signal i) eq_refl).
  rewrite (typed_bool_stored "requires_human_review" D (si_requires_human_review i) eq_refl).
  rewrite (typed_text_stored "reasoning" D (si_reasoning i) eq_refl).
  rewrite (typed_opt_stored "human_review_reason" D (si_human_review_reason i) eq_refl).
  cbn [mbind result_bind mret result_ret].
  change (jget "speech_act" D) with (jopt (wire <$> si_speech_act i)). rewrite optional_enum by apply wire_not_empty_act.
  rewrite (enum_or_stored "sentiment" ST_NEUTRAL (si_sentiment i) D) by reflexivity.
  rewrite (enum_or_stored "buying_stage" BS_UNAWARE (si_buying_stage i) D) by reflexivity.
  rewrite (enum_or_stored "urgency" UL_NO_TIMELINE (si_urgency i) D) by reflexivity.
  destruct i as [? ? ? ? [[|c g]|]]; cbn in *; done.
Qed.
(** *** What a reading looks like *)

Lemma parse_fact_read `{!FloatReprLaws} raw f : parse_semantic_fact raw = Ok (Some f) → fact_read f.
Proof.
  destruct raw as [| | | | | |d|]; try done. unfold parse_semantic_fact.
  destruct (str_or_none (jget "value" d)) as [v|] eqn:Ev; [|done]. intros E. inv_result.
  split; cbn; [by eapply py_str_nonempty|done| |done].
  intros Es. by apply py_str_nonempty in Es.
Qed.

Lemma parse_facts_read `{!FloatReprLaws} l : ∀ fs, parse_facts l = Ok fs → Forall fact_read fs.
Proof.
  induction l as [|c l IH]; cbn [parse_facts]; intros fs E; [by injection E as <-|].
  inv_result. destruct x as [f|]; [constructor; [by eapply parse_fact_read|]|]; by apply IH.
Qed.

Lemma parse_timing_read `{!FloatReprLaws} raw t : parse_timing_signal raw = Ok (Some t) → timing_read t.
Proof.
  destruct raw as [| | | | | |d|]; try done. unfold parse_timing_signal.
  destruct (str_or_none (jget "expression" d)) as [v|] eqn:Ev; [|done]. intros E. inv_result.
  split; cbn; [by eapply py_str_nonempty|by eapply typed_truthy_Ok].
Qed.

Lemma parse_intents_read d l : parse_intents d = Ok l → l ≠ [].
Proof. unfold parse_intents. intros E. inv_result. by destruct (omap of_wire x). Qed.

Lemma parse_read `{!FloatReprLaws} d i : parse_semantic_response d = Ok i → intent_read i.
Proof.
  unfold parse_semantic_response. intros E. inv_result.
  repeat match goal with
  | H : parse_facts _ = Ok _ |- _ => apply parse_facts_read in H
  | H : typed_truthy _ _ = Ok _ |- _ => apply typed_truthy_Ok in H
  | H : parse_intents _ = Ok _ |- _ => apply parse_intents_read in H
  end.
  split; cbn; [done|done| |].
  - apply Forall_app; split; [|by apply Forall_app].
    match goal with H : parse_semantic_fact _ = Ok ?o |- _ => destruct o as [f|]; [|constructor];
      constructor; [by eapply parse_fact_read|constructor] end.
  - intros t ->. by eapply parse_timing_read.
Qed.

Lemma reading_roundtrip `{!FloatReprLaws} response i m t :
  parse_semantic_response response = Ok i →
  ∃ d, serialize_semantic_intent (attach_fact_provenance m t i) = JObj d ∧ parse_semantic_response d = Ok i.
Proof. intros E. by eapply parse_stored, parse_read. Qed.
End Stored.

(** *** Admitted responses *)

Section Admission.
Context `{FloatRepr}.

Lemma admits_fact_parses s raw :
  s = FACT_SCHEMA ∨ s = FACT_SCHEMA_NO_SUPERSEDES → admits s raw = true → ∃ f, parse_semantic_fact raw = Ok f.
Proof.
  intros Hs Ha.
  assert (∃ d v, raw = JObj d ∧ assoc "evidence" d = Some v ∧ admits (TNullable TString) v = true) as (d & v & -> & Hv & Hav).
  { destruct Hs as [-> | ->]; apply admits_object in Ha as (d & -> & Hd);
      destruct (Hd "evidence" (TNullable TString)) as (v & ? & ?); [cbn; tauto| |cbn; tauto|]; by exists d, v. }
  apply admits_nullable_string in Hav as [o ->]. unfold parse_semantic_fact. destruct (str_or_none _); [|by eexists].
  rewrite (typed_opt_stored "evidence" d o); [by eexists|]. by apply jget_assoc.
Qed.

Lemma admits_facts_parse s l :
  s = FACT_SCHEMA ∨ s = FACT_SCHEMA_NO_SUPERSEDES → (∀ x, In x l → admits s x = true) →
  ∃ fs, parse_facts l = Ok fs.
Proof.
  intros Hs. induction l as [|c l IH]; intros Hl; [by eexists|].
  destruct (admits_fact_parses s c Hs) as [f Hf]; [apply Hl; by left|].
  destruct IH as [fs Hfs]; [intros x Hx; apply Hl; by right|].
  cbn [parse_facts]. rewrite Hf. cbn [mbind result_bind]. rewrite Hfs. by eexists.
Qed.

Lemma admits_timing_parses raw : admits (TNullable TIMING_SCHEMA) raw = true → ∃ t, parse_timing_signal raw = Ok t.
Proof.
  destruct raw as [| | | | | |d|]; try (by eexists). intros Ha.
  apply (admits_object _ (JObj d)) in Ha as (? & [= <-] & Hd).
  unfold parse_timing_signal. destruct (str_or_none _); [|by eexists].
  destruct (Hd "normalized_target" (TNullable TString)) as (v & Hv & [o ->]%admits_nullable_string); [cbn; tauto|].
  destruct (Hd "commitment_strength" TString) as (w & Hw & [x ->]%admits_string); [cbn; tauto|].
  rewrite (typed_truthy_stored "normalized_target" d o) by (by apply jget_assoc). cbn [mbind result_bind].
  rewrite (typed_opt_stored "commitment_strength" d (Some x)) by (by apply jget_assoc). by eexists.
Qed.
(** The fields of an object admitted by a schema with these properties. *)
Section Fields.
Context (properties : list (string * schema)) (d : list (string * json)).
Context (Hd : ∀ k s, In (k, s) properties → ∃ v, assoc k d = Some v ∧ admits s v = true).

Lemma strings_field k : In (k, TArray TString) properties → ∃ l, typed_strings k d = Ok l.
Proof.
  intros (v & Hv & [l ->]%admits_strings)%Hd. exists l. apply typed_strings_stored. by apply jget_assoc.
Qed.
Lemma boolean_field k : In (k, TBoolean) properties → ∃ b, assoc k d = Some (JBool b) ∧ typed_bool k d = Ok b.
Proof. intros (v & Hv & [b ->]%admits_boolean)%Hd. exists b. split; [done|]. by apply typed_bool_stored. Qed.
Lemma nullable_field k : In (k, TNullable TString) properties → ∃ o, jget k d = jopt o.
Proof. intros (v & Hv & [o ->]%admits_nullable_string)%Hd. exists o. by apply jget_assoc. Qed.
Lemma facts_field k s :
  s = FACT_SCHEMA ∨ s = FACT_SCHEMA_NO_SUPERSEDES → In (k, TArray s) properties →
  ∃ l fs, items_of k d = Ok l ∧ parse_facts l = Ok fs.
Proof.
  intros Hs (v & Hv & (l & -> & Hl)%admits_array)%Hd. destruct (admits_facts_parse s l Hs Hl) as [fs Hfs].
  exists l, fs. split; [|done]. apply items_of_stored. by apply jget_assoc.
Qed.
Lemma number_field k :
  In (k, TNumber) properties →
  ∃ v, assoc k d = Some v ∧
    ((∃ q, typed_float k d = Ok q ∧ float_value v = Some q) ∨
     ∃ n, v = JInt n ∧ 2 ^ 1023 ≤ Z.abs n ∧ typed_float k d = Err (Raises overflow_error)).
Proof.
  intros (v & Hv & Ha)%Hd. exists v. split; [done|]. unfold typed_float. rewrite Hv.
  destruct v as [| |n|q| | | |]; try done; cbn [from_option id float_value]; [|left; by exists q].
  destruct (float_of_Z n) as [q|] eqn:E; [left; by exists q|right; exists n].
  split_and!; [done|by apply float_of_Z_None|done].
Qed.
End Fields.

Lemma existsb_hd {A} (p : A → bool) x l : p x = true → existsb p (x :: l) = true.
Proof. cbn. by intros ->. Qed.


Lemma admitted_parses j :
  admits CLASSIFIER_JSON_SCHEMA j = true →
  ∃ d, j = JObj d ∧ validate_response_shape j = Ok d ∧
    ((∃ n, assoc "confidence" d = Some (JInt n) ∧ 2 ^ 1023 ≤ Z.abs n ∧
        parse_semantic_response d = Err (Raises overflow_error)) ∨
     ∃ i names v, parse_semantic_response d = Ok i ∧ assoc "intents" d = Some (jstrs names) ∧
       si_intents i = match omap of_wire (map JStr names) with [] => [NEUTRAL] | l => l end ∧
       assoc "confidence" d = Some v ∧ float_value v = Some (si_confidence i) ∧
       assoc "requires_human_review" d = Some (JBool (si_requires_human_review i))).
Proof.
  intros (d & -> & Hd)%admits_object. exists d. split; [done|].
  destruct (Hd "intents" (TArray TString)) as (vi & Hi & [names ->]%admits_strings); [listed|].
  assert (parse_intents d = Ok match omap of_wire (map JStr names) with [] => [NEUTRAL] | l => l end) as Ep.
  { unfold parse_intents. by rewrite Hi. }
  split; [unfold validate_response_shape, required_keys; by rewrite existsb_hd by (by rewrite Hi)|].
  destruct (number_field _ d Hd "confidence") as (v & Hv & Hconf); [listed|].
  destruct (facts_field _ d Hd "competitors_mentioned" FACT_SCHEMA_NO_SUPERSEDES) as (lc & fc & Hlc & Hfc);
    [by right|listed|].
  destruct (facts_field _ d Hd "new_facts" FACT_SCHEMA) as (ln & fn & Hln & Hfn); [by left|listed|].
  destruct Hconf as [(q & Hq & Hn)|(n & -> & Hn & Hq)]; [right|left].
  2: { exists n. split_and!; [done|done|]. unfold parse_semantic_response. by rewrite Ep, Hlc, Hln, Hq. }
  destruct (Hd "current_solution" (TNullable FACT_SCHEMA)) as (vs & Hvs & Has); [listed|].
  destruct (Hd "timing" (TNullable TIMING_SCHEMA)) as (vt & Hvt & [tm Htm]%admits_timing_parses); [listed|].
  destruct (Hd "reasoning" TString) as (vr & Hvr & [why ->]%admits_string); [listed|].
  destruct (nullable_field _ d Hd "user_goal") as [goal Hgoal]; [listed|].
  destruct (nullable_field _ d Hd "human_review_reason") as [reason Hreason]; [listed|].
  destruct (boolean_field _ d Hd "requires_human_review") as (rv & Hrv & Erv); [listed|].
  assert (∃ f, parse_semantic_fact vs = Ok f) as [fs Hfs].
  { destruct vs; try (by eexists). apply (admits_fact_parses FACT_SCHEMA); [by left|done]. }
  destruct (strings_field _ d Hd "pain_points") as [? E_pain_points]; [listed|].
  destruct (strings_field _ d Hd "objections_raised") as [? E_objections_raised]; [listed|].
  destruct (strings_field _ d Hd "constraints") as [? E_constraints]; [listed|].
  destruct (strings_field _ d Hd "requested_information") as [? E_requested_information]; [listed|].
  destruct (strings_field _ d Hd "questions_asked") as [? E_questions_asked]; [listed|].
  destruct (strings_field _ d Hd "commitments_made") as [? E_commitments_made]; [listed|].
  destruct (strings_field _ d Hd "contradicted_facts") as [? E_contradicted_facts]; [listed|].
  destruct (strings_field _ d Hd "unresolved_items") as [? E_unresolved_items]; [listed|].
  destruct (strings_field _ d Hd "uncertain_aspects") as [? E_uncertain_aspects]; [listed|].
  destruct (boolean_field _ d Hd "has_pricing_question") as (? & _ & E_has_pricing_question); [listed|].
  destruct (boolean_field _ d Hd "has_budget_signal") as (? & _ & E_has_budget_signal); [listed|].
  destruct (boolean_field _ d Hd "has_decision_maker_signal") as (? & _ & E_has_decision_maker_signal); [listed|].
  destruct (boolean_field _ d Hd "has_commitment_signal") as (? & _ & E_has_commitment_signal); [listed|].
  destruct (boolean_field _ d Hd "procurement_signal") as (? & _ & E_procurement_signal); [listed|].
  eexists _, names, v. split_and!; [|done| |done| |].
  { unfold parse_semantic_response. rewrite Ep, Hlc, Hln, Hq. cbn [mbind result_bind].
    rewrite Hfc, Hfn, (jget_assoc _ _ _ Hvs), (jget_assoc _ _ _ Hvt), Hfs, Htm.
    rewrite (typed_truthy_stored _ _ _ Hgoal), (typed_opt_stored _ _ _ Hreason), (typed_text_stored _ _ _ Hvr), Erv.
    rewrite E_pain_points, E_objections_raised, E_constraints, E_requested_information, E_questions_asked, E_commitments_made, E_contradicted_facts, E_unresolved_items, E_uncertain_aspects, E_has_pricing_question, E_has_budget_signal, E_has_decision_maker_signal, E_has_commitment_signal, E_procurement_signal.
    cbn [mbind result_bind mret result_ret]. reflexivity. }
  all: cbn; done.
Qed.

(** Every answer the response schema admits is understood.  An object that
    conforms to the strict classification schema passes the shape check, and
    the parser neither raises nor meets a value of another type: it yields an
    interpretation whose intents are those the answer names, unknown names
    dropped (NEUTRAL if none is left), and whose confidence and request for a
    review are the ones given.  The only exception is a confidence that is an
    integer beyond the largest float, for which the parser raises OverflowError. *)
Theorem admitted_response_is_read j :
  admits CLASSIFIER_JSON_SCHEMA j = true →
  ∃ d, j = JObj d ∧ validate_response_shape j = Ok d ∧
    ((∃ n, assoc "confidence" d = Some (JInt n) ∧ 2 ^ 1023 ≤ Z.abs n ∧
        parse_semantic_response d = Err (Raises overflow_error)) ∨
     ∃ i names v, parse_semantic_response d = Ok i ∧ assoc "intents" d = Some (jstrs names) ∧
       si_intents i = match omap of_wire (map JStr names) with [] => [NEUTRAL] | l => l end ∧
       assoc "confidence" d = Some v ∧ float_value v = Some (si_confidence i) ∧
       assoc "requires_human_review" d = Some (JBool (si_requires_human_review i))).
Proof. apply admitted_parses. Qed.

(** C39: what is stored of a typed reading can be read again.  Take an answer
    whose values have the declared types wherever the parser hands them on
    unchecked, and whose confidence is a finite number; every answer of the
    response schema is one, unless its confidence is an integer beyond the
    largest float, for which the parser raises.  The dict that is stored with
    the inbound message, stamped with any message and time, parses to exactly
    the interpretation the parser made, in every field.  (An answer of another
    shape is outside this claim: the program carries a list, a number or a NaN
    along where a text or a finite number is declared, [Untyped] here, and
    such a value need not survive the JSON column.) *)
Theorem stored_reading_roundtrip `{!FloatReprLaws} response m t :
  (∀ i, parse_semantic_response response = Ok i →
     ∃ d, serialize_semantic_intent (attach_fact_provenance m t i) = JObj d ∧ parse_semantic_response d = Ok i) ∧
  (admits CLASSIFIER_JSON_SCHEMA (JObj response) = true →
     (∃ i, parse_semantic_response response = Ok i) ∨
     (∃ n, assoc "confidence" response = Some (JInt n) ∧ 2 ^ 1023 ≤ Z.abs n ∧
        parse_semantic_response response = Err (Raises overflow_error))).
Proof.
  split; [intros i; apply reading_roundtrip|].
  intros (d & [= <-] & _ & [?|(i & _ & _ & Hi & _)])%admitted_parses; [by right|left; by exists i].
Qed.
End Admission.

(** ** Classification by a model *)

Section Model.
Context `{FloatRepr} `{LlmProvider} `{Unspecified (result provider_exn Reading)}.

Lemma shape_refused response :
  (∀ d, response = JObj d → ∀ k, k ∈ required_keys → assoc k d = None) →
  ∃ m, validate_response_shape response = Err m.
Proof.
  intros Hk. destruct response as [| | | | | |d|]; try by eexists. unfold validate_response_shape.
  destruct (existsb _ required_keys) eqn:E; [|by eexists].
  apply existsb_exists in E as (k & Hin%list_elem_of_In & E). by rewrite (Hk d eq_refl k Hin) in E.
Qed.

(** A classification says what the model said, or that it failed.  When
    neither rule applies and the model is available: a provider error becomes
    a failure with the reason of that error; an answer that is no object, or
    has none of the four required keys, becomes a VALIDATION_ERROR, never a
    neutral reading; an answer the parser chokes on is an UNKNOWN_ERROR; and
    an answer of the response schema becomes the interpretation the parser
    makes of it, attributed to the model, mode and number of attempts that in
    fact produced it. *)
Theorem classification_follows_model campaign contact body context q :
  check_unsubscribe_keywords body = None → is_llm_available = true →
  q = mkLlmRequest "classifier" (build_classification_prompt body context contact) (Some (3 # 10)) (Some 900) →
  let r := classify_prospect_reply (Classifier := semantic_classifier) campaign contact body context false in
  (∀ c m, provider_call_json q = Err (ProviderError c m) → r = from_failure (provider_reason c) m "llm") ∧
  (∀ a, provider_call_json q = Ok a →
     (∀ d, lj_data a = JObj d → ∀ k, k ∈ required_keys → assoc k d = None) →
     ∃ m, r = from_failure VALIDATION_ERROR m "llm") ∧
  (∀ a d e, provider_call_json q = Ok a → lj_data a = JObj d → validate_response_shape (JObj d) = Ok d →
     parse_semantic_response d = Err (Raises e) → r = from_failure UNKNOWN_ERROR (exn_str e) "classifier") ∧
  (∀ a, provider_call_json q = Ok a → admits CLASSIFIER_JSON_SCHEMA (lj_data a) = true →
     (∃ d n, lj_data a = JObj d ∧ assoc "confidence" d = Some (JInt n) ∧ 2 ^ 1023 ≤ Z.abs n ∧
        r = from_failure UNKNOWN_ERROR (exn_str overflow_error) "classifier") ∨
     ∃ d i, lj_data a = JObj d ∧ parse_semantic_response d = Ok i ∧
       r = from_semantic_intent i "llm" (Some (lj_model_used a)) (Some PROMPT_VERSION)
             (Some (lj_used_fallback a)) (Some (lj_response_mode a)) (Some (lj_attempts a))).
Proof.
  intros Hn Hav -> r.
  set (q := mkLlmRequest _ _ _ _).
  assert (r = match semantic_reading (SemanticReader := provider_reader) q with
              | Ok x => from_semantic_intent (rd_intent x) "llm" (rd_model_used x) (Some PROMPT_VERSION)
                          (rd_used_fallback x) (rd_response_mode x) (rd_attempts x)
              | Err (ProviderError c m) => from_failure (provider_reason c) m "llm"
              | Err (ProviderOther e) => from_failure UNKNOWN_ERROR (exn_str e) "classifier"
              end) as ->.
  { unfold r, classify_prospect_reply, semantic_classifier. by rewrite Hn, Hav. }
  unfold semantic_reading, provider_reader. split_and!.
  - intros c m ->. done.
  - intros a -> Hk. apply shape_refused in Hk as [m Hm]. exists m. cbn [mbind result_bind]. by rewrite Hm.
  - intros a d e -> Hd Hv He. cbn [mbind result_bind]. by rewrite Hd, Hv, He.
  - intros a -> Ha. destruct (admitted_parses _ Ha) as (d & Hd & Hv & [(n & Hc & Hn' & Hr)|(i & _ & _ & Hi & _)]).
    + left. exists d, n. split_and!; try done. cbn [mbind result_bind]. rewrite Hd in *. by rewrite Hv, Hr.
    + right. exists d, i. split_and!; [done|done|]. cbn [mbind result_bind]. rewrite Hd in *. by rewrite Hv, Hi.
Qed.
End Model.

(** *** Witnesses *)

Definition ratio_floats : FloatRepr := λ q, pretty (Qnum q) +:+ "/" +:+ pretty (Zpos (Qden q)).
#[global] Instance ratio_floats_laws : FloatReprLaws (H := ratio_floats).
Proof. intros q. unfold float_repr, ratio_floats. pose proof (pretty_Z_nonempty (Qnum q)). by destruct (pretty (Qnum q)). Qed.

(** An answer of the response schema, with an intent nobody knows. *)
Definition sample_response : list (string * json) :=
  [("intents", jstrs ["pricing_request"; "astonishment"]); ("speech_act", JStr "question");
   ("sentiment", JStr "positive"); ("buying_stage", JStr "considering"); ("user_goal", JStr "learn the price");
   ("pain_points", jstrs []); ("objections_raised", jstrs []); ("constraints", jstrs ["budget is set in Q3"]);
   ("urgency", JStr "near_term"); ("has_pricing_question", JBool true); ("has_budget_signal", JBool true);
   ("has_decision_maker_signal", JBool false); ("has_commitment_signal", JBool false);
   ("procurement_signal", JBool false); ("requested_information", jstrs ["price list"]);
   ("questions_asked", jstrs []); ("commitments_made", jstrs []);
   ("current_solution", JObj [("value", JStr "Acme CRM"); ("certainty", JStr "explicit"); ("evidence", JNull);
                              ("supersedes", JNull)]);
   ("competitors_mentioned", JList []); ("new_facts", JList []); ("contradicted_facts", jstrs []);
   ("unresolved_items", jstrs []); ("timing", JNull); ("confidence", JFloat (9 # 10)); ("uncertain_aspects", jstrs []);
   ("reasoning", JStr "Asks for the price."); ("requires_human_review", JBool false); ("human_review_reason", JNull)].

Example sample_response_admitted : admits CLASSIFIER_JSON_SCHEMA (JObj sample_response) = true.
Proof. vm_compute. reflexivity. Qed.

Definition answering (data : json) : LlmProvider := {|
  is_llm_available := true;
  provider_call_json := λ _, Ok (mkJsonResult data "backup" "main" 2 true "json_object");
  provider_call_text := λ _, Ok "They asked for the price."
|}.
Definition no_reading : Unspecified (result provider_exn Reading) :=
  λ _, Err (ProviderOther (mkExn (C_Other "TypeError") "untyped")).

Lemma stored_reading_roundtrip_witness :
  ∃ i d, parse_semantic_response (H:=ratio_floats) sample_response = Ok i ∧
    si_intents i = [PRICING_REQUEST] ∧
    serialize_semantic_intent (attach_fact_provenance 7 "2026-01-01" i) = JObj d ∧
    parse_semantic_response (H:=ratio_floats) d = Ok i.
Proof.
  destruct (parse_semantic_response (H:=ratio_floats) sample_response) as [i|e] eqn:E; [|vm_compute in E; discriminate E].
  destruct (proj1 (stored_reading_roundtrip (H:=ratio_floats) (H0:=ratio_floats_laws) sample_response 7 "2026-01-01") i E)
    as (d & Hd & Hp).
  exists i, d. split; [reflexivity|]. split; [vm_compute in E; injection E as <-; reflexivity|]. split; [exact Hd|exact Hp].
Defined.

Lemma admitted_response_is_read_witness :
  ∃ d i, JObj sample_response = JObj d ∧ parse_semantic_response (H:=ratio_floats) d = Ok i ∧
    si_intents i = [PRICING_REQUEST].
Proof.
  destruct (admitted_response_is_read (H:=ratio_floats) (JObj sample_response) eq_refl)
    as (d & Hd & _ & [(n & Hc & _)|(i & names & v & Hi & Hn & Hl & _)]); injection Hd as <-; [discriminate Hc|].
  exists sample_response, i. split; [reflexivity|]. split; [exact Hi|].
  rewrite Hl. injection Hn as Hn. destruct names as [|a [|b [|]]]; try discriminate Hn. injection Hn as <- <-. reflexivity.
Defined.

Lemma classification_follows_model_witness :
  ∃ m, classify_prospect_reply
         (Classifier := semantic_classifier (H:=answering (JObj [("answer", JStr "42")]))
            (H0:=provider_reader (H:=ratio_floats) (H0:=answering (JObj [("answer", JStr "42")])) (H1:=no_reading)))
         native_campaign native_contact "How much is it?" "" false
       = from_failure VALIDATION_ERROR m "llm".
Proof.
  apply (classification_follows_model (H:=ratio_floats) (H0:=answering (JObj [("answer", JStr "42")])) (H1:=no_reading)
    native_campaign native_contact "How much is it?" "" _ eq_refl eq_refl eq_refl)
    with (a := mkJsonResult (JObj [("answer", JStr "42")]) "backup" "main" 2 true "json_object"); [reflexivity|].
  intros d Hd k Hk. injection Hd as <-. revert k Hk. apply Forall_forall. repeat constructor.
Defined.
