(* ===== verification/Scheduling.v ===== *)
(** * Conversation-aware follow-up scheduling
    ([src/mailer_agent/followup/conversation_aware.py])

    [FollowUpScheduler]: when the next follow-up of a contact is due and
    whether it may go out now.  The three times the decisions read are the
    Python attributes of the contact ([Times]); a contact that was loaded from
    the database carries naive ones ([loaded]), because the columns are
    [DateTime] without a time zone. *)

From S2P Require Import Prelude Sql Models Samples SemanticModels StateMachine Guardrails Sender.

#[local] Open Scope bool_scope.

Definition raises {A} (cls message : string) : result exn A := Err (mkExn (C_Other cls) message).

(** ** Dates *)

Definition day_us : Z := 86400 * 1000000.

(** The range of [datetime]: years 1 to 9999. *)
Definition MIN_INSTANT : Z := -62135596800 * 1000000.
Definition MAX_INSTANT : Z := 253402300800 * 1000000 - 1.

(** [utcnow() + timedelta(days=days)]. *)
Definition add_days (utcnow days : Z) : result exn datetime :=
  if 999999999 <? Z.abs days
  then raises "OverflowError" ("days=" +:+ pretty days +:+ "; must have magnitude <= 999999999")
  else
    let t := utcnow + days * day_us in
    if (t <? MIN_INSTANT) || (MAX_INSTANT <? t)
    then raises "OverflowError" "date value out of range" else Ok (Aware t 0).

(** [a > b]. *)
Definition py_gt (a b : datetime) : result exn bool :=
  match datetime_gt a b with
  | Some r => Ok r
  | None => raises "TypeError" "can't compare offset-naive and offset-aware datetimes"
  end.

(** [a - b], in microseconds. *)
Definition py_sub (a b : datetime) : result exn Z :=
  match a, b with
  | Naive x, Naive y | Aware x _, Aware y _ => Ok (x - y)
  | _, _ => raises "TypeError" "can't subtract offset-naive and offset-aware datetimes"
  end.

(** [timedelta.days] and [timedelta.seconds]. *)
Definition delta_days (d : Z) : Z := d / day_us.
Definition delta_seconds (d : Z) : Z := (d mod day_us) / 1000000.

(** [l[i]]: a negative index counts from the end. *)
Definition py_index {A} (l : list A) (i : Z) : result exn A :=
  let j := if i <? 0 then i + Z.of_nat (length l) else i in
  match (if j <? 0 then None else nth_error l (Z.to_nat j)) with
  | Some x => Ok x
  | None => raises "IndexError" "list index out of range"
  end.

(** ** Times of a contact *)

Record Times := mkTimes {
  next_action_at : option datetime;
  last_reply_at : option datetime;
  last_outbound_at : option datetime
}.

Definition loaded (c : Contact) : Times :=
  mkTimes (Naive <$> ct_next_action_at c) (Naive <$> ct_last_reply_at c) (Naive <$> ct_last_outbound_at c).

(** Storing a datetime in a [DateTime] column keeps its UTC value. *)
Definition column_of (t : option datetime) : option Z :=
  match t with None => None | Some (Naive x) => Some x | Some (Aware x _) => Some x end.

(** ** The scheduler *)

(** [datetime.fromisoformat]; [None] is its [ValueError]. *)
Class FromIsoformat := fromisoformat : string → option datetime.

Section Scheduler.
Context `{FromIsoformat}.

Definition extract_requested_timing (intent : SemanticIntent) : option datetime :=
  match si_timing intent with
  | None => None
  | Some timing =>
      if tm_requires_clarification timing || negb (truthy (tm_normalized_target timing)) then None
      else match fromisoformat (default "" (tm_normalized_target timing)) with
           | None => None
           | Some (Naive t) => Some (Aware t 0)
           | Some d => Some d
           end
  end.

Definition compute_next_followup (contact : Contact) (campaign : Campaign) (intent : option SemanticIntent)
    (utcnow : Z) : result exn (option datetime) :=
  if should_cancel_scheduled_followup contact then Ok None
  else if Z.of_nat (length (cp_follow_up_days campaign)) <=? ct_follow_up_index contact then Ok None
  else match (match intent with Some i => extract_requested_timing i | None => None end) with
       | Some t => Ok (Some t)
       | None =>
           days ← py_index (cp_follow_up_days campaign) (ct_follow_up_index contact);
           t ← add_days utcnow days;
           mret (Some t)
       end.

Definition should_send_followup_now (status : ContactStatus) (times : Times) (utcnow : Z)
    : result exn (bool * string) :=
  if status != CS_ACTIVE
  then Ok (false, "Status is " +:+ ContactStatus_value status +:+ ", not ACTIVE")
  else match next_action_at times with
       | None => Ok (false, "No next_action_at scheduled")
       | Some t =>
           late ← py_gt t (Aware utcnow 0);
           if late : bool then
             d ← py_sub t (Aware utcnow 0);
             mret (false, "Not due yet (wait " +:+ pretty (round_half_even d 1000000) +:+ "s)")
           else
             match last_reply_at times with
             | None => mret (true, "Due and eligible")
             | Some r =>
                 since ← py_sub (Aware utcnow 0) r;
                 if delta_days since <? 1
                 then mret (false, "Prospect replied " +:+ pretty (delta_seconds since / 3600)
                                   +:+ "h ago - conversation active")
                 else mret (true, "Due and eligible")
             end
       end.

Definition list_max (l : list Z) : Z := fold_left Z.max l (hd 0 l).

Definition reschedule_after_reply (campaign : Campaign) (intent : SemanticIntent) (utcnow : Z)
    : result exn (option datetime) :=
  let has i := in_list i (si_intents intent) in
  match (if has TIMING_CONSTRAINT then extract_requested_timing intent else None) with
  | Some t => Ok (Some t)
  | None =>
      if match si_urgency intent with UL_LONG_TERM => true | _ => false end then
        t ← add_days utcnow (match cp_follow_up_days campaign with
                             | [] => 30
                             | days => list_max days * 2
                             end);
        mret (Some t)
      else if has POSITIVE_INTEREST || has MEETING_REQUEST || has PRICING_REQUEST then Ok None
      else
        t ← add_days utcnow (match cp_follow_up_days campaign with [] => 7 | d :: _ => d end);
        mret (Some t)
  end.

Record FollowupHints := mkHints {
  fh_follow_up_number : Z;
  fh_has_previous_reply : bool;
  fh_buying_stage : option string;
  fh_engagement_score : Q;
  fh_days_since_last_outbound : option Z;
  fh_long_gap : bool;
  fh_days_since_last_reply : option Z
}.

(** [(utcnow() - t).days] of an optional time. *)
Definition days_since (t : option datetime) (utcnow : Z) : result exn (option Z) :=
  match t with
  | None => Ok None
  | Some x => d ← py_sub (Aware utcnow 0) x; mret (Some (delta_days d))
  end.

Definition get_followup_message_hint (contact : Contact) (times : Times) (utcnow : Z)
    : result exn FollowupHints :=
  out ← days_since (last_outbound_at times) utcnow;
  rep ← days_since (last_reply_at times) utcnow;
  mret (mkHints (ct_follow_up_index contact + 1) (is_not_none (last_reply_at times)) (ct_buying_stage contact)
          (ct_engagement_score contact) out
          (match out with Some d => 14 <? d | None => false end) rep).
End Scheduler.

(** ** Facts *)

Lemma add_days_Ok u d t : add_days u d = Ok t → t = Aware (u + d * day_us) 0.
Proof. unfold add_days, raises. repeat case_match; naive_solver. Qed.

Lemma py_index_In {A} (l : list A) i x : py_index l i = Ok x → In x l.
Proof.
  unfold py_index, raises. destruct (if _ <? _ then None else _) as [y|] eqn:E; [|done].
  intros [= ->]. destruct (_ <? 0) in E; [done|]. by eapply nth_error_In.
Qed.

(** A decision to send means ACTIVE, due, and no reply within a day. *)
Lemma should_send_true status times u reason :
  should_send_followup_now status times u = Ok (true, reason) →
  status = CS_ACTIVE ∧ (∃ t off, next_action_at times = Some (Aware t off) ∧ t ≤ u) ∧
  (∀ r, last_reply_at times = Some r → ∃ t off, r = Aware t off ∧ day_us ≤ u - t).
Proof.
  unfold should_send_followup_now. destruct (bool_decide (status = CS_ACTIVE)) eqn:E; bools; [|done].
  cbn [negb]. destruct (next_action_at times) as [[x|x off]|]; cbn; [done| |done].
  destruct (u <? x) eqn:Ex; bools; [done|].
  intros Hr. split_and!; [done|by exists x, off|]. intros r Hl. rewrite Hl in Hr.
  destruct r as [y|y off']; [done|]. cbn in Hr. exists y, off'. split; [done|].
  destruct (delta_days (u - y) <? 1) eqn:Ed; [done|]. bools. unfold delta_days in Ed.
  assert (1 * day_us ≤ u - y); [|lia]. unfold day_us in *.
  pose proof (Z.mul_div_le (u - y) (86400 * 1000000)). lia.
Qed.

Lemma list_max_In l x : In x l → x ≤ list_max l.
Proof.
  assert (∀ l a, a ≤ fold_left Z.max l a ∧ ∀ x, In x l → x ≤ fold_left Z.max l a) as Hf.
  { clear. induction l as [|y l IH]; intros a; cbn; [naive_solver lia|].
    destruct (IH (Z.max a y)) as [H1 H2]. split; [lia|]. intros x [->|Hx]; [lia|auto]. }
  intros Hx. by apply Hf.
Qed.

(** A contact as loaded: the first comparison raises. *)
Lemma loaded_check_raises c u :
  ct_status c = CS_ACTIVE → is_Some (ct_next_action_at c) →
  should_send_followup_now (ct_status c) (loaded c) u
  = raises "TypeError" "can't compare offset-naive and offset-aware datetimes".
Proof.
  intros Hs [t Ht]. unfold should_send_followup_now, loaded. cbn. by rewrite Hs, Ht.
Qed.

(** ** Theorems *)

(** The check that precedes every follow-up answers at all only for times that
    carry a zone, and then it is exact: it allows a send precisely for an
    ACTIVE contact whose scheduled time has come and whose last reply, if any,
    is at least a day old.  For an ACTIVE contact with a scheduled time that
    was loaded from the database it always raises. *)
Theorem followup_decision_exact status times u c :
  (∀ t o, next_action_at times = Some (Aware t o) →
     (∀ r, last_reply_at times = Some r → ∃ x y, r = Aware x y) →
     ∃ b reason, should_send_followup_now status times u = Ok (b, reason) ∧
       (b = true ↔ status = CS_ACTIVE ∧ t ≤ u ∧
                   ∀ x y, last_reply_at times = Some (Aware x y) → day_us ≤ u - x)) ∧
  (ct_status c = CS_ACTIVE → is_Some (ct_next_action_at c) →
     should_send_followup_now (ct_status c) (loaded c) u
     = raises "TypeError" "can't compare offset-naive and offset-aware datetimes").
Proof.
  split.
  - intros t o Hn Hrep. destruct (should_send_followup_now status times u) as [[b reason]|e] eqn:E.
    + exists b, reason. split; [done|]. split.
      * intros ->. apply should_send_true in E as (? & (t' & o' & ? & ?) & Hr). split_and!; [done|congruence|].
        intros x y Hx. destruct (Hr _ Hx) as (? & ? & [= -> ->] & ?). done.
      * intros (-> & Ht & Hr). revert E. unfold should_send_followup_now. rewrite Hn. cbn.
        rewrite (proj2 (Z.ltb_ge u t)) by done.
        destruct (last_reply_at times) as [r|]; [|by intros [= <- _]].
        destruct (Hrep _ eq_refl) as (x & y & ->). cbn.
        rewrite (proj2 (Z.ltb_ge _ 1)); [by intros [= <- _]|].
        unfold delta_days. specialize (Hr _ _ eq_refl). apply Z.div_le_lower_bound; unfold day_us in *; lia.
    + exfalso. revert E. unfold should_send_followup_now. rewrite Hn. destruct (status != CS_ACTIVE); [done|].
      cbn. destruct (u <? t); [done|]. destruct (last_reply_at times) as [r|]; [|done].
      destruct (Hrep r eq_refl) as (x & y & ->). cbn. by destruct (_ <? 1).
  - apply loaded_check_raises.
Qed.

(** After a reply the follow-up is rescheduled in one of four ways.  A date the
    prospect asked for is taken as the model resolved it, and only when the
    reply is a timing constraint; otherwise a long-term prospect waits at
    least twice every step of the cadence, an engaged one gets no automatic
    follow-up, and any other reply resumes after the first step. *)
Theorem reschedule_respects_reply `{FromIsoformat} campaign intent u r :
  reschedule_after_reply campaign intent u = Ok r →
  (∃ t, r = Some t ∧ TIMING_CONSTRAINT ∈ si_intents intent ∧ extract_requested_timing intent = Some t) ∨
  (si_urgency intent = UL_LONG_TERM ∧ ∃ n, r = Some (Aware (u + n * day_us) 0) ∧
     ∀ d, d ∈ cp_follow_up_days campaign → 2 * d ≤ n) ∨
  (r = None ∧ (POSITIVE_INTEREST ∈ si_intents intent ∨ MEETING_REQUEST ∈ si_intents intent
               ∨ PRICING_REQUEST ∈ si_intents intent)) ∨
  (r = Some (Aware (u + default 7 (head (cp_follow_up_days campaign)) * day_us) 0)).
Proof.
  unfold reschedule_after_reply.
  destruct (if in_list TIMING_CONSTRAINT _ then _ else _) as [t|] eqn:Et.
  { intros [= <-]. left. unfold in_list in Et. case_bool_decide; [|done]. by exists t. }
  intros Hr. right. destruct (si_urgency intent) eqn:Eu.
  1,2,4: destruct (in_list POSITIVE_INTEREST _ || _ || _) eqn:Ei;
    [ injection Hr as <-; right; left; split; [done|];
      unfold in_list in Ei; rewrite !orb_true_iff, !bool_decide_eq_true in Ei; tauto
    | inv_result; match goal with E : add_days _ _ = Ok _ |- _ => apply add_days_Ok in E as -> end;
      right; right; by destruct (cp_follow_up_days campaign) ].
  left. split; [done|]. inv_result.
  match goal with E : add_days _ _ = Ok _ |- _ => apply add_days_Ok in E as -> end.
  eexists; split; [done|]. intros d Hd%list_elem_of_In. destruct (cp_follow_up_days campaign) as [|x l]; [done|].
  pose proof (list_max_In _ _ Hd). lia.
Qed.

(** *** Witnesses *)

Definition sample_iso : FromIsoformat := λ s, if s == "2030-01-01" then Some (Naive 1893456000000000) else None.
Definition later_reply : SemanticIntent :=
  mkIntent [TIMING_CONSTRAINT] None ST_NEUTRAL BS_UNAWARE None [] [] [] UL_LONG_TERM false false false false
    false [] [] [] None [] [] [] []
    (Some (mkTiming "new year" None (Some "2030-01-01") CT_EXPLICIT None false)) (9 # 10) [] "" false None.

Lemma followup_decision_exact_witness :
  should_send_followup_now (ct_status native_contact) (loaded native_contact) 20
  = raises "TypeError" "can't compare offset-naive and offset-aware datetimes" ∧
  ∃ reason, should_send_followup_now CS_ACTIVE (mkTimes (Some (Aware 10 0)) None None) 20 = Ok (true, reason).
Proof.
  split.
  - apply (proj2 (followup_decision_exact CS_ACTIVE (loaded native_contact) 20 native_contact)); [reflexivity|].
    by eexists.
  - destruct (proj1 (followup_decision_exact CS_ACTIVE (mkTimes (Some (Aware 10 0)) None None) 20 native_contact)
      10 0 eq_refl) as (b & reason & Hs & Hb); [intros r [=]|].
    exists reason. rewrite Hs. do 2 f_equal. apply Hb. split_and!; [reflexivity|lia|intros x y [=]].
Defined.

Lemma reschedule_respects_reply_witness :
  reschedule_after_reply (H:=sample_iso) native_campaign later_reply 0
  = Ok (Some (Aware 1893456000000000 0)).
Proof.
  assert (reschedule_after_reply (H:=sample_iso) native_campaign later_reply 0
          = Ok (Some (Aware 1893456000000000 0))) as E by reflexivity.
  destruct (reschedule_respects_reply (H:=sample_iso) native_campaign later_reply 0 _ E); exact E.
Defined.
