(* ===== verification/BusinessHours.v ===== *)
(** * Business hours ([src/mailer_agent/utils/datetime_utils.py])

    Aware datetimes, the local time of a campaign, and the next moment at which
    a prospect may be mailed.  A wall-clock value is a number of microseconds
    like an instant, counted from the local midnight of 1970-01-01.  The time
    zone database is the interface [ZoneDb]: a zone shows the wall clock of an
    instant, with the [fold] that tells a repeated hour's second pass, and gives
    the offset of a wall-clock value. *)

From Stdlib Require Import ZifyBool.
From S2P Require Import Prelude Sql Models Config Samples SemanticModels StateMachine Sender Scheduling.

#[local] Open Scope bool_scope.

(** ** Time zones *)

Record TzInfo := mkTzInfo { tz_local : Z → Z * bool; tz_offset : Z → bool → Z }.
Definition UTC : TzInfo := mkTzInfo (λ t, (t, false)) (λ _ _, 0).

(** [ZoneInfo(key)]: a zone, an unknown key ([ZoneInfoNotFoundError] or
    [KeyError]), or another exception, e.g. of a key that is not a path. *)
Inductive zone_error := UnknownZone | ZoneRaised (e : exn).
Class ZoneDb := zone_info : string → result zone_error TzInfo.

(** What the clock of a zone shows. *)
Definition wall (tz : TzInfo) (t : Z) : Z := fst (tz_local tz t).
(** Documented of [utcoffset]: it is less than a day; and the clock does show
    the hour [h], on every day, at the instant its offset gives: no change of
    the clock skips it. *)
Record sane_zone (tz : TzInfo) (h : Z) : Prop := {
  offset_small : ∀ w fold, Z.abs (tz_offset tz w fold) < day_us;
  hour_shown : ∀ w fold, w mod day_us = h * 3600000000 → wall tz (w - tz_offset tz w fold) = w
}.

(** ** Datetimes *)

Definition as_utc (dt : option datetime) : option datetime :=
  match dt with
  | None => None
  | Some (Aware t _) => Some (Aware t 0)
  | Some (Naive t) => Some (Aware t 0)
  end.

Definition hour_us : Z := 3600 * 1000000.
(** [dt.weekday()]: Monday is 0, and day 0 was a Thursday; [dt.hour]. *)
Definition weekday (w : Z) : Z := (w / day_us + 3) mod 7.
Definition hour (w : Z) : Z := (w mod day_us) / hour_us.

(** A local time: what the clock shows, and in which zone. *)
Record LocalTime := mkLocal { lt_wall : Z; lt_fold : bool; lt_zone : TzInfo }.

Section Hours.
Context `{ZoneDb}.

(** The zone of a campaign: UTC when the key is unknown. *)
Definition campaign_zone (timezone_str : string) : result exn TzInfo :=
  match zone_info timezone_str with
  | Ok tz => Ok tz
  | Err UnknownZone => Ok UTC
  | Err (ZoneRaised e) => Err e
  end.
Definition campaign_local_now (timezone_str : string) (now : Z) : result exn LocalTime :=
  tz ← campaign_zone timezone_str;
  let '(w, fold) := tz_local tz now in mret (mkLocal w fold tz).

(** The datetime is given by what its clock shows; taking a naive one as UTC
    leaves that as it is. *)
Definition is_business_hours (w start_hour end_hour : Z) (exclude_weekends : bool) : bool :=
  if exclude_weekends && (5 <=? weekday w) then false
  else (start_hour <=? hour w) && (hour w <? end_hour).
Definition business_hours (w : Z) : bool := is_business_hours w 8 18 true.

Definition in_range (w : Z) : bool := (MIN_INSTANT <=? w) && (w <=? MAX_INSTANT).
(** [dt + timedelta(days=1)]: the fold is reset. *)
Definition next_day (l : LocalTime) : result exn LocalTime :=
  let w := lt_wall l + day_us in
  if in_range w then Ok (mkLocal w false (lt_zone l)) else raises "OverflowError" "date value out of range".

(** [dt.replace(hour=h, minute=0, second=0, microsecond=0)]: the fold stays. *)
Definition at_hour (h : Z) (l : LocalTime) : result exn LocalTime :=
  if (0 <=? h) && (h <=? 23) then Ok (mkLocal (lt_wall l / day_us * day_us + h * hour_us) (lt_fold l) (lt_zone l))
  else raises "ValueError" "hour must be in 0..23".

(** [while candidate.weekday() >= 5] *)
Fixpoint skip_weekend (fuel : nat) (l : LocalTime) : result exn LocalTime :=
  if weekday (lt_wall l) <? 5 then Ok l
  else match fuel with
       | O => raises "RuntimeError" "out of fuel"
       | S fuel => next ← next_day l; skip_weekend fuel next
       end.

(** [dt.astimezone(UTC)] *)
Definition to_utc (l : LocalTime) : result exn Z :=
  let t := lt_wall l - tz_offset (lt_zone l) (lt_wall l) (lt_fold l) in
  if in_range t then Ok t else raises "OverflowError" "date value out of range".

(** The clock is read twice: [now] for the local time, [now'] for the answer
    inside business hours. *)
Definition next_business_hour_utc (campaign_timezone : string) (start_hour now now' : Z) : result exn Z :=
  local_now ← campaign_local_now campaign_timezone now;
  if business_hours (lt_wall local_now) then Ok now'
  else
    candidate ← at_hour start_hour local_now;
    candidate ← (if lt_wall candidate <=? lt_wall local_now then next_day candidate else Ok candidate);
    candidate ← skip_weekend 2 candidate;
    to_utc candidate.
End Hours.

(** ** Facts *)

(** Division by the length of a day and of a week is linear. *)
Ltac Zify.zify_post_hook ::= Z.to_euclidean_division_equations.
Lemma business_hours_iff w : business_hours w = true ↔ weekday w < 5 ∧ 8 ≤ hour w < 18.
Proof. unfold business_hours, is_business_hours. cbn [andb]. destruct (5 <=? weekday w) eqn:E; lia. Qed.

Ltac hours := unfold in_range, weekday, hour, day_us, hour_us, MIN_INSTANT, MAX_INSTANT in *; lia.

Section Facts.
Context `{ZoneDb}.

Lemma next_day_Ok l : in_range (lt_wall l) = true → lt_wall l + day_us ≤ MAX_INSTANT →
  next_day l = Ok (mkLocal (lt_wall l + day_us) false (lt_zone l)).
Proof. intros Hr Hm. unfold next_day. by replace (in_range _) with true by hours. Qed.

(** At most two days are skipped, and only days of a weekend. *)
Lemma skip_weekend_spec l : in_range (lt_wall l) = true → lt_wall l + 2 * day_us ≤ MAX_INSTANT →
  ∃ k fold, 0 ≤ k ≤ 2 ∧ skip_weekend 2 l = Ok (mkLocal (lt_wall l + k * day_us) fold (lt_zone l)) ∧
    weekday (lt_wall l + k * day_us) < 5 ∧ (∀ i, 0 ≤ i < k → 5 ≤ weekday (lt_wall l + i * day_us)).
Proof.
  intros Hr Hm. destruct l as [w fold tz]. cbn [lt_wall lt_zone] in *.
  assert (weekday w < 5 ∨ weekday w = 5 ∨ weekday w = 6) as [Hd|[Hd|Hd]] by hours.
  - exists 0, fold. replace (w + 0 * day_us) with w by lia. split_and!; [lia|lia| |done|lia]. cbn -[weekday].
    by apply Z.ltb_lt in Hd as ->.
  - exists 2, false. split_and!; [lia|lia| |hours|].
    + cbn -[weekday next_day]. replace (weekday w <? 5) with false by hours. rewrite next_day_Ok by (cbn [lt_wall]; hours).
      cbn -[weekday next_day]. replace (weekday (w + day_us) <? 5) with false by hours. rewrite next_day_Ok by (cbn [lt_wall]; hours).
      cbn -[weekday next_day]. replace (weekday (w + day_us + day_us) <? 5) with true by hours. do 2 f_equal; lia.
    + intros i Hi. assert (i = 0 ∨ i = 1) as [-> | ->] by lia; hours.
  - exists 1, false. split_and!; [lia|lia| |hours|].
    + cbn -[weekday next_day]. replace (weekday w <? 5) with false by hours. rewrite next_day_Ok by (cbn [lt_wall]; hours).
      cbn -[weekday next_day]. replace (weekday (w + day_us) <? 5) with true by hours. do 2 f_equal; lia.
    + intros i Hi. replace i with 0 by lia. hours.
Qed.
(** The first moment after [w] that is the start of a working day. *)
Lemma candidate_spec tz fold w h : in_range w = true → w + 3 * day_us ≤ MAX_INSTANT → 0 ≤ h ≤ 23 →
  ∃ c fold', (candidate ← at_hour h (mkLocal w fold tz);
              candidate ← (if lt_wall candidate <=? w then next_day candidate else Ok candidate);
              skip_weekend 2 candidate) = Ok (mkLocal c fold' tz) ∧
    w < c ≤ w + 3 * day_us ∧ weekday c < 5 ∧ c mod day_us = h * hour_us ∧
    (∀ v, w < v < c → v mod day_us = h * hour_us → 5 ≤ weekday v).
Proof.
  intros Hr Hm Hh. unfold at_hour. replace ((0 <=? h) && (h <=? 23)) with true by lia. cbn -[Z.add Z.mul Z.div skip_weekend next_day].
  set (c0 := w / day_us * day_us + h * hour_us).
  assert (∃ c1 fold1, (if c0 <=? w then next_day (mkLocal c0 fold tz) else Ok (mkLocal c0 fold tz)) = Ok (mkLocal c1 fold1 tz) ∧
            c1 mod day_us = h * hour_us ∧ w < c1 ≤ w + day_us) as (c1 & fold1 & -> & Hc1 & Hw).
  { destruct (c0 <=? w) eqn:E; [exists (c0 + day_us), false|exists c0, fold]; unfold c0 in *; (split; [|hours]); [|done].
    rewrite next_day_Ok; cbn [lt_wall]; [done|hours..]. }
  cbn -[skip_weekend]. destruct (skip_weekend_spec (mkLocal c1 fold1 tz)) as (k & f & Hk & -> & Hd & Hs); cbn [lt_wall lt_zone] in *; [hours..|].
  exists (c1 + k * day_us), f. split_and!; [done|hours|hours|done|hours|].
  intros v Hv Hh'. assert (∃ i, 0 ≤ i < k ∧ v = c1 + i * day_us) as (i & Hi & ->); [|by apply Hs].
  exists ((v - c1) / day_us). hours.
Qed.

Lemma in_business_start c : weekday c < 5 → c mod day_us = 8 * hour_us → business_hours c = true.
Proof. intros Hd Hm. apply business_hours_iff. hours. Qed.

(** Outside business hours, none begins before the next start of a working
    day. *)
Lemma closed_until w c v : business_hours w = false → w < c ≤ w + 3 * day_us → weekday c < 5 → c mod day_us = 8 * hour_us →
  (∀ u, w < u < c → u mod day_us = 8 * hour_us → 5 ≤ weekday u) → w ≤ v < c → business_hours v = false.
Proof.
  intros Hw Hc Hd Hm Hfirst Hv. apply not_true_is_false. intros Hb%business_hours_iff.
  assert (¬ (weekday w < 5 ∧ 8 ≤ hour w < 18)) as Hw' by (rewrite <- business_hours_iff, Hw; done). clear Hw. set (u := v / day_us * day_us + 8 * hour_us).
  assert (u mod day_us = 8 * hour_us ∧ weekday u = weekday v ∧ u ≤ v) as (Hu & Hdu & Hle) by (unfold u; hours).
  assert (weekday v < 5) as Hdv by hours.
  destruct (decide (w < u)) as [Hlt|Hge]; [specialize (Hfirst u); hours|]. unfold u in *. hours.
Qed.

(** The next business hour is the next one.  For a campaign whose zone is
    known, or unknown and hence UTC, and whose clock never skips eight in the
    morning, the function returns: the present moment inside business hours,
    and otherwise a moment at most three days ahead on the local clock, at which
    the clock shows a business hour, while at every wall-clock time before it
    business is closed.  No day is lost at a weekend, a midnight, or a change of
    the clock. *)
Theorem next_business_hour_is_next key tz now now' :
  campaign_zone key = Ok tz → sane_zone tz 8 →
  MIN_INSTANT + day_us ≤ wall tz now → wall tz now + 4 * day_us ≤ MAX_INSTANT →
  ∃ r, next_business_hour_utc key 8 now now' = Ok r ∧
    if business_hours (wall tz now) then r = now'
    else business_hours (wall tz r) = true ∧ wall tz now < wall tz r ≤ wall tz now + 3 * day_us ∧
         ∀ v, wall tz now ≤ v < wall tz r → business_hours v = false.
Proof.
  intros Hz [Hoff Hshow] Hlo Hhi. unfold next_business_hour_utc, campaign_local_now. rewrite Hz.
  destruct (tz_local tz now) as [w fold] eqn:El. assert (wall tz now = w) as Hw by (unfold wall; by rewrite El).
  rewrite !Hw in *. cbn -[business_hours at_hour next_day skip_weekend to_utc]. rewrite El. cbn -[business_hours at_hour next_day skip_weekend to_utc].
  destruct (business_hours w) eqn:Eb; [by exists now'|].
  destruct (candidate_spec tz fold w 8) as (c & f & Ec & Hc & Hd & Hm & Hfirst); [hours..|].
  exists (c - tz_offset tz c f). split.
  - revert Ec. destruct (at_hour 8 _) as [l|]; [|done]. cbn -[skip_weekend next_day to_utc].
    destruct (if lt_wall l <=? w then next_day l else Ok l) as [l'|]; [|done]. cbn -[skip_weekend to_utc]. intros ->.
    unfold to_utc. cbn [mbind result_bind lt_wall lt_zone lt_fold]. specialize (Hoff c f).
    by replace (in_range _) with true by hours.
  - rewrite (Hshow c f) by hours. split_and!; [by apply in_business_start|lia|lia|].
    intros v Hv. by apply (closed_until w c).
Qed.

(** An unknown zone is UTC; a key that the database refuses otherwise raises. *)
Lemma campaign_zone_cases key :
  (∃ tz, zone_info key = Ok tz ∧ campaign_zone key = Ok tz) ∨ (zone_info key = Err UnknownZone ∧ campaign_zone key = Ok UTC) ∨
  (∃ e, zone_info key = Err (ZoneRaised e) ∧ ∀ h now now', next_business_hour_utc key h now now' = Err e).
Proof.
  unfold next_business_hour_utc, campaign_local_now, campaign_zone. destruct (zone_info key) as [tz|[|e]]; [eauto|eauto|].
  right; right. by exists e.
Qed.
End Facts.

(** *** Witnesses *)

Definition fixed_zone (offset : Z) : TzInfo := mkTzInfo (λ t, (t + offset, false)) (λ _ _, offset).
(** New York in winter; every other key is unknown. *)
Definition new_york : TzInfo := fixed_zone (-5 * hour_us).
Definition sample_zones : ZoneDb := λ key, if key == "America/New_York" then Ok new_york else Err UnknownZone.
Lemma fixed_zone_sane offset h : Z.abs offset < day_us → sane_zone (fixed_zone offset) h.
Proof. intros Ho. split; [done|]. intros w fold _. unfold wall. cbn. lia. Qed.

(** Saturday 2024-03-02 15:00 UTC is 10:00 in New York: the next business hour
    is Monday 08:00 there, 13:00 UTC. *)
Definition saturday : Z := 1709391600 * 1000000.
Lemma next_business_hour_is_next_witness :
  ∃ r, next_business_hour_utc (H := sample_zones) "America/New_York" 8 saturday saturday = Ok r ∧ r = 1709557200 * 1000000 ∧
    ∀ v, wall new_york saturday ≤ v < wall new_york r → business_hours v = false.
Proof.
  destruct (next_business_hour_is_next (H := sample_zones) "America/New_York" new_york saturday saturday) as (r & E & Hr).
  - reflexivity.
  - apply fixed_zone_sane. reflexivity.
  - vm_compute. discriminate.
  - vm_compute. discriminate.
  - exists r. split; [exact E|]. replace (business_hours (wall new_york saturday)) with false in Hr by (vm_compute; reflexivity).
    split; [|apply Hr]. vm_compute in E. injection E as <-. reflexivity.
Defined.
