(* ===== verification/FollowUp.v ===== *)
(** * Native follow-up engine

    [src/mailer_agent/followup/engine_v2.py] ([IntegratedFollowUpEngine]),
    [src/mailer_agent/followup/engine.py] and the dispatch of new contacts of
    [src/mailer_agent/followup/scheduler.py].

    A function works on one contact object inside a session.  Its [Step] has
    the contact as it leaves it in memory and the messages it added (both
    reach the database at the next flush), what it returned or raised, and the
    SMTP trace.  [flush] writes them; a job commits or rolls back. *)

From S2P Require Import Prelude Sql Models Config Samples SemanticModels StateMachine WorkClaiming Sender Regex Threading Grounding ExactMessage Llm Memory Guardrails Scheduling.

#[local] Open Scope bool_scope.

(** ** Sessions *)

(** What one send sees of its surroundings. *)
Record SendEnv := mkSendEnv {
  se_settings : Settings;
  se_smtp : nat → Attempt;
  se_seed : MsgidSeed;
  se_utcnow : Z;
  se_reply_reference : string
}.

Record Step (A : Type) := mkStep {
  st_contact : Contact;
  st_new : list (Z → Message);
  st_result : result exn A;
  st_trace : list smtp_event
}.
Arguments mkStep {A} _ _ _ _.
Arguments st_contact {A} _.
Arguments st_new {A} _.
Arguments st_result {A} _.
Arguments st_trace {A} _.

#[global] Instance Contact_eq_dec : EqDecision Contact.
Proof. solve_decision. Defined.

(** UPDATE of the row of a changed object; [onupdate] moves [updated_at]. *)
Definition write_contact (utcnow : Z) (c : Contact) (db : Db) : Db :=
  set_contacts
    (fst (update_pk (ct_id c) (λ old, negb (bool_decide (old = c))) (λ _, set_ct_updated_at utcnow c)
            (contacts db))) db.

Definition integrity_error (name : string) : exn := mkExn (C_Other "IntegrityError") name.

Definition insert_message (mk : Z → Message) (db : Db) : result exn (Message * Db) :=
  match insert_unique message_clash "messages" mk (messages db) with
  | Ok (m, t) => Ok (m, set_messages t db)
  | Err (IntegrityError name) => Err (integrity_error name)
  end.

Fixpoint insert_messages (mks : list (Z → Message)) (db : Db) : result exn Db :=
  match mks with
  | [] => Ok db
  | mk :: r => x ← insert_message mk db; insert_messages r (snd x)
  end.

(** [db.flush()] of a step's contact and messages. *)
Definition flush {A} (utcnow : Z) (s : Step A) (db : Db) : result exn Db :=
  db ← insert_messages (st_new s) db;
  mret (write_contact utcnow (st_contact s) db).

(** ** Suppression ([engine.is_suppressed]) *)

Definition is_suppressed (db : Db) (email_addr : string) (org_id : option string) : bool :=
  let query := select (λ e, sup_email e == email_addr) (suppressions db) in
  let query := match org_id with
               | None => query
               | Some o => List.filter (λ e, sup_organization_id e == Some o) query
               end in
  match query with [] => false | _ => true end.

(** ** The engine *)

Record EngineResult := mkEngineResult {
  er_contact_id : Z;
  er_action : string;
  er_source : option string;
  er_grounding_notes : option string;
  er_follow_up_index : option Z;
  er_next_action_at : option Z
}.
Definition simple_result (contact : Contact) (action : string) : EngineResult :=
  mkEngineResult (ct_id contact) action None None None None.

Definition park_for_grounding_review (utcnow : Z) (contact : Contact) : Contact :=
  set_ct_claimed_at None (set_ct_claimed_by None (set_ct_next_action_at None
    (fst (transition_contact_state contact EV_NEEDS_HUMAN utcnow)))).

(** [draft.grounding and not draft.grounding.is_safe_to_send]. *)
Definition held_notes (draft : AgentDraft) : option string :=
  match ad_grounding draft with
  | Some g => if is_safe_to_send g then None else Some (validation_notes g)
  | None => None
  end.

Definition message_status_of_outcome (o : SendOutcome) : MessageStatus :=
  match o with SO_SENT => MS_SENT | SO_FAILED => MS_FAILED | SO_UNKNOWN => MS_UNKNOWN end.

Definition draft_error (e : draft_exn) : exn :=
  match e with
  | ContextualFallbackUnavailable a => mkExn (C_Other "ContextualFallbackUnavailable") a
  | DraftOther e => e
  end.

(** [x or y] where [y] may be [None]. *)
Definition or_opt (x y : option string) : option string := if truthy x then x else y.

(** An outbound message of a contact. *)
Definition outbound (env : SendEnv) (contact : Contact) (ty : MessageType) (subject : option string)
    (body : string) (status : MessageStatus) (message_id in_reply_to error : option string) (id : Z)
    : Message :=
  mkMessage id (ct_id contact) OUTBOUND (Some ty) subject body status message_id in_reply_to None None None
    None None None error None (se_utcnow env) (Some (se_reply_reference env)).

(** The send and the row that records it. *)
Definition send_and_record (env : SendEnv) (contact : Contact) (ty : MessageType) (subject : option string)
    (in_reply_to : option string) (args : SendArgs)
    : result exn (SendResult * (Z → Message)) * list smtp_event :=
  match send_email (se_settings env) (se_smtp env) (se_seed env) args with
  | (Err e, trace) => (Err e, trace)
  | (Ok r, trace) =>
      (Ok (r, outbound env contact ty subject (sa_body_text args) (message_status_of_outcome (sr_outcome r))
                (sr_message_id r) in_reply_to (sr_error r)), trace)
  end.

(** The last statements of both senders: summarize, then return. *)
Definition finish `{LlmProvider} (l : list Message) (contact : Contact) (new : list (Z → Message))
    (trace : list smtp_event) (r : Contact → EngineResult) : Step EngineResult :=
  match maybe_summarize_older_messages l contact with
  | Ok c => mkStep c new (Ok (r c)) trace
  | Err e => mkStep contact new (Err e) trace
  end.

Section Engine.
Context `{LlmProvider} `{FromIsoformat}.

(** The contact after a first outreach whose outcome is known, and the error of
    the scheduling that follows, if any. *)
Definition after_initial (env : SendEnv) (campaign : Campaign) (contact : Contact) (r : SendResult)
    : Contact * option exn :=
  let now := se_utcnow env in
  if sr_success r then
    let c := set_ct_last_outbound_at (Some now) (fst (transition_contact_state contact EV_INITIAL_SENT now)) in
    match compute_next_followup c campaign None now with
    | Ok next => (set_ct_next_action_at (column_of next) c, None)
    | Err e => (c, Some e)
    end
  else if sr_outcome r == SO_UNKNOWN then
    (set_ct_next_action_at None (fst (transition_contact_state contact EV_NEEDS_HUMAN now)), None)
  else (contact, None).

Definition send_initial_outreach (env : SendEnv) (db : Db) (contact : Contact) : Step EngineResult :=
  let now := se_utcnow env in
  if contact_is_integration_managed db (Some contact)
  then mkStep contact [] (Ok (simple_result contact "skipped_integration_managed")) []
  else if is_suppressed db (ct_email contact) None then
    let c := fst (transition_contact_state contact EV_UNSUBSCRIBED now) in
    mkStep c [] (Ok (simple_result c "skipped_suppressed")) []
  else match contact_campaign db contact with
  | None => mkStep contact [] (Err (attribute_error "NoneType" "sender_email")) []
  | Some campaign =>
        match draft_message campaign contact "initial_outreach" (build_conversation_context db contact)
                None None None with
        | Err e => mkStep contact [] (Err (draft_error e)) []
        | Ok draft =>
            let subject :=
              py_or (ad_subject draft)
                (cp_sender_org campaign +:+ " <> " +:+ Str.of_opt (or_opt (ct_company contact) (ct_name contact))) in
            match held_notes draft with
            | Some notes =>
                let c := park_for_grounding_review now contact in
                mkStep c [outbound env contact MT_INITIAL (Some subject) (ad_body draft) MS_DRAFT None None None]
                  (Ok (mkEngineResult (ct_id c) "held_grounding_review" (Some (ad_source draft)) (Some notes)
                         None None)) []
            | None =>
                match send_and_record env contact MT_INITIAL (ad_subject draft) None
                        (mkSendArgs (ct_email contact) (cp_sender_email campaign) (cp_sender_name campaign)
                           subject (ad_body draft) (cp_reply_to_email campaign) None None None None) with
                | (Err e, trace) => mkStep contact [] (Err e) trace
                | (Ok (r, msg), trace) =>
                    match after_initial env campaign contact r with
                    | (c, Some e) => mkStep c [msg] (Err e) trace
                    | (c, None) =>
                        finish (contact_messages db contact) c [msg] trace
                          (λ c, mkEngineResult (ct_id c) (SendOutcome_value (sr_outcome r))
                                  (Some (ad_source draft)) None None (ct_next_action_at c))
                    end
                end
            end
        end
  end.

(** [_most_recent_message_id]; [l] is [contact.messages]. *)
Definition most_recent_message_id (l : list Message) : option string :=
  match List.find (λ m, truthy (msg_message_id_header m) && negb (is_synthetic_id (msg_message_id_header m)))
          (rev l) with
  | Some m => msg_message_id_header m
  | None => None
  end.

(** The same after a follow-up. *)
Definition after_followup (env : SendEnv) (campaign : Campaign) (contact : Contact) (r : SendResult)
    : Contact * option exn :=
  let now := se_utcnow env in
  if sr_success r then
    let c := fst (transition_contact_state contact EV_FOLLOWUP_SENT now) in
    let c := set_ct_follow_up_index (ct_follow_up_index c + 1) (set_ct_last_outbound_at (Some now) c) in
    match compute_next_followup c campaign None now with
    | Err e => (c, Some e)
    | Ok None => (set_ct_next_action_at None (fst (transition_contact_state c EV_SEQUENCE_EXHAUSTED now)), None)
    | Ok (Some t) => (set_ct_next_action_at (column_of (Some t)) c, None)
    end
  else if sr_outcome r == SO_UNKNOWN then
    (set_ct_next_action_at None (fst (transition_contact_state contact EV_NEEDS_HUMAN now)), None)
  else (contact, None).

(** [send_followup_if_due]; [times] are the contact's attributes. *)
Definition send_followup_if_due (env : SendEnv) (db : Db) (contact : Contact) (times : Times)
    : Step (option EngineResult) :=
  let now := se_utcnow env in
  let stop r := mkStep contact [] r [] in
  if contact_is_integration_managed db (Some contact)
  then stop (Ok (Some (simple_result contact "skipped_integration_managed")))
  else match should_send_followup_now (ct_status contact) times now with
  | Err e => stop (Err e)
  | Ok (false, _) => stop (Ok None)
  | Ok (true, _) =>
  match can_send_followup (ct_status contact) (next_action_at times) now with
  | None => stop (raises "TypeError" "can't compare offset-naive and offset-aware datetimes")
  | Some false => stop (Ok None)
  | Some true =>
  if is_suppressed db (ct_email contact) None then
    let c := set_ct_next_action_at None (fst (transition_contact_state contact EV_UNSUBSCRIBED now)) in
    mkStep c [] (Ok (Some (simple_result c "skipped_suppressed"))) []
  else match contact_campaign db contact with
  | None => stop (Err (attribute_error "NoneType" "sender_email"))
  | Some campaign =>
  match days_since (last_outbound_at times) now, get_followup_message_hint contact times now with
  | Err e, _ | _, Err e => stop (Err e)
  | Ok days_waited, Ok _ =>
  let l := contact_messages db contact in
  match draft_message campaign contact "follow_up" (build_conversation_context db contact) days_waited None None with
  | Err e => stop (Err (draft_error e))
  | Ok draft =>
  let prior := most_recent_message_id l in
  match held_notes draft with
  | Some notes =>
      let c := park_for_grounding_review now contact in
      mkStep c [outbound env contact MT_FOLLOW_UP
                  (Some (py_or (ad_subject draft) ("Following up -- " +:+ cp_sender_org campaign)))
                  (ad_body draft) MS_DRAFT None prior None]
        (Ok (Some (mkEngineResult (ct_id c) "held_grounding_review" (Some (ad_source draft)) (Some notes)
                     None None))) []
  | None =>
      let subject :=
        or_opt (ad_subject draft)
          (match l with
           | m :: _ => if truthy (msg_subject m) then Some (as_reply_subject (msg_subject m)) else None
           | [] => None
           end) in
      match send_and_record env contact MT_FOLLOW_UP subject prior
              (mkSendArgs (ct_email contact) (cp_sender_email campaign) (cp_sender_name campaign)
                 (py_or subject ("Following up -- " +:+ cp_sender_org campaign)) (ad_body draft)
                 (cp_reply_to_email campaign) prior None None None) with
      | (Err e, trace) => mkStep contact [] (Err e) trace
      | (Ok (r, msg), trace) =>
          match after_followup env campaign contact r with
          | (c, Some e) => mkStep c [msg] (Err e) trace
          | (c, None) =>
              let s := finish l c [msg] trace
                         (λ c, mkEngineResult (ct_id c) (SendOutcome_value (sr_outcome r))
                                 (Some (ad_source draft)) None (Some (ct_follow_up_index c))
                                 (ct_next_action_at c)) in
              mkStep (st_contact s) (st_new s)
                (match st_result s with Ok x => Ok (Some x) | Err e => Err e end) (st_trace s)
          end
      end
  end
  end
  end
  end
  end
  end.
End Engine.

(** ** Jobs *)

Section Jobs.
Context `{LlmProvider} `{FromIsoformat}.

(** The claimed contacts of active campaigns, re-read. *)
Definition reload_claimed (ids : list Z) (db : Db) : list Contact :=
  select (λ c, in_list (ct_id c) ids
               && match contact_campaign db c with Some cm => cp_is_active cm | None => false end)
    (contacts db).

Definition unclaimed (c : Contact) : Contact := set_ct_claimed_at None (set_ct_claimed_by None c).

(** The loop of the follow-up cycle: each contact was loaded by the query above;
    the [finally] clause releases its claim and flushes whatever is pending,
    and an error of that flush escapes. *)
Fixpoint followup_loop (envs : Z → SendEnv) (cs : list Contact) (db : Db)
    : result exn (Db * list EngineResult) * list smtp_event :=
  match cs with
  | [] => (Ok (db, []), [])
  | c :: rest =>
      let s := send_followup_if_due (envs (ct_id c)) db c (loaded c) in
      let released := mkStep (unclaimed (st_contact s)) (st_new s) (Ok ()) [] in
      match flush (se_utcnow (envs (ct_id c))) released db with
      | Err e => (Err e, st_trace s)
      | Ok db1 =>
          let '(r, trace) := followup_loop envs rest db1 in
          (match r with
           | Err e => Err e
           | Ok (db2, results) =>
               Ok (db2, match st_result s with Ok (Some x) => x :: results | _ => results end)
           end, st_trace s ++ trace)
      end
  end.

Definition run_followup_cycle (s : Session) (settings : Settings) (claim_lease_seconds : Z)
    (worker_id : string) (limit : option Z) (envs : Z → SendEnv) (utcnow : Z) (db : Db)
    : result exn (Db * list EngineResult) * list smtp_event :=
  let '(db, _) := recover_expired_claims false claim_lease_seconds utcnow db in
  let '(db, due) := claim_due_contacts s settings claim_lease_seconds worker_id CS_ACTIVE
                      (Some (effective_limit settings limit)) utcnow db in
  match map ct_id due with
  | [] => (Ok (db, []), [])
  | ids => followup_loop envs (reload_claimed ids db) db
  end.

(** A session of the dispatch job: what is committed, and what this session
    sees and has flushed. *)
Record JobState := mkJobState { js_committed : Db; js_working : Db }.

(** One contact of [dispatch_new_contacts_job] was taken up: the worker its row
    was claimed by at that moment, and the trace of the send. *)
Record JobEntry := mkJobEntry { je_contact_id : Z; je_claimed_by : option string; je_trace : list smtp_event }.

(** The loop body: commit on success, roll the session back on any error, and
    release the claim either way. *)
Definition dispatch_new_contact (env : SendEnv) (cid : Z) (js : JobState)
    : JobState * option JobEntry * option EngineResult :=
  match get cid (contacts (js_working js)) with
  | None => (js, None, None)
  | Some c =>
      let s := send_initial_outreach env (js_working js) c in
      let '(js, r) :=
        match st_result s, flush (se_utcnow env) s (js_working js) with
        | Ok r, Ok db => (mkJobState db db, Some r)
        | _, _ => (mkJobState (js_committed js) (js_committed js), None)
        end in
      (mkJobState (js_committed js) (release_claim cid (se_utcnow env) (js_working js)),
       Some (mkJobEntry cid (ct_claimed_by c) (st_trace s)), r)
  end.

Fixpoint dispatch_loop (envs : Z → SendEnv) (cids : list Z) (js : JobState)
    : JobState * list JobEntry * list EngineResult :=
  match cids with
  | [] => (js, [], [])
  | cid :: rest =>
      let '(js1, entry, r) := dispatch_new_contact (envs cid) cid js in
      let '(js2, entries, rs) := dispatch_loop envs rest js1 in
      (js2, match entry with Some e => e :: entries | None => entries end,
       match r with Some x => x :: rs | None => rs end)
  end.

(** The job; [session_scope] commits at the end. *)
Definition dispatch_new_contacts_job (s : Session) (settings : Settings) (claim_lease_seconds : Z)
    (worker_id : string) (envs : Z → SendEnv) (utcnow : Z) (db : Db)
    : Db * list JobEntry * list EngineResult :=
  let '(db1, _) := recover_expired_claims false claim_lease_seconds utcnow db in
  let '(db2, due) := claim_due_contacts s settings claim_lease_seconds worker_id CS_NEW
                       (Some (max_sends_per_cycle settings)) utcnow db1 in
  match map ct_id due with
  | [] => (db2, [], [])
  | ids =>
      let '(js, entries, rs) :=
        dispatch_loop envs (map ct_id (reload_claimed ids db2)) (mkJobState db db2) in
      (js_working js, entries, rs)
  end.

(** [run_new_contact_cycle] (legacy): no claims, one commit at the end. *)
Fixpoint new_contact_loop (envs : Z → SendEnv) (cs : list Contact) (db : Db)
    : result exn (Db * list EngineResult) * list smtp_event :=
  match cs with
  | [] => (Ok (db, []), [])
  | c :: rest =>
      let s := send_initial_outreach (envs (ct_id c)) db c in
      match st_result s, flush (se_utcnow (envs (ct_id c))) s db with
      | Err e, _ | _, Err e => (Err e, st_trace s)
      | Ok x, Ok db1 =>
          let '(r, trace) := new_contact_loop envs rest db1 in
          (match r with Ok (db2, xs) => Ok (db2, x :: xs) | Err e => Err e end, st_trace s ++ trace)
      end
  end.
Definition run_new_contact_cycle (settings : Settings) (limit : option Z) (envs : Z → SendEnv) (db : Db)
    : result exn (Db * list EngineResult) * list smtp_event :=
  new_contact_loop envs
    (take (Z.to_nat (effective_limit settings limit))
       (select (λ c, (ct_status c == CS_NEW)
                     && match contact_campaign db c with Some cm => cp_is_active cm | None => false end)
          (contacts db))) db.
End Jobs.

(** ** Facts *)

Lemma is_suppressed_parity db email org : is_suppressed db email org = is_email_suppressed db email org.
Proof.
  apply eq_true_iff_eq. rewrite suppressed_spec. unfold is_suppressed, select. split.
  - intros Hq. set (q := match org with None => _ | Some o => _ end) in Hq.
    assert (∃ e, In e q) as [e He] by (destruct q as [|e q]; [done|exists e; by left]).
    exists e. unfold q in He. destruct org as [o|]; rewrite ?filter_In in He.
    + destruct He as [[He H1] H2]. bools. split_and!; [done|done|]. by intros o' [= <-].
    + destruct He as [He H1]. bools. by split_and!.
  - intros (e & Hin & He & Ho). set (q := match org with None => _ | Some o => _ end).
    assert (In e q) as Hq; [|by destruct q].
    unfold q. destruct org as [o|]; rewrite ?filter_In, !bool_decide_eq_true; auto.
Qed.

Lemma not_suppressed_spec db email :
  is_suppressed db email None = false ↔ ∀ s, In s (rows (suppressions db)) → sup_email s ≠ email.
Proof.
  rewrite is_suppressed_parity, <- not_true_iff_false, suppressed_spec. split.
  - intros Hn s Hin He. apply Hn. by exists s.
  - intros Hall (s & Hin & He & _). by apply (Hall s).
Qed.

(** Nothing forbids sending this body to this contact now. *)
Definition cleared_to_send (db : Db) (contact : Contact) (campaign : Campaign) (body : string) : Prop :=
  contact_campaign db contact = Some campaign ∧ cp_integration_source campaign = None ∧
  is_suppressed db (ct_email contact) None = false ∧
  is_safe_to_send (validate_grounding body (cp_proof_points campaign) (ct_context_notes contact)
    (Some (build_conversation_context db contact)) (Some (cp_value_prop campaign))) = true.

(** The recorded row of a send. *)
Definition records (contact : Contact) (body : string) (r : SendResult) (m : Message) : Prop :=
  msg_contact_id m = ct_id contact ∧ msg_direction m = OUTBOUND ∧ msg_body m = body ∧
  msg_status m = message_status_of_outcome (sr_outcome r) ∧
  msg_message_id_header m = sr_message_id r ∧ msg_error_message m = sr_error r.

(** The two shapes of a step: nothing transmitted and at most a draft kept; or
    one call of [send_email], recorded as it ended. *)
Inductive step_shape {A} (env : SendEnv) (db : Db) (contact : Contact)
    (after : Campaign → Contact → SendResult → Contact * option exn) (s : Step A) : Prop :=
  | step_quiet :
      st_trace s = [] → Forall (λ mk, ∀ i, msg_status (mk i) = MS_DRAFT) (st_new s) →
      step_shape env db contact after s
  | step_sends campaign args r mk c e m :
      cleared_to_send db contact campaign (sa_body_text args) →
      sa_to_email args = ct_email contact → sa_from_email args = cp_sender_email campaign →
      send_email (se_settings env) (se_smtp env) (se_seed env) args = (Ok r, st_trace s) →
      st_new s = [mk] → (∀ i, records contact (sa_body_text args) r (mk i)) →
      after campaign contact r = (c, e) → st_contact s = set_ct_memory_summary m c →
      step_shape env db contact after s.

Lemma not_managed_source db contact campaign :
  contact_is_integration_managed db (Some contact) = false → contact_campaign db contact = Some campaign →
  cp_integration_source campaign = None.
Proof. cbn. intros Hm Hc. rewrite Hc in Hm. cbn in Hm. unfold is_not_none in Hm. by bools. Qed.

Lemma held_notes_None `{LlmProvider} campaign contact action tr days po pr d :
  draft_message campaign contact action tr days po pr = Ok d → held_notes d = None →
  is_safe_to_send (validate_grounding (ad_body d) (cp_proof_points campaign) (ct_context_notes contact)
    (Some tr) (Some (cp_value_prop campaign))) = true.
Proof.
  intros [Hg _]%draft_message_Ok. unfold held_notes. rewrite Hg. by destruct (is_safe_to_send _).
Qed.

Lemma summarize_only_summary `{LlmProvider} l c c' :
  maybe_summarize_older_messages l c = Ok c' → ∃ m, c' = set_ct_memory_summary m c.
Proof.
  unfold maybe_summarize_older_messages. intros E. exists (ct_memory_summary c').
  repeat case_match; try discriminate E; injection E as <-; by destruct c.
Qed.

Lemma finish_shape `{LlmProvider} l c new trace f :
  ∃ m, st_contact (finish l c new trace f) = set_ct_memory_summary m c ∧
       st_new (finish l c new trace f) = new ∧ st_trace (finish l c new trace f) = trace.
Proof.
  unfold finish. destruct (maybe_summarize_older_messages l c) as [c'|e] eqn:E; cbn.
  - apply summarize_only_summary in E as [m ->]. by exists m.
  - exists (ct_memory_summary c). by destruct c.
Qed.

Lemma send_email_fresh_Ok settings env seed args :
  sa_message_id_header args = None → ∃ r trace, send_email settings env seed args = (Ok r, trace).
Proof.
  intros Hn. unfold send_email. rewrite Hn. destruct (negb _); [by eexists _, _|].
  destruct (smtp_send_with_retry _ _ _ _ _ _). by eexists _, _.
Qed.

(** Whatever [send_and_record] leads to, the step has the sending shape. *)
Lemma send_and_record_shape {A} env db contact ty subject irt args campaign after (s : Step A)
    (k : SendResult → (Z → Message) → list smtp_event → Step A) (kerr : exn → list smtp_event → Step A) :
  cleared_to_send db contact campaign (sa_body_text args) →
  sa_to_email args = ct_email contact → sa_from_email args = cp_sender_email campaign →
  sa_message_id_header args = None →
  s = match send_and_record env contact ty subject irt args with
      | (Ok (r, msg), trace) => k r msg trace
      | (Err e, trace) => kerr e trace
      end →
  (∀ r msg trace, st_trace (k r msg trace) = trace ∧ st_new (k r msg trace) = [msg] ∧
     ∃ c e m, after campaign contact r = (c, e) ∧ st_contact (k r msg trace) = set_ct_memory_summary m c) →
  step_shape env db contact after s.
Proof.
  intros Hc Ht Hf Hn -> Hk. unfold send_and_record.
  destruct (send_email_fresh_Ok (se_settings env) (se_smtp env) (se_seed env) args Hn) as (r & trace & E).
  rewrite E. set (msg := outbound _ _ _ _ _ _ _ _ _).
  destruct (Hk r msg trace) as (Htr & Hnew & c & e & m & Ha & Hct).
  by eapply (step_sends _ _ _ _ _ campaign args r msg c e m); rewrite ?Htr.
Qed.

Section Shapes.
Context `{LlmProvider} `{FromIsoformat}.

Lemma send_initial_shape env db contact :
  step_shape env db contact (after_initial env) (send_initial_outreach env db contact).
Proof.
  unfold send_initial_outreach.
  destruct (contact_is_integration_managed _ _) eqn:Em; [by apply step_quiet|].
  destruct (is_suppressed _ _ _) eqn:Es; [by apply step_quiet|].
  destruct (contact_campaign db contact) as [campaign|] eqn:Ec; [|by apply step_quiet].
  destruct (draft_message _ _ _ _ _ _ _) as [draft|] eqn:Ed; [|by apply step_quiet].
  destruct (held_notes draft) eqn:Eh; [by apply step_quiet; repeat constructor|].
  eapply send_and_record_shape with (campaign := campaign); [..|reflexivity|]; try done.
  - refine (conj Ec (conj _ (conj Es _))); [by eapply not_managed_source|by eapply held_notes_None].
  - intros r msg trace. cbn beta. destruct (after_initial env campaign contact r) as [c [e|]] eqn:Ea.
    + split_and!; [done|done|]. exists c, (Some e), (ct_memory_summary c). split; [done|]. by destruct c.
    + destruct (finish_shape (contact_messages db contact) c [msg] trace
        (λ c, mkEngineResult (ct_id c) (SendOutcome_value (sr_outcome r))
                (Some (ad_source draft)) None None (ct_next_action_at c))) as (m & Hc & Hn & Ht).
      split_and!; [exact Ht|exact Hn|]. by exists c, None, m.
Qed.

Lemma followup_shape env db contact times :
  step_shape env db contact (after_followup env) (send_followup_if_due env db contact times).
Proof.
  unfold send_followup_if_due.
  destruct (contact_is_integration_managed _ _) eqn:Em; [by apply step_quiet|].
  destruct (should_send_followup_now _ _ _) as [[[] ?]|]; [|by apply step_quiet..].
  destruct (can_send_followup _ _ _) as [[]|]; [|by apply step_quiet..].
  destruct (is_suppressed _ _ _) eqn:Es; [by apply step_quiet|].
  destruct (contact_campaign db contact) as [campaign|] eqn:Ec; [|by apply step_quiet].
  destruct (days_since _ _) as [days|]; [|by apply step_quiet].
  destruct (get_followup_message_hint _ _ _); [|by apply step_quiet].
  destruct (draft_message _ _ _ _ _ _ _) as [draft|] eqn:Ed; [|by apply step_quiet].
  destruct (held_notes draft) eqn:Eh; [by apply step_quiet; repeat constructor|].
  eapply send_and_record_shape with (campaign := campaign); [..|reflexivity|]; try done.
  - refine (conj Ec (conj _ (conj Es _))); [by eapply not_managed_source|by eapply held_notes_None].
  - intros r msg trace. cbn beta. destruct (after_followup env campaign contact r) as [c [e|]] eqn:Ea.
    + split_and!; [done|done|]. exists c, (Some e), (ct_memory_summary c). split; [done|]. by destruct c.
    + destruct (finish_shape (contact_messages db contact) c [msg] trace
        (λ c, mkEngineResult (ct_id c) (SendOutcome_value (sr_outcome r))
                (Some (ad_source draft)) None (Some (ct_follow_up_index c)) (ct_next_action_at c)))
        as (m & Hc & Hn & Ht).
      cbn zeta. cbn [st_trace st_new st_contact]. split_and!; [exact Ht|exact Hn|]. by exists c, None, m.
Qed.

(** What a shape says about the trace. *)
Lemma shape_gated {A} env db contact after (s : Step A) :
  step_shape env db contact after s →
  (sendmails (st_trace s) ≤ 1)%nat ∧
  ∀ f t m res, In (EvSendmail f t m res) (st_trace s) →
    ∃ campaign, cleared_to_send db contact campaign (mime_text m) ∧
                t = ct_email contact ∧ f = cp_sender_email campaign.
Proof.
  intros [Ht _|campaign args r mk c e m Hc Hto Hf Hs _ _ _ _].
  - rewrite Ht. by split; [cbn; lia|intros ? ? ? ? []].
  - assert (st_trace s = snd (send_email (se_settings env) (se_smtp env) (se_seed env) args)) as ->
      by by rewrite Hs.
    split; [apply send_email_sendmails|].
    intros f t msg res Hin. apply send_email_payload in Hin as (-> & -> & h & -> & _).
    exists campaign. by rewrite Hf.
Qed.

(** ** Theorems *)

(** C17: the native engine mails only whom and what it may.  Every message the first
    outreach or a follow-up hands to SMTP goes to that contact, from its own
    campaign, which is not managed by an integration; the address is on no
    organization's suppression list; the exact body passes the grounding
    validator against the approved text of that campaign and contact; and at
    most one message is handed over per call. *)
Theorem native_sends_are_gated env db contact times f t m res :
  (sendmails (st_trace (send_initial_outreach env db contact)) ≤ 1)%nat ∧
  (sendmails (st_trace (send_followup_if_due env db contact times)) ≤ 1)%nat ∧
  (In (EvSendmail f t m res) (st_trace (send_initial_outreach env db contact)) ∨
   In (EvSendmail f t m res) (st_trace (send_followup_if_due env db contact times)) →
   t = ct_email contact ∧
   ∃ campaign, cleared_to_send db contact campaign (mime_text m) ∧ f = cp_sender_email campaign).
Proof.
  destruct (shape_gated _ _ _ _ _ (send_initial_shape env db contact)) as [H1 G1].
  destruct (shape_gated _ _ _ _ _ (followup_shape env db contact times)) as [H2 G2].
  split_and!; [done|done|]. intros [Hin|Hin]; [apply G1 in Hin|apply G2 in Hin];
    destruct Hin as (campaign & ? & ? & ?); split; eauto.
Qed.

(** A follow-up goes out only for an ACTIVE contact that is due, was not heard
    from within a day, and whose times carry a zone. *)
Theorem followup_sent_only_when_due env db contact times :
  st_trace (send_followup_if_due env db contact times) ≠ [] ∨
  st_new (send_followup_if_due env db contact times) ≠ [] →
  ct_status contact = CS_ACTIVE ∧
  (∃ t off, next_action_at times = Some (Aware t off) ∧ t ≤ se_utcnow env) ∧
  ∀ r, last_reply_at times = Some r → ∃ t off, r = Aware t off ∧ day_us ≤ se_utcnow env - t.
Proof.
  unfold send_followup_if_due. intros Hs.
  destruct (contact_is_integration_managed _ _); [by destruct Hs|].
  destruct (should_send_followup_now _ _ _) as [[[] reason]|] eqn:E; [|by destruct Hs..].
  by apply should_send_true in E.
Qed.

(** A send is recorded as it ended.  The row kept for a first outreach has the
    outcome SMTP reported, never FAILED for an unknown one; after success the
    contact is scheduled by its campaign's cadence or not at all; after an
    unknown outcome it has no next action and is not NEW any more, so it is
    not picked up again; after a failure, when nothing was delivered, it is
    left exactly as it was, for a retry. *)
Theorem initial_outcome_recorded env db contact :
  let s := send_initial_outreach env db contact in
  st_trace s ≠ [] →
  ∃ r mk m, st_new s = [mk] ∧ (∀ i, msg_status (mk i) = message_status_of_outcome (sr_outcome r)) ∧
    match sr_outcome r with
    | SO_SENT => ct_last_outbound_at (st_contact s) = Some (se_utcnow env)
    | SO_UNKNOWN => ct_next_action_at (st_contact s) = None ∧
                    (ct_status contact = CS_NEW → ct_status (st_contact s) = CS_NEEDS_REVIEW)
    | SO_FAILED => st_contact s = set_ct_memory_summary m contact
    end.
Proof.
  cbn zeta. intros Hne.
  destruct (send_initial_shape env db contact) as [Ht _|campaign args r mk c e m _ _ _ Hs Hn Hrec Ha Hc]; [done|].
  exists r, mk, m. split_and!; [done|intros i; apply Hrec|]. rewrite Hc. unfold after_initial in Ha.
  assert (sr_success r = bool_decide (sr_outcome r = SO_SENT)) as Hsucc.
  { revert Hs. unfold send_email. repeat case_match; intros [= <- _]; done. }
  rewrite Hsucc in Ha. destruct (sr_outcome r); cbn in Ha.
  - destruct (compute_next_followup _ _ _ _) in Ha; by injection Ha as <- _.
  - by injection Ha as <- _.
  - injection Ha as <- _. split; [done|]. intros Hnew. unfold transition_contact_state. by rewrite Hnew.
Qed.
End Shapes.

(** ** The follow-up cycle *)

Lemma write_contact_get u c db j :
  get j (contacts (write_contact u c db)) =
    if j =? ct_id c
    then option_map (λ old, if bool_decide (old = c) then old else set_ct_updated_at u c) (get j (contacts db))
    else get j (contacts db).
Proof.
  unfold write_contact. cbn [contacts set_contacts]. unfold update_pk, update_where, get. cbn [fst rows].
  induction (rows (contacts db)) as [|x l IH]; cbn [map List.find]; [by case_match|].
  destruct (row_id x =? ct_id c) eqn:Ex; cbn [andb].
  - bools. destruct (bool_decide (x = c)) eqn:Exc; cbn [negb].
    + bools. subst x. destruct (row_id c =? j) eqn:Ej; [|exact IH]. bools.
      change (row_id c) with (ct_id c) in Ej. rewrite Ej, Z.eqb_refl. cbn. by rewrite bool_decide_eq_true_2.
    + change (row_id (set_ct_updated_at u c)) with (ct_id c). rewrite Ex.
      destruct (ct_id c =? j) eqn:Ej; [|exact IH]. bools. rewrite Ej, Z.eqb_refl. cbn. by rewrite bool_decide_eq_false_2.
  - destruct (row_id x =? j) eqn:Ej; [|exact IH]. bools.
    destruct (j =? ct_id c) eqn:Ejc; [bools; congruence|done].
Qed.

Lemma write_contact_rest u c db :
  campaigns (write_contact u c db) = campaigns db ∧ messages (write_contact u c db) = messages db.
Proof. done. Qed.

Section Cycle.
Context `{LlmProvider} `{FromIsoformat}.

(** A due contact that was loaded from the database: the first comparison
    raises, and nothing happens. *)
Lemma loaded_followup_raises env db c :
  ct_status c = CS_ACTIVE → is_Some (ct_next_action_at c) →
  contact_is_integration_managed db (Some c) = false →
  ∃ e, send_followup_if_due env db c (loaded c) = mkStep c [] (Err e) [].
Proof.
  intros Hs Hn Hm. unfold send_followup_if_due. rewrite Hm.
  rewrite (loaded_check_raises c (se_utcnow env) Hs Hn). by eexists.
Qed.

Lemma followup_loop_inert envs cs : ∀ db,
  (∀ c, In c cs → ct_status c = CS_ACTIVE ∧ is_Some (ct_next_action_at c) ∧
        contact_is_integration_managed db (Some c) = false) →
  ∃ db', followup_loop envs cs db = (Ok (db', []), []) ∧ messages db' = messages db ∧ campaigns db' = campaigns db.
Proof.
  induction cs as [|c cs IH]; intros db Hall; cbn [followup_loop]; [by eexists|].
  destruct (Hall c) as (Hs & Hn & Hm); [by left|].
  destruct (loaded_followup_raises (envs (ct_id c)) db c Hs Hn Hm) as [e ->].
  cbn [st_contact st_new st_result st_trace flush insert_messages mbind result_bind mret result_ret].
  set (db1 := write_contact _ _ db).
  destruct (IH db1) as (db' & -> & Hmsg & Hcam); [|by exists db'].
  intros x Hx. destruct (Hall x) as (? & ? & ?); [by right|]. by split_and!.
Qed.

Lemma due_not_managed db st n cutoff c :
  contact_due db st n cutoff c = true →
  ct_status c = st ∧ is_Some (ct_next_action_at c) ∧ contact_is_integration_managed db (Some c) = false.
Proof.
  unfold contact_due. intros E. bools. split_and!; [done|by eexists|].
  cbn. unfold contact_campaign, campaign_is_integration_managed.
  destruct (get (ct_campaign_id c) (campaigns db)) as [cm|] eqn:Eg; [|done].
  apply get_Some in Eg as [Hin Hid].
  match goal with E : existsb _ _ = false |- _ => pose proof (proj1 (existsb_false _ _) E cm Hin) as Hn end.
  cbn in Hn. rewrite bool_decide_eq_true_2 in Hn by done. exact Hn.
Qed.

(** The contacts a claim took, re-read, are the claimed rows of due contacts. *)
Lemma reload_claimed_due s settings lease w st limit u db db' due c :
  table_wf (contacts db) →
  claim_due_contacts s settings lease w st limit u db = (db', due) →
  In c (reload_claimed (map ct_id due) db') →
  ∃ c0, c = claim_contact w u c0 ∧ In c0 (rows (contacts db)) ∧
        contact_due db st u (lease_cutoff lease u) c0 = true ∧ campaigns db' = campaigns db.
Proof.
  intros Hwf Hclaim Hin. pose proof (claim_due_contacts_spec _ _ _ _ _ _ _ _ _ _ Hwf Hclaim) as (Hrows & _ & Hcs).
  apply select_In in Hin as [Hc [Hi _]%andb_prop]. unfold in_list in Hi. bools.
  apply list_elem_of_fmap in Hi as (c' & Hid & (c0 & Hdue & ->)%list_elem_of_In%Hcs).
  destruct Hrows as (Hdb & Hwf' & Hget).
  pose proof (due_contacts_In _ _ _ _ _ _ _ Hdue) as (Hr & Hd & _). exists c0. split_and!; [|done|done|by rewrite Hdb].
  pose proof (get_complete _ c Hwf' Hc) as Hg. change (row_id c) with (ct_id c) in Hg.
  rewrite Hid in Hg. rewrite Hget in Hg. cbn in Hg.
  pose proof (get_complete _ c0 Hwf Hr : get (ct_id c0) _ = _) as Hg0. rewrite Hg0 in Hg.
  destruct (in_list _ _) eqn:El; [by injection Hg as <-|]. exfalso. unfold in_list in El. bools. apply El.
  apply list_elem_of_fmap. exists c0. split; [done|]. by apply list_elem_of_In.
Qed.

Lemma recover_expired_rest lease u db db' n :
  recover_expired_claims false lease u db = (db', n) →
  (table_wf (contacts db) → table_wf (contacts db')) ∧ campaigns db' = campaigns db ∧ messages db' = messages db.
Proof.
  unfold recover_expired_claims. destruct (select _ _); intros [= <- <-]; [done|].
  split_and!; [|done|done]. cbn. intros. by apply update_where_wf.
Qed.

(** C35: the follow-up cycle never sends a follow-up.  Every contact it claims was
    loaded from the database, so its scheduled time has no time zone and the
    check that precedes the send raises; the cycle catches that, releases the
    claim and goes on.  Whatever the settings, the contacts, the model and the
    mail server are, the cycle ends normally with no results, no SMTP
    connection and no message row written. *)
Theorem followup_cycle_sends_nothing s settings lease w limit envs u db :
  table_wf (contacts db) →
  ∃ db', run_followup_cycle s settings lease w limit envs u db = (Ok (db', []), []) ∧
         messages db' = messages db.
Proof.
  intros Hwf. unfold run_followup_cycle.
  destruct (recover_expired_claims false lease u db) as [db1 n] eqn:Er.
  apply recover_expired_rest in Er as (Hwf1 & _ & Hm1). specialize (Hwf1 Hwf).
  destruct (claim_due_contacts s settings lease w CS_ACTIVE _ u db1) as [db2 due] eqn:Ec.
  pose proof (claim_due_contacts_spec _ _ _ _ _ _ _ _ _ _ Hwf1 Ec) as ((Hdb & _) & _).
  assert (messages db2 = messages db) as Hm2 by by rewrite Hdb.
  destruct (map ct_id due) as [|i ids] eqn:Ei; [by eexists|]. rewrite <- Ei.
  destruct (followup_loop_inert envs (reload_claimed (map ct_id due) db2) db2) as (db' & -> & Hm & _);
    [|exists db'; by rewrite Hm].
  intros c Hc. destruct (reload_claimed_due _ _ _ _ _ _ _ _ _ _ _ Hwf1 Ec Hc) as (c0 & -> & _ & Hd & Hcam).
  apply due_not_managed in Hd as (? & ? & Hnm). split_and!; [done|done|].
  revert Hnm. cbn. unfold contact_campaign. by rewrite Hcam.
Qed.
End Cycle.

(** ** Dispatch of new contacts *)

Section Dispatch.
Context `{LlmProvider} `{FromIsoformat}.

Lemma transition_id c e u : ct_id (fst (transition_contact_state c e u)) = ct_id c.
Proof. unfold transition_contact_state. by destruct (next_state _ _). Qed.

Lemma initial_contact_id env db c : ct_id (st_contact (send_initial_outreach env db c)) = ct_id c.
Proof.
  unfold send_initial_outreach.
  destruct (contact_is_integration_managed _ _); [done|].
  destruct (is_suppressed _ _ _); [apply transition_id|].
  destruct (contact_campaign db c) as [campaign|]; [|done].
  destruct (draft_message _ _ _ _ _ _ _) as [draft|]; [|done].
  destruct (held_notes draft); [apply transition_id|].
  destruct (send_and_record _ _ _ _ _ _) as [[[r msg]|] trace]; [|done].
  assert (ct_id (fst (after_initial env campaign c r)) = ct_id c) as Ha.
  { unfold after_initial. destruct (sr_success r).
    - set (c1 := set_ct_last_outbound_at _ _). assert (ct_id c1 = ct_id c) by apply transition_id.
      by destruct (compute_next_followup c1 _ _ _).
    - destruct (bool_decide _); [apply transition_id|done]. }
  destruct (after_initial env campaign c r) as [c1 [e|]]; [exact Ha|].
  match goal with |- context [finish ?l ?c ?n ?t ?f] => destruct (finish_shape l c n t f) as (m & -> & _) end.
  exact Ha.
Qed.

Lemma insert_messages_contacts mks : ∀ db db',
  insert_messages mks db = Ok db' → contacts db' = contacts db.
Proof.
  induction mks as [|mk r IH]; intros db db'; cbn [insert_messages]; [by intros [= <-]|].
  intros E. inv_result. apply IH in E as ->. unfold insert_message in *.
  repeat case_match; try discriminate. by inv_result.
Qed.

Lemma release_claim_get cid u db j :
  j ≠ cid → get j (contacts (release_claim cid u db)) = get j (contacts db).
Proof. intros Hj. unfold release_claim. cbn. apply update_pk_get_ne; [done|congruence]. Qed.

(** A contact that is dispatched without an error leaves every other row as it
    was in the session; an error takes the session back to what is committed. *)
Lemma dispatch_new_contact_frame env cid js js' entry r j :
  dispatch_new_contact env cid js = (js', entry, r) → j ≠ cid →
  get j (contacts (js_working js')) =
    match entry, r with
    | Some _, None => get j (contacts (js_committed js))
    | _, _ => get j (contacts (js_working js))
    end.
Proof.
  unfold dispatch_new_contact. destruct (get cid (contacts (js_working js))) as [c|] eqn:Eg; [|by intros [= <- <- <-]].
  apply get_Some in Eg as [_ Hid].
  pose proof (initial_contact_id env (js_working js) c) as Hci. change (row_id c) with (ct_id c) in Hid.
  destruct (st_result _) as [x|e] eqn:Er;
    [match goal with |- context [flush ?u ?s ?d] => destruct (flush u s d) as [db|e'] eqn:Ef end|];
    intros [= <- <- <-] Hj; cbn [js_working js_committed]; rewrite release_claim_get by done; [|done..].
  unfold flush in Ef. inv_result. rewrite write_contact_get, Hci.
  rewrite (proj2 (Z.eqb_neq j (ct_id c))) by done.
  match goal with E : insert_messages _ _ = Ok _ |- _ => by rewrite (insert_messages_contacts _ _ _ E) end.
Qed.

Lemma dispatch_entry_claim env cid js js' e r :
  dispatch_new_contact env cid js = (js', Some e, r) →
  ∃ c, get cid (contacts (js_working js)) = Some c ∧ je_claimed_by e = ct_claimed_by c.
Proof.
  unfold dispatch_new_contact. destruct (get cid _) as [c|]; [|by intros [= ? ? ?]].
  repeat case_match; intros [= <- <- <-]; by exists c.
Qed.

Lemma dispatch_result_entry env cid js js' e x :
  dispatch_new_contact env cid js = (js', e, x) → is_Some x → is_Some e.
Proof.
  unfold dispatch_new_contact. destruct (get cid _); [|by intros [= <- <- <-] []].
  repeat case_match; intros [= <- <- <-] _; by eexists.
Qed.

Lemma dispatch_some_entry env cid js js' e x c :
  get cid (contacts (js_working js)) = Some c → dispatch_new_contact env cid js = (js', e, x) → is_Some e.
Proof.
  unfold dispatch_new_contact. intros ->. repeat case_match; intros [= <- <- <-]; by eexists.
Qed.

(** As long as nothing fails, every contact is taken up under its own claim. *)
Lemma dispatch_loop_claims envs w cids : ∀ js js' entries rs,
  NoDup cids →
  (∀ i, i ∈ cids → ∃ c, get i (contacts (js_working js)) = Some c ∧ ct_claimed_by c = Some w) →
  dispatch_loop envs cids js = (js', entries, rs) → length rs = length entries →
  Forall (λ e, je_claimed_by e = Some w) entries.
Proof.
  assert (∀ l js js' entries rs, dispatch_loop envs l js = (js', entries, rs) →
    (length rs ≤ length entries)%nat) as Hle.
  { induction l as [|cid r IH]; intros js js' entries rs; cbn [dispatch_loop]; [intros [= <- <- <-]; cbn; lia|].
    destruct (dispatch_new_contact (envs cid) cid js) as [[js1 e] x] eqn:E1.
    destruct (dispatch_loop envs r js1) as [[js2 es] xs] eqn:E2. intros [= <- <- <-].
    apply IH in E2. pose proof (dispatch_result_entry _ _ _ _ _ _ E1) as He.
    destruct e, x; cbn [length]; try lia. by destruct He; [eexists|]. }
  induction cids as [|cid r IH]; intros js js' entries rs Hnd Hcl; cbn [dispatch_loop].
  { intros [= <- <- <-] _. constructor. }
  apply NoDup_cons in Hnd as [Hn Hnd].
  destruct (dispatch_new_contact (envs cid) cid js) as [[js1 e] x] eqn:E1.
  destruct (dispatch_loop envs r js1) as [[js2 es] xs] eqn:E2. intros [= <- <- <-] Hlen.
  destruct (Hcl cid) as (c & Hg & Hc); [by left|].
  destruct (dispatch_some_entry _ _ _ _ _ _ _ Hg E1) as [e' ->].
  pose proof (Hle _ _ _ _ _ E2) as Hl2.
  destruct x as [x|]; cbn in Hlen; [|lia].
  apply Forall_cons. split.
  - apply dispatch_entry_claim in E1 as (c' & Hg' & ->). by assert (c' = c) as -> by congruence.
  - apply (IH js1 js2 es xs); [done| |done|lia]. intros i Hi. destruct (Hcl i) as (ci & Hgi & Hci); [by right|].
    exists ci. split; [|done]. rewrite (dispatch_new_contact_frame _ _ _ _ _ _ i E1); [done|]. by intros ->.
Qed.
End Dispatch.

(** Two due contacts of a native campaign, and a model whose call for the first
    one fails with an error that is not one of the provider's own. *)
Definition eve : Contact :=
  mkContact 2 2 (Some "Eve") "eve@corp.io" None None None CS_NEW 0 (Some 10) None None None 0%Q None None None 0 0.
Definition fred : Contact :=
  mkContact 3 2 (Some "Fred") "fred@corp.io" None None None CS_NEW 0 (Some 11) None None None 0%Q None None None 0 0.
Definition new_contacts_db : Db := set_contacts (Table [sample_contact; eve; fred] 4) sample_db.
Definition crashing_llm : LlmProvider := {|
  is_llm_available := true;
  provider_call_json := λ q,
    if Str.contains "Eve" (lq_human_prompt q) then Err (ProviderOther (mkExn (C_Other "KeyError") "'body'"))
    else Ok (mkJsonResult (JObj [("subject", JStr "Hello"); ("body", JStr "Happy to tell you more.")])
               "m" "m" 1 false "strict_schema");
  provider_call_text := λ _, Err (ProviderError RateLimitError "429")
|}.
Definition no_iso : FromIsoformat := λ _, None.
Definition willing_server : nat → Attempt := λ _, mkAttempt None None None None None.
Definition sample_env (i : Z) : SendEnv :=
  mkSendEnv live_settings willing_server (mkSeed 1 2 i) 20 (pretty i).

(** The first outreach of the due contacts, by worker w1. *)
Definition sample_dispatch_run (L : LlmProvider) : Db * list JobEntry * list EngineResult :=
  dispatch_new_contacts_job (H:=L) (H0:=no_iso) sqlite_session live_settings 300 "w1"
    sample_env 20 new_contacts_db.

(** Contacts are mailed under a claim only until the first error.  While every
    contact of a cycle is handled without an exception, each is taken up while
    its row is claimed by this worker.  An exception, however, rolls back the
    session, and with it the claims of the whole cycle if none was committed
    yet: in the sample the second contact is then mailed although its row is
    claimed by nobody, and another worker that asks at that moment is given
    the same contact. *)
Theorem dispatch_claims_until_failure :
  (∀ (L : LlmProvider) (I : FromIsoformat) s settings lease w envs u db db' entries rs,
     table_wf (contacts db) →
     dispatch_new_contacts_job s settings lease w envs u db = (db', entries, rs) →
     length rs = length entries → Forall (λ e, je_claimed_by e = Some w) entries) ∧
  (let '(_, entries, _) := sample_dispatch_run crashing_llm in
   map (λ e, (je_contact_id e, je_claimed_by e, sendmails (je_trace e))) entries
     = [(2, Some "w1", 0%nat); (3, None, 1%nat)] ∧
   In 3 (map ct_id (snd (claim_due_contacts sqlite_session live_settings 300 "w2" CS_NEW None 20
                            new_contacts_db)))).
Proof.
  split.
  - intros L I s settings lease w envs u db db' entries rs Hwf. unfold dispatch_new_contacts_job.
    destruct (recover_expired_claims false lease u db) as [db1 n] eqn:Er.
    apply recover_expired_rest in Er as (Hwf1 & _). specialize (Hwf1 Hwf).
    destruct (claim_due_contacts s settings lease w CS_NEW _ u db1) as [db2 due] eqn:Ec.
    destruct (map ct_id due) as [|i ids] eqn:Ei; [by intros [= <- <- <-] _|]. rewrite <- Ei.
    destruct (dispatch_loop envs _ _) as [[js es] xs] eqn:El. intros [= <- <- <-].
    pose proof (claim_due_contacts_spec _ _ _ _ _ _ _ _ _ _ Hwf1 Ec) as ((_ & Hwf2 & _) & _).
    intros Hl. refine (dispatch_loop_claims envs w _ _ _ _ _ (select_NoDup_ids _ _ Hwf2) _ El Hl).
    intros j (c & -> & Hc%list_elem_of_In)%list_elem_of_fmap. exists c.
    split; [apply (get_complete (contacts db2) c); [done|by apply select_In in Hc as [? _]]|].
    by destruct (reload_claimed_due _ _ _ _ _ _ _ _ _ _ _ Hwf1 Ec Hc) as (c0 & -> & _).
  - vm_compute. split; [reflexivity|]. right. by left.
Qed.

(** The two suppression lookups of the program agree: the engine's and the
    dispatch path's answer the same for every database, address and tenant. *)
Theorem suppression_lookups_agree db email org :
  is_suppressed db email org = is_email_suppressed db email org.
Proof. apply is_suppressed_parity. Qed.

(** A suppressed address is never mailed, but neither is its contact moved: a NEW
    contact whose address is suppressed is skipped with no draft, no message
    and no SMTP connection, and stays NEW and due, because the state machine
    has no such edge, so that every later cycle takes it up again. *)
Theorem suppressed_new_contact_stays_due `{LlmProvider} `{FromIsoformat} env db contact :
  contact_is_integration_managed db (Some contact) = false →
  is_suppressed db (ct_email contact) None = true → ct_status contact = CS_NEW →
  send_initial_outreach env db contact
  = mkStep contact [] (Ok (simple_result contact "skipped_suppressed")) [].
Proof.
  intros Hm Hs Hn. unfold send_initial_outreach. rewrite Hm, Hs. unfold transition_contact_state. by rewrite Hn.
Qed.

(** *** Witnesses *)

Lemma native_sends_are_gated_witness :
  ∃ m res, In (EvSendmail "ann@acme.io" "eve@corp.io" m res)
    (st_trace (send_initial_outreach (H:=sample_llm) (H0:=no_iso) (sample_env 9) new_contacts_db eve))
    ∧ ∃ campaign, cleared_to_send new_contacts_db eve campaign (mime_text m).
Proof.
  set (s := send_initial_outreach (H:=sample_llm) (H0:=no_iso) (sample_env 9) new_contacts_db eve).
  destruct (List.find is_sendmail (st_trace s)) as [ev|] eqn:E; [|vm_compute in E; discriminate E].
  pose proof (find_some _ _ E) as [Hin _]. vm_compute in E. injection E as <-.
  eexists _, _. split; [exact Hin|].
  destruct (proj2 (proj2 (native_sends_are_gated (H:=sample_llm) (H0:=no_iso) (sample_env 9)
    new_contacts_db eve (loaded eve) _ _ _ _)) (or_introl Hin)) as (_ & campaign & Hc & _).
  exists campaign. exact Hc.
Defined.

Lemma followup_sent_only_when_due_witness :
  ct_status native_contact = CS_ACTIVE ∧
  st_trace (send_followup_if_due (H:=sample_llm) (H0:=no_iso) (sample_env 9) sample_db native_contact
    (mkTimes (Some (Aware 10 0)) None None)) ≠ [].
Proof.
  assert (st_trace (send_followup_if_due (H:=sample_llm) (H0:=no_iso) (sample_env 9) sample_db
    native_contact (mkTimes (Some (Aware 10 0)) None None)) ≠ []) as Hne by (vm_compute; discriminate).
  split; [|exact Hne].
  exact (proj1 (followup_sent_only_when_due (H:=sample_llm) (H0:=no_iso) (sample_env 9) sample_db
    native_contact (mkTimes (Some (Aware 10 0)) None None) (or_introl Hne))).
Defined.

Lemma initial_outcome_recorded_witness :
  ∃ mk, st_new (send_initial_outreach (H:=sample_llm) (H0:=no_iso) (sample_env 9) new_contacts_db eve)
        = [mk] ∧ msg_status (mk 9) = MS_SENT.
Proof.
  destruct (initial_outcome_recorded (H:=sample_llm) (H0:=no_iso) (sample_env 9) new_contacts_db eve)
    as (r & mk & m & Hn & Hs & _); [vm_compute; discriminate|].
  exists mk. split; [exact Hn|]. vm_compute in Hn. injection Hn as <-. reflexivity.
Defined.

Lemma followup_cycle_sends_nothing_witness :
  ∃ db', run_followup_cycle (H:=sample_llm) (H0:=no_iso) sqlite_session live_settings 300 "w1" None
    sample_env 20 sample_db = (Ok (db', []), []).
Proof.
  destruct (followup_cycle_sends_nothing (H:=sample_llm) (H0:=no_iso) sqlite_session live_settings 300 "w1" None
    sample_env 20 sample_db (wf_contacts _ sample_db_wf)) as (db' & E & _).
  by exists db'.
Defined.

Lemma triple_eta {A B C} (x : A * B * C) : x = (fst (fst x), snd (fst x), snd x).
Proof. by destruct x as [[] ]. Qed.

Lemma dispatch_claims_until_failure_witness :
  Forall (λ e, je_claimed_by e = Some "w1")
    (snd (fst (dispatch_new_contacts_job (H:=sample_llm) (H0:=no_iso) sqlite_session live_settings 300 "w1"
      sample_env 20 new_contacts_db))).
Proof.
  refine (proj1 dispatch_claims_until_failure sample_llm no_iso sqlite_session live_settings 300 "w1"
    sample_env 20 new_contacts_db _ _ _ _ (triple_eta _) _); [table_wf|vm_compute; reflexivity].
Defined.

Definition suppressed_db : Db :=
  set_suppressions (Table [mkSuppressionEntry 1 "eve@corp.io" (Some "other") (Some "unsubscribed") 0] 2) new_contacts_db.

Lemma suppressed_new_contact_stays_due_witness :
  ct_status (st_contact (send_initial_outreach (H:=sample_llm) (H0:=no_iso) (sample_env 9)
    suppressed_db eve)) = CS_NEW.
Proof.
  rewrite (suppressed_new_contact_stays_due (H:=sample_llm) (H0:=no_iso) (sample_env 9) suppressed_db eve);
    reflexivity.
Defined.
