(* ===== verification/Inbound.v ===== *)
(** * Inbound replies ([src/mailer_agent/mail/reply_handler_v2.py])

    Correlation of an inbound message with a contact, its storage, and what the
    reply leads to.  [process_mailbox_inbound] serves mail polled through one
    tenant's mailbox, [process_inbound_email_v2] the webhook and the
    deployment-wide poller.  Both run inside the caller's transaction: the
    result is the database as the transaction leaves it, or the exception, and
    the SMTP trace of an automatic reply.  Classifier and planner are
    interfaces. *)

From S2P Require Import Prelude Sql Models Config Samples SemanticModels StateMachine Sender Regex Threading Grounding ExactMessage Llm Memory Classifier Guardrails Scheduling FollowUp.

#[local] Open Scope bool_scope.

(** ** Data *)

(** [mail.imap_reader.InboundEmail]. *)
Record InboundEmail := mkInbound {
  ie_from_email : string;
  ie_subject : string;
  ie_body_text : string;
  ie_message_id : option string;
  ie_in_reply_to : option string;
  ie_references : list string;
  ie_to_email : option string;
  ie_auto_submitted : bool;
  ie_synthetic_id : option string
}.

(** The result dict; an absent key is [None]. *)
Record InboundResult := mkInboundResult {
  rs_matched : bool;
  rs_contact_id : option Z;
  rs_action : option string;
  rs_message_id : option (option Z);
  rs_from_email : option string;
  rs_reason : option string;
  rs_classification_success : option bool;
  rs_primary_intent : option string;
  rs_confidence : option Q;
  rs_planner_action_type : option string;
  rs_approval_reason : option string
}.
Definition result_unmatched (from_email action reason : option string) : InboundResult :=
  mkInboundResult false None action None from_email reason None None None None None.
Definition result_duplicate (contact_id : Z) (message_id : option Z) : InboundResult :=
  mkInboundResult true (Some contact_id) (Some "skipped_duplicate") (Some message_id) None None None None None
    None None.

(** What one call sees of its surroundings: the send of an automatic reply, the
    fresh handle of the inbound row, and whether another transaction commits
    the very suppression this one is about to insert, after it has looked for
    it and before its flush. *)
Record InboundEnv := mkInboundEnv {
  in_send : SendEnv;
  in_reply_reference : string;
  in_suppression_raced : bool
}.
Definition in_utcnow (env : InboundEnv) : Z := se_utcnow (in_send env).

Class Planner := plan_next_action : SemanticIntent → string → string → result exn NextActionProposal.

(** [replace(email_in, ...)] with normalized threading identifiers. *)
Definition truthy_list (l : list (option string)) : list string :=
  omap (λ o, if truthy o then o else None) l.
Definition normalize_inbound (e : InboundEmail) : InboundEmail :=
  mkInbound (ie_from_email e) (ie_subject e) (ie_body_text e) (normalize_message_id (ie_message_id e))
    (normalize_message_id (ie_in_reply_to e))
    (truthy_list (map (λ r, normalize_message_id (Some r)) (ie_references e)))
    (ie_to_email e) (ie_auto_submitted e) (ie_synthetic_id e).

(** ** Queries *)

(** The tenant of a contact and of a message (joins to Campaign). *)
Definition contact_org (db : Db) (c : Contact) : option string :=
  match contact_campaign db c with Some cm => cp_organization_id cm | None => None end.
Definition message_contact (db : Db) (m : Message) : option Contact := get (msg_contact_id m) (contacts db).
Definition message_org (db : Db) (m : Message) : option string :=
  match message_contact db m with Some c => contact_org db c | None => None end.

(** [_scope_messages_to_org] as a condition on a message. *)
Definition scope_messages_to_org (db : Db) (organization_id : option string) (m : Message) : bool :=
  match organization_id with None => true | Some o => message_org db m == Some o end.

(** [.order_by(key.desc()).first()]: a row with the greatest key, the first of them. *)
Definition first_desc {A} (key : A → Z) (l : list A) : option A :=
  fold_left (λ best x, match best with
                       | None => Some x
                       | Some b => if key b <? key x then Some x else Some b
                       end) l None.

Definition references_of (e : InboundEmail) : option string :=
  match ie_references e with [] => None | l => Some (Str.join " " l) end.

(** An inbound row. *)
Definition inbound_row (env : InboundEnv) (e : InboundEmail) (contact_id : Z) (mailbox_id : option Z)
    (identity : option string) (id : Z) : Message :=
  mkMessage id contact_id INBOUND None (Some (ie_subject e)) (ie_body_text e) MS_RECEIVED identity
    (ie_in_reply_to e) (references_of e) None None None None None None mailbox_id (in_utcnow env)
    (Some (in_reply_reference env)).

(** ** Mailbox-bound storage *)

Definition handler_error (cls message : string) : exn := mkExn (C_Other cls) message.

Definition find_inbound_message (db : Db) (mailbox_id : Z) (identity organization_id : string)
    : option Message :=
  select_first
    (λ m, (msg_mailbox_id m == Some mailbox_id) && (msg_message_id_header m == Some identity)
          && (msg_direction m == INBOUND) && (message_org db m == Some organization_id))
    (messages db).

(** The index the conflict clause of the insert names. *)
Definition mailbox_message_clash (n r : Message) : bool :=
  same_some (msg_mailbox_id n) (msg_mailbox_id r)
  && same_some (msg_message_id_header n) (msg_message_id_header r).

(** INSERT ... ON CONFLICT (mailbox_id, message_id_header) DO NOTHING RETURNING id;
    any other conflict raises. *)
Definition insert_correlated_message (env : InboundEnv) (e : InboundEmail) (contact_id : Z) (identity : string)
    (mailbox_id : Z) (organization_id : string) (db : Db) : result exn (Db * Message * bool) :=
  let mk := inbound_row env e contact_id (Some mailbox_id) (Some identity) in
  if existsb (mailbox_message_clash (mk (next_id (messages db)))) (rows (messages db)) then
    match find_inbound_message db mailbox_id identity organization_id with
    | Some existing => Ok (db, existing, false)
    | None =>
        Err (handler_error "MessagePersistenceNotConfirmedError"
               ("mailbox " +:+ pretty mailbox_id +:+ ": the insert conflicted but no inbound message for this tenant, mailbox "
                +:+ "and Message-ID exists"))
    end
  else
    x ← insert_message mk db;
    mret (snd x, fst x, true).

Definition retained_row_exists (db : Db) (mailbox_id : Z) (identity organization_id : string) : bool :=
  is_not_none (select_first
    (λ u, (um_mailbox_id u == mailbox_id) && (um_message_id_header u == identity)
          && (um_organization_id u == organization_id)) (unmatched db)).

Definition unmatched_row (env : InboundEnv) (e : InboundEmail) (identity : string) (mailbox_id : Z)
    (organization_id reason : string) (id : Z) : UnmatchedInboundMessage :=
  mkUnmatched id mailbox_id organization_id identity reason (Some (ie_from_email e)) (Some (ie_subject e))
    (ie_body_text e) (ie_in_reply_to e) (references_of e) (in_utcnow env) None.

(** INSERT ... ON CONFLICT DO NOTHING, then the row is confirmed. *)
Definition retain_unmatched (env : InboundEnv) (e : InboundEmail) (identity : string) (mailbox_id : Z)
    (organization_id reason : string) (db : Db) : result exn Db :=
  let mk := unmatched_row env e identity mailbox_id organization_id reason in
  let db := match insert_unique unmatched_clash "uq_unmatched_inbound_mailbox_message_id" mk (unmatched db) with
            | Ok (_, t) => set_unmatched t db
            | Err _ => db
            end in
  if retained_row_exists db mailbox_id identity organization_id then Ok db
  else Err (handler_error "RetentionNotConfirmedError"
              ("mailbox " +:+ pretty mailbox_id +:+ ": no retained row with the exact identity exists after the insert")).

(** ** Correlation *)

Definition UNMATCHED : string := "no_match".
Definition AMBIGUOUS : string := "ambiguous".

Definition candidate_ids (e : InboundEmail) : list string :=
  List.filter (λ v, truthy (Some v) && negb (is_synthetic_id (Some v)))
    (match ie_in_reply_to e with Some v => [v] | None => [] end ++ ie_references e).

(** Does a stored message of this tenant belong to this mailbox? *)
Definition eligible_parent (db : Db) (mailbox_id : Z) (organization_id : string) (m : Message) : bool :=
  match msg_direction m with
  | INBOUND => msg_mailbox_id m == Some mailbox_id
  | OUTBOUND =>
      match select_first (λ d, (ed_message_id d == Some (msg_id m)) && (ed_organization_id d == organization_id))
              (dispatches db) with
      | None => true
      | Some d => ed_mailbox_id d == Some mailbox_id
      end
  end.

Definition thread_parents (db : Db) (e : InboundEmail) (mailbox_id : Z) (organization_id : string) : list Message :=
  select (λ m, (message_org db m == Some organization_id)
               && match msg_message_id_header m with
                  | Some h => in_list h (candidate_ids e) && negb (Str.startswith SYNTHETIC_ID_PREFIX h)
                  | None => false
                  end
               && eligible_parent db mailbox_id organization_id m) (messages db).

(** The set of contacts of the eligible parents. *)
Definition thread_contacts (db : Db) (e : InboundEmail) (mailbox_id : Z) (organization_id : string) : list Z :=
  remove_dups (map msg_contact_id (thread_parents db e mailbox_id organization_id)).

Definition sender_contacts (db : Db) (e : InboundEmail) (organization_id : string) : list Contact :=
  select (λ c, (contact_org db c == Some organization_id) && (Str.lower (ct_email c) == ie_from_email e)
               && (ct_status c != CS_SUPPRESSED)) (contacts db).

Definition correlate_mailbox_inbound (db : Db) (e : InboundEmail) (mailbox_id : Z) (organization_id : string)
    : result string Contact :=
  match thread_contacts db e mailbox_id organization_id with
  | [cid] => match get cid (contacts db) with Some c => Ok c | None => Err UNMATCHED end
  | _ :: _ :: _ => Err AMBIGUOUS
  | [] =>
      if ie_from_email e == "" then Err UNMATCHED
      else match sender_contacts db e organization_id with
           | [c] => Ok c
           | _ :: _ :: _ => Err AMBIGUOUS
           | [] => Err UNMATCHED
           end
  end.

(** The webhook's two correlations. *)
Definition find_contact_by_message_id (db : Db) (e : InboundEmail) (organization_id : option string)
    : option Contact :=
  let candidates := (match ie_in_reply_to e with
                     | Some v => if truthy (Some v) then [v] else []
                     | None => []
                     end) ++ ie_references e in
  match candidates with
  | [] => None
  | _ =>
      match first_desc msg_created_at
              (select (λ m, match msg_message_id_header m with Some h => in_list h candidates | None => false end
                            && scope_messages_to_org db organization_id m) (messages db)) with
      | Some m => message_contact db m
      | None => None
      end
  end.

Definition find_contact_by_email (db : Db) (e : InboundEmail) (organization_id : option string)
    : option Contact :=
  let matches c :=
    (ct_email c == ie_from_email e) && (ct_status c != CS_SUPPRESSED)
    && match organization_id with None => true | Some o => contact_org db c == Some o end in
  if truthy (ie_to_email e) then
    first_desc ct_updated_at
      (select (λ c, matches c
                    && match contact_campaign db c with
                       | Some cm => Some (cp_sender_email cm) == ie_to_email e
                       | None => false
                       end) (contacts db))
  else match select matches (contacts db) with [c] => Some c | _ => None end.

(** An explicit thread reference that is not resolved is never replaced by a
    match of the sender's address. *)
Definition correlate_inbound (db : Db) (e : InboundEmail) (organization_id : option string) : option Contact :=
  let thread_reference_present :=
    truthy (ie_in_reply_to e) || match ie_references e with [] => false | _ => true end in
  match find_contact_by_message_id db e organization_id with
  | Some c => Some c
  | None => if thread_reference_present then None else find_contact_by_email db e organization_id
  end.

(** ** What a reply leads to *)

Definition advance_integration_contact (db : Db) (contact : Contact) (event : StateTransitionEvent) (utcnow : Z)
    : Contact :=
  let contact :=
    if (ct_status contact == CS_NEW)
       && is_not_none (select_first (λ m, (msg_contact_id m == ct_id contact) && (msg_direction m == OUTBOUND)
                                          && (msg_status m == MS_SENT)) (messages db))
    then fst (transition_contact_state contact EV_INITIAL_SENT utcnow) else contact in
  match transition_contact_state contact event utcnow with
  | (c, true) => c
  | (c, false) =>
      match transition_contact_state c EV_REPLY_RECEIVED utcnow with
      | (c, true) => fst (transition_contact_state c event utcnow)
      | (c, false) => c
      end
  end.

(** [_handle_unsubscribe]: the suppression rows and the contact afterwards.
    The row is only added to the session; the unique constraint on (email,
    organization) is checked at the flush, and refuses it when another
    transaction has committed the same suppression since the query (a row
    without an organization never collides).  Nothing but the flush's error is
    left of the transaction then. *)
Definition handle_unsubscribe (env : InboundEnv) (db : Db) (contact : Contact) : result exn (Db * Contact) :=
  let org_id := contact_org db contact in
  let mk i := mkSuppressionEntry i (ct_email contact) org_id (Some "unsubscribed") (in_utcnow env) in
  db ← match select_first (λ s, (sup_email s == ct_email contact) && (sup_organization_id s == org_id))
               (suppressions db) with
       | Some _ => Ok db
       | None =>
           if in_suppression_raced env && is_not_none org_id
           then Err (handler_error "IntegrityError" "uq_suppression_email_org")
           else match insert_unique suppression_clash "uq_suppression_email_org" mk (suppressions db) with
                | Ok (_, t) => Ok (set_suppressions t db)
                | Err _ => Err (handler_error "IntegrityError" "uq_suppression_email_org")
                end
       end;
  mret (db, set_ct_next_action_at None (fst (transition_contact_state contact EV_UNSUBSCRIBED (in_utcnow env)))).

(** The facts the planner sees; [l] is [contact.messages], whose last inbound
    row already carries this turn's analysis. *)
Definition build_known_facts_summary `{FloatRepr} (intent : SemanticIntent) (l : list Message)
    (contact : Contact) (campaign : Campaign) : result exn string :=
  let approved :=
    "Approved campaign/contact content (the only source of business facts a reply may draw from):" +:+ newline
    +:+ Str.join newline
          ["value proposition: " +:+ cp_value_prop campaign;
           "proof points: "
           +:+ py_or (cp_proof_points campaign)
                 "(none approved -- nothing beyond the value proposition above is available)";
           "approved facts about this contact: " +:+ py_or (ct_context_notes contact) "(none recorded)"] in
  accumulated ← build_known_facts_context l;
  let describe label f :=
    label +:+ " (this message): " +:+ fc_value f +:+ " (certainty=" +:+ Certainty_value (fc_certainty f) +:+ ")" in
  let this_turn_lines :=
    (match si_current_solution intent with Some f => [describe "current_solution" f] | None => [] end)
    ++ map (describe "fact") (si_new_facts intent)
    ++ (match si_contradicted_facts intent with
        | [] => []
        | fs => ["contradicts earlier (this message): " +:+ py_repr (jstrs fs)]
        end) in
  mret (Str.join newline
    (List.filter (λ p, p != "") [approved; accumulated; Str.join newline this_turn_lines])).

(** Keys of the result dict. *)
Definition matched_result (contact_id : Z) (classification_success : bool) : InboundResult :=
  mkInboundResult true (Some contact_id) None None None None (Some classification_success) None None None None.
Definition set_rs_action (action : string) (r : InboundResult) : InboundResult :=
  mkInboundResult (rs_matched r) (rs_contact_id r) (Some action) (rs_message_id r) (rs_from_email r) (rs_reason r)
    (rs_classification_success r) (rs_primary_intent r) (rs_confidence r) (rs_planner_action_type r)
    (rs_approval_reason r).
Definition set_rs_intent (primary : string) (confidence : Q) (r : InboundResult) : InboundResult :=
  mkInboundResult (rs_matched r) (rs_contact_id r) (rs_action r) (rs_message_id r) (rs_from_email r) (rs_reason r)
    (rs_classification_success r) (Some primary) (Some confidence) (rs_planner_action_type r)
    (rs_approval_reason r).
Definition set_rs_reply (message_id : option (option Z)) (planner_action_type approval_reason : option string)
    (r : InboundResult) : InboundResult :=
  mkInboundResult (rs_matched r) (rs_contact_id r) (rs_action r) message_id (rs_from_email r) (rs_reason r)
    (rs_classification_success r) (rs_primary_intent r) (rs_confidence r) planner_action_type approval_reason.

Definition auto_reply_action (o : SendOutcome) : string :=
  match o with SO_SENT => "auto_replied" | SO_FAILED => "auto_reply_failed" | SO_UNKNOWN => "auto_reply_unknown" end.

(** The row of a reply. *)
Definition reply_row (env : InboundEnv) (e : InboundEmail) (contact : Contact) (action_type body : string)
    (status : MessageStatus) (message_id error : option string) (id : Z) : Message :=
  mkMessage id (ct_id contact) OUTBOUND (Some (if action_type == "reply" then MT_REPLY else MT_CLOSING))
    (Some (as_reply_subject (Some (ie_subject e)))) body status message_id (ie_message_id e)
    (build_references_header (ie_references e) (ie_in_reply_to e) (ie_message_id e))
    None None None None None error None (in_utcnow env) (Some (se_reply_reference (in_send env))).

Definition reply_args (e : InboundEmail) (contact : Contact) (campaign : Campaign) (body : string) : SendArgs :=
  mkSendArgs (ct_email contact) (cp_sender_email campaign) (cp_sender_name campaign)
    (as_reply_subject (Some (ie_subject e))) body (cp_reply_to_email campaign) (ie_message_id e)
    (build_references_header (ie_references e) (ie_in_reply_to e) (ie_message_id e)) None None.

(** The contact after an automatic reply. *)
Definition after_auto_reply (env : InboundEnv) (contact : Contact) (r : SendResult) : Contact :=
  if sr_success r then set_ct_last_outbound_at (Some (in_utcnow env)) contact
  else if sr_outcome r == SO_UNKNOWN
  then set_ct_next_action_at None (fst (transition_contact_state contact EV_NEEDS_HUMAN (in_utcnow env)))
  else contact.

Definition manual_draft_reason : string :=
  "LLM was unavailable, so no automated draft could be safely "
  +:+ "generated for this reply -- a human must write it from scratch.".

(** [_draft_and_maybe_send_reply]; [l] is [contact.messages].  The reply has no
    identity yet when the result is written: the key [message_id] is [None]. *)
Definition draft_and_maybe_send_reply `{LlmProvider} `{FloatRepr} `{Planner} (env : InboundEnv) (db : Db)
    (l : list Message) (contact : Contact) (campaign : Campaign) (e : InboundEmail) (intent : SemanticIntent)
    (transcript : string) (res : InboundResult) : Step InboundResult :=
  let stop err := mkStep contact [] (Err err) [] in
  match (known ← build_known_facts_summary intent l contact campaign; plan_next_action intent transcript known) with
  | Err err => stop err
  | Ok proposal =>
  let authorized := authorize_action proposal intent (auto_reply_enabled (se_settings (in_send env))) in
  let action_type := au_draft_action_type authorized in
  match draft_message campaign contact action_type transcript None (Some (np_objective proposal))
          (Some (np_reason proposal)) with
  | Err (ContextualFallbackUnavailable _) =>
      mkStep (fst (transition_contact_state contact EV_NEEDS_HUMAN (in_utcnow env))) []
        (Ok (set_rs_reply None None (Some manual_draft_reason) (set_rs_action "reply_needs_manual_draft" res))) []
  | Err (DraftOther err) => stop err
  | Ok draft =>
      let suppressed := is_suppressed db (ct_email contact) (cp_organization_id campaign) in
      let planned := Some (ActionType_value (np_action_type proposal)) in
      if au_can_auto_send authorized && is_none (held_notes draft) && negb suppressed then
        match send_email (se_settings (in_send env)) (se_smtp (in_send env)) (se_seed (in_send env))
                (reply_args e contact campaign (ad_body draft)) with
        | (Err err, trace) => mkStep contact [] (Err err) trace
        | (Ok r, trace) =>
            mkStep (after_auto_reply env contact r)
              [reply_row env e contact action_type (ad_body draft) (message_status_of_outcome (sr_outcome r))
                 (sr_message_id r) (sr_error r)]
              (Ok (set_rs_reply (Some None) planned None (set_rs_action (auto_reply_action (sr_outcome r)) res)))
              trace
        end
      else
        let approval_reason :=
          if suppressed then "Contact is on the suppression list"
          else match held_notes draft with
               | Some notes => "Grounding: " +:+ notes
               | None => py_or (au_review_reason authorized) "Requires review"
               end in
        mkStep contact [reply_row env e contact action_type (ad_body draft) MS_DRAFT None None]
          (Ok (set_rs_reply (Some None) planned (Some approval_reason)
                 (set_rs_action "reply_drafted_awaiting_approval" res))) []
  end
  end.

(** ** Classification and its consequences *)

Definition primary_value (i : SemanticIntent) : string :=
  match si_intents i with x :: _ => IntentType_value x | [] => "neutral" end.

(** The inbound row, the contact and the interpretation after the
    classification has been stored. *)
Definition store_classification (env : InboundEnv) (cr : ClassificationResult) (m : Message) (contact : Contact)
    : Message * Contact * option SemanticIntent :=
  let m := set_msg_classification_success (Some (cr_success cr)) m in
  match (if cr_success cr then cr_semantic_intent cr else None) with
  | Some i =>
      let i := attach_fact_provenance (msg_id m) (Clock.isoformat_utc (in_utcnow env)) i in
      (set_msg_intent_confidence (Some (si_confidence i))
         (set_msg_detected_intent (Some (primary_value i))
            (set_msg_semantic_analysis (Some (serialize_semantic_intent i)) m)),
       set_ct_buying_stage (Some (BuyingStage_value (si_buying_stage i))) contact, Some i)
  | None =>
      (set_msg_intent_confidence (Some 0%Q)
         (set_msg_detected_intent (Some "unknown")
            (set_msg_classification_failure_reason
               (Some match cr_failure_reason cr with
                     | Some r => ClassificationFailureReason_value r
                     | None => "unknown"
                     end) m)),
       contact, None)
  end.

Definition write_message (m : Message) (db : Db) : Db :=
  set_messages (fst (update_pk (msg_id m) (λ _, true) (λ _, m) (messages db))) db.

Section Handler.
Context `{LlmProvider} `{FloatRepr} `{FromIsoformat} `{Classifier} `{Planner}.

(** Step 5: what the interpretation leads to. *)
Definition apply_reading (env : InboundEnv) (db : Db) (l : list Message) (contact : Contact) (campaign : Campaign)
    (e : InboundEmail) (transcript : string) (success : bool) (reading : option SemanticIntent)
    : Db * Step InboundResult :=
  let now := in_utcnow env in
  let res := matched_result (ct_id contact) success in
  let human c := fst (transition_contact_state c EV_NEEDS_HUMAN now) in
  if negb success then
    (db, mkStep (set_ct_next_action_at None (human contact)) []
           (Ok (set_rs_action "needs_review_classification_failed" res)) [])
  else match reading with
  | None => (db, mkStep (human contact) [] (Ok (set_rs_action "needs_review_missing_intent" res)) [])
  | Some intent =>
      let res := set_rs_intent (primary_value intent) (si_confidence intent) res in
      let event := infer_event_from_semantic_intent intent in
      if in_list UNSUBSCRIBE (si_intents intent) then
        match handle_unsubscribe env db contact with
        | Ok (db, c) => (db, mkStep c [] (Ok (set_rs_action "suppressed" res)) [])
        | Err err => (db, mkStep contact [] (Err err) [])
        end
      else if in_list NOT_INTERESTED (si_intents intent) then
        (db, mkStep (set_ct_next_action_at None (fst (transition_contact_state contact EV_NOT_INTERESTED now))) []
               (Ok (set_rs_action "closed_lost" res)) [])
      else if in_list OUT_OF_OFFICE (si_intents intent) then
        (db, mkStep contact [] (Ok (set_rs_action "ignored_oos" res)) [])
      else if contact_is_integration_managed db (Some contact) then
        (db, mkStep (set_ct_next_action_at None (advance_integration_contact db contact event now)) []
               (Ok (set_rs_action "recorded_integration_managed" res)) [])
      else
        let c := fst (transition_contact_state contact event now) in
        match reschedule_after_reply campaign intent now with
        | Err err => (db, mkStep c [] (Err err) [])
        | Ok t =>
            (db, draft_and_maybe_send_reply env db l (set_ct_next_action_at (column_of t) c) campaign e intent
                   transcript res)
        end
  end.

(** [_classify_and_apply_inbound]: the database the transaction leaves, or the
    exception, and the SMTP trace. *)
Definition classify_and_apply_inbound (env : InboundEnv) (e : InboundEmail) (contact : Contact)
    (campaign : Campaign) (inbound_msg : Message) (db : Db)
    : result exn (Db * InboundResult) * list smtp_event :=
  let now := in_utcnow env in
  let contact := set_ct_last_reply_at (Some now) contact in
  let transcript := build_conversation_context db contact in
  let cr := classify_prospect_reply campaign contact (ie_body_text e) transcript (ie_auto_submitted e) in
  let '(inbound_msg, contact, reading) := store_classification env cr inbound_msg contact in
  let l := map (λ m, if msg_id m =? msg_id inbound_msg then inbound_msg else m) (contact_messages db contact) in
  let '(db, s) := apply_reading env db l contact campaign e transcript (cr_success cr) reading in
  ((res ← st_result s;
    db ← flush now s (write_message inbound_msg db);
    c ← maybe_summarize_older_messages l (st_contact s);
    mret (write_contact now c db, res)),
   st_trace s).

(** ** Entry points

    [race] is what other transactions commit between this transaction's reads
    and its insert; an object that was loaded before is written back whole, so
    it stands for inserted rows, not for concurrent changes of the contact. *)

(** Retained copies of a message that has been attached now. *)
Definition resolve_retained (mailbox_id : Z) (identity : string) (utcnow : Z) (db : Db) : Db :=
  set_unmatched
    (fst (update_where (λ u, (um_mailbox_id u == mailbox_id) && (um_message_id_header u == identity)
                             && is_none (um_resolved_at u))
            (set_um_resolved_at (Some utcnow)) (unmatched db))) db.

Definition process_mailbox_inbound (env : InboundEnv) (race : Db → Db) (email : InboundEmail) (mailbox_id : Z)
    (organization_id : string) (db : Db) : result exn (Db * InboundResult) * list smtp_event :=
  let e := normalize_inbound email in
  match or_opt (ie_message_id e) (ie_synthetic_id e) with
  | None | Some "" =>
      (raises "ValueError" "mailbox inbound requires a Message-ID or synthetic identity", [])
  | Some identity =>
      match find_inbound_message db mailbox_id identity organization_id with
      | Some existing => (Ok (db, result_duplicate (msg_contact_id existing) (Some (msg_id existing))), [])
      | None =>
          match correlate_mailbox_inbound db e mailbox_id organization_id with
          | Err reason =>
              ((db ← retain_unmatched env e identity mailbox_id organization_id reason (race db);
                mret (db, result_unmatched None (Some ("unmatched_" +:+ reason)) (Some reason))), [])
          | Ok contact =>
              let campaign := contact_campaign db contact in
              match insert_correlated_message env e (ct_id contact) identity mailbox_id organization_id (race db) with
              | Err err => (Err err, [])
              | Ok (db, m, false) => (Ok (db, result_duplicate (msg_contact_id m) (Some (msg_id m))), [])
              | Ok (db, m, true) =>
                  match campaign with
                  | None => (Err (attribute_error "NoneType" "value_prop"), [])
                  | Some campaign =>
                      classify_and_apply_inbound env e contact campaign m
                        (resolve_retained mailbox_id identity (in_utcnow env) db)
                  end
              end
          end
      end
  end.

(** The webhook's lookup of a message already stored. *)
Definition find_by_message_id (db : Db) (message_id : option string) (organization_id : option string)
    : option Message :=
  select_first (λ m, (msg_message_id_header m == message_id) && (msg_direction m == INBOUND)
                     && scope_messages_to_org db organization_id m) (messages db).

(** In a session that has changed [base] to [db] and not committed: a refused
    insert rolls all of that back. *)
Definition process_in_session (env : InboundEnv) (race : Db → Db) (email : InboundEmail)
    (organization_id : option string) (base db : Db) : result exn (Db * InboundResult) * list smtp_event :=
  let e := normalize_inbound email in
  match (if truthy (ie_message_id e) then find_by_message_id db (ie_message_id e) organization_id else None) with
  | Some existing => (Ok (db, result_duplicate (msg_contact_id existing) (Some (msg_id existing))), [])
  | None =>
      match correlate_inbound db e organization_id with
      | None => (Ok (db, result_unmatched (Some (ie_from_email e)) None None), [])
      | Some contact =>
          let campaign := contact_campaign db contact in
          match insert_message (inbound_row env e (ct_id contact) None (ie_message_id e)) (race db) with
          | Err _ =>
              let db := race base in
              let existing := find_by_message_id db (ie_message_id e) organization_id in
              if is_not_none organization_id && is_none existing
              then (Ok (db, result_unmatched (Some (ie_from_email e)) None None), [])
              else (Ok (db, result_duplicate
                              (match existing with Some x => msg_contact_id x | None => ct_id contact end)
                              (msg_id <$> existing)), [])
          | Ok (m, db) =>
              match campaign with
              | None => (Err (attribute_error "NoneType" "value_prop"), [])
              | Some campaign => classify_and_apply_inbound env e contact campaign m db
              end
          end
      end
  end.

(** A request's session has changed nothing before. *)
Definition process_inbound_email_v2 (env : InboundEnv) (race : Db → Db) (email : InboundEmail)
    (organization_id : option string) (db : Db) : result exn (Db * InboundResult) * list smtp_event :=
  process_in_session env race email organization_id db db.
End Handler.
