(* ===== verification/Planning.v ===== *)
(** * Next-action planner ([src/mailer_agent/policy/next_action.py])

    The summary and the prompt given to the planning model ([build_planner_prompt]
    of [llm/prompts.py]) and the translation of its answer into a
    [NextActionProposal], with the conservative escalation when there is no
    usable answer.  The result implements the interface [Planner] on which the
    inbound handler relies; the drafting call is checked against its response
    schema too. *)

From S2P Require Import Prelude Sql Models Config Samples SemanticModels Guardrails Sender Regex Threading Grounding ExactMessage Llm LlmSchemas Memory Classifier SemanticParsing Scheduling FollowUp Inbound.

#[local] Open Scope bool_scope.

#[global] Program Instance ActionType_wire : WireEnum ActionType := {|
  members := [ACKNOWLEDGE; ANSWER; CLARIFY; ASK_TARGETED_QUESTION; ADDRESS_OBJECTION; PROVIDE_REQUESTED_INFORMATION;
              PROPOSE_NEXT_STEP; REQUEST_MISSING_INFORMATION; DEFER; AT_NURTURE; ESCALATE];
  wire := ActionType_value |}.
Next Obligation. by destruct x, y. Qed.
Next Obligation. wire_members. Qed.

Definition DEFAULT_BUSINESS_OBJECTIVE : string :=
  "Progress toward a qualified next step (a call, meeting, or other "
  +:+ "concrete conversation) by being genuinely useful and honest in "
  +:+ "response to what the prospect actually says -- never by pushing "
  +:+ "toward that step at the cost of relevance or honesty.".

(** [if l: lines.append(f"{label}: {l}")] *)
Definition list_line (label : string) (l : list string) : list string :=
  match l with [] => [] | _ => [label +:+ ": " +:+ Str.repr_list l] end.
Definition flag_line (b : bool) (name : string) : list string := if b then [name +:+ ": true"] else [].
Definition py_bool (b : bool) : string := if b then "True" else "False".

Definition semantic_summary `{FloatRepr} (intent : SemanticIntent) : string :=
  Str.join newline
    (["intents: " +:+ Str.repr_list (map IntentType_value (si_intents intent));
      "speech_act: " +:+ match si_speech_act intent with Some a => SpeechAct_value a | None => "unknown" end;
      "sentiment: " +:+ SentimentType_value (si_sentiment intent);
      "buying_stage: " +:+ BuyingStage_value (si_buying_stage intent);
      "urgency: " +:+ UrgencyLevel_value (si_urgency intent)]
     ++ (if truthy (si_user_goal intent)
         then ["prospect's stated/inferred goal: " +:+ default "" (si_user_goal intent)] else [])
     ++ list_line "pain points" (si_pain_points intent)
     ++ list_line "objections" (si_objections_raised intent)
     ++ list_line "constraints" (si_constraints intent)
     ++ list_line "questions asked" (si_questions_asked intent)
     ++ list_line "information requested" (si_requested_information intent)
     ++ list_line "commitments the prospect already made" (si_commitments_made intent)
     ++ flag_line (si_has_pricing_question intent) "has_pricing_question"
     ++ flag_line (si_has_budget_signal intent) "has_budget_signal"
     ++ flag_line (si_has_decision_maker_signal intent) "has_decision_maker_signal"
     ++ flag_line (si_has_commitment_signal intent) "has_commitment_signal"
     ++ flag_line (si_procurement_signal intent) "procurement_signal"
     ++ match si_timing intent with
        | Some t => ["timing: expression=" +:+ Str.repr (tm_expression t) +:+ " "
                     +:+ "normalized_target=" +:+ Str.of_opt (tm_normalized_target t) +:+ " "
                     +:+ "requires_clarification=" +:+ py_bool (tm_requires_clarification t)]
        | None => []
        end
     ++ match si_current_solution intent with
        | Some f => ["current_solution: " +:+ fc_value f +:+ " "
                     +:+ "(certainty=" +:+ Certainty_value (fc_certainty f) +:+ ")"]
        | None => []
        end
     ++ ["classifier confidence: " +:+ float_repr (si_confidence intent)]
     ++ list_line "classifier-flagged uncertainty" (si_uncertain_aspects intent)).

Definition str_or (s fallback : string) : string := if s == "" then fallback else s.

Definition build_planner_prompt (business_objective : string) (prospect_goal : option string)
    (summary known_facts unresolved_items context_transcript : string) : string :=
  let nl := newline in
  "Business objective: " +:+ business_objective +:+ nl
  +:+ "Prospect's current goal (as best understood): " +:+ py_or prospect_goal "unclear from context so far" +:+ nl +:+ nl
  +:+ "Latest message -- semantic interpretation:" +:+ nl +:+ summary +:+ nl +:+ nl
  +:+ "Known facts so far:" +:+ nl +:+ str_or known_facts "(none recorded yet)" +:+ nl +:+ nl
  +:+ "Unresolved items:" +:+ nl +:+ str_or unresolved_items "(none)" +:+ nl +:+ nl
  +:+ "Conversation history:" +:+ nl +:+ wrap_untrusted_content "CONVERSATION_HISTORY" context_transcript.

Section Planner.
Context `{FloatRepr} `{LlmProvider} `{Unspecified (result exn NextActionProposal)}.

Definition planner_request (business_objective : string) (intent : SemanticIntent)
    (context_transcript known_facts : string) : LlmRequest :=
  mkLlmRequest "planner"
    (build_planner_prompt business_objective (si_user_goal intent) (semantic_summary intent) known_facts
       (match si_unresolved_items intent with [] => "" | l => Str.join newline l end) context_transcript)
    (Some (3 # 10)) (Some 400).

(** The typed part of an answer that names a known action and an objective. *)
Definition proposal_of (action_type : ActionType) (objective : string) (res : LLMJsonResult)
    (d : list (string * json)) : result parse_error NextActionProposal :=
  confidence ← typed_float "confidence" d;
  reason ← typed_text "reason" d;
  required_information ← typed_strings "required_information" d;
  review_reason ← typed_opt "review_reason" d;
  mret (mkProposal action_type objective reason required_information confidence
          (negb (json_falsy (default (JBool false) (assoc "requires_human_review" d)))) review_reason "llm"
          (Some (lj_model_used res)) (Some (lj_used_fallback res)) (Some (lj_response_mode res))).

(** The body of the [try] after the call. *)
Definition read_plan (res : LLMJsonResult) : result exn NextActionProposal :=
  match lj_data res with
  | JObj d =>
      match of_wire (jget "action_type" d) with
      | None => Ok FALLBACK_PROPOSAL
      | Some action_type =>
          objective ← or_empty_strip (jget "objective" d);
          if objective == "" then Ok FALLBACK_PROPOSAL
          else match proposal_of action_type objective res d with
               | Ok p => Ok p
               | Err (Raises e) => Err e
               | Err (Untyped _) => unspecified d
               end
      end
  | j => Err (attribute_error (json_type j) "get")
  end.

#[global] Instance llm_planner : Planner :=
  λ intent context_transcript known_facts,
    if is_llm_available then
      match call_llm_json (planner_request DEFAULT_BUSINESS_OBJECTIVE intent context_transcript known_facts) with
      | Ok res => read_plan res
      | Err (LLMUnavailableError _) | Err (LLMOutputError _) => Ok FALLBACK_PROPOSAL
      | Err (LlmOther e) => Err e
      end
    else Ok FALLBACK_PROPOSAL.

(** ** Facts *)

(** An answer that proposes nothing: its action is none of the known ones, or
    its objective is blank. *)
Definition no_proposal (d : list (string * json)) : Prop :=
  (∀ act, jget "action_type" d ≠ JStr (ActionType_value act)) ∨
  (∃ s, jget "objective" d = JStr s ∧ Str.strip s = "").

Lemma of_wire_action j act : of_wire j = Some act → j = JStr (ActionType_value act).
Proof. unfold of_wire. destruct j; try done. intros [_ E]%find_some. by bools; subst. Qed.

Lemma read_plan_escalates res d : lj_data res = JObj d → no_proposal d → read_plan res = Ok FALLBACK_PROPOSAL.
Proof.
  intros Hd Hn. unfold read_plan. rewrite Hd. destruct (of_wire (jget "action_type" d)) as [act|] eqn:E; [|done].
  destruct Hn as [Hn|(s & Ho & Hs)]; [by apply of_wire_action, Hn in E|]. rewrite Ho.
  assert (or_empty_strip (JStr s) = Ok (Str.strip s)) as -> by (by destruct s). cbn. by rewrite Hs.
Qed.

Lemma read_plan_admitted res :
  admits PLANNER_JSON_SCHEMA (lj_data res) = true →
  (∃ d n, lj_data res = JObj d ∧ assoc "confidence" d = Some (JInt n) ∧ 2 ^ 1023 ≤ Z.abs n ∧
     read_plan res = Err overflow_error) ∨
  ∃ p, read_plan res = Ok p ∧
    ((p = FALLBACK_PROPOSAL ∧ ∃ d, lj_data res = JObj d ∧ no_proposal d) ∨
     np_model_used p = Some (lj_model_used res) ∧ np_objective p ≠ "" ∧
     ∃ d v s, lj_data res = JObj d ∧ assoc "action_type" d = Some (JStr (ActionType_value (np_action_type p))) ∧
       assoc "objective" d = Some (JStr s) ∧ np_objective p = Str.strip s ∧
       assoc "confidence" d = Some v ∧ float_value v = Some (np_confidence p) ∧
       assoc "requires_human_review" d = Some (JBool (np_requires_human_review p))).
Proof.
  intros (d & Hd & Hp)%admits_object. unfold read_plan. rewrite Hd.
  destruct (Hp "action_type" TString) as (va & Ha & [a ->]%admits_string); [listed|].
  destruct (Hp "objective" TString) as (vo & Ho & [s ->]%admits_string); [listed|].
  destruct (Hp "reason" TString) as (vr & Hr & [why ->]%admits_string); [listed|].
  destruct (nullable_field _ d Hp "review_reason") as [review Hreview]; [listed|].
  destruct (strings_field _ d Hp "required_information") as [info Hinfo]; [listed|].
  destruct (boolean_field _ d Hp "requires_human_review") as (b & Hb & _); [listed|].
  destruct (number_field _ d Hp "confidence") as (v & Hv & Hconf); [listed|].
  rewrite (jget_assoc _ _ _ Ha), (jget_assoc _ _ _ Ho).
  destruct (of_wire (JStr a)) as [act|] eqn:Eact.
  2:{ right. exists FALLBACK_PROPOSAL. split; [done|]. left. split; [done|]. exists d. split; [done|]. left.
      intros act. rewrite (jget_assoc _ _ _ Ha). intros [= ->]. change (ActionType_value act) with (wire act) in Eact.
      by rewrite of_wire_wire in Eact. }
  assert (or_empty_strip (JStr s) = Ok (Str.strip s)) as -> by (by destruct s).
  cbn [mbind result_bind]. destruct (Str.strip s == "") eqn:Es.
  { right. exists FALLBACK_PROPOSAL. split; [done|]. left. split; [done|]. exists d. split; [done|]. right.
    exists s. bools. by rewrite (jget_assoc _ _ _ Ho). }
  unfold proposal_of. destruct Hconf as [(q & Hq & Hn)|(n & -> & Hn & Hq)]; [right|left].
  2: { exists d, n. split_and!; [done|done|done|]. by rewrite Hq. }
  rewrite Hq, (typed_text_stored _ _ _ Hr), Hinfo, (typed_opt_stored _ _ _ Hreview), Hb.
  cbn [mbind result_bind mret result_ret from_option id]. eexists. split; [reflexivity|]. right. bools.
  apply find_some in Eact as [_ Eact]. bools. subst a.
  cbn. split_and!; [done|done|]. exists d, v, s. split_and!; try done. by destruct b.
Qed.

(** C26: the planner proposes what the model proposed, or escalates.  Without a
    model, on every provider error, for an action nobody knows and for a blank
    objective, the plan is the fallback, which the guardrails never let out
    without a person.  Any other answer of the response schema yields a
    proposal with exactly the action, objective (trimmed), confidence (the
    float the number is read as) and review flag of the answer, or, when its
    confidence is an integer beyond the largest float, raises OverflowError.
    Besides that, only an exception of another kind inside the call, or an
    answer outside the schema, makes the planner raise. *)
Theorem planner_proposes_or_escalates intent transcript known q :
  q = planner_request DEFAULT_BUSINESS_OBJECTIVE intent transcript known →
  let plan := plan_next_action intent transcript known in
  let overflows a := ∃ d n, lj_data a = JObj d ∧ assoc "confidence" d = Some (JInt n) ∧ 2 ^ 1023 ≤ Z.abs n ∧
    plan = Err overflow_error in
  (is_llm_available = false ∨ (∃ c m, provider_call_json q = Err (ProviderError c m)) → plan = Ok FALLBACK_PROPOSAL) ∧
  (∀ a d, is_llm_available = true → provider_call_json q = Ok a → lj_data a = JObj d → no_proposal d →
     plan = Ok FALLBACK_PROPOSAL) ∧
  (∀ auto, au_can_auto_send (authorize_action FALLBACK_PROPOSAL intent auto) = false) ∧
  (∀ a, is_llm_available = true → provider_call_json q = Ok a → admits PLANNER_JSON_SCHEMA (lj_data a) = true →
     overflows a ∨
     ∃ p, plan = Ok p ∧
       ((p = FALLBACK_PROPOSAL ∧ ∃ d, lj_data a = JObj d ∧ no_proposal d) ∨
        np_model_used p = Some (lj_model_used a) ∧ np_objective p ≠ "" ∧
        ∃ d v s, lj_data a = JObj d ∧ assoc "action_type" d = Some (JStr (ActionType_value (np_action_type p))) ∧
          assoc "objective" d = Some (JStr s) ∧ np_objective p = Str.strip s ∧
          assoc "confidence" d = Some v ∧ float_value v = Some (np_confidence p) ∧
          assoc "requires_human_review" d = Some (JBool (np_requires_human_review p)))) ∧
  (∀ e, plan = Err e → is_llm_available = true ∧
     (provider_call_json q = Err (ProviderOther e) ∨
      ∃ a, provider_call_json q = Ok a ∧ (admits PLANNER_JSON_SCHEMA (lj_data a) = false ∨ overflows a))).
Proof.
  intros -> plan overflows. subst overflows. set (q := planner_request _ _ _ _).
  assert (plan = if is_llm_available then
      match provider_call_json q with
      | Ok res => read_plan res
      | Err (ProviderError _ _) => Ok FALLBACK_PROPOSAL
      | Err (ProviderOther e) => Err e
      end else Ok FALLBACK_PROPOSAL) as ->.
  { unfold plan, plan_next_action, llm_planner, call_llm_json. fold q. destruct is_llm_available; [|done].
    by destruct (provider_call_json q) as [|[[]|]]. }
  split_and!.
  - intros [->|(c & m & ->)]; [done|]. by destruct is_llm_available.
  - intros a d -> -> Hd Hn. by eapply read_plan_escalates.
  - intros auto. apply fallback_is_always_reviewed.
  - intros a -> -> Ha. by apply read_plan_admitted.
  - intros e. destruct is_llm_available; [|done]. intros He. split; [done|].
    destruct (provider_call_json q) as [a|[c m|e']] eqn:Eq; [|done|left; by injection He as ->].
    right. exists a. split; [done|]. destruct (admits PLANNER_JSON_SCHEMA (lj_data a)) eqn:Ea; [|by left].
    right. destruct (read_plan_admitted a Ea) as [?|(p & Hp & _)]; [done|congruence].
Qed.

(** An answer of the drafting schema is a draft, or is refused for its empty
    body; it never raises anything else. *)
Theorem admitted_draft_is_usable campaign contact action_type transcript days objective reason a :
  (∀ q, provider_call_json q = Ok a) → admits RESPONDER_JSON_SCHEMA (lj_data a) = true →
  (∃ draft, draft_with_llm campaign contact action_type transcript days objective reason = Ok draft ∧ ad_body draft ≠ "") ∨
  draft_with_llm campaign contact action_type transcript days objective reason
    = Err (LLMOutputError "LLM returned an empty body").
Proof.
  intros Hcall (d & Hd & Hp)%admits_object. unfold draft_with_llm, call_llm_json. rewrite Hcall.
  cbn [mbind result_bind]. rewrite Hd.
  destruct (Hp "body" TString) as (vb & Hb & [b ->]%admits_string); [listed|].
  destruct (Hp "subject" TString) as (vs & Hs & [s ->]%admits_string); [listed|].
  unfold py_get. rewrite (jget_assoc _ _ _ Hb), (jget_assoc _ _ _ Hs).
  assert (∀ x, or_empty_strip (JStr x) = Ok (Str.strip x)) as Hstrip by (by intros []).
  cbn [as_llm mbind result_bind]. rewrite !Hstrip. cbn [as_llm mbind result_bind].
  destruct (Str.strip b == "") eqn:Eb; [by right|]. left. cbn [raise_if mbind result_bind]. bools.
  eexists. split; [reflexivity|done].
Qed.
End Planner.

(** *** Witnesses *)

Definition sample_plan : list (string * json) :=
  [("action_type", JStr "answer"); ("objective", JStr " Send the price list. "); ("reason", JStr "They asked.");
   ("required_information", jstrs ["price list"]); ("confidence", JFloat (8 # 10));
   ("requires_human_review", JBool false); ("review_reason", JNull)].
Definition no_plan : Unspecified (result exn NextActionProposal) :=
  λ _, Err (mkExn (C_Other "TypeError") "untyped").

Lemma planner_proposes_or_escalates_witness :
  ∃ p, plan_next_action (Planner := llm_planner (H:=ratio_floats) (H0:=answering (JObj sample_plan)) (H1:=no_plan))
         default_intent "" "" = Ok p ∧ np_objective p = "Send the price list." ∧ np_objective p ≠ "".
Proof.
  destruct (planner_proposes_or_escalates (H:=ratio_floats) (H0:=answering (JObj sample_plan)) (H1:=no_plan)
    default_intent "" "" _ eq_refl) as (_ & _ & _ & Hplan & _).
  destruct (Hplan (mkJsonResult (JObj sample_plan) "backup" "main" 2 true "json_object") eq_refl eq_refl)
    as [(d & n & Hd & Hc & _ & _)|(p & Hp & [[-> _]|(_ & Hne & d & v & s & Hd & _ & Hs & Ho & _)])].
  - vm_compute. reflexivity.
  - injection Hd as <-. vm_compute in Hc. discriminate Hc.
  - vm_compute in Hp. discriminate Hp.
  - exists p. split; [exact Hp|]. split; [|exact Hne]. injection Hd as <-. vm_compute in Hs. injection Hs as <-.
    rewrite Ho. vm_compute. reflexivity.
Defined.

(** A planner answer without a number for the confidence raises. *)
Example plan_without_confidence :
  plan_next_action
    (Planner := llm_planner (H:=ratio_floats)
                  (H0:=answering (JObj [("action_type", JStr "answer"); ("objective", JStr "x"); ("confidence", JNull)]))
                  (H1:=no_plan)) default_intent "" ""
  = Err (type_error "float() argument must be a string or a real number, not 'NoneType'").
Proof. vm_compute. reflexivity. Qed.

Lemma admitted_draft_is_usable_witness :
  ∃ draft, draft_with_llm
             (H:=answering (JObj [("subject", JStr "Hi"); ("body", JStr "Hello."); ("reasoning", JStr "")]))
             native_campaign native_contact "reply" "" None None None = Ok draft ∧ ad_body draft ≠ "".
Proof.
  destruct (admitted_draft_is_usable
    (H0:=answering (JObj [("subject", JStr "Hi"); ("body", JStr "Hello."); ("reasoning", JStr "")]))
    native_campaign native_contact "reply" "" None None None _ (λ _, eq_refl) eq_refl) as [Hd|Hd];
    [exact Hd|vm_compute in Hd; discriminate Hd].
Defined.
