(* ===== verification/InboundSafety.v ===== *)
(** * What inbound processing may touch, and what it guarantees

    Theorems about [Inbound.v]: the rows one inbound message can reach
    ([confined]), durability before success is reported, idempotence under
    re-delivery, the gates of an automatic reply, and opt-outs. *)

From S2P Require Import Prelude Sql Models Config Samples SemanticModels StateMachine Sender Regex Threading Grounding ExactMessage Llm Memory Classifier Guardrails Scheduling FollowUp Inbound.

#[local] Open Scope bool_scope.

(** ** The reach of one inbound message *)

Definition same_person (c c' : Contact) : Prop :=
  ct_id c' = ct_id c ∧ ct_campaign_id c' = ct_campaign_id c ∧ ct_email c' = ct_email c.

(** A message row keeps its identity. *)
Definition kept (m m' : Message) : Prop :=
  msg_id m' = msg_id m ∧ msg_contact_id m' = msg_contact_id m ∧ msg_direction m' = msg_direction m ∧
  msg_mailbox_id m' = msg_mailbox_id m ∧ msg_message_id_header m' = msg_message_id_header m ∧
  msg_reply_reference m' = msg_reply_reference m ∧ msg_body m' = msg_body m ∧
  msg_created_at m' = msg_created_at m.

(** A retained row keeps its identity. *)
Definition kept_retained (u u' : UnmatchedInboundMessage) : Prop :=
  um_id u' = um_id u ∧ um_mailbox_id u' = um_mailbox_id u ∧ um_organization_id u' = um_organization_id u ∧
  um_message_id_header u' = um_message_id_header u ∧ um_body u' = um_body u.

(** From [db] to [db'] only rows of contact [who], suppressions of his address
    in [org] and retained rows of mailbox [mb] have changed, and no row is lost. *)
Record confined (who : Contact) (org : option string) (mb : option Z) (db db' : Db) : Prop := {
  cf_campaigns : campaigns db' = campaigns db;
  cf_dispatches : dispatches db' = dispatches db;
  cf_mailboxes : mailboxes db' = mailboxes db;
  cf_other_contacts : ∀ j, j ≠ ct_id who → get j (contacts db') = get j (contacts db);
  cf_contact : ∀ c, get (ct_id who) (contacts db) = Some c → same_person who c →
    ∃ c', get (ct_id who) (contacts db') = Some c' ∧ same_person who c';
  cf_other_messages : ∀ m, msg_contact_id m ≠ ct_id who →
    In m (rows (messages db')) ↔ In m (rows (messages db));
  cf_own_messages : ∀ m, In m (rows (messages db)) → msg_contact_id m = ct_id who →
    ∃ m', In m' (rows (messages db')) ∧ kept m m';
  cf_suppressions : ∀ s, In s (rows (suppressions db)) → In s (rows (suppressions db'));
  cf_new_suppressions : ∀ s, In s (rows (suppressions db')) →
    In s (rows (suppressions db)) ∨ (sup_email s = ct_email who ∧ sup_organization_id s = org);
  cf_other_retained : ∀ u, Some (um_mailbox_id u) ≠ mb →
    In u (rows (unmatched db')) ↔ In u (rows (unmatched db));
  cf_own_retained : ∀ u, In u (rows (unmatched db)) → Some (um_mailbox_id u) = mb →
    ∃ u', In u' (rows (unmatched db')) ∧ kept_retained u u'
}.

Lemma same_person_refl c : same_person c c.
Proof. done. Qed.
Lemma same_person_trans a b c : same_person a b → same_person b c → same_person a c.
Proof. intros (? & ? & ?) (? & ? & ?). split_and!; congruence. Qed.
Lemma kept_refl m : kept m m.
Proof. by split_and!. Qed.
Lemma kept_trans a b c : kept a b → kept b c → kept a c.
Proof. unfold kept. intros. destruct_and!. split_and!; congruence. Qed.
Lemma kept_retained_refl u : kept_retained u u.
Proof. by split_and!. Qed.
Lemma kept_retained_trans a b c : kept_retained a b → kept_retained b c → kept_retained a c.
Proof. unfold kept_retained. intros. destruct_and!. split_and!; congruence. Qed.
#[local] Hint Resolve same_person_refl kept_refl kept_retained_refl : mail.

Lemma confined_refl who org mb db : confined who org mb db db.
Proof. split; eauto with mail. Qed.

Lemma confined_trans who org mb a b c :
  confined who org mb a b → confined who org mb b c → confined who org mb a c.
Proof.
  intros H1 H2. split.
  - rewrite (cf_campaigns _ _ _ _ _ H2). apply H1.
  - rewrite (cf_dispatches _ _ _ _ _ H2). apply H1.
  - rewrite (cf_mailboxes _ _ _ _ _ H2). apply H1.
  - intros j Hj. rewrite (cf_other_contacts _ _ _ _ _ H2 j Hj). by apply H1.
  - intros x Hx Hp. destruct (cf_contact _ _ _ _ _ H1 x Hx Hp) as (y & Hy & Hpy).
    by apply (cf_contact _ _ _ _ _ H2 y).
  - intros m Hm. rewrite (cf_other_messages _ _ _ _ _ H2 m Hm). by apply H1.
  - intros m Hm Hc. destruct (cf_own_messages _ _ _ _ _ H1 m Hm Hc) as (m' & Hm' & K).
    destruct (cf_own_messages _ _ _ _ _ H2 m' Hm') as (m2 & ? & K'); [by rewrite (proj1 (proj2 K))|].
    exists m2. split; [done|]. by eapply kept_trans.
  - intros s Hs. by apply H2, H1.
  - intros s [Hs|Hs]%H2; [by apply H1 in Hs|by right].
  - intros u Hu. rewrite (cf_other_retained _ _ _ _ _ H2 u Hu). by apply H1.
  - intros u Hu Hm. destruct (cf_own_retained _ _ _ _ _ H1 u Hu Hm) as (u' & Hu' & K).
    destruct (cf_own_retained _ _ _ _ _ H2 u' Hu') as (u2 & ? & K'); [by rewrite (proj1 (proj2 K))|].
    exists u2. split; [done|]. by eapply kept_retained_trans.
Qed.

Lemma write_contact_confined who org mb u c db :
  same_person who c → confined who org mb db (write_contact u c db).
Proof.
  intros (Hid & Hcm & Hem). split; eauto with mail.
  - intros j Hj. rewrite write_contact_get, Hid. by rewrite (proj2 (Z.eqb_neq j (ct_id who))).
  - intros x Hx Hp. rewrite write_contact_get, Hid, Z.eqb_refl, Hx. cbn [option_map].
    eexists; split; [done|]. by case_bool_decide.
Qed.

Lemma write_message_confined who org mb m db :
  (∀ r, In r (rows (messages db)) → msg_id r = msg_id m → msg_contact_id r = ct_id who ∧ kept r m) →
  confined who org mb db (write_message m db).
Proof.
  intros Hm. split; eauto with mail; cbn.
  - intros x Hx. rewrite in_map_iff. split.
    + intros (r & <- & Hr). rewrite andb_true_r in *. destruct (row_id r =? msg_id m) eqn:E; [|done].
      bools. destruct (Hm r Hr E) as [Hc (_ & K & _)]. congruence.
    + intros Hin. exists x. split; [|done]. rewrite andb_true_r.
      destruct (row_id x =? msg_id m) eqn:E; [|done]. bools. by destruct (Hm x Hin E).
  - intros x Hx Hc. exists (if (row_id x =? msg_id m) && true then m else x). split.
    + apply in_map_iff. eauto.
    + rewrite andb_true_r. destruct (row_id x =? msg_id m) eqn:E; [|apply kept_refl].
      bools. by destruct (Hm x Hx E).
Qed.

Lemma insert_message_Ok mk db m db' :
  insert_message mk db = Ok (m, db') →
  m = mk (next_id (messages db)) ∧ db' = set_messages (snd (insert_row mk (messages db))) db ∧
  ∀ x, In x (rows (messages db)) → message_clash m x = false.
Proof.
  unfold insert_message. destruct (insert_unique _ _ _ _) as [[x t]|[]] eqn:E; [|done].
  intros [= <- <-]. apply insert_unique_Ok in E as [Hn Heq]. injection Heq as -> ->. done.
Qed.

Lemma insert_messages_confined who org mb mks : ∀ db db',
  Forall (λ mk, ∀ i, msg_contact_id (mk i) = ct_id who) mks →
  insert_messages mks db = Ok db' → confined who org mb db db'.
Proof.
  induction mks as [|mk r IH]; intros db db' Hall; cbn [insert_messages].
  { intros [= <-]. apply confined_refl. }
  inversion Hall as [|? ? Hmk Hr]; subst. intros E. apply result_bind_Ok in E as ([m db1] & E1 & E2).
  apply insert_message_Ok in E1 as (-> & -> & _).
  eapply confined_trans; [|exact (IH _ _ Hr E2)]. cbn [snd].
  split; eauto with mail; cbn [messages set_messages].
  - intros x Hx. rewrite insert_row_In. split; [|auto]. intros [?| ->]; [done|]. by rewrite Hmk in Hx.
  - intros x Hx _. exists x. rewrite insert_row_In. split; [by left|apply kept_refl].
Qed.

Lemma flush_confined {A} who org mb u (s : Step A) db db' :
  same_person who (st_contact s) →
  Forall (λ mk, ∀ i, msg_contact_id (mk i) = ct_id who) (st_new s) →
  flush u s db = Ok db' → confined who org mb db db'.
Proof.
  unfold flush. intros Hp Hn E. inv_result.
  eapply confined_trans; [by eapply insert_messages_confined|by apply write_contact_confined].
Qed.

Lemma resolve_retained_confined who org mb identity u db :
  confined who org (Some mb) db (resolve_retained mb identity u db).
Proof.
  split; eauto with mail; cbn.
  - intros x Hx. rewrite in_map_iff. split.
    + intros (r & <- & Hr). case_match; [|done]. bools. cbn in Hx. congruence.
    + intros Hin. exists x. split; [|done]. case_match; [|done]. bools. congruence.
  - intros x Hx Hm. eexists. split; [apply in_map_iff; eauto|]. case_match; [by split_and!|apply kept_retained_refl].
Qed.

Lemma transition_same c e u : same_person c (fst (transition_contact_state c e u)).
Proof. unfold transition_contact_state. by destruct (next_state _ _). Qed.

(** An opt-out is refused only when another transaction was faster; otherwise
    the list has the contact's address in his tenant, and nothing else changed. *)
Definition suppression_of (env : InboundEnv) (db : Db) (c : Contact) (i : Z) : SuppressionEntry :=
  mkSuppressionEntry i (ct_email c) (contact_org db c) (Some "unsubscribed") (in_utcnow env).
Definition unsubscribed (env : InboundEnv) (c : Contact) : Contact :=
  set_ct_next_action_at None (fst (transition_contact_state c EV_UNSUBSCRIBED (in_utcnow env))).

Lemma suppression_unlisted env db c s :
  (sup_email s == ct_email c) && (sup_organization_id s == contact_org db c) = false →
  suppression_clash (suppression_of env db c (next_id (suppressions db))) s = false.
Proof.
  unfold suppression_clash, same_some. cbn. destruct (contact_org db c) as [o|], (sup_organization_id s) as [o'|];
    rewrite ?andb_false_r; try done.
  intros Hne. rewrite andb_false_iff in Hne |- *. destruct Hne as [Hne|Hne]; [left|right]; bools;
    apply bool_decide_eq_false_2; congruence.
Qed.

Lemma unsubscribe_cases env db c :
  (in_suppression_raced env = true ∧ ∃ x, handle_unsubscribe env db c = Err x) ∨
  (handle_unsubscribe env db c = Ok (db, unsubscribed env c) ∧
   ∃ s, In s (rows (suppressions db)) ∧ sup_email s = ct_email c ∧ sup_organization_id s = contact_org db c) ∨
  (handle_unsubscribe env db c =
     Ok (set_suppressions (snd (insert_row (suppression_of env db c) (suppressions db))) db, unsubscribed env c) ∧
   ∀ s, In s (rows (suppressions db)) → suppression_clash (suppression_of env db c (next_id (suppressions db))) s = false).
Proof.
  unfold handle_unsubscribe. cbv zeta. fold (suppression_of env db c). destruct (select_first _ _) as [s|] eqn:E.
  - apply select_first_Some in E as [Hin Hp]. bools. right; left. split; [done|]. by exists s.
  - assert (∀ s, In s (rows (suppressions db)) →
      suppression_clash (suppression_of env db c (next_id (suppressions db))) s = false) as Hn.
    { intros s Hin. apply suppression_unlisted. exact (proj1 (select_first_None _ _) E s Hin). }
    destruct (in_suppression_raced env && _) eqn:Er; [bools; left; split; [done|by eexists]|].
    right; right. split; [|exact Hn]. unfold insert_unique.
    destruct (existsb _ _) eqn:Ex; [|done]. apply existsb_exists in Ex as (s & Hin & Hs). by rewrite Hn in Hs.
Qed.

(** Either way the contact afterwards is the one given, and only suppressions
    of his address are new. *)
Lemma handle_unsubscribe_confined who mb env db c db1 c1 :
  same_person who c → handle_unsubscribe env db c = Ok (db1, c1) →
  confined who (contact_org db who) mb db db1 ∧ same_person who c1 ∧ messages db1 = messages db ∧
  contacts db1 = contacts db ∧ ct_next_action_at c1 = None ∧
  ∃ s, In s (rows (suppressions db1)) ∧ sup_email s = ct_email c ∧ sup_organization_id s = contact_org db c.
Proof.
  intros Hp. assert (contact_org db c = contact_org db who) as Ho.
  { unfold contact_org, contact_campaign. by rewrite (proj1 (proj2 Hp)). }
  assert (same_person who (unsubscribed env c)) as Hu
    by (eapply same_person_trans; [exact Hp|]; apply (transition_same c EV_UNSUBSCRIBED)).
  destruct (unsubscribe_cases env db c) as [(_ & x & ->)|[(-> & Hs)|(-> & _)]]; [done| |];
    intros [= <- <-]; (split_and!; [|exact Hu|done|done|done|]).
  - apply confined_refl.
  - exact Hs.
  - split; eauto with mail.
    + intros s Hs. apply insert_row_In. by left.
    + intros s Hs. apply insert_row_In in Hs as [?| ->]; [by left|right]. split; [apply Hp|done].
  - exists (suppression_of env db c (next_id (suppressions db))). split; [|done].
    apply insert_row_In. by right.
Qed.

(** ** The shape of a reply *)

(** Everything that must hold before a reply goes out without a person. *)
Record cleared_to_reply `{LlmProvider} `{FloatRepr} `{Planner} (env : InboundEnv) (db : Db) (l : list Message)
    (contact : Contact) (campaign : Campaign)
    (intent : SemanticIntent) (transcript body : string) (proposal : NextActionProposal) : Prop := {
  cr_planned : ∃ known, build_known_facts_summary intent l contact campaign = Ok known ∧
    plan_next_action intent transcript known = Ok proposal;
  cr_drafted : ∃ draft, draft_message campaign contact
    (au_draft_action_type (authorize_action proposal intent (auto_reply_enabled (se_settings (in_send env)))))
    transcript None (Some (np_objective proposal)) (Some (np_reason proposal)) = Ok draft ∧ ad_body draft = body;
  cr_authorized : au_can_auto_send (authorize_action proposal intent
    (auto_reply_enabled (se_settings (in_send env)))) = true;
  cr_not_suppressed : is_suppressed db (ct_email contact) (cp_organization_id campaign) = false;
  cr_grounded : is_safe_to_send (validate_grounding body (cp_proof_points campaign) (ct_context_notes contact)
    (Some transcript) (Some (cp_value_prop campaign))) = true
}.

(** Nothing transmitted, and at most a draft kept; or one call of [send_email]
    that was cleared, recorded as it ended. *)
Inductive reply_shape (env : InboundEnv) (db : Db) (contact : Contact) (campaign : Campaign) (e : InboundEmail)
    (cleared : string → Prop) (s : Step InboundResult) : Prop :=
  | reply_quiet :
      st_trace s = [] →
      Forall (λ mk, ∀ i, msg_id (mk i) = i ∧ msg_status (mk i) = MS_DRAFT ∧ msg_contact_id (mk i) = ct_id contact)
        (st_new s) →
      reply_shape env db contact campaign e cleared s
  | reply_sends body action r :
      cleared body →
      send_email (se_settings (in_send env)) (se_smtp (in_send env)) (se_seed (in_send env))
        (reply_args e contact campaign body) = (Ok r, st_trace s) →
      st_new s = [reply_row env e contact action body (message_status_of_outcome (sr_outcome r))
                    (sr_message_id r) (sr_error r)] →
      st_contact s = after_auto_reply env contact r →
      reply_shape env db contact campaign e cleared s.

Lemma reply_shape_new env db contact campaign e cl s :
  reply_shape env db contact campaign e cl s →
  Forall (λ mk, ∀ i, msg_id (mk i) = i ∧ msg_contact_id (mk i) = ct_id contact) (st_new s).
Proof.
  intros [_ H|body action r _ _ -> _].
  - eapply Forall_impl; [exact H|]. intros mk Hmk i. destruct (Hmk i) as (? & _ & ?). done.
  - by repeat constructor.
Qed.

Section Shape.
Context `{LlmProvider} `{FloatRepr} `{Planner}.

Lemma draft_reply_shape env db l contact campaign e intent transcript res :
  let s := draft_and_maybe_send_reply env db l contact campaign e intent transcript res in
  same_person contact (st_contact s) ∧
  reply_shape env db contact campaign e
    (λ body, ∃ p, cleared_to_reply env db l contact campaign intent transcript body p) s.
Proof.
  cbn zeta. unfold draft_and_maybe_send_reply.
  destruct (mbind _ _) as [proposal|err] eqn:Ep; [|split; [done|by apply reply_quiet]].
  apply result_bind_Ok in Ep as (known & Hk & Ep). destruct (draft_message _ _ _ _ _ _ _) as [draft|[a|err]] eqn:Ed.
  2: { split; [apply transition_same|by apply reply_quiet]. }
  2: { split; [done|by apply reply_quiet]. }
  destruct (_ && _ && _) eqn:Eg.
  - destruct (send_email_fresh_Ok (se_settings (in_send env)) (se_smtp (in_send env)) (se_seed (in_send env))
      (reply_args e contact campaign (ad_body draft)) eq_refl) as (r & trace & Es).
    rewrite Es. cbn [st_contact]. split.
    + unfold after_auto_reply. destruct (sr_success r); [done|].
      destruct (bool_decide _); [|done]. apply (transition_same contact EV_NEEDS_HUMAN).
    + bools. eapply (reply_sends _ _ _ _ _ _ _ (ad_body draft)); [|exact Es|done|done].
      exists proposal. split; [by exists known|by exists draft|done|done|]. by eapply held_notes_None.
  - split; [done|]. apply reply_quiet; [done|]. by repeat constructor.
Qed.

End Shape.

(** When a reply may be sent at all, besides the gates above. *)
Record warranted `{LlmProvider} `{FloatRepr} `{Planner} (env : InboundEnv) (db : Db) (l : list Message) (contact : Contact) (campaign : Campaign) (transcript : string)
    (success : bool) (reading : option SemanticIntent) (body : string) : Prop := {
  wr_success : success = true;
  wr_native : contact_is_integration_managed db (Some contact) = false;
  wr_reading : ∃ intent p, reading = Some intent ∧ (UNSUBSCRIBE ∉ si_intents intent) ∧
    (NOT_INTERESTED ∉ si_intents intent) ∧ (OUT_OF_OFFICE ∉ si_intents intent) ∧
    cleared_to_reply env db l contact campaign intent transcript body p
}.

(** Step 5 as a whole: who it is about, which rows it adds, when it sends. *)
Record reading_outcome `{LlmProvider} `{FloatRepr} `{Planner} (env : InboundEnv) (db : Db) (l : list Message) (contact : Contact) (campaign : Campaign) (e : InboundEmail)
    (transcript : string) (success : bool) (reading : option SemanticIntent) (r : Db * Step InboundResult)
    : Prop := {
  ro_confined : ∀ mb, confined contact (contact_org db contact) mb db (fst r);
  ro_messages : messages (fst r) = messages db;
  ro_person : same_person contact (st_contact (snd r));
  ro_shape : ∃ c, same_person contact c ∧ ct_context_notes c = ct_context_notes contact ∧
    reply_shape env db c campaign e (warranted env db l c campaign transcript success reading) (snd r)
}.

Lemma quiet_outcome `{LlmProvider} `{FloatRepr} `{Planner} env db l contact campaign e transcript success reading c x :
  same_person contact c →
  reading_outcome env db l contact campaign e transcript success reading (db, mkStep c [] x []).
Proof.
  intros Hc. split; [intros; apply confined_refl|done|exact Hc|].
  exists contact. split_and!; [done..|by apply reply_quiet].
Qed.

Lemma reply_shape_mono env db contact campaign e (P Q : string → Prop) s :
  (∀ body, P body → Q body) →
  reply_shape env db contact campaign e P s → reply_shape env db contact campaign e Q s.
Proof. intros HPQ [? ?|? ? ? ? ? ? ?]; [by apply reply_quiet|eapply reply_sends; eauto]. Qed.

Lemma advance_same db c ev u : same_person c (advance_integration_contact db c ev u).
Proof.
  unfold advance_integration_contact. cbv zeta.
  match goal with |- context [transition_contact_state (if ?b then ?x else ?y) ev u] =>
    set (c0 := if b then x else y) end.
  assert (same_person c c0) as H0.
  { unfold c0. case_match; [apply transition_same|done]. }
  pose proof (transition_same c0 ev u) as H1. destruct (transition_contact_state c0 ev u) as [c1 []].
  { by eapply same_person_trans. }
  pose proof (transition_same c1 EV_REPLY_RECEIVED u) as H2.
  destruct (transition_contact_state c1 EV_REPLY_RECEIVED u) as [c2 []]; cbn [fst] in *.
  - pose proof (transition_same c2 ev u). eauto using same_person_trans.
  - eauto using same_person_trans.
Qed.

Section Reading.
Context `{LlmProvider} `{FloatRepr} `{FromIsoformat} `{Planner}.

Lemma apply_reading_outcome env db l contact campaign e transcript success reading :
  reading_outcome env db l contact campaign e transcript success reading
    (apply_reading env db l contact campaign e transcript success reading).
Proof.
  unfold apply_reading.
  destruct success; cbn [negb]; [|apply quiet_outcome, (transition_same contact EV_NEEDS_HUMAN)].
  destruct reading as [intent|]; [|apply quiet_outcome, transition_same].
  unfold in_list. case_bool_decide as Hu.
  { destruct (handle_unsubscribe env db contact) as [[db1 c1]|x] eqn:Eh; [|by apply quiet_outcome].
    pose proof (λ mb, handle_unsubscribe_confined contact mb env db contact _ _ (same_person_refl _) Eh) as Hc.
    split; cbn [fst snd st_contact]; [intros mb; apply (Hc mb)|apply (Hc None)|apply (Hc None)|].
    exists contact. split_and!; [done..|by apply reply_quiet]. }
  case_bool_decide as Hn; [apply quiet_outcome, (transition_same contact EV_NOT_INTERESTED)|].
  case_bool_decide as Ho; [by apply quiet_outcome|].
  destruct (contact_is_integration_managed _ _) eqn:Em; [apply quiet_outcome, (advance_same db)|].
  set (c := fst _). assert (same_person contact c) as Hc by apply transition_same.
  assert (ct_context_notes c = ct_context_notes contact) as Hnotes.
  { unfold c, transition_contact_state. by destruct (next_state _ _). }
  destruct (reschedule_after_reply _ _ _) as [t|err]; [|by apply quiet_outcome].
  match goal with |- context [draft_and_maybe_send_reply ?a ?b ?l ?c ?d ?f ?g ?h ?i] =>
    destruct (draft_reply_shape a b l c d f g h i) as [Hp Hs] end.
  split; [intros; apply confined_refl|done|by eapply same_person_trans; [|exact Hp]|].
  eexists. split_and!; [| |eapply reply_shape_mono; [|exact Hs]]; [done..|].
  intros body (p & Hcl). split; [done| |by exists intent, p].
  cbn. cbn in Em. unfold contact_campaign in *. cbn. by rewrite (proj1 (proj2 Hc)).
Qed.
End Reading.

(** ** Classification and its consequences *)

Lemma store_classification_facts env cr m contact m' c' reading :
  store_classification env cr m contact = (m', c', reading) →
  kept m m' ∧ same_person contact c' ∧ ct_context_notes c' = ct_context_notes contact ∧
  ct_status c' = ct_status contact ∧ ct_next_action_at c' = ct_next_action_at contact ∧
  reading = attach_fact_provenance (msg_id m) (Clock.isoformat_utc (in_utcnow env)) <$>
              (if cr_success cr then cr_semantic_intent cr else None).
Proof.
  unfold store_classification. destruct (if cr_success cr then _ else None) as [i|];
    intros [= <- <- <-]; split_and!; done.
Qed.

(** The stored row does not depend on the contact. *)
Lemma store_classification_row env cr m c c' :
  fst (fst (store_classification env cr m c)) = fst (fst (store_classification env cr m c')).
Proof. unfold store_classification. by destruct (if cr_success cr then _ else None). Qed.

Section Apply.
Context `{LlmProvider} `{FloatRepr} `{FromIsoformat} `{Classifier} `{Planner}.

(** The interpretation a reply gets, and the transcript it is given. *)
Definition reading_of (env : InboundEnv) (e : InboundEmail) (contact : Contact) (campaign : Campaign) (db : Db)
    : ClassificationResult :=
  let contact := set_ct_last_reply_at (Some (in_utcnow env)) contact in
  classify_prospect_reply campaign contact (ie_body_text e) (build_conversation_context db contact)
    (ie_auto_submitted e).

(** The inbound row with this turn's analysis, and the conversation with it. *)
Definition classified_row (env : InboundEnv) (e : InboundEmail) (contact : Contact) (campaign : Campaign) (m : Message)
    (db : Db) : Message :=
  fst (fst (store_classification env (reading_of env e contact campaign db) m contact)).
Definition turn_conversation (env : InboundEnv) (e : InboundEmail) (contact : Contact) (campaign : Campaign) (m : Message)
    (db : Db) : list Message :=
  let m' := classified_row env e contact campaign m db in
  map (λ x, if msg_id x =? msg_id m' then m' else x) (contact_messages db contact).

Record applied (env : InboundEnv) (e : InboundEmail) (contact : Contact) (campaign : Campaign) (m : Message)
    (db : Db) (out : result exn (Db * InboundResult) * list smtp_event) : Prop := {
  ap_confined : ∀ db' res mb, fst out = Ok (db', res) → confined contact (contact_org db contact) mb db db';
  ap_sends : snd out ≠ [] →
    ∃ c body r,
      same_person contact c ∧ ct_context_notes c = ct_context_notes contact ∧
      warranted env db (turn_conversation env e contact campaign m db) c campaign (build_conversation_context db contact)
        (cr_success (reading_of env e contact campaign db))
        (attach_fact_provenance (msg_id m) (Clock.isoformat_utc (in_utcnow env)) <$>
           cr_semantic_intent (reading_of env e contact campaign db)) body ∧
      send_email (se_settings (in_send env)) (se_smtp (in_send env)) (se_seed (in_send env))
        (reply_args e c campaign body) = (Ok r, snd out)
}.

Lemma classify_and_apply_applied env e contact campaign m db :
  table_wf (messages db) → get (msg_id m) (messages db) = Some m → msg_contact_id m = ct_id contact →
  applied env e contact campaign m db (classify_and_apply_inbound env e contact campaign m db).
Proof.
  intros Hwf Hget Hc. unfold classify_and_apply_inbound. cbv zeta.
  change (build_conversation_context db (set_ct_last_reply_at (Some (in_utcnow env)) contact))
    with (build_conversation_context db contact).
  change (classify_prospect_reply campaign _ _ _ _) with (reading_of env e contact campaign db).
  set (cr := reading_of env e contact campaign db).
  destruct (store_classification _ _ _ _) as [[m' c'] reading] eqn:Es.
  assert (map (λ x, if msg_id x =? msg_id m' then m' else x) (contact_messages db c')
    = turn_conversation env e contact campaign m db) as Hturn.
  { unfold turn_conversation, classified_row. fold cr. rewrite (store_classification_row env cr m contact (set_ct_last_reply_at (Some (in_utcnow env)) contact)), Es.
    apply store_classification_facts in Es as (_ & (Hid & _) & _). cbv zeta. cbn [fst].
    unfold contact_messages. by rewrite Hid. }
  rewrite Hturn.
  apply store_classification_facts in Es as (Hk & Hp & Hnotes & _ & _ & Hr).
  assert (same_person contact c') as Hpc by exact Hp.
  assert (contact_org db c' = contact_org db contact) as Horg.
  { unfold contact_org, contact_campaign. by rewrite (proj1 (proj2 Hpc)). }
  match goal with |- context [apply_reading ?a ?b ?l ?c ?d ?f ?g ?h ?i] =>
    pose proof (apply_reading_outcome a b l c d f g h i) as Ho; destruct (apply_reading a b l c d f g h i) as [db1 s] end.
  destruct Ho as [Hcf Hm Hps (c & Hpc' & Hnc & Hsh)]. cbn [fst snd] in *. rewrite Horg in Hcf.
  assert (∀ mb db2, confined c' (contact_org db contact) mb db db2 → confined contact (contact_org db contact) mb db db2)
    as Hmove.
  { intros mb db2 Hx. destruct Hpc as (Q1 & Q2 & Q3). destruct Hx as [].
    split; try done; rewrite <- ?Q1, <- ?Q3; try done.
    intros x Hx (? & ? & ?). destruct (cf_contact0 x Hx) as (x' & ? & ? & ? & ?); [split_and!; congruence|].
    exists x'. unfold same_person. split_and!; congruence. }
  split; cbn [fst snd].
  - intros db' res mb E. inv_result. apply Hmove.
    eapply confined_trans; [apply Hcf|]. eapply confined_trans; [|eapply confined_trans].
    + apply (write_message_confined _ _ _ m'). rewrite Hm. intros r Hin Hid.
      assert (r = m) as ->.
      { eapply table_wf_inj; [exact Hwf|done|by apply get_Some in Hget as []|].
        change (msg_id r = msg_id m). destruct Hk as [Hk _]. congruence. }
      split; [|exact Hk]. destruct Hpc as [Q1 _]. congruence.
    + eapply flush_confined; [exact Hps| |eassumption].
      apply reply_shape_new in Hsh. eapply Forall_impl; [exact Hsh|]. intros mk Hmk i.
      rewrite (proj2 (Hmk i)). apply Hpc'.
    + apply write_contact_confined.
      match goal with E : maybe_summarize_older_messages _ _ = Ok _ |- _ =>
        apply summarize_only_summary in E as [x ->] end. exact Hps.
  - intros Ht. destruct Hsh as [? _|body action r Hw Hsend _ _]; [congruence|].
    exists c, body, r. split_and!; [by eapply same_person_trans|by rewrite Hnc| |exact Hsend].
    pose proof Hw as [Hs _ _]. rewrite Hs in Hr. by rewrite Hr in Hw.
Qed.
End Apply.

(** ** Correlation *)

Lemma remove_dups_single {A} `{EqDecision A} (l : list A) x :
  remove_dups l = [x] ↔ (∃ y, y ∈ l) ∧ ∀ y, y ∈ l → y = x.
Proof.
  split.
  - intros E. assert (∀ y, y ∈ l ↔ y = x) as Hy.
    { intros y. rewrite <- elem_of_remove_dups, E. apply list_elem_of_singleton. }
    split; [exists x; by apply Hy|]. intros y. apply Hy.
  - intros [[z Hz] Hall]. pose proof (NoDup_remove_dups l) as Hn.
    assert (∀ y, y ∈ remove_dups l → y = x) as Hr by (intros y; rewrite elem_of_remove_dups; auto).
    apply elem_of_remove_dups in Hz. destruct (remove_dups l) as [|a [|b r]].
    + by apply not_elem_of_nil in Hz.
    + f_equal. apply Hr. by left.
    + apply NoDup_cons in Hn as [Ha _]. exfalso. apply Ha.
      rewrite (Hr a), (Hr b) by (rewrite !elem_of_cons; auto). by left.
Qed.

Lemma remove_dups_nil {A} `{EqDecision A} (l : list A) : remove_dups l = [] ↔ l = [].
Proof.
  split; [|by intros ->]. intros E. destruct l as [|x l]; [done|].
  assert (x ∈ remove_dups (x :: l)) as Hx by (rewrite elem_of_remove_dups; by left).
  rewrite E in Hx. by apply not_elem_of_nil in Hx.
Qed.

Lemma thread_parents_org db e mb org m :
  In m (thread_parents db e mb org) → message_org db m = Some org ∧ In m (rows (messages db)).
Proof. unfold thread_parents. rewrite select_In. intros [? Hp]. bools. done. Qed.

Lemma correlate_tenant db e mb org c :
  table_wf (contacts db) → correlate_mailbox_inbound db e mb org = Ok c →
  get (ct_id c) (contacts db) = Some c ∧ contact_org db c = Some org.
Proof.
  intros Hwf. unfold correlate_mailbox_inbound, thread_contacts.
  destruct (remove_dups _) as [|cid [|? ?]] eqn:Et; [|
    destruct (get cid (contacts db)) as [c'|] eqn:Eg; [|done]; intros [= ->]|done].
  - destruct (bool_decide _); [done|]. destruct (sender_contacts db e org) as [|c' [|? ?]] eqn:Es; [done| |done].
    intros [= ->]. assert (In c (sender_contacts db e org)) as Hin by (rewrite Es; by left).
    unfold sender_contacts in Hin. apply select_In in Hin as [Hin Hp]. bools.
    split; [|done]. by apply (get_complete (contacts db)).
  - apply remove_dups_single in Et as [[y Hy] Hall].
    apply list_elem_of_In, in_map_iff in Hy as (m & Hm & Hin).
    assert (msg_contact_id m = cid) as Hcid.
    { rewrite Hm. apply Hall. apply list_elem_of_In, in_map_iff. eauto. }
    apply thread_parents_org in Hin as [Ho _]. unfold message_org, message_contact in Ho.
    rewrite Hcid, Eg in Ho. apply get_Some in Eg as Eg'. destruct Eg' as [_ Hid].
    change (row_id c) with (ct_id c) in Hid. by rewrite Hid.
Qed.

(** A stored message the inbound one answers: it belongs to the tenant and to
    the polled mailbox (an inbound one by its own column, an outbound one by
    its dispatch, if it has one), and a thread header names its Message-ID,
    which is not a synthetic one. *)
Definition names (e : InboundEmail) (id : string) : Prop :=
  (ie_in_reply_to e = Some id ∨ In id (ie_references e)) ∧ id ≠ "" ∧
  Str.startswith SYNTHETIC_ID_PREFIX id = false.

Definition of_mailbox (db : Db) (mb : Z) (org : string) (m : Message) : Prop :=
  match msg_direction m with
  | INBOUND => msg_mailbox_id m = Some mb
  | OUTBOUND =>
      ∀ d, select_first (λ d, (ed_message_id d == Some (msg_id m)) && (ed_organization_id d == org)) (dispatches db)
           = Some d → ed_mailbox_id d = Some mb
  end.

Definition answers (db : Db) (e : InboundEmail) (mb : Z) (org : string) (m : Message) : Prop :=
  In m (rows (messages db)) ∧ message_org db m = Some org ∧
  (∃ id, msg_message_id_header m = Some id ∧ names e id) ∧ of_mailbox db mb org m.

(** The contacts of this tenant that the thread, or else the sender address,
    points to. *)
Definition pointed_to (db : Db) (e : InboundEmail) (mb : Z) (org : string) (cid : Z) : Prop :=
  (∃ m, answers db e mb org m ∧ msg_contact_id m = cid) ∨
  ((∀ m, ¬ answers db e mb org m) ∧ ie_from_email e ≠ "" ∧
   ∃ c, In c (rows (contacts db)) ∧ ct_id c = cid ∧ contact_org db c = Some org ∧
        Str.lower (ct_email c) = ie_from_email e ∧ ct_status c ≠ CS_SUPPRESSED).

Lemma candidate_ids_names e id :
  in_list id (candidate_ids e) && negb (Str.startswith SYNTHETIC_ID_PREFIX id) = true ↔ names e id.
Proof.
  unfold names, candidate_ids. rewrite andb_true_iff, negb_true_iff. unfold in_list. rewrite bool_decide_eq_true, list_elem_of_In, filter_In, in_app_iff.
  destruct id as [|a id]; cbn [truthy is_synthetic_id andb].
  - naive_solver.
  - rewrite negb_true_iff. destruct (ie_in_reply_to e); cbn [In]; naive_solver.
Qed.

Lemma eligible_parent_of db mb org m : eligible_parent db mb org m = true ↔ of_mailbox db mb org m.
Proof.
  unfold eligible_parent, of_mailbox. destruct (msg_direction m); [|apply bool_decide_eq_true].
  destruct (select_first _ _) as [d|]; [rewrite bool_decide_eq_true|]; naive_solver.
Qed.

Lemma thread_parents_In db e mb org m : In m (thread_parents db e mb org) ↔ answers db e mb org m.
Proof.
  unfold thread_parents, answers. rewrite select_In, !andb_true_iff, bool_decide_eq_true, eligible_parent_of.
  destruct (msg_message_id_header m) as [h|]; [rewrite candidate_ids_names|]; naive_solver.
Qed.

Lemma sender_contacts_In db e org c :
  In c (sender_contacts db e org) ↔
  In c (rows (contacts db)) ∧ contact_org db c = Some org ∧ Str.lower (ct_email c) = ie_from_email e ∧
  ct_status c ≠ CS_SUPPRESSED.
Proof.
  unfold sender_contacts. rewrite select_In, !andb_true_iff, negb_true_iff, !bool_decide_eq_true, bool_decide_eq_false.
  tauto.
Qed.

(** Correlation in one piece: the distinct contacts pointed to. *)
Definition targets (db : Db) (e : InboundEmail) (mb : Z) (org : string) : list Z :=
  match thread_contacts db e mb org with
  | [] => if ie_from_email e == "" then [] else map ct_id (sender_contacts db e org)
  | l => l
  end.

Lemma thread_contacts_nil db e mb org : thread_contacts db e mb org = [] ↔ thread_parents db e mb org = [].
Proof.
  unfold thread_contacts. rewrite remove_dups_nil. split; [|by intros ->].
  by destruct (thread_parents _ _ _ _).
Qed.

Lemma thread_contacts_In db e mb org cid :
  cid ∈ thread_contacts db e mb org ↔ ∃ m, In m (thread_parents db e mb org) ∧ msg_contact_id m = cid.
Proof.
  unfold thread_contacts. rewrite elem_of_remove_dups, list_elem_of_In, in_map_iff. naive_solver.
Qed.

Lemma targets_pointed db e mb org cid : cid ∈ targets db e mb org ↔ pointed_to db e mb org cid.
Proof.
  unfold pointed_to. setoid_rewrite <- thread_parents_In. rewrite <- thread_contacts_In. unfold targets.
  destruct (thread_contacts db e mb org) as [|x l] eqn:Et.
  - apply thread_contacts_nil in Et. rewrite Et.
    destruct (bool_decide (ie_from_email e = "")) eqn:Ef; bools; [by rewrite !elem_of_nil; naive_solver|].
    rewrite list_elem_of_In, in_map_iff. setoid_rewrite sender_contacts_In. rewrite elem_of_nil. naive_solver.
  - assert (∃ m, In m (thread_parents db e mb org)) as [m Hm].
    { destruct (thread_parents db e mb org) as [|m ?] eqn:Ep; [|exists m; by left].
      apply thread_contacts_nil in Ep. congruence. }
    naive_solver.
Qed.

Lemma targets_NoDup db e mb org : table_wf (contacts db) → NoDup (targets db e mb org).
Proof.
  intros Hwf. unfold targets.
  assert (NoDup (thread_contacts db e mb org)) as Hn by apply NoDup_remove_dups.
  destruct (thread_contacts _ _ _ _); [|done].
  destruct (bool_decide _); [constructor|]. by apply select_NoDup_ids.
Qed.

Lemma correlate_targets db e mb org :
  table_wf (contacts db) →
  correlate_mailbox_inbound db e mb org =
    match targets db e mb org with
    | [] => Err UNMATCHED
    | [cid] => match get cid (contacts db) with Some c => Ok c | None => Err UNMATCHED end
    | _ => Err AMBIGUOUS
    end.
Proof.
  intros Hwf. unfold correlate_mailbox_inbound, targets.
  destruct (thread_contacts db e mb org) as [|x [|y l]]; [|done|done].
  destruct (bool_decide _); [done|].
  destruct (sender_contacts db e org) as [|c [|d l]] eqn:Es; [done| |done].
  assert (In c (sender_contacts db e org)) as [Hin _]%sender_contacts_In by (rewrite Es; by left).
  cbn [map]. change (ct_id c) with (row_id c). by rewrite (get_complete (contacts db) c).
Qed.

Lemma pointed_to_exists db e mb org cid :
  table_wf (contacts db) → pointed_to db e mb org cid → ∃ c, get cid (contacts db) = Some c ∧ contact_org db c = Some org.
Proof.
  intros Hwf [(m & Hin & <-)|(_ & _ & c & Hin & <- & Ho & _)].
  - destruct Hin as (_ & Ho & _). unfold message_org, message_contact in Ho.
    destruct (get _ _) as [c|]; [by exists c|done].
  - exists c. split; [by apply (get_complete (contacts db))|done].
Qed.

(** C14: correlation of a mailbox message is exact and never guesses.  Within
    the polled mailbox's own tenant, the message is attached to a contact
    exactly when the thread references (or, if no stored message of this
    mailbox is referenced, the sender address) point to that contact and to
    no other; it is ambiguous exactly when they point to two, unmatched
    exactly when to none; and the contact belongs to the tenant. *)
Theorem correlation_exact db e mb org :
  table_wf (contacts db) →
  (∀ c, correlate_mailbox_inbound db e mb org = Ok c ↔
     get (ct_id c) (contacts db) = Some c ∧ pointed_to db e mb org (ct_id c) ∧
     ∀ cid, pointed_to db e mb org cid → cid = ct_id c) ∧
  (correlate_mailbox_inbound db e mb org = Err AMBIGUOUS ↔
     ∃ i j, i ≠ j ∧ pointed_to db e mb org i ∧ pointed_to db e mb org j) ∧
  (correlate_mailbox_inbound db e mb org = Err UNMATCHED ↔ ∀ cid, ¬ pointed_to db e mb org cid) ∧
  (∀ c, correlate_mailbox_inbound db e mb org = Ok c → contact_org db c = Some org).
Proof.
  intros Hwf. rewrite (correlate_targets _ _ _ _ Hwf).
  pose proof (pointed_to_exists db e mb org) as Hex. pose proof (targets_NoDup db e mb org Hwf) as Hnd.
  setoid_rewrite <- targets_pointed. setoid_rewrite <- targets_pointed in Hex.
  destruct (targets db e mb org) as [|i [|j l]].
  - setoid_rewrite elem_of_nil. naive_solver.
  - destruct (Hex i Hwf) as (c & Hg & Ho); [by left|]. rewrite Hg.
    apply get_Some in Hg as Hg'. destruct Hg' as [_ Hid]. change (ct_id c = i) in Hid.
    setoid_rewrite list_elem_of_singleton. split_and!.
    + intros c'. split; [intros [= <-]; rewrite Hid; by split_and!|].
      intros (Hg' & Hi & _). rewrite Hi, Hg in Hg'. congruence.
    + split; [done|]. intros (x & y & Hne & -> & ->). done.
    + split; [done|]. intros Hall. by destruct (Hall i).
    + by intros c' [= <-].
  - apply NoDup_cons in Hnd as [Hni _]. assert (i ≠ j) by (intros ->; apply Hni; by left).
    split_and!.
    + intros c. split; [done|]. intros (_ & _ & Hall). exfalso.
      pose proof (Hall i). pose proof (Hall j). rewrite !elem_of_cons in *. intuition congruence.
    + split; [|done]. intros _. exists i, j. rewrite !elem_of_cons. auto.
    + split; [done|]. intros Hall. destruct (Hall i). by left.
    + done.
Qed.

(** ** The mailbox path *)

(** Every row that belongs to another tenant, or to another mailbox, is as it was. *)
Record tenant_local (org : string) (mb : Z) (db db' : Db) : Prop := {
  tl_campaigns : campaigns db' = campaigns db;
  tl_dispatches : dispatches db' = dispatches db;
  tl_mailboxes : mailboxes db' = mailboxes db;
  tl_contacts : ∀ c, In c (rows (contacts db)) → contact_org db c ≠ Some org →
    get (ct_id c) (contacts db') = Some c;
  tl_messages : ∀ m, message_org db m ≠ Some org →
    In m (rows (messages db')) ↔ In m (rows (messages db));
  tl_suppressions : ∀ s, sup_organization_id s ≠ Some org →
    In s (rows (suppressions db')) ↔ In s (rows (suppressions db));
  tl_retained : ∀ u, um_mailbox_id u ≠ mb → In u (rows (unmatched db')) ↔ In u (rows (unmatched db))
}.

Lemma tenant_local_refl org mb db : table_wf (contacts db) → tenant_local org mb db db.
Proof. intros Hwf. split; try done. intros c Hc _. by apply (get_complete (contacts db)). Qed.

Lemma confined_tenant who org mb db db' :
  table_wf (contacts db) → get (ct_id who) (contacts db) = Some who → contact_org db who = Some org →
  confined who (Some org) (Some mb) db db' → tenant_local org mb db db'.
Proof.
  intros Hwf Hg Ho Hc. split; [apply Hc|apply Hc|apply Hc|..].
  - intros c Hin Hne. rewrite (cf_other_contacts _ _ _ _ _ Hc); [by apply (get_complete (contacts db))|].
    intros Heq. pose proof (get_complete (contacts db) c Hwf Hin) as Hg'. change (row_id c) with (ct_id c) in Hg'.
    rewrite Heq, Hg in Hg'. congruence.
  - intros m Hne. apply Hc. intros Heq. apply Hne. unfold message_org, message_contact. by rewrite Heq, Hg.
  - intros s Hne. split; [|apply Hc]. intros [?|[_ ?]]%Hc; [done|congruence].
  - intros u Hne. apply Hc. congruence.
Qed.

(** The durable trace of one message of a mailbox. *)
Definition attached (db : Db) (mb : Z) (identity org : string) (m : Message) : Prop :=
  In m (rows (messages db)) ∧ msg_mailbox_id m = Some mb ∧ msg_message_id_header m = Some identity ∧
  msg_direction m = INBOUND ∧ message_org db m = Some org.
Definition retained (db : Db) (mb : Z) (identity org : string) : Prop :=
  ∃ u, In u (rows (unmatched db)) ∧ um_mailbox_id u = mb ∧ um_message_id_header u = identity ∧
       um_organization_id u = org.

Lemma find_inbound_Some db mb identity org m :
  find_inbound_message db mb identity org = Some m → attached db mb identity org m.
Proof. unfold find_inbound_message. intros [Hin Hp]%select_first_Some. bools. done. Qed.

Lemma find_inbound_complete db mb identity org m :
  attached db mb identity org m → ∃ m', find_inbound_message db mb identity org = Some m'.
Proof.
  intros (Hin & H1 & H2 & H3 & H4). destruct (find_inbound_message db mb identity org) as [m'|] eqn:E; [by eexists|].
  unfold find_inbound_message in E. pose proof (proj1 (select_first_None _ _) E m Hin) as Hf. cbn beta in Hf.
  rewrite H1, H2, H3, H4, !bool_decide_eq_true_2 in Hf by done. done.
Qed.

Lemma attached_confined who org0 mb0 db db' mb identity org m :
  confined who org0 mb0 db db' → get (ct_id who) (contacts db) = Some who →
  msg_contact_id m = ct_id who → contact_org db who = Some org →
  attached db mb identity org m →
  ∃ m', attached db' mb identity org m' ∧ msg_contact_id m' = ct_id who ∧ msg_id m' = msg_id m.
Proof.
  intros Hc Hg Hm Ho (Hin & H1 & H2 & H3 & _).
  destruct (cf_own_messages _ _ _ _ _ Hc m Hin Hm) as (m' & Hin' & K & K1 & K2 & K3 & K4 & _).
  exists m'. unfold attached. split_and!; [done|congruence|congruence|congruence| |congruence|done].
  destruct (cf_contact _ _ _ _ _ Hc who Hg (same_person_refl _)) as (c' & Hg' & _ & Hcm & _).
  unfold message_org, message_contact. rewrite K1, Hm, Hg'.
  revert Ho. unfold contact_org, contact_campaign. by rewrite Hcm, (cf_campaigns _ _ _ _ _ Hc).
Qed.

Lemma retain_unmatched_Ok env e identity mb org reason db db' :
  retain_unmatched env e identity mb org reason db = Ok db' →
  retained db' mb identity org ∧
  (db' = db ∨ db' = set_unmatched (snd (insert_row (unmatched_row env e identity mb org reason) (unmatched db))) db).
Proof.
  unfold retain_unmatched. cbv zeta.
  match goal with |- (if retained_row_exists ?x _ _ _ then _ else _) = _ → _ => set (db1 := x) end.
  destruct (retained_row_exists db1 mb identity org) eqn:E; [|done]. intros [= <-]. split.
  - unfold retained_row_exists in E. apply is_not_none_true in E as [u Hu].
    apply select_first_Some in Hu as [Hin Hp]. bools. by exists u.
  - unfold db1. destruct (insert_unique _ _ _ _) as [[x t]|] eqn:Ei; [right|by left].
    apply insert_unique_Ok in Ei as [_ Heq]. by injection Heq as _ ->.
Qed.

Lemma insert_correlated_Ok env e cid identity mb org db db' m b :
  insert_correlated_message env e cid identity mb org db = Ok (db', m, b) →
  if b : bool then insert_message (inbound_row env e cid (Some mb) (Some identity)) db = Ok (m, db')
  else db' = db ∧ attached db mb identity org m.
Proof.
  unfold insert_correlated_message. destruct (existsb _ _).
  - destruct (find_inbound_message _ _ _ _) eqn:E; [|done]. intros [= <- <- <-].
    split; [done|]. by apply find_inbound_Some.
  - intros E. apply result_bind_Ok in E as ([m1 db1] & E1 & [= <- <- <-]). done.
Qed.

Lemma message_row_id env e cid mb identity : ∀ i, row_id (inbound_row env e cid mb identity i) = i.
Proof. done. Qed.

Section Mailbox.
Context `{LlmProvider} `{FloatRepr} `{FromIsoformat} `{Classifier} `{Planner}.

(** The result names the contact the reply was attached to. *)
Lemma apply_reading_result env db l contact campaign e transcript success reading res :
  st_result (snd (apply_reading env db l contact campaign e transcript success reading)) = Ok res →
  rs_matched res = true ∧ rs_contact_id res = Some (ct_id contact).
Proof.
  unfold apply_reading. destruct success; cbn [negb]; [|by intros [= <-]].
  destruct reading as [intent|]; [|by intros [= <-]].
  destruct (in_list UNSUBSCRIBE _).
  { destruct (handle_unsubscribe _ _ _) as [[? ?]|]; [by intros [= <-]|done]. }
  destruct (in_list NOT_INTERESTED _); [by intros [= <-]|].
  destruct (in_list OUT_OF_OFFICE _); [by intros [= <-]|].
  destruct (contact_is_integration_managed _ _); [by intros [= <-]|].
  destruct (reschedule_after_reply _ _ _) as [t|]; [|done]. cbn [snd].
  unfold draft_and_maybe_send_reply. destruct (mbind _ _) as [proposal|]; [|done].
  destruct (draft_message _ _ _ _ _ _ _) as [draft|[]]; [|by intros [= <-]|done].
  destruct (_ && _ && _); [|by intros [= <-]].
  destruct (send_email _ _ _ _) as [[r|] trace]; [by intros [= <-]|done].
Qed.

Lemma classify_and_apply_result env e contact campaign m db db' res trace :
  classify_and_apply_inbound env e contact campaign m db = (Ok (db', res), trace) →
  rs_matched res = true ∧ rs_contact_id res = Some (ct_id contact).
Proof.
  unfold classify_and_apply_inbound. cbv zeta.
  destruct (store_classification _ _ _ _) as [[m' c'] reading] eqn:Es.
  apply store_classification_facts in Es as (_ & (Hid & _) & _).
  destruct (apply_reading _ _ _ _ _ _ _ _ _) as [db1 s] eqn:Ea. intros [= E _]. inv_result.
  match goal with E : st_result s = Ok _ |- _ => 
    replace s with (snd (db1, s)) in E by done; rewrite <- Ea in E; apply apply_reading_result in E as [? Hr] end.
  split; [done|]. rewrite Hr. f_equal. exact Hid.
Qed.

Lemma attach_outcome env e contact campaign identity mb org db m db1 :
  table_wf (contacts db) → table_wf (messages db) →
  get (ct_id contact) (contacts db) = Some contact → contact_org db contact = Some org →
  insert_message (inbound_row env e (ct_id contact) (Some mb) (Some identity)) db = Ok (m, db1) →
  let db2 := resolve_retained mb identity (in_utcnow env) db1 in
  applied env e contact campaign m db2 (classify_and_apply_inbound env e contact campaign m db2) ∧
  ∀ db' res trace, classify_and_apply_inbound env e contact campaign m db2 = (Ok (db', res), trace) →
    confined contact (Some org) (Some mb) db db' ∧
    ∃ m', attached db' mb identity org m' ∧ msg_contact_id m' = ct_id contact ∧
          rs_contact_id res = Some (ct_id contact).
Proof.
  intros Hwc Hwm Hg Ho Hi db2. pose proof (insert_message_Ok _ _ _ _ Hi) as (Hm & Hdb1 & _).
  assert (table_wf (messages db2)) as Hwm2.
  { subst db2 db1. cbn [messages set_messages resolve_retained set_unmatched]. by apply insert_row_wf. }
  assert (get (msg_id m) (messages db2) = Some m) as Hgm.
  { subst db2 db1 m. cbn [messages set_messages resolve_retained set_unmatched]. by apply insert_row_get_new. }
  assert (msg_contact_id m = ct_id contact) as Hmc by by subst m.
  assert (contact_org db2 contact = Some org) as Ho2 by by subst db2 db1.
  assert (get (ct_id contact) (contacts db2) = Some contact) as Hg2 by by subst db2 db1.
  pose proof (classify_and_apply_applied env e contact campaign m db2 Hwm2 Hgm Hmc) as Ha.
  split; [exact Ha|]. intros db' res trace E. rewrite E in Ha.
  assert (confined contact (Some org) (Some mb) db db2) as C1.
  { eapply confined_trans; [|apply resolve_retained_confined].
    apply (insert_messages_confined _ _ _ [inbound_row env e (ct_id contact) (Some mb) (Some identity)]).
    - by repeat constructor.
    - cbn [insert_messages]. by rewrite Hi. }
  pose proof (ap_confined _ _ _ _ _ _ _ Ha db' res (Some mb) eq_refl) as C2. rewrite Ho2 in C2.
  split; [by eapply confined_trans|].
  destruct (attached_confined contact (Some org) (Some mb) db2 db' mb identity org m C2 Hg2 Hmc Ho2)
    as (m' & Hat & Hc & _).
  { split_and!; try by subst m. apply get_Some in Hgm. apply Hgm.
    unfold message_org, message_contact. by rewrite Hmc, Hg2. }
  exists m'. split_and!; [done|done|]. by apply classify_and_apply_result in E as [_ ?].
Qed.
End Mailbox.

(** What the other transactions may do meanwhile: insert messages and retained
    rows, and leave a well-formed table. *)
Record inserts_only (race : Db → Db) (db : Db) : Prop := {
  ro_contacts : contacts (race db) = contacts db;
  ro_campaigns : campaigns (race db) = campaigns db;
  ro_wf_contacts : table_wf (contacts db);
  ro_wf_messages : table_wf (messages (race db))
}.

(** The identity under which a message is stored. *)
Definition identity_of (email : InboundEmail) : option string :=
  or_opt (ie_message_id (normalize_inbound email)) (ie_synthetic_id email).

Section MailboxTheorems.
Context `{LlmProvider} `{FloatRepr} `{FromIsoformat} `{Classifier} `{Planner}.

(** The ways a mailbox message can end well. *)
Inductive mailbox_end (env : InboundEnv) (race : Db → Db) (email : InboundEmail) (mb : Z) (org identity : string)
    (db : Db) : Db → InboundResult → list smtp_event → Prop :=
  | end_duplicate base m :
      base = db ∨ base = race db → attached base mb identity org m →
      mailbox_end env race email mb org identity db base (result_duplicate (msg_contact_id m) (Some (msg_id m))) []
  | end_retained reason db' :
      correlate_mailbox_inbound db (normalize_inbound email) mb org = Err reason →
      retain_unmatched env (normalize_inbound email) identity mb org reason (race db) = Ok db' →
      mailbox_end env race email mb org identity db db'
        (result_unmatched None (Some ("unmatched_" +:+ reason)) (Some reason)) []
  | end_attached contact campaign m db1 db' res trace :
      get (ct_id contact) (contacts db) = Some contact → contact_org db contact = Some org →
      contact_campaign db contact = Some campaign →
      insert_message (inbound_row env (normalize_inbound email) (ct_id contact) (Some mb) (Some identity)) (race db)
        = Ok (m, db1) →
      classify_and_apply_inbound env (normalize_inbound email) contact campaign m
        (resolve_retained mb identity (in_utcnow env) db1) = (Ok (db', res), trace) →
      mailbox_end env race email mb org identity db db' res trace.

Lemma mailbox_end_inv env race email mb org db db' res trace :
  table_wf (contacts db) →
  process_mailbox_inbound env race email mb org db = (Ok (db', res), trace) →
  ∃ identity, identity_of email = Some identity ∧ identity ≠ "" ∧
    mailbox_end env race email mb org identity db db' res trace.
Proof.
  intros Hwf. unfold process_mailbox_inbound. cbv zeta.
  change (or_opt _ _) with (identity_of email). destruct (identity_of email) as [[|a s]|]; [done| |done].
  set (identity := String a s). intros E. exists identity. split_and!; [done|done|].
  destruct (find_inbound_message _ _ _ _) as [m|] eqn:Ef.
  { injection E as <- <- <-. apply end_duplicate; [by left|by apply find_inbound_Some]. }
  destruct (correlate_mailbox_inbound _ _ _ _) as [contact|reason] eqn:Ec.
  - pose proof (correlate_tenant _ _ _ _ _ Hwf Ec) as [Hg Ho].
    destruct (insert_correlated_message _ _ _ _ _ _ _) as [[[db1 m] b]|] eqn:Ei; [|done].
    apply insert_correlated_Ok in Ei. destruct b.
    + destruct (contact_campaign db contact) as [campaign|] eqn:Ecm; [|done].
      by eapply end_attached.
    + destruct Ei as [-> Ha]. injection E as <- <- <-. apply end_duplicate; [by right|done].
  - injection E as E <-. apply result_bind_Ok in E as (db1 & Er & [= <- <-]). by apply end_retained.
Qed.

Lemma mailbox_durable env race email mb org db db' res trace :
  inserts_only race db →
  process_mailbox_inbound env race email mb org db = (Ok (db', res), trace) →
  ∃ identity, identity_of email = Some identity ∧ identity ≠ "" ∧
    ((rs_matched res = true ∧
      ∃ m, attached db' mb identity org m ∧ rs_contact_id res = Some (msg_contact_id m)) ∨
     (rs_matched res = false ∧ retained db' mb identity org ∧ trace = [] ∧
      contacts db' = contacts db ∧ messages db' = messages (race db))).
Proof.
  intros [Hc Hcm Hwc Hwm] E. apply mailbox_end_inv in E as (identity & Hid & Hne & E); [|done].
  exists identity. split_and!; [done|done|]. destruct E as [base m _ Ha|reason db' _ Hr|contact campaign m db1 db' res trace Hg Ho _ Hi E].
  - left. split; [done|]. by exists m.
  - right. apply retain_unmatched_Ok in Hr as [Hr Hdb]. split_and!; [done|done|done|..];
      destruct Hdb as [->| ->]; by rewrite <- ?Hc.
  - left. assert (contact_org (race db) contact = Some org) as Ho'.
    { revert Ho. unfold contact_org, contact_campaign. by rewrite Hcm. }
    destruct (attach_outcome env (normalize_inbound email) contact campaign identity mb org (race db) m db1)
      as [_ Hout]; try done; [by rewrite Hc|by rewrite Hc|].
    pose proof (classify_and_apply_result _ _ _ _ _ _ _ _ _ E) as [Hm _].
    destruct (Hout _ _ _ E) as (_ & m' & Ha & Hmc & Hr).
    split; [done|]. exists m'. split; [done|]. congruence.
Qed.

(** A mailbox message is durable before success is reported.  Whenever
    the handler returns, whatever other polls insert meanwhile, the message is
    stored under its identity: either attached to a contact of the polled
    tenant, whom the result names, or retained for review, in which case no
    contact and no message row has changed and nothing was transmitted.  (The
    poller marks a message Seen only after this.) *)
Theorem mailbox_success_is_durable env race email mb org db db' res trace :
  inserts_only race db →
  process_mailbox_inbound env race email mb org db = (Ok (db', res), trace) →
  ∃ identity, identity_of email = Some identity ∧ identity ≠ "" ∧
    ((rs_matched res = true ∧
      ∃ m, attached db' mb identity org m ∧ rs_contact_id res = Some (msg_contact_id m)) ∨
     (rs_matched res = false ∧ retained db' mb identity org ∧ trace = [] ∧
      contacts db' = contacts db ∧ messages db' = messages (race db))).
Proof. apply mailbox_durable. Qed.

(** C7: tenant isolation of inbound mail.  Processing a message of one
    tenant's mailbox leaves every row of every other tenant (contacts,
    messages, suppressions), every campaign, dispatch and mailbox, and every
    retained row of another mailbox as it was, whatever addresses and thread
    references the message claims; and a contact the result names belongs to
    the tenant. *)
Theorem mailbox_inbound_stays_in_tenant env race email mb org db db' res trace :
  inserts_only race db →
  process_mailbox_inbound env race email mb org db = (Ok (db', res), trace) →
  ∃ base, (base = db ∨ base = race db) ∧ tenant_local org mb base db' ∧
    ∀ cid, rs_contact_id res = Some cid →
      ∃ c, get cid (contacts db') = Some c ∧ contact_org db' c = Some org.
Proof.
  intros [Hc Hcm Hwc Hwm] E. apply mailbox_end_inv in E as (identity & Hid & Hne & E); [|done].
  destruct E as [base m Hb Ha|reason db' _ Hr|contact campaign m db1 db' res trace Hg Ho _ Hi E].
  - exists base. split_and!; [done|apply tenant_local_refl; destruct Hb as [->| ->]; by rewrite ?Hc|].
    intros cid [= <-]. destruct Ha as (_ & _ & _ & _ & Ho). unfold message_org, message_contact in Ho.
    destruct (get (msg_contact_id m) _) as [c|]; [by exists c|done].
  - exists (race db). split_and!; [by right| |done].
    apply retain_unmatched_Ok in Hr as [_ [->| ->]]; [apply tenant_local_refl; by rewrite Hc|].
    destruct (tenant_local_refl org mb (race db)); [by rewrite Hc|].
    split; try done. intros u Hu. cbn [unmatched set_unmatched]. rewrite insert_row_In.
    split; [|auto]. intros [?| ->]; [done|]. by cbn in Hu.
  - assert (contact_org (race db) contact = Some org) as Ho'.
    { revert Ho. unfold contact_org, contact_campaign. by rewrite Hcm. }
    destruct (attach_outcome env (normalize_inbound email) contact campaign identity mb org (race db) m db1)
      as [_ Hout]; try done; [by rewrite Hc|by rewrite Hc|].
    destruct (Hout _ _ _ E) as (Hcf & m' & (_ & _ & _ & _ & Hmo) & Hmc & Hr).
    exists (race db). split_and!; [by right|apply (confined_tenant contact); [by rewrite Hc|by rewrite Hc|done|done]|].
    intros cid Hcid. unfold message_org, message_contact in Hmo. rewrite Hmc in Hmo.
    rewrite Hr in Hcid. injection Hcid as <-.
    destruct (get (ct_id contact) (contacts db')) as [c|]; [by exists c|done].
Qed.
End MailboxTheorems.

Lemma first_desc_In {A} (key : A → Z) l x : first_desc key l = Some x → In x l.
Proof.
  unfold first_desc. assert (∀ best, fold_left
    (λ best x, match best with
               | None => Some x
               | Some b => if key b <? key x then Some x else Some b
               end) l best = Some x → In x l ∨ best = Some x) as Hgen.
  { induction l as [|y l IH]; cbn; [auto|]. intros best Hf. apply IH in Hf as [?|Hf]; [auto|].
    destruct best as [b|]; [destruct (key b <? key y)|]; naive_solver. }
  intros Hf. by destruct (Hgen None Hf).
Qed.

Inductive inbound_source :=
  | Polled (mailbox_id : Z) (organization_id : string)
  | Posted (organization_id : option string).

(** The contact a message is correlated with, if there is exactly one. *)
Definition correlated (src : inbound_source) (db : Db) (email : InboundEmail) : option Contact :=
  match src with
  | Polled mb org =>
      match correlate_mailbox_inbound db (normalize_inbound email) mb org with Ok c => Some c | Err _ => None end
  | Posted org => correlate_inbound db (normalize_inbound email) org
  end.

(** Polled mail needs an identity to be stored under. *)
Definition has_identity (src : inbound_source) (email : InboundEmail) : Prop :=
  match src with
  | Polled _ _ => ∃ identity, identity_of email = Some identity ∧ identity ≠ ""
  | Posted _ => True
  end.

(** The row that makes a message a duplicate. *)
Definition already_stored (src : inbound_source) (db : Db) (email : InboundEmail) : option Message :=
  match src with
  | Polled mb org => identity ← identity_of email; find_inbound_message db mb identity org
  | Posted org =>
      if truthy (ie_message_id (normalize_inbound email))
      then find_by_message_id db (ie_message_id (normalize_inbound email)) org else None
  end.

(** The inbound row, and the database the turn runs on once it is stored. *)
Definition stored_row (src : inbound_source) (env : InboundEnv) (email : InboundEmail) (contact : Contact) : Z → Message :=
  match src with
  | Polled mb _ => inbound_row env (normalize_inbound email) (ct_id contact) (Some mb) (identity_of email)
  | Posted _ => inbound_row env (normalize_inbound email) (ct_id contact) None (ie_message_id (normalize_inbound email))
  end.
Definition seen_by (src : inbound_source) (env : InboundEnv) (email : InboundEmail) (db : Db) : Db :=
  match src with
  | Polled mb _ => resolve_retained mb (default "" (identity_of email)) (in_utcnow env) db
  | Posted _ => db
  end.

(** The classifier's reading with the facts marked as learnt from this row. *)
Definition provenanced (env : InboundEnv) (m : Message) (i : SemanticIntent) : SemanticIntent :=
  attach_fact_provenance (msg_id m) (Clock.isoformat_utc (in_utcnow env)) i.

Lemma insert_message_Err mk db x :
  insert_message mk db = Err x →
  ∃ r, In r (rows (messages db)) ∧ message_clash (mk (next_id (messages db))) r = true.
Proof.
  unfold insert_message, insert_unique. destruct (existsb _ _) eqn:E; [|done]. intros _.
  by apply existsb_exists in E.
Qed.

Section Gates.
Context `{LlmProvider} `{FloatRepr} `{FromIsoformat} `{Classifier} `{Planner}.

(** Redelivery is harmless.  Once a message has been attached, offering it
    again (by any poll, with any interference, even if the first Seen flag was
    lost) changes nothing, transmits nothing and is reported as the duplicate
    it is; once it has been retained, a further poll that still cannot attach
    it changes nothing either. *)
Theorem mailbox_redelivery_idempotent env race email mb org db db' res trace :
  inserts_only race db →
  process_mailbox_inbound env race email mb org db = (Ok (db', res), trace) →
  (rs_matched res = true → ∀ env' race', ∃ cid mid,
     process_mailbox_inbound env' race' email mb org db' = (Ok (db', result_duplicate cid (Some mid)), [])) ∧
  (rs_matched res = false → ∀ env' db2 res2 trace2,
     process_mailbox_inbound env' (λ d, d) email mb org db' = (Ok (db2, res2), trace2) →
     rs_matched res2 = false → db2 = db' ∧ trace2 = []).
Proof.
  intros Hq E. pose proof Hq as [Hc _ Hwc _]. pose proof (mailbox_durable _ _ _ _ _ _ _ _ _ Hq E)
    as (identity & Hid & Hne & Hd).
  split; intros Hm.
  - destruct Hd as [(_ & m & Ha & _)|(? & _)]; [|congruence]. intros env' race'.
    apply find_inbound_complete in Ha as [m' Hf]. unfold process_mailbox_inbound. cbv zeta.
    change (or_opt _ _) with (identity_of email). rewrite Hid. destruct identity as [|a s]; [done|].
    rewrite Hf. by eexists _, _.
  - destruct Hd as [(? & _)|(_ & Hr & _ & Hdc & _)]; [congruence|]. intros env' db2 res2 trace2 E2 Hm2.
    apply mailbox_end_inv in E2 as (identity2 & Hid2 & _ & E2); [|by rewrite Hdc].
    rewrite Hid in Hid2. injection Hid2 as <-.
    destruct E2 as [? ? _ _|reason db2 _ Hr2|? ? ? ? ? ? ? _ _ _ _ E2]; [done| |].
    + split; [|done]. unfold retain_unmatched in Hr2. cbv zeta in Hr2. unfold insert_unique in Hr2.
      destruct Hr as (u & Hin & Hu1 & Hu2 & Hu3).
      assert (existsb (unmatched_clash (unmatched_row env' (normalize_inbound email) identity mb org reason
        (next_id (unmatched db')))) (rows (unmatched db')) = true) as Hx.
      { apply existsb_exists. exists u. split; [done|]. unfold unmatched_clash. cbn.
        by rewrite Hu1, Hu2, !bool_decide_eq_true_2. }
      rewrite Hx in Hr2. destruct (retained_row_exists _ _ _ _); [by injection Hr2|done].
    + apply classify_and_apply_result in E2 as [? _]. congruence.
Qed.

Lemma find_contact_stored db e org c :
  table_wf (contacts db) →
  find_contact_by_message_id db e org = Some c ∨ find_contact_by_email db e org = Some c →
  get (ct_id c) (contacts db) = Some c.
Proof.
  intros Hwf. assert (∀ p, In c (select p (contacts db)) → get (ct_id c) (contacts db) = Some c) as Hsel.
  { intros p [Hin _]%select_In. by apply (get_complete (contacts db)). }
  intros [Hf|Hf].
  - unfold find_contact_by_message_id in Hf. cbv zeta in Hf. destruct (_ ++ _) as [|? ?]; [done|].
    destruct (first_desc _ _) as [m|]; [|done]. unfold message_contact in Hf.
    apply get_Some in Hf as Hf'. destruct Hf' as [_ Hid]. change (row_id c) with (ct_id c) in Hid. by rewrite Hid.
  - unfold find_contact_by_email in Hf. destruct (truthy _).
    + apply first_desc_In in Hf. eauto.
    + destruct (select _ _) as [|c' [|? ?]] eqn:Es; [done| |done]. injection Hf as ->.
      eapply Hsel. rewrite Es. by left.
Qed.

(** The contact the webhook path settles on is a stored one. *)
Lemma webhook_contact_stored db e org c :
  table_wf (contacts db) → correlate_inbound db e org = Some c → get (ct_id c) (contacts db) = Some c.
Proof.
  intros Hwf Hf. apply (find_contact_stored db e org c Hwf). unfold correlate_inbound in Hf.
  destruct (find_contact_by_message_id _ _ _); [auto|]. destruct (_ || _); [done|auto].
Qed.

(** The two ways in: mail polled from a tenant's mailbox, and mail posted to the
    webhook (for an authenticated tenant) or polled for the whole deployment. *)
Definition inbound_run (src : inbound_source) (env : InboundEnv) (race : Db → Db) (email : InboundEmail) (db : Db)
    : result exn (Db * InboundResult) * list smtp_event :=
  match src with
  | Polled mb org => process_mailbox_inbound env race email mb org db
  | Posted org => process_inbound_email_v2 env race email org db
  end.

Lemma insert_applied env e contact campaign mk db m db1 (f : Db → Db) :
  (∀ i, row_id (mk i) = i) → (∀ i, msg_contact_id (mk i) = ct_id contact) →
  messages (f db1) = messages db1 →
  table_wf (messages db) → insert_message mk db = Ok (m, db1) →
  applied env e contact campaign m (f db1) (classify_and_apply_inbound env e contact campaign m (f db1)).
Proof.
  intros Hid Hcid Hf Hwm (-> & Hdb & _)%insert_message_Ok.
  assert (messages (f db1) = snd (insert_row mk (messages db))) as Hm by (by rewrite Hf, Hdb).
  apply classify_and_apply_applied; rewrite ?Hm; [by apply insert_row_wf| |apply Hcid].
  change (msg_id (mk (next_id (messages db)))) with (row_id (mk (next_id (messages db)))).
  rewrite Hid. by apply insert_row_get_new.
Qed.

(** Every call either says nothing on the wire, or is the turn of the contact the
    message correlates to, over the database with the message stored. *)
Lemma inbound_run_fresh src env race email db contact campaign :
  has_identity src email → already_stored src db email = None → correlated src db email = Some contact →
  contact_campaign db contact = Some campaign →
  let mk := stored_row src env email contact in
  let out := inbound_run src env race email db in
  (snd out = [] ∧ ∃ r, In r (rows (messages (race db))) ∧ message_clash (mk (next_id (messages (race db)))) r = true) ∨
  (∃ m db1, insert_message mk (race db) = Ok (m, db1) ∧
     out = classify_and_apply_inbound env (normalize_inbound email) contact campaign m (seen_by src env email db1)).
Proof.
  intros Hid Hnew Hc Hcm mk out. unfold mk, out in *. clear mk out.
  destruct (insert_message (stored_row src env email contact) (race db)) as [[m db1]|x] eqn:Ei.
  - right. exists m, db1. split; [done|]. destruct src as [mb org|org]; cbn -[normalize_inbound] in *.
    + destruct Hid as (identity & Hid & Hne). rewrite Hid in *. unfold process_mailbox_inbound. cbv zeta.
      change (or_opt _ _) with (identity_of email). rewrite Hid. cbn in Hnew. destruct identity as [|a s]; [done|].
      rewrite Hnew. destruct (correlate_mailbox_inbound _ _ _ _); [|done]. injection Hc as ->. rewrite Hcm.
      unfold insert_correlated_message. rewrite Ei. destruct (existsb _ _) eqn:Ex; [|done].
      apply insert_message_Ok in Ei as (-> & _ & Hn). apply existsb_exists in Ex as (r & Hin & Hr).
      specialize (Hn r Hin). unfold message_clash in Hn. unfold mailbox_message_clash in Hr. rewrite Hr in Hn.
      by rewrite orb_true_r in Hn.
    + unfold process_inbound_email_v2, process_in_session. cbv zeta. rewrite Hnew, Hc, Ei, Hcm. done.
  - left. split; [|by apply insert_message_Err in Ei].
    destruct src as [mb org|org]; cbn -[normalize_inbound] in *.
    + destruct Hid as (identity & Hid & Hne). rewrite Hid in *. unfold process_mailbox_inbound. cbv zeta.
      change (or_opt _ _) with (identity_of email). rewrite Hid. cbn in Hnew. destruct identity as [|a s]; [done|].
      rewrite Hnew. destruct (correlate_mailbox_inbound _ _ _ _); [|done]. injection Hc as ->. rewrite Hcm.
      unfold insert_correlated_message. rewrite Ei. destruct (existsb _ _); [|done].
      destruct (find_inbound_message (race db) mb _ org); reflexivity.
    + unfold process_inbound_email_v2, process_in_session. cbv zeta. rewrite Hnew, Hc, Ei. by destruct (_ && _).
Qed.

(** Anything transmitted belongs to such a turn. *)
Lemma inbound_run_sends src env race email db :
  table_wf (contacts db) → snd (inbound_run src env race email db) ≠ [] →
  ∃ contact campaign, has_identity src email ∧ already_stored src db email = None ∧
    correlated src db email = Some contact ∧ contact_campaign db contact = Some campaign ∧
    get (ct_id contact) (contacts db) = Some contact.
Proof.
  intros Hwf. destruct src as [mb org|org]; cbn.
  - unfold process_mailbox_inbound. cbv zeta. change (or_opt _ _) with (identity_of email).
    destruct (identity_of email) as [[|a s]|]; [done| |done]. cbn.
    destruct (find_inbound_message _ _ _ _); [done|].
    destruct (correlate_mailbox_inbound _ _ _ _) as [contact|] eqn:Ec; [|done].
    destruct (insert_correlated_message _ _ _ _ _ _ _) as [[[? ?] []]|]; [|done|done].
    destruct (contact_campaign db contact) as [campaign|] eqn:Ecm; [|done]. intros _.
    exists contact, campaign. split_and!; try done; [by eexists|]. by eapply correlate_tenant.
  - unfold process_inbound_email_v2, process_in_session. cbv zeta. destruct (if truthy _ then _ else None) eqn:Ef; [done|].
    destruct (correlate_inbound _ _ _) as [contact|] eqn:Ec; [|done].
    destruct (insert_message _ _) as [[? ?]|]; [|by destruct (_ && _)].
    destruct (contact_campaign db contact) as [campaign|] eqn:Ecm; [|done]. intros _.
    exists contact, campaign. split_and!; try done. by eapply webhook_contact_stored.
Qed.

(** What a reply may rest on, all of it about one turn: the classification [i]
    of this message by the configured classifier in this conversation, the
    plan [p] made for that reading, that transcript and the known facts of that
    very contact and campaign, its authorization, the draft for that plan, and
    the suppression list as it is when the draft is ready.  [c] is the contact
    with his new state. *)
Record gated_reply (env : InboundEnv) (e : InboundEmail) (contact : Contact) (campaign : Campaign) (m : Message)
    (seen : Db) (i : SemanticIntent) (known : string) (p : NextActionProposal) (draft : AgentDraft)
    (trace : list smtp_event) : Prop := {
  gr_success : cr_success (reading_of env e contact campaign seen) = true;
  gr_reading : cr_semantic_intent (reading_of env e contact campaign seen) = Some i;
  gr_no_refusal : (UNSUBSCRIBE ∉ si_intents i) ∧ (NOT_INTERESTED ∉ si_intents i) ∧ (OUT_OF_OFFICE ∉ si_intents i);
  gr_native : cp_integration_source campaign = None;
  gr_known : build_known_facts_summary (provenanced env m i) (turn_conversation env e contact campaign m seen) contact
    campaign = Ok known;
  gr_planned : plan_next_action (provenanced env m i) (build_conversation_context seen contact) known = Ok p;
  gr_authorized : au_can_auto_send (authorize_action p (provenanced env m i)
    (auto_reply_enabled (se_settings (in_send env)))) = true;
  gr_drafted : ∃ c, same_person contact c ∧ draft_message campaign c
    (au_draft_action_type (authorize_action p (provenanced env m i) (auto_reply_enabled (se_settings (in_send env)))))
    (build_conversation_context seen contact) None (Some (np_objective p)) (Some (np_reason p)) = Ok draft;
  gr_not_suppressed : is_suppressed seen (ct_email contact) (cp_organization_id campaign) = false;
  gr_grounded : is_safe_to_send (validate_grounding (ad_body draft) (cp_proof_points campaign) (ct_context_notes contact)
    (Some (build_conversation_context seen contact)) (Some (cp_value_prop campaign))) = true;
  gr_sent : ∃ r, send_email (se_settings (in_send env)) (se_smtp (in_send env)) (se_seed (in_send env))
    (reply_args e contact campaign (ad_body draft)) = (Ok r, trace)
}.

Lemma applied_gated env e contact campaign m db out :
  applied env e contact campaign m db out → snd out ≠ [] → contact_campaign db contact = Some campaign →
  ∃ i known p draft, gated_reply env e contact campaign m db i known p draft (snd out).
Proof.
  intros [_ Hs] Ht Hcm.
  destruct (Hs Ht) as (c & body & r & Hp & Hn & [Hsucc Hnat Hw] & Hsend). pose proof Hp as (Q1 & Q2 & Q3).
  destruct Hw as (intent & p & Hr & Hu & Hni & Hoo & [(known & Hk & Hplan) (draft & Hd & <-) Ha Hsup Hgr]).
  destruct (cr_semantic_intent _) as [i|] eqn:Ei; [|done]. injection Hr as <-.
  exists i, known, p, draft. split; try done.
  - eapply (not_managed_source db c); [done|]. revert Hcm. unfold contact_campaign. by rewrite Q2.
  - revert Hk. unfold build_known_facts_summary. by rewrite Hn.
  - by exists c.
  - revert Hsup. by rewrite Q3.
  - by rewrite <- Hn.
  - exists r. revert Hsend. unfold reply_args. by rewrite Q3.
Qed.

(** The turn of one contact: who he is, and the database his turn runs on. *)
Record turn_of (src : inbound_source) (env : InboundEnv) (race : Db → Db) (email : InboundEmail) (db : Db)
    (contact : Contact) (campaign : Campaign) (m : Message) (seen : Db) : Prop := {
  tu_correlated : correlated src db email = Some contact;
  tu_stored : get (ct_id contact) (contacts db) = Some contact;
  tu_campaign : contact_campaign db contact = Some campaign;
  tu_new : already_stored src db email = None;
  tu_row : m = stored_row src env email contact (next_id (messages (race db)));
  tu_messages : rows (messages seen) = rows (messages (race db)) ++ [m];
  tu_people : contacts seen = contacts db ∧ campaigns seen = campaigns db;
  tu_suppressions : suppressions seen = suppressions (race db)
}.

(** Whatever is transmitted in answer to an inbound message is a gated reply. *)
Lemma inbound_gated src env race email db :
  inserts_only race db → snd (inbound_run src env race email db) ≠ [] →
  ∃ contact campaign m seen i known p draft,
    turn_of src env race email db contact campaign m seen ∧
    gated_reply env (normalize_inbound email) contact campaign m seen i known p draft
      (snd (inbound_run src env race email db)).
Proof.
  intros [Hc Hcm Hwc Hwm] Ht.
  destruct (inbound_run_sends src env race email db Hwc Ht) as (contact & campaign & Hid & Hnew & Hco & Hcp & Hg).
  destruct (inbound_run_fresh src env race email db contact campaign Hid Hnew Hco Hcp)
    as [[? _]|(m & db1 & Hi & Hout)]; [done|].
  assert (messages (seen_by src env email db1) = messages db1) as Hsm by (by destruct src).
  pose proof (insert_message_Ok _ _ _ _ Hi) as (Hm & Hdb1 & _).
  destruct (applied_gated env (normalize_inbound email) contact campaign m (seen_by src env email db1)
    (inbound_run src env race email db)) as (i & known & p & draft & Hgr); [|exact Ht| |].
  - rewrite Hout. eapply insert_applied; [| |exact Hsm|exact Hwm|exact Hi]; by destruct src.
  - revert Hcp. unfold contact_campaign. rewrite Hdb1. destruct src; cbn; by rewrite Hcm.
  - exists contact, campaign, m, (seen_by src env email db1), i, known, p, draft. split; [|exact Hgr].
    split; try done.
    + by rewrite Hsm, Hdb1, Hm.
    + rewrite Hdb1. by destruct src; cbn.
    + rewrite Hdb1. by destruct src; cbn.
Qed.

(** C5: no reply is sent without a person unless every gate is open.
    Whichever way an inbound message arrives (a polled mailbox, the webhook, or
    the deployment-wide poller), whatever messages, retained rows and
    suppressions other transactions add meanwhile (they leave contacts and
    campaigns alone), mail is transmitted only as one reply to the contact the
    message was correlated with and attached to, and only if: his campaign is
    native (never an integration's); the classifier's own reading of this
    message is a success and no opt-out, refusal or automatic answer; the plan
    made for that reading, this conversation and the known facts of this
    contact is authorized by the guardrails with automatic replies on; the
    text is the draft for that plan and is grounded in approved content; and
    the address is not suppressed in its tenant in the database as it is at
    that moment, concurrent suppressions included. *)
Theorem automatic_reply_passes_every_gate src env race email db :
  inserts_only race db → snd (inbound_run src env race email db) ≠ [] →
  ∃ contact campaign m seen i known p draft,
    turn_of src env race email db contact campaign m seen ∧
    gated_reply env (normalize_inbound email) contact campaign m seen i known p draft
      (snd (inbound_run src env race email db)).
Proof. apply inbound_gated. Qed.
End Gates.

(** ** Opt-outs *)




Section OptOut.
Context `{LlmProvider} `{FloatRepr} `{FromIsoformat} `{SemanticReader} `{Planner}.


End OptOut.

(** ** The data model is kept *)

Lemma unique_rows_map {A} `{Row A} clash (g : A → A) (t : table A) n :
  (∀ r, In r (rows t) → row_id (g r) = row_id r) →
  (∀ r r', In r (rows t) → In r' (rows t) → clash (g r) (g r') = clash r r') →
  unique_rows clash t → unique_rows clash (Table (map g (rows t)) n).
Proof.
  intros Hid Hcl Hu r r' [x [<- Hx]]%in_map_iff [y [<- Hy]]%in_map_iff.
  rewrite Hcl, !Hid by done. by apply Hu.
Qed.

Lemma unique_rows_insert {A} `{Row A} clash mk (t : table A) :
  (∀ a b, clash a b = clash b a) → (∀ x, In x (rows t) → clash (mk (next_id t)) x = false) →
  unique_rows clash t → unique_rows clash (snd (insert_row mk t)).
Proof.
  intros Hsym Hn Hu x y. rewrite !insert_row_In. intros [Hx| ->] [Hy| ->] Hc; auto.
  - by rewrite Hsym, (Hn x Hx) in Hc.
  - by rewrite (Hn y Hy) in Hc.
Qed.

Lemma bool_decide_sym {A} `{EqDecision A} (a b : A) : bool_decide (a = b) = bool_decide (b = a).
Proof. apply bool_decide_ext. naive_solver. Qed.

Lemma same_some_sym {A} `{EqDecision A} (a b : option A) : same_some a b = same_some b a.
Proof. destruct a, b; try done. apply bool_decide_sym. Qed.

Lemma message_clash_sym a b : message_clash a b = message_clash b a.
Proof.
  unfold message_clash.
  rewrite (same_some_sym (msg_message_id_header a)), (same_some_sym (msg_mailbox_id a)),
    (same_some_sym (msg_reply_reference a)), (andb_comm (is_none (msg_mailbox_id a))). done.
Qed.

Lemma suppression_clash_sym a b : suppression_clash a b = suppression_clash b a.
Proof.
  unfold suppression_clash. by rewrite (bool_decide_sym (sup_email a)), (same_some_sym (sup_organization_id a)).
Qed.

Lemma unmatched_clash_sym a b : unmatched_clash a b = unmatched_clash b a.
Proof.
  unfold unmatched_clash. by rewrite (bool_decide_sym (um_mailbox_id a)), (bool_decide_sym (um_message_id_header a)).
Qed.

Lemma kept_clash a b a' b' : kept a a' → kept b b' → message_clash a' b' = message_clash a b.
Proof. unfold kept, message_clash. intros. destruct_and!. congruence. Qed.

(** The invariants of the schema on the tables inbound processing writes:
    ordered primary keys, the unique indexes, and the foreign keys from
    messages to contacts to campaigns. *)
Record inbound_schema (db : Db) : Prop := {
  is_wf : db_wf db;
  is_unique_messages : unique_rows message_clash (messages db);
  is_unique_suppressions : unique_rows suppression_clash (suppressions db);
  is_unique_retained : unique_rows unmatched_clash (unmatched db);
  is_fk_messages : ∀ m, In m (rows (messages db)) → is_Some (get (msg_contact_id m) (contacts db));
  is_fk_contacts : ∀ c, In c (rows (contacts db)) → is_Some (contact_campaign db c)
}.

Lemma write_contact_schema u c db :
  (∀ old, get (ct_id c) (contacts db) = Some old → ct_campaign_id c = ct_campaign_id old) →
  inbound_schema db → inbound_schema (write_contact u c db).
Proof.
  intros Hc [[] Hm Hs Hu Hf Hfc]. split; try done.
  - split; try done. unfold write_contact; cbn [contacts set_contacts].
    by apply update_pk_wf_at.
  - intros m Hin. rewrite write_contact_get. destruct (Hf m Hin) as [x Hx]. rewrite Hx. case_match; by eexists.
  - intros x Hin. unfold contact_campaign. cbn [campaigns write_contact set_contacts].
    unfold write_contact in Hin; cbn in Hin. apply in_map_iff in Hin as (r & <- & Hr).
    destruct ((row_id r =? ct_id c) && _) eqn:E; [|by apply Hfc].
    apply andb_prop in E as [E _]. bools. cbn.
    rewrite (Hc r); [by apply Hfc|]. rewrite <- E. by apply (get_complete (contacts db)).
Qed.

Lemma write_message_schema m db :
  (∀ r, In r (rows (messages db)) → msg_id r = msg_id m → kept r m) →
  inbound_schema db → inbound_schema (write_message m db).
Proof.
  intros Hm [[] Hum Hs Hu Hf Hfc].
  set (g := λ r, if (row_id r =? msg_id m) && true then m else r).
  assert (∀ r, In r (rows (messages db)) → kept r (g r)) as Hg.
  { intros r Hr. unfold g. destruct (row_id r =? msg_id m) eqn:E; cbn [andb]; [|apply kept_refl].
    bools. by apply Hm. }
  split; try done.
  - split; try done. unfold write_message; cbn [messages set_messages]. by apply update_pk_wf_at.
  - apply (unique_rows_map message_clash g); [|intros; apply kept_clash; auto|done].
    intros r Hr. apply (Hg r Hr).
  - intros x Hin. unfold write_message in *; cbn in *. apply in_map_iff in Hin as (r & <- & Hr).
    change (is_Some (get (msg_contact_id (g r)) (contacts db))).
    rewrite (proj1 (proj2 (Hg r Hr))). by apply Hf.
Qed.

Lemma insert_message_schema mk db m db' :
  (∀ i, row_id (mk i) = i) → (∀ i, is_Some (get (msg_contact_id (mk i)) (contacts db))) →
  insert_message mk db = Ok (m, db') → inbound_schema db → inbound_schema db'.
Proof.
  intros Hid Hc (-> & -> & Hn)%insert_message_Ok [[] Hum Hs Hu Hf Hfc]. split; try done.
  - split; try done. cbn [messages set_messages]. by apply insert_row_wf.
  - cbn [messages set_messages]. apply unique_rows_insert; [apply message_clash_sym|done|done].
  - intros x. cbn [messages contacts set_messages]. rewrite insert_row_In. intros [Hx| ->]; [by apply Hf|apply Hc].
Qed.

Lemma insert_messages_schema mks : ∀ db db',
  Forall (λ mk, ∀ i, row_id (mk i) = i ∧ is_Some (get (msg_contact_id (mk i)) (contacts db))) mks →
  insert_messages mks db = Ok db' → inbound_schema db → inbound_schema db'.
Proof.
  induction mks as [|mk r IH]; intros db db' Hall; cbn [insert_messages]; [by intros [= <-]|].
  inversion Hall as [|? ? Hmk Hr]; subst. intros E Hi. apply result_bind_Ok in E as ([m db1] & E1 & E2).
  eapply IH; [|exact E2|].
  - cbn [snd]. apply insert_message_Ok in E1 as (_ & -> & _). exact Hr.
  - eapply insert_message_schema; [..|exact E1|exact Hi]; intros i; apply (Hmk i).
Qed.

Lemma unsubscribe_schema env db c db1 c1 :
  handle_unsubscribe env db c = Ok (db1, c1) → inbound_schema db → inbound_schema db1.
Proof.
  destruct (unsubscribe_cases env db c) as [(_ & x & ->)|[(-> & _)|(-> & Hn)]]; [done|by intros [= <- _]|].
  intros [= <- _] [[] Hum Hs Hu Hf Hfc]. split; try done.
  - split; try done. by apply insert_row_wf.
  - apply unique_rows_insert; [apply suppression_clash_sym|exact Hn|done].
Qed.

Lemma resolve_schema mb identity u db : inbound_schema db → inbound_schema (resolve_retained mb identity u db).
Proof.
  intros [[] Hum Hs Hu Hf Hfc]. split; try done.
  - split; try done. cbn [unmatched resolve_retained set_unmatched]. by apply update_where_wf.
  - apply unique_rows_map; [|intros r r' _ _|done]; [intros r _; by case_match|].
    unfold unmatched_clash. by repeat case_match.
Qed.

Lemma retain_schema env e identity mb org reason db db' :
  retain_unmatched env e identity mb org reason db = Ok db' → inbound_schema db → inbound_schema db'.
Proof.
  unfold retain_unmatched. cbv zeta. destruct (insert_unique _ _ _ _) as [[x t]|] eqn:Ei.
  - destruct (retained_row_exists _ _ _ _); [|done]. intros [= <-] [[] Hum Hs Hu Hf Hfc].
    apply insert_unique_Ok in Ei as [Hn Heq]. injection Heq as _ ->. split; try done.
    + split; try done. cbn [unmatched set_unmatched]. by apply insert_row_wf.
    + cbn [unmatched set_unmatched]. apply unique_rows_insert; [apply unmatched_clash_sym|done|done].
  - destruct (retained_row_exists _ _ _ _); [|done]. by intros [= <-].
Qed.

Section Schema.
Context `{LlmProvider} `{FloatRepr} `{FromIsoformat} `{Classifier} `{Planner}.

Lemma apply_reading_db env db l contact campaign e transcript success reading :
  fst (apply_reading env db l contact campaign e transcript success reading) = db ∨
  ∃ c1, handle_unsubscribe env db contact =
    Ok (fst (apply_reading env db l contact campaign e transcript success reading), c1).
Proof.
  unfold apply_reading. destruct success; cbn [negb]; [|by left]. destruct reading as [i|]; [|by left].
  destruct (in_list UNSUBSCRIBE _); [destruct (handle_unsubscribe _ _ _) as [[? c1]|]; [right; by exists c1|by left]|left].
  destruct (in_list NOT_INTERESTED _); [done|]. destruct (in_list OUT_OF_OFFICE _); [done|].
  destruct (contact_is_integration_managed _ _); [done|]. by destruct (reschedule_after_reply _ _ _).
Qed.

Lemma flush_schema {A} u (s : Step A) db db' old :
  get (ct_id (st_contact s)) (contacts db) = Some old → ct_campaign_id (st_contact s) = ct_campaign_id old →
  Forall (λ mk, ∀ i, msg_id (mk i) = i ∧ msg_contact_id (mk i) = ct_id (st_contact s)) (st_new s) →
  flush u s db = Ok db' → inbound_schema db → inbound_schema db'.
Proof.
  unfold flush. intros Hg Hcm Hn E Hi. inv_result.
  match goal with E : insert_messages _ _ = Ok ?x |- _ =>
    pose proof (insert_messages_contacts _ _ _ E) as Hct; eapply (insert_messages_schema _ _ _ _ E) in Hi as Hi' end.
  - apply write_contact_schema; [|exact Hi']. rewrite Hct, Hg. by intros ? [= <-].
  Unshelve. eapply Forall_impl; [exact Hn|]. intros mk Hmk i. destruct (Hmk i) as [? ->]. split; [done|].
  rewrite Hg. by eexists.
Qed.

Lemma classify_and_apply_schema env e contact campaign m db db' res trace :
  get (msg_id m) (messages db) = Some m → get (ct_id contact) (contacts db) = Some contact →
  classify_and_apply_inbound env e contact campaign m db = (Ok (db', res), trace) →
  inbound_schema db → inbound_schema db'.
Proof.
  intros Hgm Hgc. unfold classify_and_apply_inbound. cbv zeta.
  destruct (store_classification _ _ _ _) as [[m' c'] reading] eqn:Es.
  apply store_classification_facts in Es as (Hk & Hp & _).
  assert (same_person contact c') as Hpc by exact Hp.
  match goal with |- context [apply_reading ?a ?b ?l ?c ?d ?f ?g ?h ?i] =>
    pose proof (apply_reading_outcome a b l c d f g h i) as Ho;
    pose proof (apply_reading_db a b l c d f g h i) as Hd;
    destruct (apply_reading a b l c d f g h i) as [db1 s] end.
  destruct Ho as [Hcf Hm Hps (c & Hpc' & _ & Hsh)]. cbn [fst snd] in *. intros [= E _] Hi. inv_result.
  assert (inbound_schema db1) as Hi1 by (destruct Hd as [->|[c1 Hd]]; [done|by eapply unsubscribe_schema]).
  assert (contacts db1 = contacts db) as Hct.
  { destruct Hd as [->|[c1 Hd]]; [done|]. 
    destruct (handle_unsubscribe_confined c' None env db c' db1 c1 (same_person_refl _) Hd) as (_ & _ & _ & Hx & _). exact Hx. }
  assert (same_person contact (st_contact s)) as (P1 & P2 & _) by by eapply same_person_trans.
  assert (∀ r, In r (rows (messages db1)) → msg_id r = msg_id m' → kept r m') as Hrow.
  { rewrite Hm. intros r Hin Hid. assert (r = m) as ->; [|done].
    eapply table_wf_inj; [apply (wf_messages _ (is_wf _ Hi))|done|by apply get_Some in Hgm as []|].
    change (msg_id r = msg_id m). destruct Hk. congruence. }
  match goal with E : flush _ _ _ = Ok ?x |- _ =>
    pose proof E as Ef; eapply flush_schema in E as Hx end.
  - match goal with E : maybe_summarize_older_messages _ _ = Ok _ |- _ =>
      apply summarize_only_summary in E as [sm ->] end.
    apply write_contact_schema; [|exact Hx]. cbn [ct_id ct_campaign_id set_ct_memory_summary].
    unfold flush in Ef. inv_result. rewrite write_contact_get, Z.eqb_refl.
    match goal with E : insert_messages _ _ = Ok _ |- _ => rewrite (insert_messages_contacts _ _ _ E) end.
    cbn [contacts write_message set_messages]. rewrite Hct, P1, Hgc. cbn [option_map].
    intros old [= <-]. by case_bool_decide; subst.
  - cbn [contacts write_message set_messages]. by rewrite Hct, P1, Hgc.
  - done.
  - apply reply_shape_new in Hsh. eapply Forall_impl; [exact Hsh|]. intros mk Hmk i.
    destruct (Hmk i) as [? ->]. split; [done|]. destruct Hpc as [Q1 _], Hpc' as [Q2 _]. congruence.
  - by apply write_message_schema.
Qed.

Lemma inbound_schema_kept env race email db db' res trace :
  inserts_only race db → inbound_schema db → inbound_schema (race db) →
  (∃ mb org, process_mailbox_inbound env race email mb org db = (Ok (db', res), trace)) ∨
  (∃ org, process_inbound_email_v2 env race email org db = (Ok (db', res), trace)) →
  inbound_schema db'.
Proof.
  intros [Hc Hcm Hwc Hwm] Hi Hr Hrun.
  assert (∀ mk m db1 f contact campaign,
    get (ct_id contact) (contacts db) = Some contact → insert_message mk (race db) = Ok (m, db1) →
    (∀ i, row_id (mk i) = i ∧ msg_contact_id (mk i) = ct_id contact) →
    messages (f db1) = messages db1 ∧ contacts (f db1) = contacts db1 →
    (inbound_schema db1 → inbound_schema (f db1)) →
    classify_and_apply_inbound env (normalize_inbound email) contact campaign m (f db1) = (Ok (db', res), trace) →
    inbound_schema db') as Hmain.
  { intros mk m db1 f contact campaign Hg Ei Hmk [Hfm Hfc] Hf E.
    assert (inbound_schema db1) as Hi1.
    { eapply insert_message_schema; [..|exact Ei|exact Hr]; intros i; [apply Hmk|].
      rewrite (proj2 (Hmk i)), Hc, Hg. by eexists. }
    apply insert_message_Ok in Ei as (-> & -> & _).
    eapply classify_and_apply_schema; [| |exact E|by apply Hf].
    - rewrite Hfm. change (msg_id (mk (next_id (messages (race db))))) with (row_id (mk (next_id (messages (race db))))).
      rewrite (proj1 (Hmk _)). apply insert_row_get_new; [done|]. intros i. apply Hmk.
    - rewrite Hfc. cbn [contacts set_messages]. by rewrite Hc. }
  destruct Hrun as [(mb & org & E)|(org & E)].
  - apply mailbox_end_inv in E as (identity & _ & _ & E); [|done].
    destruct E as [base m [->| ->] _|reason db' _ Hret|contact campaign m db1 db' res trace Hg _ _ Ei E]; [done|done| |].
    + by eapply retain_schema.
    + eapply (Hmain _ _ _ (resolve_retained mb identity (in_utcnow env))); [exact Hg|exact Ei|done|done| |exact E].
      apply resolve_schema.
  - unfold process_inbound_email_v2, process_in_session in E. cbv zeta in E. destruct (if truthy _ then _ else None); [by injection E as <- _ _|].
    match type of E with context [match ?x with Some _ => _ | None => _ end] => destruct x as [contact|] eqn:Ef end;
      [|by injection E as <- _ _].
    destruct (insert_message _ _) as [[m db1]|] eqn:Ei; [|by destruct (_ && _); injection E as <- _ _].
    destruct (contact_campaign db contact) as [campaign|]; [|done].
    eapply (Hmain _ _ _ (λ d, d)); [|exact Ei|done|done|done|exact E].
    by eapply webhook_contact_stored.
Qed.
(** C13: inbound processing keeps the data model well typed.  If the tables
    satisfy the schema's invariants (ordered primary keys; unique Message-IDs
    per mailbox, reply references, suppressions and retained identities;
    messages that refer to contacts and contacts that refer to campaigns),
    every successful run of either entry point leaves tables that satisfy
    them, whatever the model, the planner and the mail server answer. *)
Theorem inbound_preserves_schema env race email db db' res trace :
  inserts_only race db → inbound_schema db → inbound_schema (race db) →
  (∃ mb org, process_mailbox_inbound env race email mb org db = (Ok (db', res), trace)) ∨
  (∃ org, process_inbound_email_v2 env race email org db = (Ok (db', res), trace)) →
  inbound_schema db'.
Proof. apply inbound_schema_kept. Qed.
End Schema.

(** *** Witnesses *)

Definition reply_from (from body : string) : InboundEmail :=
  mkInbound from "Re: Hi" body (Some "<r1@corp.io>") None [] None false None.
Definition reply_env : InboundEnv :=
  mkInboundEnv (mkSendEnv (live_settings_with true) willing_server (mkSeed 1 2 3) 20 "reply1") "in1" false.
Definition no_race : Db → Db := λ d, d.
Definition no_floats : FloatRepr := λ _, "".
Definition positive_reading : SemanticIntent :=
  mkIntent [POSITIVE_INTEREST] None ST_POSITIVE BS_CONSIDERING None [] [] [] UL_NO_TIMELINE
    false false false false false [] [] [] None [] [] [] [] None (9 # 10) [] "" false None.
Definition positive_classifier : Classifier :=
  λ _ _ _ _ _, from_semantic_intent positive_reading "llm" None (Some PROMPT_VERSION) None None None.
Definition answering_planner : Planner :=
  λ _ _ _, Ok (mkProposal ANSWER "Answer" "They asked" [] (9 # 10) false None "llm" None None None).

Definition sample_run (race : Db → Db) (email : InboundEmail) (db : Db)
    : result exn (Db * InboundResult) * list smtp_event :=
  process_mailbox_inbound (H:=sample_llm) (H0:=no_floats) (H1:=no_iso) (H2:=positive_classifier)
    (H3:=answering_planner) reply_env race email 1 "acme" db.

Example sample_run_replies :
  match sample_run no_race (reply_from "eve@corp.io" "Sounds good.") sample_db with
  | (Ok (_, r), trace) => rs_action r = Some "auto_replied" ∧ sendmails trace = 1%nat
  | _ => False
  end.
Proof. vm_compute. done. Qed.

Lemma sample_inserts_only : inserts_only no_race sample_db.
Proof. split; try done; apply sample_db_wf. Qed.

Lemma sample_schema : inbound_schema sample_db.
Proof.
  split; [apply sample_db_wf|..].
  - intros r r' [<-|[<-|[]]] [<-|[<-|[]]]; vm_compute; congruence.
  - intros r r' [].
  - intros r r' [].
  - intros r [<-|[<-|[]]]; vm_compute; by eexists.
  - intros r [<-|[<-|[]]]; vm_compute; by eexists.
Qed.

Lemma correlation_exact_witness :
  correlate_mailbox_inbound sample_db (reply_from "eve@corp.io" "") 1 "acme" = Ok native_contact ∧
  contact_org sample_db native_contact = Some "acme".
Proof.
  destruct (correlation_exact sample_db (reply_from "eve@corp.io" "") 1 "acme" (wf_contacts _ sample_db_wf))
    as (_ & _ & _ & Ho).
  assert (correlate_mailbox_inbound sample_db (reply_from "eve@corp.io" "") 1 "acme" = Ok native_contact) as E
    by (vm_compute; reflexivity).
  split; [exact E|exact (Ho _ E)].
Defined.

Lemma mailbox_success_is_durable_witness :
  ∃ db' res trace, sample_run no_race (reply_from "eve@corp.io" "Sounds good.") sample_db = (Ok (db', res), trace) ∧
    ∃ identity, identity_of (reply_from "eve@corp.io" "Sounds good.") = Some identity.
Proof.
  destruct (sample_run no_race (reply_from "eve@corp.io" "Sounds good.") sample_db) as [[[db' res]|err] trace] eqn:E;
    [|vm_compute in E; discriminate E].
  exists db', res, trace. split; [reflexivity|].
  destruct (mailbox_success_is_durable (H:=sample_llm) (H0:=no_floats) (H1:=no_iso) (H2:=positive_classifier)
    (H3:=answering_planner) _ _ _ _ _ _ _ _ _ sample_inserts_only E) as (i & Hi & _).
  exists i. exact Hi.
Defined.

Lemma mailbox_inbound_stays_in_tenant_witness :
  ∃ db' res trace, sample_run no_race (reply_from "eve@corp.io" "Sounds good.") sample_db = (Ok (db', res), trace) ∧
    tenant_local "acme" 1 sample_db db'.
Proof.
  destruct (sample_run no_race (reply_from "eve@corp.io" "Sounds good.") sample_db) as [[[db' res]|err] trace] eqn:E;
    [|vm_compute in E; discriminate E].
  exists db', res, trace. split; [reflexivity|].
  destruct (mailbox_inbound_stays_in_tenant (H:=sample_llm) (H0:=no_floats) (H1:=no_iso) (H2:=positive_classifier)
    (H3:=answering_planner) _ _ _ _ _ _ _ _ _ sample_inserts_only E) as (base & [Hb|Hb] & Ht & _);
    subst base; exact Ht.
Defined.

Lemma mailbox_redelivery_idempotent_witness :
  ∃ db' res trace, sample_run no_race (reply_from "eve@corp.io" "Sounds good.") sample_db = (Ok (db', res), trace) ∧
    ∃ cid mid, sample_run no_race (reply_from "eve@corp.io" "Sounds good.") db'
                 = (Ok (db', result_duplicate cid (Some mid)), []).
Proof.
  destruct (sample_run no_race (reply_from "eve@corp.io" "Sounds good.") sample_db) as [[[db' res]|err] trace] eqn:E;
    [|vm_compute in E; discriminate E].
  exists db', res, trace. split; [reflexivity|].
  assert (rs_matched res = true) as Hm by (vm_compute in E; injection E as _ <- _; reflexivity).
  exact (proj1 (mailbox_redelivery_idempotent (H:=sample_llm) (H0:=no_floats) (H1:=no_iso) (H2:=positive_classifier)
    (H3:=answering_planner) _ _ _ _ _ _ _ _ _ sample_inserts_only E) Hm reply_env no_race).
Defined.

Lemma automatic_reply_passes_every_gate_witness :
  let out := sample_run no_race (reply_from "eve@corp.io" "Sounds good.") sample_db in
  snd out ≠ [] ∧
  ∃ contact campaign m seen i known p draft,
    turn_of (Polled 1 "acme") reply_env no_race (reply_from "eve@corp.io" "Sounds good.") sample_db contact campaign m seen ∧
    gated_reply (H:=sample_llm) (H0:=no_floats) (H2:=positive_classifier) (H3:=answering_planner) reply_env
      (normalize_inbound (reply_from "eve@corp.io" "Sounds good.")) contact campaign m seen i known p draft (snd out).
Proof.
  cbn zeta. set (out := sample_run no_race _ _).
  assert (snd out ≠ []) as Ht by (vm_compute; discriminate).
  split; [exact Ht|].
  apply (automatic_reply_passes_every_gate (H:=sample_llm) (H0:=no_floats) (H1:=no_iso) (H2:=positive_classifier)
    (H3:=answering_planner) (Polled 1 "acme") reply_env no_race (reply_from "eve@corp.io" "Sounds good.") sample_db
    sample_inserts_only Ht).
Defined.


Lemma inbound_preserves_schema_witness :
  ∃ db' res trace, sample_run no_race (reply_from "eve@corp.io" "Sounds good.") sample_db = (Ok (db', res), trace) ∧
    inbound_schema db'.
Proof.
  destruct (sample_run no_race (reply_from "eve@corp.io" "Sounds good.") sample_db) as [[[db' res]|err] trace] eqn:E;
    [|vm_compute in E; discriminate E].
  exists db', res, trace. split; [reflexivity|].
  apply (inbound_preserves_schema (H:=sample_llm) (H0:=no_floats) (H1:=no_iso) (H2:=positive_classifier)
    (H3:=answering_planner) reply_env no_race (reply_from "eve@corp.io" "Sounds good.") sample_db db' res trace
    sample_inserts_only sample_schema sample_schema).
  left. exists 1, "acme". exact E.
Defined.
