(* ===== verification/TurnTracing.v ===== *)
(** * Turn tracing ([src/mailer_agent/observability.py])

    The snapshot of one inbound turn that [_draft_and_maybe_send_reply] writes
    to the log at its end.  The log itself is outside; what is modelled is the
    snapshot, and that it accounts for what the turn did. *)

From S2P Require Import Prelude Sql Models Config Samples SemanticModels StateMachine Sender Regex Threading Grounding ExactMessage WorkClaiming Lifecycle Llm Memory Classifier Guardrails Scheduling FollowUp Inbound Planning InboundSafety.

#[local] Open Scope bool_scope.

Record TurnTrace := mkTurnTrace {
  tt_contact_id : Z;
  tt_campaign_id : Z;
  tt_inbound_message_id : option Z;
  tt_outbound_message_id : option Z;
  tt_inbound_body_excerpt : string;
  tt_classification_source : option string;
  tt_classification_success : option bool;
  tt_semantic_intent : option json;
  tt_prompt_version_classifier : option string;
  tt_classifier_model_used : option string;
  tt_classifier_used_fallback : option bool;
  tt_classifier_response_mode : option string;
  tt_planner_action_type : option string;
  tt_planner_objective : option string;
  tt_planner_confidence : option Q;
  tt_planner_source : option string;
  tt_prompt_version_planner : option string;
  tt_planner_model_used : option string;
  tt_planner_used_fallback : option bool;
  tt_planner_response_mode : option string;
  tt_guardrail_can_auto_send : option bool;
  tt_guardrail_review_reason : option string;
  tt_draft_source : option string;
  tt_grounding_safe : option bool;
  tt_grounding_notes : option string;
  tt_draft_model_used : option string;
  tt_draft_used_fallback : option bool;
  tt_draft_response_mode : option string;
  tt_final_action : option string
}.

(** [PROMPT_VERSION] of [policy/next_action.py]. *)
Definition PLANNER_PROMPT_VERSION : string := "planner-v2".

Definition EXCERPT_LEN : nat := 200.
(** [(inbound_body or "")[:200]] *)
Definition excerpt (body : string) : string := String.substring 0 EXCERPT_LEN body.

(** [build_and_log_turn_trace] with the arguments of its one caller: what is
    not passed is None, and so is the id of a reply that is not yet flushed. *)
Definition build_turn_trace (contact : Contact) (campaign : Campaign) (e : InboundEmail) (inbound_message_id : option Z)
    (cr : ClassificationResult) (intent : SemanticIntent) (proposal : NextActionProposal) (authorized : AuthorizedAction)
    (draft : AgentDraft) (final_action : option string) : TurnTrace := {|
  tt_contact_id := ct_id contact;
  tt_campaign_id := cp_id campaign;
  tt_inbound_message_id := inbound_message_id;
  tt_outbound_message_id := None;
  tt_inbound_body_excerpt := excerpt (ie_body_text e);
  tt_classification_source := Some (cr_source_name cr);
  tt_classification_success := Some true;
  tt_semantic_intent := Some (serialize_semantic_intent intent);
  tt_prompt_version_classifier := None;
  tt_classifier_model_used := cr_model_used cr;
  tt_classifier_used_fallback := cr_used_fallback cr;
  tt_classifier_response_mode := cr_response_mode cr;
  tt_planner_action_type := Some (ActionType_value (np_action_type proposal));
  tt_planner_objective := Some (np_objective proposal);
  tt_planner_confidence := Some (np_confidence proposal);
  tt_planner_source := Some (np_source proposal);
  tt_prompt_version_planner := Some PLANNER_PROMPT_VERSION;
  tt_planner_model_used := np_model_used proposal;
  tt_planner_used_fallback := np_used_fallback proposal;
  tt_planner_response_mode := np_response_mode proposal;
  tt_guardrail_can_auto_send := Some (au_can_auto_send authorized);
  tt_guardrail_review_reason := au_review_reason authorized;
  tt_draft_source := Some (ad_source draft);
  tt_grounding_safe := is_safe_to_send <$> ad_grounding draft;
  tt_grounding_notes := validation_notes <$> ad_grounding draft;
  tt_draft_model_used := ad_model_used draft;
  tt_draft_used_fallback := ad_used_fallback draft;
  tt_draft_response_mode := ad_response_mode draft;
  tt_final_action := final_action
|}.

Lemma excerpt_short body : (String.length (excerpt body) ≤ EXCERPT_LEN)%nat.
Proof.
  unfold excerpt. generalize EXCERPT_LEN. induction body as [|c body IH]; intros [|n]; cbn; [lia..|]. specialize (IH n). lia.
Qed.

Section Turn.
Context `{LlmProvider} `{FloatRepr} `{Planner}.
Variables (env : InboundEnv) (db : Db) (l : list Message) (contact : Contact) (campaign : Campaign) (e : InboundEmail).
Variables (intent : SemanticIntent) (transcript : string) (res : InboundResult).

(** The step of the turn, and the snapshot: none when the step raises or ends
    early because no draft could be written. *)
Definition turn_step : Step InboundResult := draft_and_maybe_send_reply env db l contact campaign e intent transcript res.
Definition turn_trace (inbound_message_id : option Z) (cr : ClassificationResult) : option TurnTrace :=
  match (known ← build_known_facts_summary intent l contact campaign; plan_next_action intent transcript known) with
  | Err _ => None
  | Ok proposal =>
      let authorized := authorize_action proposal intent (auto_reply_enabled (se_settings (in_send env))) in
      match draft_message campaign contact (au_draft_action_type authorized) transcript None (Some (np_objective proposal))
              (Some (np_reason proposal)), st_result turn_step with
      | Ok draft, Ok r => Some (build_turn_trace contact campaign e inbound_message_id cr intent proposal authorized draft (rs_action r))
      | _, _ => None
      end
  end.

(** ** Facts *)

Lemma held_notes_safe draft : is_none (held_notes draft) = true ↔ is_safe_to_send <$> ad_grounding draft ≠ Some false.
Proof.
  unfold held_notes. destruct (ad_grounding draft) as [g|]; [|done]. cbn. destruct (is_safe_to_send g); split; try done; congruence.
Qed.

(** The snapshot accounts for the turn.  Whenever mail was transmitted
    there is one; its final action is that of the result; an action of an
    automatic reply is recorded exactly with the permission of the guardrails,
    no grounding objection and an address that is not suppressed, and a held
    draft with one of them missing, where suppression alone is not in the
    snapshot.  Of the mail it shows at most the first 200 characters, and never
    the id of the reply. *)
Theorem trace_accounts_for_turn mid cr :
  (st_trace turn_step ≠ [] → is_Some (turn_trace mid cr)) ∧
  ∀ t, turn_trace mid cr = Some t →
    ∃ r, st_result turn_step = Ok r ∧ tt_final_action t = rs_action r ∧ tt_outbound_message_id t = None ∧
      (String.length (tt_inbound_body_excerpt t) ≤ EXCERPT_LEN)%nat ∧
      let permitted := tt_guardrail_can_auto_send t = Some true ∧ tt_grounding_safe t ≠ Some false ∧
                       is_suppressed db (ct_email contact) (cp_organization_id campaign) = false in
      (permitted ∧ (∃ o, tt_final_action t = Some (auto_reply_action o))) ∨
      (¬ permitted ∧ tt_final_action t = Some "reply_drafted_awaiting_approval" ∧ st_trace turn_step = []).
Proof.
  unfold turn_trace, turn_step, draft_and_maybe_send_reply.
  destruct (mbind _ _) as [proposal|err]; [|split; [by cbn|done]].
  set (authorized := authorize_action _ _ _). clearbody authorized. destruct (draft_message _ _ _ _ _ _ _) as [draft|[a|err]]; [|split; by cbn..].
  destruct (au_can_auto_send authorized && is_none (held_notes draft) && negb _) eqn:Eg.
  - destruct (send_email_fresh_Ok (se_settings (in_send env)) (se_smtp (in_send env)) (se_seed (in_send env))
      (reply_args e contact campaign (ad_body draft)) eq_refl) as (r & trace & ->). cbn [st_result st_trace].
    split; [by eexists|]. intros t [= <-]. eexists. split_and!; [done|done|done|apply excerpt_short|].
    left. cbn [build_turn_trace tt_guardrail_can_auto_send tt_grounding_safe tt_final_action]. apply andb_true_iff in Eg as [Eg Hs]. apply andb_true_iff in Eg as [Ha Hh].
    rewrite Ha. apply held_notes_safe in Hh. apply negb_true_iff in Hs. split; [done|]. by eexists.
  - cbn [st_result st_trace]. split; [done|]. intros t [= <-]. eexists. split_and!; [done|done|done|apply excerpt_short|].
    right. split_and!; [|done|done]. intros (Ha & Hh & Hs). cbn in Ha, Hh. injection Ha as Ha.
    apply held_notes_safe in Hh. by rewrite Ha, Hh, Hs in Eg.
Qed.
End Turn.
