(* ===== verification/ReplyPipeline.v ===== *)
(** * The reply pipeline as it is deployed

    The inbound handler relies on interfaces: a classifier, a planner and a
    language model.  In the program they are the model router of
    [llm/provider_v2.py], the reader of [semantic/classifier.py] and the
    planner of [policy/next_action.py].  This file puts them together and
    traces an automatic reply back to the model calls it rests on. *)

From S2P Require Import Prelude Sql Models Config Samples SemanticModels StateMachine Sender Regex Threading Grounding ExactMessage WorkClaiming Lifecycle Llm LlmSchemas LlmRouting Memory Classifier SemanticParsing Guardrails Scheduling FollowUp Inbound Planning InboundSafety.

#[local] Open Scope bool_scope.

Section Deployed.
Context `{FloatOfString} `{JsonText} `{GroqSdk} `{FloatRepr} `{FromIsoformat} `{Classifier}.
Context `{Unspecified (result exn NextActionProposal)}.
Context (settings : Settings).

(** The planner over the router. *)
#[local] Instance deployed_llm : LlmProvider := groq_provider settings.
#[local] Instance deployed_planner : Planner := llm_planner.

(** A plan that was not the fallback is the reading of an answered request. *)
Lemma plan_rests_on_answer intent transcript known p :
  plan_next_action intent transcript known = Ok p → p ≠ FALLBACK_PROPOSAL →
  groq_api_key settings ≠ "" ∧
  ∃ a ro, route_json settings (planner_request DEFAULT_BUSINESS_OBJECTIVE intent transcript known)
            (Some PLANNER_JSON_SCHEMA) = (Ok a, ro) ∧ read_plan a = Ok p.
Proof.
  unfold plan_next_action, deployed_planner, llm_planner. cbn [is_llm_available deployed_llm groq_provider].
  case_bool_decide as Hk; cbn [negb]; [by intros [= <-]|]. unfold call_llm_json. cbn [provider_call_json deployed_llm groq_provider].
  change (schema_of (lq_operation (planner_request DEFAULT_BUSINESS_OBJECTIVE intent transcript known)))
    with (Some PLANNER_JSON_SCHEMA).
  destruct (route_json settings _ _) as [[a|f] ro] eqn:E; cbn [fst].
  - intros Hr _. split; [done|]. by exists a, ro.
  - unfold map_provider_error. destruct (pf_class f); by intros [= <-].
Qed.

(** Such a reading names a known action; the plan carries it, unless a value of
    the answer is outside its type. *)
Lemma read_plan_named a p :
  read_plan a = Ok p → p ≠ FALLBACK_PROPOSAL →
  ∃ d, lj_data a = JObj d ∧ ∃ act, jget "action_type" d = JStr (ActionType_value act) ∧
    (np_action_type p = act ∨ ∃ objective field, proposal_of act objective a d = Err (Untyped field)).
Proof.
  unfold read_plan. destruct (lj_data a) as [| | | | | |d|]; try done. intros E Hne. exists d. split; [done|].
  destruct (of_wire (jget "action_type" d)) as [act|] eqn:Eact; [|congruence]. exists act. split.
  - unfold of_wire in Eact. destruct (jget "action_type" d); try done. apply find_some in Eact as [_ Eact]. bools.
    by rewrite <- Eact.
  - apply result_bind_Ok in E as (objective & _ & E). case_bool_decide; [congruence|].
    destruct (proposal_of act objective a d) as [p'|[e|field]] eqn:Ep; [|done|right; by exists objective, field].
    left. injection E as <-. unfold proposal_of in Ep.
    repeat (apply result_bind_Ok in Ep as (? & _ & Ep)). by injection Ep as <-.
Qed.

(** C28: an automatic reply rests on a model that proposed it.  If processing an
    inbound message transmits anything, by either way in and whatever messages,
    retained rows and suppressions other transactions add meanwhile (they leave
    contacts and campaigns alone), then a key is configured, and the planning
    call for that very turn was answered: the request was built from the
    classifier's reading of this message, the transcript of the contact it was
    attached to and the known facts of that contact; the last of its HTTP
    requests, to one of the configured models, completed with a text that
    parses to an object with a known action; and the plan the guardrails
    authorized for the reply is what the planner made of it (with that action,
    unless a value of the answer is outside its declared type).  An
    unavailable, failing or unintelligible model never makes the program write
    to a prospect on its own. *)
Theorem automatic_reply_rests_on_model src env race email db :
  inserts_only race db → snd (inbound_run src env race email db) ≠ [] →
  groq_api_key settings ≠ "" ∧
  ∃ contact campaign m seen i known p draft a ro pre c content d,
    turn_of src env race email db contact campaign m seen ∧
    gated_reply env (normalize_inbound email) contact campaign m seen i known p draft
      (snd (inbound_run src env race email db)) ∧
    route_json settings
      (planner_request DEFAULT_BUSINESS_OBJECTIVE (provenanced env m i) (build_conversation_context seen contact) known)
      (Some PLANNER_JSON_SCHEMA) = (Ok a, ro) ∧
    ro_trace ro = pre ++ [Http c (Completed (Some content))] ∧ parse_json (Str.strip content) = Ok (JObj d) ∧
    cq_model c ∈ models_to_try settings ∧ lj_data a = JObj d ∧ read_plan a = Ok p ∧
    (∃ act, jget "action_type" d = JStr (ActionType_value act) ∧
       (np_action_type p = act ∨ ∃ objective field, proposal_of act objective a d = Err (Untyped field))).
Proof.
  intros Hr Ht.
  destruct (inbound_gated src env race email db Hr Ht) as (contact & campaign & m & seen & i & known & p & draft & Htu & Hg).
  assert (p ≠ FALLBACK_PROPOSAL) as Hne.
  { intros ->. pose proof (gr_authorized _ _ _ _ _ _ _ _ _ _ _ Hg) as Ha. by rewrite fallback_is_always_reviewed in Ha. }
  destruct (plan_rests_on_answer _ _ _ _ (gr_planned _ _ _ _ _ _ _ _ _ _ _ Hg) Hne) as (Hk & a & ro & E & Hread).
  split; [done|].
  apply route_json_spec in E as Hspec. destruct Hspec as (_ & _ & pre & c & content & Htr & _ & Hc & Hj & _).
  destruct (read_plan_named _ _ Hread Hne) as (d & Hd & Hact). rewrite Hd in Hj.
  exists contact, campaign, m, seen, i, known, p, draft, a, ro, pre, c, content, d. split_and!; try done. apply Hc.
Qed.
End Deployed.

(** *** Witness *)

(** A model that answers the planner with a plan and any other request with a
    draft; its texts stand for their JSON values. *)
Definition helpful_sdk : GroqSdk := λ _ c,
  Completed (Some (if lq_operation (cq_request c) == "planner" then "{plan}" else "{draft}")).
Definition helpful_text : JsonText := λ s,
  if s == "{plan}" then Ok (JObj sample_plan)
  else if s == "{draft}" then Ok (JObj [("subject", JStr "Hello"); ("body", JStr "Happy to tell you more.")])
  else Err "Expecting value: line 1 column 1 (char 0)".

(** The inbound handler over the router, the planner and that model. *)
Definition deployed_run (email : InboundEmail) (db : Db) : result exn (Db * InboundResult) * list smtp_event :=
  let llm := groq_provider (H:=no_number) (H0:=helpful_text) (H1:=helpful_sdk) (live_settings_with true) in
  process_mailbox_inbound (H:=llm) (H0:=ratio_floats) (H1:=no_iso) (H2:=positive_classifier)
    (H3:=llm_planner (H:=ratio_floats) (H0:=llm) (H1:=no_plan)) reply_env no_race email 1 "acme" db.

Lemma automatic_reply_rests_on_model_witness :
  let out := deployed_run (reply_from "eve@corp.io" "Sounds good.") sample_db in
  sendmails (snd out) = 1%nat ∧
  ∃ request a ro content, route_json (H:=no_number) (H0:=helpful_text) (H1:=helpful_sdk) (live_settings_with true)
    request (Some PLANNER_JSON_SCHEMA) = (Ok a, ro) ∧ parse_json (H:=helpful_text) content = Ok (lj_data a).
Proof.
  cbn zeta. set (out := deployed_run _ _).
  assert (sendmails (snd out) = 1%nat) as Hs by (vm_compute; reflexivity).
  split; [exact Hs|].
  destruct (automatic_reply_rests_on_model (H:=no_number) (H0:=helpful_text) (H1:=helpful_sdk) (H2:=ratio_floats)
    (H3:=no_iso) (H4:=positive_classifier) (H5:=no_plan) (live_settings_with true) (Polled 1 "acme") reply_env no_race
    (reply_from "eve@corp.io" "Sounds good.") sample_db sample_inserts_only)
    as (_ & ? & ? & ? & ? & ? & ? & ? & ? & a & ro & pre & c & content & d & _ & _ & Hr & _ & Hj & _ & Hd & _).
  - intros E. change (snd out = []) in E. rewrite E in Hs. discriminate Hs.
  - eexists _, a, ro, _. split; [exact Hr|]. rewrite Hd. exact Hj.
Defined.
