(* ===== verification/ExternalDispatchWorker.v ===== *)
(** * Asynchronous dispatch worker ([src/mailer_agent/mail/external_dispatch_worker.py])

    Transaction B (claim, gates, Message-ID), the SMTP call with no
    transaction open, Transaction C (the fenced outcome write), the polling
    cycle, lease recovery and graceful shutdown.  What the surroundings decide
    is an argument: the session (engine, locked rows), clock, SMTP behaviour,
    Message-ID entropy, a shutdown request arriving at one of the points where
    the code re-reads the flag, and database faults. *)

From S2P Require Import Prelude Sql Models Config Samples WorkClaiming Lifecycle Sender Regex Grounding ExactMessage.

(** ** Results *)

Record DispatchResult := mkDispatchResult {
  dr_dispatch_id : Z;
  dr_organization_id : string;
  dr_outcome : string;
  dr_reason : option string;
  dr_smtp_attempted : bool;
  dr_persisted : bool;
  dr_message_id_header : option string
}.

Record ShutdownReport := mkShutdownReport {
  sh_drained : bool;
  sh_abandoned_unknown : list Z;
  sh_still_owned_elsewhere : list Z
}.

(** ** [DispatchRuntime]

    [_inflight] is a dict: insertion order, one entry per dispatch. *)

Record DispatchRuntime := mkRuntime {
  rt_inflight : list (Z * ClaimedDispatch);
  rt_claim_attempts : Z;
  rt_stopping : bool
}.

Definition new_runtime : DispatchRuntime := mkRuntime [] 0 false.

(** [d[k] = v]: an existing key keeps its place. *)
Fixpoint dict_set {A} (k : Z) (v : A) (d : list (Z * A)) : list (Z * A) :=
  match d with
  | [] => [(k, v)]
  | (k', v') :: r => if k' =? k then (k, v) :: r else (k', v') :: dict_set k v r
  end.
(** [d.pop(k, None)]. *)
Definition dict_pop {A} (k : Z) (d : list (Z * A)) : list (Z * A) :=
  List.filter (λ e, negb (fst e =? k)) d.

Inductive runtime_error := RuntimeError (message : string).

Definition request_shutdown (rt : DispatchRuntime) : DispatchRuntime :=
  mkRuntime (rt_inflight rt) (rt_claim_attempts rt) true.

Definition begin_claim_attempt (rt : DispatchRuntime) : DispatchRuntime * bool :=
  if rt_stopping rt then (rt, false)
  else (mkRuntime (rt_inflight rt) (rt_claim_attempts rt + 1) false, true).

Definition end_claim_attempt (rt : DispatchRuntime) : result runtime_error DispatchRuntime :=
  if rt_claim_attempts rt <=? 0
  then Err (RuntimeError "No active external-dispatch claim attempt to release")
  else Ok (mkRuntime (rt_inflight rt) (rt_claim_attempts rt - 1) (rt_stopping rt)).

Definition register_claim_attempt (claim : ClaimedDispatch) (rt : DispatchRuntime)
    : result runtime_error DispatchRuntime :=
  if rt_claim_attempts rt <=? 0
  then Err (RuntimeError "External-dispatch claim attempt was not admitted")
  else Ok (mkRuntime (dict_set (cl_dispatch_id claim) claim (rt_inflight rt))
             (rt_claim_attempts rt - 1) (rt_stopping rt)).

Definition resume_if_idle (rt : DispatchRuntime) : DispatchRuntime * bool :=
  match rt_inflight rt with
  | [] => if rt_claim_attempts rt =? 0
          then (mkRuntime [] (rt_claim_attempts rt) false, true)
          else (rt, false)
  | _ => (rt, false)
  end.

Definition register (claim : ClaimedDispatch) (rt : DispatchRuntime) : DispatchRuntime :=
  mkRuntime (dict_set (cl_dispatch_id claim) claim (rt_inflight rt))
    (rt_claim_attempts rt) (rt_stopping rt).

Definition unregister (dispatch_id : Z) (rt : DispatchRuntime) : DispatchRuntime :=
  mkRuntime (dict_pop dispatch_id (rt_inflight rt)) (rt_claim_attempts rt) (rt_stopping rt).

Definition inflight (rt : DispatchRuntime) : list ClaimedDispatch := map snd (rt_inflight rt).

Definition idle (rt : DispatchRuntime) : bool :=
  match rt_inflight rt with [] => rt_claim_attempts rt =? 0 | _ => false end.

(** [drain]: at each wake-up the loop sees the runtime and the remaining time
    (microseconds); [None] when the observations end while it still waits. *)
Fixpoint drain (observations : list (DispatchRuntime * Z)) : option bool :=
  match observations with
  | [] => None
  | (rt, remaining) :: later =>
      if idle rt then Some true
      else if remaining <=? 0 then Some false
      else drain later
  end.

(** [reset] (test helper) clears the in-flight set and the stop flag only. *)
Definition reset (rt : DispatchRuntime) : DispatchRuntime :=
  mkRuntime [] (rt_claim_attempts rt) false.

(** ** Transaction B *)

Record Ctx := mkCtx {
  cx_dispatch_id : Z;
  cx_organization_id : string;
  cx_external_action_id : option string;
  cx_correlation_id : option string;
  cx_public_reference : string;
  cx_worker_id : string
}.

Definition ctx_from (d : ExternalDispatch) (worker_id : string) : Ctx :=
  mkCtx (ed_id d) (ed_organization_id d) (ed_external_action_id d) (ed_correlation_id d)
    (ed_public_reference d) worker_id.

Record Prepared := mkPrepared {
  pr_claim : ClaimedDispatch;
  pr_ctx : Ctx;
  pr_send_args : SendArgs;
  pr_message_id : string
}.

(** The exceptions that leave the gates: [_Gate], [_Deferred], [_Unavailable],
    an [SQLAlchemyError] (the Message-ID collides on flush) and any other. *)
Inductive b_exit :=
  | Gate (reason : string)
  | Deferred
  | Unavailable (message : string)
  | DbError
  | Internal (e : exn).

Definition load_tenant_scoped (db : Db) (d : ExternalDispatch)
    : result b_exit (Campaign * Contact * Message) :=
  match select_first (λ c, (cp_id c == ed_campaign_id d)
                           && (cp_organization_id c == Some (ed_organization_id d)))
          (campaigns db) with
  | None => Err (Gate "tenant_mismatch: campaign not found for this organization")
  | Some campaign =>
      match select_first (λ c, (ct_id c == ed_contact_id d) && (ct_campaign_id c == cp_id campaign))
              (contacts db) with
      | None => Err (Gate "tenant_mismatch: contact does not belong to the dispatch's campaign")
      | Some contact =>
          match select_first (λ m, (Some (msg_id m) == ed_message_id d)
                                   && (msg_contact_id m == ct_id contact))
                  (messages db) with
          | None => Err (Gate "tenant_mismatch: message does not belong to the dispatch's contact")
          | Some message => Ok (campaign, contact, message)
          end
      end
  end.

Definition load_active_mailbox (db : Db) (d : ExternalDispatch) : result b_exit Mailbox :=
  match ed_mailbox_id d with
  | None => Err (Gate "no_mailbox: dispatch has no mailbox; not sent")
  | Some mid =>
      match select_first (λ m, (mb_id m == mid) && (mb_organization_id m == ed_organization_id d))
              (mailboxes db) with
      | None => Err (Gate "tenant_mismatch: mailbox not found for this organization")
      | Some mb =>
          if mb_status mb != MB_ACTIVE
          then Err (Gate "mailbox_disabled: mailbox is not ACTIVE; not sent")
          else Ok mb
      end
  end.

Definition smtp_config_for `{Fernet} (settings : Settings) (mb : Mailbox) : result b_exit SmtpConfig :=
  match decrypt_secret settings (mb_smtp_password_enc mb) with
  | Ok password =>
      Ok (mkSmtpConfig (mb_smtp_host mb) (mb_smtp_port mb) (mb_smtp_use_tls mb)
            (mb_smtp_username mb) password)
  | Err (MailboxEncryptionUnavailable m) => Err (Unavailable m)
  | Err (MailboxDecryptionError _) =>
      Err (Gate ("mailbox_credentials_undecryptable: stored SMTP credential cannot be "
                 +:+ "decrypted with the configured key; not sent"))
  | Err (SecretOther e) => Err (Internal e)
  end.

(** The Message-ID is unique among the messages that have no mailbox. *)
Definition message_id_taken (db : Db) (pk : Z) (header : string) : bool :=
  existsb (λ m, negb (msg_id m =? pk) && is_none (msg_mailbox_id m)
                && (msg_message_id_header m == Some header)) (rows (messages db)).

Definition live_disabled_reason : string :=
  "live_sending_disabled: LIVE_SENDING_ENABLED is not true; the message was NOT sent".

(** The inner [try] of Transaction B, after the claim: either one of the exits
    or the database with the message SENDING under its Message-ID, and the
    send arguments.  [stop] is [runtime.stopping] before the flush. *)
Definition b_gates `{Fernet} (settings : Settings) (seed : MsgidSeed) (stop : bool)
    (d : ExternalDispatch) (db : Db) : result b_exit (Db * SendArgs * string) :=
  '(campaign, contact, message) ← load_tenant_scoped db d;
  send_input ← match build_exact_send_input message contact campaign with
               | Ok i => Ok i
               | Err e => Err (Gate ("wiring_error: " +:+ e))
               end;
  mailbox ← load_active_mailbox db d;
  let send_input := set_xi_from_email (mb_email_address mailbox) send_input in
  _ ← raise_if (is_email_suppressed db (ct_email contact) None)
        (Gate "suppressed: recipient is on the suppression list; not sent");
  grounding ← match evaluate_exact_message_grounding message contact campaign
                      (ed_grounding_context d) with
              | Ok g => Ok g
              | Err (GE_ExactMessageError m) => Err (Internal (mkExn (C_Other "ExactMessageError") m))
              | Err (GE_Other e) => Err (Internal e)
              end;
  _ ← raise_if (gd_blocked grounding)
        (Gate (py_or (gd_error_message grounding) "grounding hard block; not sent"));
  _ ← raise_if (negb (live_sending_enabled settings)) (Gate live_disabled_reason);
  smtp_config ← smtp_config_for settings mailbox;
  let message_id := generate_message_id seed (xi_from_email send_input) in
  _ ← raise_if stop Deferred;
  _ ← raise_if (is_none (msg_mailbox_id message) && message_id_taken db (msg_id message) message_id)
        DbError;
  mret (update_message (Some (msg_id message)) (λ _, true)
          (λ m, set_msg_status MS_SENDING (set_msg_message_id_header (Some message_id) m)) db,
        as_send_email_kwargs send_input (Some message_id) (Some smtp_config),
        message_id).

(** [finish_external_dispatch] with an outcome state, which never raises. *)
Definition finish_outcome (claim : ClaimedDispatch) (st : ExternalDispatchState)
    (e : option string) (utcnow : Z) (db : Db) : Db * bool :=
  match finish_external_dispatch claim st e utcnow db with
  | Ok r => r
  | Err _ => (db, false)
  end.

Definition fail_in_b (claim : ClaimedDispatch) (reason : string) (utcnow : Z) (db : Db)
    : Db * DispatchResult :=
  let '(db', won) := finish_outcome claim FAILED (Some reason) utcnow db in
  (db', mkDispatchResult (cl_dispatch_id claim) (cl_organization_id claim) "failed" (Some reason)
          false won None).

(** Where a database error strikes Transaction B: while opening or claiming,
    before its commit (rolled back), or at a commit that was made durable. *)
Inductive db_fault := NoFault | FaultInClaim | FaultRolledBack | FaultAfterCommit.

(** What Transaction B needs from its surroundings. *)
Record BEnv := mkBEnv {
  be_session : Session;
  be_utcnow : Z;
  be_seed : MsgidSeed;
  be_stop_before_claim : bool;    (* a shutdown request arrives before the second read *)
  be_stop_before_commit : bool;   (* ... before the read that precedes the flush *)
  be_fault : db_fault
}.

Inductive b_result :=
  | BNone
  | BDone (r : DispatchResult)
  | BPrepared (p : Prepared)
  | BRaised.

Definition shutdown_if (b : bool) (rt : DispatchRuntime) : DispatchRuntime :=
  if b then request_shutdown rt else rt.

(** The [finally] clause of an attempt that is still open. *)
Definition end_attempt (rt : DispatchRuntime) : DispatchRuntime :=
  match end_claim_attempt rt with Ok rt' => rt' | Err _ => rt end.

(** After the claim: run the gates, then commit, fail, or roll back.  The
    first component is the database the session leaves behind when [db0] was
    the one it found. *)
Definition b_after_claim `{Fernet} (settings : Settings) (worker_id : string) (env : BEnv)
    (db0 : Db) (claim : ClaimedDispatch) (db1 : Db) (rt : DispatchRuntime)
    : Db * DispatchRuntime * b_result :=
  let rt_out := unregister (cl_dispatch_id claim) rt in
  let fail_with reason :=
    let '(db2, r) := fail_in_b claim reason (be_utcnow env) db1 in
    match be_fault env with
    | FaultRolledBack => (db0, rt_out, BRaised)
    | FaultAfterCommit => (db2, rt_out, BRaised)
    | _ => (db2, rt_out, BDone r)
    end in
  match get (cl_dispatch_id claim) (dispatches db1) with
  | None => (db0, rt_out, BRaised)
  | Some dispatch =>
      match b_gates settings (be_seed env) (rt_stopping rt) dispatch db1 with
      | Err (Gate reason) => fail_with reason
      | Err (Internal e) =>
          fail_with ("internal_error_before_send: " +:+ type_name (exn_cls e) +:+ ": " +:+ exn_str e)
      | Err Deferred => (db0, rt_out, BNone)
      | Err (Unavailable _) => (db0, rt_out, BNone)
      | Err DbError => (db0, rt_out, BRaised)
      | Ok (db2, args, message_id) =>
          match be_fault env with
          | FaultRolledBack => (db0, rt_out, BRaised)
          | FaultAfterCommit => (db2, rt_out, BRaised)
          | _ => (db2, rt, BPrepared (mkPrepared claim (ctx_from dispatch worker_id) args message_id))
          end
      end
  end.

Definition transaction_b `{Fernet} (settings : Settings) (worker_id : string) (env : BEnv)
    (db : Db) (rt : DispatchRuntime) : Db * DispatchRuntime * b_result :=
  let '(rt1, admitted) := begin_claim_attempt rt in
  if negb admitted then (db, rt1, BNone)
  else
    let rt2 := shutdown_if (be_stop_before_claim env) rt1 in
    if rt_stopping rt2 then (db, end_attempt rt2, BNone)
    else
      match be_fault env with
      | FaultInClaim => (db, end_attempt rt2, BRaised)
      | _ =>
          let '(db1, claimed) :=
            claim_next_external_dispatch (be_session env) worker_id None (be_utcnow env) db in
          match claimed with
          | None => (db, end_attempt rt2, BNone)
          | Some claim =>
              match register_claim_attempt claim rt2 with
              | Err _ => (db, end_attempt rt2, BRaised)
              | Ok rt3 =>
                  b_after_claim settings worker_id env db claim db1
                    (shutdown_if (be_stop_before_commit env) rt3)
              end
          end
      end.

(** ** SMTP and Transaction C *)

Definition TXN_C_ATTEMPTS : nat := 3.

(** How one attempt of Transaction C ends: it commits, it raises and is rolled
    back, or it raises although the commit was made durable. *)
Inductive c_fault := CCommitted | CRolledBack | CCommitLost.

Fixpoint c_attempts (n : nat) (k : nat) (faults : nat → c_fault) (claim : ClaimedDispatch)
    (st : ExternalDispatchState) (error : option string) (utcnow : Z) (db : Db) : Db * bool :=
  match n with
  | O => (db, false)
  | S m =>
      let '(db', won) := finish_outcome claim st error utcnow db in
      match faults k with
      | CCommitted => (db', won)
      | CRolledBack => c_attempts m (S k) faults claim st error utcnow db
      | CCommitLost => c_attempts m (S k) faults claim st error utcnow db'
      end
  end.

Definition transaction_c (faults : nat → c_fault) (p : Prepared) (st : ExternalDispatchState)
    (error : option string) (utcnow : Z) (db : Db) : Db * bool :=
  c_attempts TXN_C_ATTEMPTS 0 faults (pr_claim p) st error utcnow db.

Definition late_outcome_note (p : Prepared) (outcome : string) (error : option string) : string :=
  "late_outcome_after_lease_loss: worker " +:+ cl_worker_id (pr_claim p)
  +:+ " observed SMTP outcome=" +:+ outcome +:+ " message_id=" +:+ pr_message_id p
  +:+ (if truthy error then " error=" +:+ default "" error else "")
  +:+ "; state intentionally not changed".

Definition annotate_late_outcome (fault : c_fault) (p : Prepared) (outcome : string)
    (error : option string) (utcnow : Z) (db : Db) : Db :=
  let db' := fst (annotate_unknown_dispatch (cl_dispatch_id (pr_claim p))
                    (cl_organization_id (pr_claim p)) (late_outcome_note p outcome error) utcnow db) in
  match fault with CRolledBack => db | _ => db' end.

(** The SMTP half of [_execute_and_finalize]: no session is open.  An exception
    of [send_email] is ambiguous. *)
Definition smtp_phase (settings : Settings) (server : nat → Attempt) (seed : MsgidSeed) (p : Prepared)
    : SendOutcome * option string * list smtp_event :=
  let '(r, trace) := send_email settings server seed (pr_send_args p) in
  match r with
  | Ok result => (sr_outcome result, sr_error result, trace)
  | Err e => (SO_UNKNOWN,
              Some ("send_email raised " +:+ type_name (exn_cls e) +:+ ": " +:+ exn_str e), trace)
  end.

Definition state_of_outcome (o : SendOutcome) : ExternalDispatchState :=
  match o with SO_SENT => SENT | SO_FAILED => FAILED | SO_UNKNOWN => UNKNOWN end.

Definition outcome_error (o : SendOutcome) (smtp_error : option string) : option string :=
  match o with
  | SO_SENT => None
  | _ => Some (py_or smtp_error ("smtp outcome " +:+ SendOutcome_value o))
  end.

(** The database half: Transaction C, or the annotation when it did not win. *)
Record CEnv := mkCEnv {
  ce_faults : nat → c_fault;
  ce_annotate_fault : c_fault;
  ce_utcnow : Z
}.

Definition finalize_phase (env : CEnv) (p : Prepared) (o : SendOutcome) (smtp_error : option string)
    (db : Db) : Db * DispatchResult :=
  let st := state_of_outcome o in
  let error := outcome_error o smtp_error in
  let '(db1, persisted) := transaction_c (ce_faults env) p st error (ce_utcnow env) db in
  let db2 :=
    if persisted then db1
    else annotate_late_outcome (ce_annotate_fault env) p (ExternalDispatchState_value st) smtp_error
           (ce_utcnow env) db1 in
  (db2, mkDispatchResult (cl_dispatch_id (pr_claim p)) (cl_organization_id (pr_claim p))
          (ExternalDispatchState_value st) error true persisted (Some (pr_message_id p))).

Definition execute_and_finalize (settings : Settings) (server : nat → Attempt) (seed : MsgidSeed)
    (env : CEnv) (p : Prepared) (db : Db) : Db * DispatchResult * list smtp_event :=
  let '(o, smtp_error, trace) := smtp_phase settings server seed p in
  let '(db', r) := finalize_phase env p o smtp_error db in
  (db', r, trace).

(** ** Entry points *)

(** Surroundings of one [process_next_external_dispatch]. *)
Record ProcEnv := mkProcEnv {
  pe_b : BEnv;
  pe_server : nat → Attempt;
  pe_c : CEnv
}.

Inductive proc_result :=
  | PNone
  | PResult (r : DispatchResult)
  | PRaised.

Definition process_next_external_dispatch `{Fernet} (settings : Settings) (worker_id : string)
    (env : ProcEnv) (db : Db) (rt : DispatchRuntime)
    : Db * DispatchRuntime * proc_result * list smtp_event :=
  let '(db1, rt1, b) := transaction_b settings worker_id (pe_b env) db rt in
  match b with
  | BNone => (db1, rt1, PNone, [])
  | BDone r => (db1, rt1, PResult r, [])
  | BRaised => (db1, rt1, PRaised, [])
  | BPrepared p =>
      let '(db2, r, trace) :=
        execute_and_finalize settings (pe_server env) (be_seed (pe_b env)) (pe_c env) p db1 in
      (db2, unregister (cl_dispatch_id (pr_claim p)) rt1, PResult r, trace)
  end.

(** One polling cycle: [stops k] is a shutdown request that arrives before
    iteration [k]; the last component is [report.aborted]. *)
Fixpoint cycle_loop `{Fernet} (settings : Settings) (worker_id : string) (n : nat) (k : nat)
    (envs : nat → ProcEnv) (stops : nat → bool) (db : Db) (rt : DispatchRuntime)
    : Db * DispatchRuntime * list DispatchResult * list smtp_event * bool :=
  match n with
  | O => (db, rt, [], [], false)
  | S n' =>
      let rt0 := shutdown_if (stops k) rt in
      if rt_stopping rt0 then (db, rt0, [], [], false)
      else
        let '(db1, rt1, r, trace) := process_next_external_dispatch settings worker_id (envs k) db rt0 in
        match r with
        | PRaised => (db1, rt1, [], trace, true)
        | PNone => (db1, rt1, [], trace, false)
        | PResult res =>
            let '(db2, rt2, rs, trace', aborted) :=
              cycle_loop settings worker_id n' (S k) envs stops db1 rt1 in
            (db2, rt2, res :: rs, trace ++ trace', aborted)
        end
  end.

Definition run_external_dispatch_cycle `{Fernet} (settings : Settings) (worker_id : string)
    (max_items : option Z) (envs : nat → ProcEnv) (stops : nat → bool) (db : Db) (rt : DispatchRuntime)
    : Db * DispatchRuntime * list DispatchResult * list smtp_event * bool :=
  let limit := default (external_dispatch_max_per_cycle settings) max_items in
  cycle_loop settings worker_id (Z.to_nat limit) 0 envs stops db rt.

Definition run_external_dispatch_lease_recovery (s : Session) (settings : Settings) (fault : c_fault)
    (utcnow : Z) (db : Db) : Db * nat :=
  let '(db', recovered) := recover_expired_external_dispatches s settings None None 100 utcnow db in
  match fault with
  | CCommitted => (db', length recovered)
  | CRolledBack => (db, O)
  | CCommitLost => (db', O)
  end.

(** ** Graceful shutdown *)

Definition begin_external_dispatch_shutdown : DispatchRuntime → DispatchRuntime := request_shutdown.

Definition shutdown_reason : string :=
  "worker_shutdown: this worker was stopped while the dispatch was SENDING and it "
  +:+ "did not finish within the drain window. Whether SMTP accepted the message is "
  +:+ "unknown; it will NOT be retried automatically.".

(** The loop over the claims still in flight. *)
Fixpoint resolve_claims (claims : list ClaimedDispatch) (faults : nat → c_fault) (k : nat)
    (utcnow : Z) (db : Db) : Db * list Z * list Z :=
  match claims with
  | [] => (db, [], [])
  | claim :: rest =>
      let '(db', won0) := finish_outcome claim UNKNOWN (Some shutdown_reason) utcnow db in
      let '(db1, won) := match faults k with
                         | CCommitted => (db', won0)
                         | CRolledBack => (db, false)
                         | CCommitLost => (db', false)
                         end in
      let '(db2, abandoned, elsewhere) := resolve_claims rest faults (S k) utcnow db1 in
      if won then (db2, cl_dispatch_id claim :: abandoned, elsewhere)
      else (db2, abandoned, cl_dispatch_id claim :: elsewhere)
  end.

(** [observations] is what the bounded wait sees; [rt] is the runtime when the
    wait is over.  [None]: the observations end while it still waits. *)
Definition drain_external_dispatches_on_shutdown (observations : list (DispatchRuntime * Z))
    (faults : nat → c_fault) (utcnow : Z) (rt : DispatchRuntime) (db : Db)
    : option (Db * ShutdownReport) :=
  drained ← drain observations;
  let '(db', abandoned, elsewhere) := resolve_claims (inflight rt) faults 0 utcnow db in
  Some (db', mkShutdownReport drained abandoned elsewhere).

(** ** Facts: Transaction B *)

Lemma begin_claim_attempt_stopping rt :
  rt_stopping rt = true → begin_claim_attempt rt = (rt, false).
Proof. intros H. unfold begin_claim_attempt. by rewrite H. Qed.

(** What the gates guarantee when they let a message through: [m], [ct],
    [cp], [mb] are the message, contact, campaign and mailbox of dispatch [d]
    in [db]; [db'] is the database to commit. *)
Record gates_passed `{Fernet} (settings : Settings) (seed : MsgidSeed) (d : ExternalDispatch)
    (db db' : Db) (args : SendArgs) (mid : string)
    (cp : Campaign) (ct : Contact) (m : Message) (mb : Mailbox) : Prop := {
  gp_tenant : load_tenant_scoped db d = Ok (cp, ct, m);
  gp_pre_send : msg_status m = MS_DRAFT ∧ msg_direction m = OUTBOUND;
  gp_active : load_active_mailbox db d = Ok mb;
  gp_not_suppressed : is_email_suppressed db (ct_email ct) None = false;
  gp_grounded : ∃ g, evaluate_exact_message_grounding m ct cp (ed_grounding_context d) = Ok g ∧
                     hard_block (gd_validation g) = false;
  gp_live : live_sending_enabled settings = true;
  gp_credentials : ∃ cfg, smtp_config_for settings mb = Ok cfg ∧ sa_smtp_config args = Some cfg;
  gp_body : sa_body_text args = msg_body m;
  gp_subject : sa_subject args = default "" (msg_subject m);
  gp_to : sa_to_email args = ct_email ct;
  gp_from : sa_from_email args = mb_email_address mb;
  gp_mid : mid = generate_message_id seed (mb_email_address mb);
  gp_mid_arg : sa_message_id_header args = Some mid;
  gp_db : db' = update_message (Some (msg_id m)) (λ _, true)
                  (λ m, set_msg_status MS_SENDING (set_msg_message_id_header (Some mid) m)) db
}.

Lemma grounding_decision_blocked m ct cp gc g :
  evaluate_exact_message_grounding m ct cp gc = Ok g → gd_blocked g = hard_block (gd_validation g).
Proof. unfold evaluate_exact_message_grounding. intros E. inv_result. done. Qed.

Lemma b_gates_Ok `{Fernet} settings seed stop d db db' args mid :
  b_gates settings seed stop d db = Ok (db', args, mid) →
  stop = false ∧ ∃ cp ct m mb, gates_passed settings seed d db db' args mid cp ct m mb.
Proof.
  unfold b_gates. intros E. apply result_bind_Ok in E as ([[cp ct] m] & Ht & E).
  apply result_bind_Ok in E as (i & Hi & E). apply result_bind_Ok in E as (mb & Hmb & E).
  apply result_bind_Ok in E as ([] & Hs & E). apply result_bind_Ok in E as (g & Hg & E).
  apply result_bind_Ok in E as ([] & Hb & E). apply result_bind_Ok in E as ([] & Hl & E).
  apply result_bind_Ok in E as (cfg & Hc & E). apply result_bind_Ok in E as ([] & Hst & E).
  apply result_bind_Ok in E as ([] & _ & E). injection E as <- <- <-.
  apply raise_if_Ok in Hs, Hb, Hl, Hst. bools.
  destruct (build_exact_send_input m ct cp) as [i'|] eqn:Ei; [|done]. injection Hi as ->.
  apply build_exact_send_input_Ok in Ei as (Hdraft & Hout & Hbody & Hsubj & Hto & _).
  destruct (evaluate_exact_message_grounding _ _ _ _) as [g'|[]] eqn:Eg; try done.
  injection Hg as ->. rewrite (grounding_decision_blocked _ _ _ _ _ Eg) in Hb.
  split; [done|]. exists cp, ct, m, mb. by split; eauto.
Qed.

(** A gate, an internal error or a deferral leaves the decision to the caller;
    the gates never touch the dispatch table. *)
Lemma gates_passed_frame `{Fernet} settings seed d db db' args mid cp ct m mb :
  gates_passed settings seed d db db' args mid cp ct m mb →
  dispatches db' = dispatches db ∧ db' = set_messages (messages db') db.
Proof.
  intros []. subst db'. split; [|apply update_message_frame].
  by rewrite update_message_frame.
Qed.

Lemma load_tenant_scoped_Ok db d cp ct m :
  load_tenant_scoped db d = Ok (cp, ct, m) →
  (In cp (rows (campaigns db)) ∧ cp_id cp = ed_campaign_id d ∧
     cp_organization_id cp = Some (ed_organization_id d)) ∧
  (In ct (rows (contacts db)) ∧ ct_id ct = ed_contact_id d ∧ ct_campaign_id ct = cp_id cp) ∧
  (In m (rows (messages db)) ∧ ed_message_id d = Some (msg_id m) ∧ msg_contact_id m = ct_id ct).
Proof.
  unfold load_tenant_scoped.
  destruct (select_first _ (campaigns db)) as [cp'|] eqn:Ec; [|done].
  destruct (select_first _ (contacts db)) as [ct'|] eqn:Et; [|done].
  destruct (select_first _ (messages db)) as [m'|] eqn:Em; [|done].
  intros [= -> -> ->].
  apply select_first_Some in Ec as [? ?], Et as [? ?], Em as [? ?]. bools. done.
Qed.

Lemma load_active_mailbox_Ok db d mb :
  load_active_mailbox db d = Ok mb →
  In mb (rows (mailboxes db)) ∧ ed_mailbox_id d = Some (mb_id mb) ∧
  mb_organization_id mb = ed_organization_id d ∧ mb_status mb = MB_ACTIVE.
Proof.
  unfold load_active_mailbox. destruct (ed_mailbox_id d) as [i|]; [|done].
  destruct (select_first _ (mailboxes db)) as [x|] eqn:E; [|done].
  destruct (bool_decide (mb_status x = MB_ACTIVE)) eqn:Es; [|done]. intros [= ->].
  apply select_first_Some in E as [? ?]. bools. subst. done.
Qed.

(** A fresh claim satisfies its own fence. *)
Lemma claim_owns s w now u db db' c :
  table_wf (dispatches db) →
  claim_next_external_dispatch s w now u db = (db', Some c) →
  ∃ d, get (cl_dispatch_id c) (dispatches db') = Some d ∧ owns SENDING c d = true.
Proof.
  intros Hwf (d & Hg & Hc & Ho & Hw & Ht & Hg' & _)%claim_next_effect; [|done].
  eexists. split; [exact Hg'|]. apply owns_spec. cbn. by rewrite Ho, Hw, Ht.
Qed.

Lemma finish_outcome_inv c st e u db db' won :
  table_wf (dispatches db) → finish_outcome c st e u db = (db', won) →
  (∃ ms d, won = true ∧ message_status_of st = Some ms ∧
      get (cl_dispatch_id c) (dispatches db) = Some d ∧ owns SENDING c d = true ∧
      get (cl_dispatch_id c) (dispatches db') = Some (finished st e u d) ∧
      (∀ j, j ≠ cl_dispatch_id c → get j (dispatches db') = get j (dispatches db)) ∧
      table_wf (dispatches db') ∧
      messages db' = outcome_messages (ed_message_id d) ms e db ∧
      db' = set_messages (messages db') (set_dispatches (dispatches db') db))
  ∨ (won = false ∧ db' = db ∧
     (is_Some (message_status_of st) →
      ∀ d, get (cl_dispatch_id c) (dispatches db) = Some d → owns SENDING c d = false)).
Proof.
  intros Hwf. unfold finish_outcome.
  destruct (finish_external_dispatch c st e u db) as [[x y]|err] eqn:E; intros [= <- <-].
  - apply finish_Ok in E as (ms & Hms & [(-> & d & Hd)|(-> & -> & Hno)]); [| |done].
    + left. exists ms, d. naive_solver.
    + right. naive_solver.
  - right. split_and!; [done..|]. intros [ms Hms].
    destruct (finish_total c st e u db) as (? & ? & ?); [by rewrite Hms|congruence].
Qed.

(** The reason a refused dispatch is failed with. *)
Definition refusal_reason (x : b_exit) : option string :=
  match x with
  | Gate reason => Some reason
  | Internal e =>
      Some ("internal_error_before_send: " +:+ type_name (exn_cls e) +:+ ": " +:+ exn_str e)
  | Deferred | Unavailable _ | DbError => None
  end.

(** The three ways Transaction B ends: nothing happened; the claimed dispatch
    was refused and failed; the claimed dispatch passed every gate. *)
Section TransactionB.
Context `{Fernet} (settings : Settings) (w : string) (env : BEnv).

Definition b_nothing (db db' : Db) (r : b_result) : Prop :=
  db' = db ∧ (r = BNone ∨ r = BRaised).

Definition b_refused (db db' : Db) (c : ClaimedDispatch) (db1 : Db) (d : ExternalDispatch)
    (r : b_result) : Prop :=
  ∃ x reason stop, b_gates settings (be_seed env) stop d db1 = Err x ∧
    refusal_reason x = Some reason ∧
    db' = fst (fail_in_b c reason (be_utcnow env) db1) ∧
    (r = BDone (snd (fail_in_b c reason (be_utcnow env) db1)) ∨ r = BRaised).

Definition b_passed (db db' : Db) (c : ClaimedDispatch) (db1 : Db) (d : ExternalDispatch)
    (r : b_result) : Prop :=
  ∃ args mid cp ct m mb,
    gates_passed settings (be_seed env) d db1 db' args mid cp ct m mb ∧
    (r = BPrepared (mkPrepared c (ctx_from d w) args mid) ∨ r = BRaised).

Lemma b_after_claim_inv db c db1 rt db' rt' r :
  b_after_claim settings w env db c db1 rt = (db', rt', r) →
  b_nothing db db' r ∨
  ∃ d, get (cl_dispatch_id c) (dispatches db1) = Some d ∧
       (b_refused db db' c db1 d r ∨ b_passed db db' c db1 d r).
Proof.
  unfold b_after_claim, b_nothing, b_refused, b_passed.
  destruct (get _ _) as [d|] eqn:Eg; [|intros [= <- <- <-]; eauto].
  assert (∀ x reason, b_gates settings (be_seed env) (rt_stopping rt) d db1 = Err x →
    refusal_reason x = Some reason →
    (let '(db2, r0) := fail_in_b c reason (be_utcnow env) db1 in
     match be_fault env with
     | FaultRolledBack => (db, unregister (cl_dispatch_id c) rt, BRaised)
     | FaultAfterCommit => (db2, unregister (cl_dispatch_id c) rt, BRaised)
     | _ => (db2, unregister (cl_dispatch_id c) rt, BDone r0)
     end) = (db', rt', r) →
    (db' = db ∧ (r = BNone ∨ r = BRaised)) ∨
    ∃ d0, Some d = Some d0 ∧ (b_refused db db' c db1 d0 r ∨ b_passed db db' c db1 d0 r)) as Hfail.
  { intros x reason Hx Hr. destruct (fail_in_b _ _ _ _) as [db2 r0] eqn:Ef. intros Hres.
    destruct (be_fault env); injection Hres as <- <- <-; [right|right|by auto|right];
      exists d; (split; [done|]); left; exists x, reason, (rt_stopping rt);
      rewrite Ef; by eauto. }
  destruct (b_gates _ _ _ d db1) as [[[db2 args] mid]|x] eqn:Eb.
  - apply b_gates_Ok in Eb as (_ & cp & ct & m & mb & Hp). intros Hres.
    destruct (be_fault env); injection Hres as <- <- <-; [right|right|by auto|right];
      exists d; (split; [done|]); right; exists args, mid, cp, ct, m, mb; by eauto.
  - intros Hres. destruct x; first [by eapply Hfail|injection Hres as <- <- <-; by auto].
Qed.

Lemma transaction_b_inv db rt db' rt' r :
  transaction_b settings w env db rt = (db', rt', r) →
  b_nothing db db' r ∨
  ∃ c db1 d,
    claim_next_external_dispatch (be_session env) w None (be_utcnow env) db = (db1, Some c) ∧
    get (cl_dispatch_id c) (dispatches db1) = Some d ∧
    (b_refused db db' c db1 d r ∨ b_passed db db' c db1 d r).
Proof.
  unfold transaction_b, b_nothing. destruct (begin_claim_attempt rt) as [rt1 adm].
  destruct adm; cbn [negb]; [|intros [= <- <- <-]; by auto].
  destruct (rt_stopping _); [intros [= <- <- <-]; by auto|].
  assert (∀ X : Db * DispatchRuntime * b_result,
    (let '(db1, claimed) := claim_next_external_dispatch (be_session env) w None (be_utcnow env) db in
     match claimed with
     | None => (db, end_attempt (shutdown_if (be_stop_before_claim env) rt1), BNone)
     | Some claim =>
         match register_claim_attempt claim (shutdown_if (be_stop_before_claim env) rt1) with
         | Err _ => (db, end_attempt (shutdown_if (be_stop_before_claim env) rt1), BRaised)
         | Ok rt3 => b_after_claim settings w env db claim db1
                       (shutdown_if (be_stop_before_commit env) rt3)
         end
     end) = (db', rt', r) →
    (db' = db ∧ (r = BNone ∨ r = BRaised)) ∨
    ∃ c db1 d,
      claim_next_external_dispatch (be_session env) w None (be_utcnow env) db = (db1, Some c) ∧
      get (cl_dispatch_id c) (dispatches db1) = Some d ∧
      (b_refused db db' c db1 d r ∨ b_passed db db' c db1 d r)) as Hmain.
  { intros _. destruct (claim_next_external_dispatch _ _ _ _ db) as [db1 [c|]] eqn:Ec;
      [|intros [= <- <- <-]; by auto].
    destruct (register_claim_attempt _ _) as [rt3|]; [|intros [= <- <- <-]; by auto].
    intros [Hn|(d & Hg & Hd)]%b_after_claim_inv; [by left|]. right. by exists c, db1, d. }
  destruct (be_fault env); first [by apply (Hmain (db, rt, BNone))|intros [= <- <- <-]; by auto].
Qed.

Lemma fail_in_b_claimed c reason db db1 :
  table_wf (dispatches db) →
  claim_next_external_dispatch (be_session env) w None (be_utcnow env) db = (db1, Some c) →
  ∃ d db', get (cl_dispatch_id c) (dispatches db1) = Some d ∧
    fail_in_b c reason (be_utcnow env) db1 =
      (db', mkDispatchResult (cl_dispatch_id c) (cl_organization_id c) "failed" (Some reason)
              false true None) ∧
    get (cl_dispatch_id c) (dispatches db') = Some (finished FAILED (Some reason) (be_utcnow env) d) ∧
    messages db' = outcome_messages (ed_message_id d) MS_FAILED (Some reason) db1 ∧
    evolves db1 db'.
Proof.
  intros Hwf Hc. destruct (claim_owns _ _ _ _ _ _ _ Hwf Hc) as (d & Hg & Ho).
  pose proof (claim_next_effect _ _ _ _ _ _ _ _ _ Hwf Hc) as (_ & _ & _ & _ & _ & _ & _ & _ & Hwf1 & _).
  unfold fail_in_b. destruct (finish_outcome _ _ _ _ db1) as [db' won] eqn:Ef.
  pose proof Ef as Ef'.
  apply finish_outcome_inv in Ef as [(ms & d' & -> & Hms & Hg' & _ & Hf & Hne & Hwf' & Hm & _)|
    (_ & _ & Hno)]; [| |done].
  - injection Hms as <-. assert (d' = d) as -> by congruence. exists d, db'.
    split_and!; try done. unfold finish_outcome in Ef'.
    destruct (finish_external_dispatch _ _ _ _ _) as [[x y]|] eqn:E; [|done].
    injection Ef' as -> ->. by eapply finish_evolves.
  - rewrite (Hno ltac:(done) d Hg) in Ho. done.
Qed.

(** Transaction B changes dispatches only along the lifecycle. *)
Lemma transaction_b_evolves db rt db' rt' r :
  table_wf (dispatches db) →
  transaction_b settings w env db rt = (db', rt', r) → evolves db db'.
Proof.
  intros Hwf [[-> _]|(c & db1 & d & Hc & Hg & Hcase)]%transaction_b_inv; [done|].
  etrans; [by eapply claim_send_evolves|].
  destruct Hcase as [(x & reason & stop & _ & _ & -> & _)|(args & mid & cp & ct & m & mb & Hp & _)].
  - destruct (fail_in_b_claimed c reason db db1 Hwf Hc) as (? & ? & _ & -> & _ & _ & Hev). done.
  - apply gates_passed_frame in Hp as [Hd _]. by apply evolves_same.
Qed.
End TransactionB.

(** ** Theorems: Transaction B *)

(** Everything that must hold before a message may be handed to SMTP: the
    dispatch was queued with this message; campaign, contact, message and
    mailbox belong together and to the dispatch's organization; the mailbox
    is active; nobody suppressed the recipient; the body is grounded; live
    sending is on; and in the committed database the dispatch is SENDING
    under the worker's claim and the message SENDING under the Message-ID
    that the send arguments carry, with the stored text verbatim. *)
Record send_authorized `{Fernet} (settings : Settings) (w : string) (db db' : Db) (p : Prepared)
    (d : ExternalDispatch) (cp : Campaign) (ct : Contact) (m : Message) (mb : Mailbox) : Prop := {
  sa_queued : get (cl_dispatch_id (pr_claim p)) (dispatches db) = Some d ∧ ed_state d = QUEUED ∧
              ed_message_id d = Some (msg_id m);
  sa_campaign : In cp (rows (campaigns db)) ∧ cp_id cp = ed_campaign_id d ∧
                cp_organization_id cp = Some (ed_organization_id d);
  sa_contact : In ct (rows (contacts db)) ∧ ct_id ct = ed_contact_id d ∧ ct_campaign_id ct = cp_id cp;
  sa_message : get (msg_id m) (messages db) = Some m ∧ msg_contact_id m = ct_id ct ∧
               msg_status m = MS_DRAFT ∧ msg_direction m = OUTBOUND;
  sa_mailbox : In mb (rows (mailboxes db)) ∧ ed_mailbox_id d = Some (mb_id mb) ∧
               mb_organization_id mb = ed_organization_id d ∧ mb_status mb = MB_ACTIVE;
  sa_not_suppressed : is_email_suppressed db (ct_email ct) None = false;
  sa_grounded : ∃ g, evaluate_exact_message_grounding m ct cp (ed_grounding_context d) = Ok g ∧
                     hard_block (gd_validation g) = false;
  sa_live : live_sending_enabled settings = true;
  sa_claimed : ∃ d', get (cl_dispatch_id (pr_claim p)) (dispatches db') = Some d' ∧
                 ed_state d' = SENDING ∧ owns SENDING (pr_claim p) d' = true ∧
                 cl_worker_id (pr_claim p) = w ∧ same_identity d d';
  sa_durable : ∃ m', get (msg_id m) (messages db') = Some m' ∧ msg_status m' = MS_SENDING ∧
                 msg_message_id_header m' = Some (pr_message_id p) ∧ msg_body m' = msg_body m;
  sa_args : sa_message_id_header (pr_send_args p) = Some (pr_message_id p) ∧
            sa_body_text (pr_send_args p) = msg_body m ∧
            sa_subject (pr_send_args p) = default "" (msg_subject m) ∧
            sa_to_email (pr_send_args p) = ct_email ct ∧
            sa_from_email (pr_send_args p) = mb_email_address mb;
  sa_server : ∃ cfg, smtp_config_for settings mb = Ok cfg ∧ sa_smtp_config (pr_send_args p) = Some cfg
}.

Lemma transaction_b_authorized `{Fernet} settings w env db rt db' rt' p :
  db_wf db →
  transaction_b settings w env db rt = (db', rt', BPrepared p) →
  ∃ d cp ct m mb, send_authorized settings w db db' p d cp ct m mb.
Proof.
  intros Hwf [[_ [?|?]]|(c & db1 & d1 & Hc & Hg & Hcase)]%transaction_b_inv; [done|done|].
  destruct Hcase as [(? & ? & ? & _ & _ & _ & [?|?])|(args & mid & cp & ct & m & mb & Hp & [Heq|?])];
    try done. injection Heq as ->.
  pose proof (claim_owns _ _ _ _ _ _ _ (wf_dispatches _ Hwf) Hc) as (d1' & Hg1 & Ho).
  assert (d1' = d1) as -> by congruence.
  apply claim_next_effect in Hc as (d & Hgd & Hcl & _ & Hw & _ & Hgd' & _ & _ & Hdb1);
    [|by destruct Hwf].
  assert (d1 = mark_claimed SENDING w (naive_utc None (be_utcnow env)) (be_utcnow env) d) as ->
    by congruence.
  unfold claimable_send in Hcl. bools.
  pose proof (gates_passed_frame _ _ _ _ _ _ _ _ _ _ _ Hp) as [Hdd _].
  destruct Hp as [Ht [Hdr Hout] Hact Hns Hgr Hl Hcr Hb Hs Hto Hfr _ Hma Hdb'].
  apply load_tenant_scoped_Ok in Ht as (Hcp & Hct & Hm). apply load_active_mailbox_Ok in Hact.
  rewrite Hdb1 in Hcp, Hct, Hm, Hact, Hns. cbn in Hcp, Hct, Hm, Hact.
  destruct Hm as (Hm1 & Hm2 & Hm3).
  assert (get (msg_id m) (messages db) = Some m) as Hgm
    by (by apply (get_complete _ m); [destruct Hwf|]).
  exists d, cp, ct, m, mb. split; cbn; try done.
  - eexists. rewrite Hdd. split_and!; [exact Hg|done..].
  - exists (set_msg_status MS_SENDING (set_msg_message_id_header (Some mid) m)).
    split_and!; try done. rewrite Hdb', update_message_get by done. rewrite Hdb1. cbn.
    rewrite Hgm. cbn. by rewrite bool_decide_eq_true_2.
Qed.

(** C11: Transaction B hands a message to SMTP only after every gate passed and
    after the claim and the Message-ID are durable (the conditions of
    [send_authorized], for every schedule, engine and fault). *)
Theorem transaction_b_authorizes `{Fernet} settings w env db rt db' rt' p :
  db_wf db →
  transaction_b settings w env db rt = (db', rt', BPrepared p) →
  ∃ d cp ct m mb, send_authorized settings w db db' p d cp ct m mb.
Proof. apply transaction_b_authorized. Qed.

(** A refused dispatch never reaches SMTP and is durably FAILED.  When
    Transaction B reports a result instead of a prepared send, the claimed
    dispatch was failed by one of the gates (or an internal error before
    SMTP): in the committed database it is FAILED with that reason and its
    claim is cleared, the write is reported as persisted, and no SMTP was
    attempted. *)
Theorem transaction_b_refusal_fails_closed `{Fernet} settings w env db rt db' rt' r :
  db_wf db →
  transaction_b settings w env db rt = (db', rt', BDone r) →
  ∃ d d' reason, get (dr_dispatch_id r) (dispatches db) = Some d ∧ claimable_send d = true ∧
    get (dr_dispatch_id r) (dispatches db') = Some d' ∧
    ed_state d' = FAILED ∧ ed_error_message d' = Some reason ∧
    ed_claimed_by d' = None ∧ ed_claimed_at d' = None ∧ same_identity d d' ∧
    dr_reason r = Some reason ∧ dr_outcome r = "failed" ∧
    dr_smtp_attempted r = false ∧ dr_persisted r = true.
Proof.
  intros Hwf [[_ [?|?]]|(c & db1 & d1 & Hc & Hg & Hcase)]%transaction_b_inv; [done|done|].
  destruct Hcase as [(x & reason & stop & _ & _ & Hdb & [Heq|?])|(? & ? & ? & ? & ? & ? & _ & [?|?])];
    try done.
  destruct (fail_in_b_claimed w env c reason db db1 (wf_dispatches _ Hwf) Hc)
    as (d1' & db2 & Hg1 & Hf & Hfin & _ & _).
  rewrite Hf in Hdb, Heq. injection Heq as ->. cbn in Hdb. subst db2.
  assert (d1' = d1) as -> by congruence.
  apply claim_next_effect in Hc as (d & Hgd & Hcl & _ & _ & _ & Hgd' & _); [|by destruct Hwf].
  assert (d1 = mark_claimed SENDING w (naive_utc None (be_utcnow env)) (be_utcnow env) d) as ->
    by congruence.
  eexists d, _, reason. cbn [dr_dispatch_id]. split_and!; try done; try exact Hfin; done.
Qed.

(** Transaction B either commits a claim's fate or leaves the database
    untouched: with no queued work, a shutdown request, missing deployment
    credentials or a database error before the commit, nothing changes and
    the dispatch stays queued. *)
Theorem transaction_b_all_or_nothing `{Fernet} settings w env db rt db' rt' r :
  db_wf db →
  transaction_b settings w env db rt = (db', rt', r) →
  r = BNone ∨ (r = BRaised ∧ be_fault env ≠ FaultAfterCommit) → db' = db.
Proof.
  intros Hwf Hb Hr. revert Hb. unfold transaction_b.
  destruct (begin_claim_attempt rt) as [rt1 adm].
  destruct adm; cbn [negb]; [|by intros [= <- <- <-]].
  destruct (rt_stopping _); [by intros [= <- <- <-]|].
  destruct (be_fault env) eqn:Ef; [|by intros [= <- <- <-]| |].
  all: destruct (claim_next_external_dispatch _ _ _ _ db) as [db1 [c|]]; [|by intros [= <- <- <-]].
  all: destruct (register_claim_attempt _ _); [|by intros [= <- <- <-]].
  all: unfold b_after_claim; rewrite Ef; destruct (get _ _); [|by intros [= <- <- <-]].
  all: destruct (b_gates _ _ _ _ _) as [[[? ?] ?]|[]]; try by intros [= <- <- <-].
  all: try destruct (fail_in_b _ _ _ _); intros [= <- <- <-]; naive_solver.
Qed.

(** The gates read tables the claim does not write, and columns of the
    dispatch the claim keeps. *)
Lemma load_tenant_scoped_ext db t d d' :
  same_identity d d' → ed_message_id d' = ed_message_id d →
  load_tenant_scoped (set_dispatches t db) d' = load_tenant_scoped db d.
Proof.
  intros (_ & Ho & _ & _ & _ & Hc & Hct & _) Hm. unfold load_tenant_scoped. cbn.
  by rewrite Ho, Hc, Hct, Hm.
Qed.

Lemma load_active_mailbox_ext db t d d' :
  same_identity d d' → load_active_mailbox (set_dispatches t db) d' = load_active_mailbox db d.
Proof.
  intros (_ & Ho & _ & _ & _ & _ & _ & Hmb & _). unfold load_active_mailbox. cbn. by rewrite Ho, Hmb.
Qed.

(** Everything a ready dispatch needs to be sent now. *)
Record sendable `{Fernet} (settings : Settings) (seed : MsgidSeed) (db : Db) (d : ExternalDispatch)
    (cp : Campaign) (ct : Contact) (m : Message) (mb : Mailbox) (cfg : SmtpConfig) : Prop := {
  sd_tenant : load_tenant_scoped db d = Ok (cp, ct, m);
  sd_draft : msg_status m = MS_DRAFT ∧ msg_direction m = OUTBOUND;
  sd_mailbox : load_active_mailbox db d = Ok mb;
  sd_not_suppressed : is_email_suppressed db (ct_email ct) None = false;
  sd_grounded : ∃ g, evaluate_exact_message_grounding m ct cp (ed_grounding_context d) = Ok g ∧
                     hard_block (gd_validation g) = false;
  sd_live : live_sending_enabled settings = true;
  sd_credentials : smtp_config_for settings mb = Ok cfg;
  sd_fresh_id : message_id_taken db (msg_id m) (generate_message_id seed (mb_email_address mb)) = false
}.

Lemma b_gates_pass `{Fernet} settings seed db t d d' cp ct m mb cfg :
  sendable settings seed db d cp ct m mb cfg → same_identity d d' → ed_message_id d' = ed_message_id d →
  ∃ db' args, b_gates settings seed false d' (set_dispatches t db)
    = Ok (db', args, generate_message_id seed (mb_email_address mb)) ∧
    sa_body_text args = msg_body m ∧ sa_to_email args = ct_email ct ∧ sa_smtp_config args = Some cfg.
Proof.
  intros [Ht [Hdr Hout] Hmb Hns (g & Hg & Hb) Hl Hc Hf] Hid Hm. unfold b_gates.
  rewrite (load_tenant_scoped_ext db t d d' Hid Hm), Ht. cbn [mbind result_bind].
  apply load_tenant_scoped_Ok in Ht as (_ & (_ & _ & Hct) & (_ & _ & Hmc)).
  assert (assert_wired m ct cp = Ok ()) as Hw by (by apply assert_wired_Ok).
  unfold build_exact_send_input. rewrite Hw. cbn [mbind result_bind mret result_ret].
  rewrite (load_active_mailbox_ext db t d d' Hid), Hmb. cbn [mbind result_bind].
  change (is_email_suppressed (set_dispatches t db) (ct_email ct) None)
    with (is_email_suppressed db (ct_email ct) None). rewrite Hns. cbn [raise_if mbind result_bind].
  destruct Hid as (_ & _ & _ & _ & _ & _ & _ & _ & _ & Hgc & _). rewrite Hgc, Hg.
  cbn [mbind result_bind]. rewrite (grounding_decision_blocked _ _ _ _ _ Hg), Hb, Hl.
  cbn [raise_if negb mbind result_bind]. rewrite Hc. cbn [mbind result_bind].
  change (message_id_taken (set_dispatches t db)) with (message_id_taken db).
  cbn [raise_if mbind result_bind xi_from_email set_xi_from_email]. rewrite Hf, andb_false_r.
  cbn [raise_if mbind result_bind]. eexists _, _. split; [done|]. cbn. done.
Qed.

(** C12: a dispatch that may be sent is sent.  If the oldest unlocked ready
    dispatch satisfies every gate, no shutdown is requested and the database
    answers, Transaction B does not fail or defer it: it prepares exactly that
    dispatch's message, to its contact, through its mailbox's account. *)
Theorem transaction_b_prepares `{Fernet} settings w env db rt d cp ct m mb cfg :
  db_wf db → 0 ≤ rt_claim_attempts rt → rt_stopping rt = false →
  be_stop_before_claim env = false → be_stop_before_commit env = false → be_fault env = NoFault →
  claim_target claimable_send (be_session env) db = Some d →
  sendable settings (be_seed env) db d cp ct m mb cfg →
  ∃ db' rt' p, transaction_b settings w env db rt = (db', rt', BPrepared p) ∧
    cl_dispatch_id (pr_claim p) = ed_id d ∧
    sa_body_text (pr_send_args p) = msg_body m ∧ sa_to_email (pr_send_args p) = ct_email ct ∧
    sa_smtp_config (pr_send_args p) = Some cfg ∧ In (ed_id d, pr_claim p) (rt_inflight rt').
Proof.
  intros Hwf Hpos Hst Hs1 Hs2 Hf Ht Hs. unfold transaction_b, begin_claim_attempt. rewrite Hst.
  cbn [negb]. rewrite Hs1, Hf. cbn [shutdown_if rt_stopping].
  unfold claim_next_external_dispatch. rewrite claim_next_eq by by destruct Hwf. rewrite Ht.
  unfold register_claim_attempt. cbn [rt_claim_attempts].
  destruct (Z.leb_spec (rt_claim_attempts rt + 1) 0); [lia|]. rewrite Hs2. cbn [shutdown_if].
  unfold b_after_claim. cbn [cl_dispatch_id].
  apply claim_target_Some in Ht as (Hin & Hcl & _).
  pose proof (get_complete _ d (wf_dispatches _ Hwf) Hin) as Hg.
  set (d' := mark_claimed SENDING w (naive_utc None (be_utcnow env)) (be_utcnow env) d).
  change (get (ed_id d) (dispatches (set_dispatches ?t db))) with (get (ed_id d) t).
  rewrite (update_pk_get_eq _ _ _ _ d) by done. fold d'.
  match goal with |- context [set_dispatches ?t db] =>
    destruct (b_gates_pass settings (be_seed env) db t d d' cp ct m mb cfg Hs) as (db2 & args & Hb & Hbody & Hto & Hcfg);
    [by split_and!|done|] end.
  cbn [rt_stopping]. rewrite Hb, Hf. eexists _, _, _. split; [reflexivity|]. cbn.
  split_and!; try done. 
  clear. induction (rt_inflight rt) as [|[k v] l IH]; cbn; [by left|].
  destruct (k =? ed_id d); [by left|]. by right.
Qed.

(** ** Theorems: Transaction C *)

Lemma transaction_c_once faults p st e u db db' won :
  table_wf (dispatches db) →
  transaction_c faults p st e u db = (db', won) →
  (db' = db ∧ won = false) ∨
  (db' = fst (finish_outcome (pr_claim p) st e u db) ∧
   snd (finish_outcome (pr_claim p) st e u db) = true).
Proof.
  unfold transaction_c. set (c := pr_claim p). intros Hwf.
  assert (∀ n k db0, table_wf (dispatches db0) →
    snd (finish_outcome c st e u db0) = false →
    c_attempts n k faults c st e u db0 = (db0, false)) as Hlost.
  { intros n. induction n as [|n IH]; intros k db0 Hwf0 Hl; cbn; [done|].
    destruct (finish_outcome c st e u db0) as [x y] eqn:E. cbn in Hl. subst y.
    pose proof E as E'. apply finish_outcome_inv in E' as [(? & ? & ? & _)|(_ & -> & _)]; [done| |done].
    destruct (faults k); [done|by apply IH; rewrite ?E..]. }
  generalize 0%nat. generalize TXN_C_ATTEMPTS. intros n. induction n as [|n IH]; intros k; cbn.
  { intros [= <- <-]. by left. }
  destruct (finish_outcome c st e u db) as [x y] eqn:E.
  destruct (faults k); [| |].
  - intros [= <- <-]. destruct y; [by right|].
    apply finish_outcome_inv in E as [(? & ? & ? & _)|(_ & -> & _)]; [done| |done]. by left.
  - apply IH.
  - destruct y.
    + pose proof E as E'.
      apply finish_outcome_inv in E' as [(ms & d & _ & Hms & Hg & Ho & Hg' & _ & Hwf' & _)|(? & _)];
        [|done|done].
      intros Hc. right. split; [|done]. cbn.
      rewrite Hlost in Hc; [by injection Hc as <- <-|done|].
      destruct (finish_outcome c st e u x) as [x' y'] eqn:E2.
      apply finish_outcome_inv in E2 as [(? & d2 & _ & _ & Hg2 & Ho2 & _)|(-> & _)]; [|done|done].
      exfalso. rewrite Hg' in Hg2. injection Hg2 as <-. apply owns_spec in Ho2 as (_ & Hs & _).
      cbn in Hs. subst st. done.
    + apply finish_outcome_inv in E as [(? & ? & ? & _)|(_ & -> & _)]; [done| |done]. apply IH.
Qed.

(** The outcome write happens at most once.  Whatever faults strike its
    three attempts (including a commit that is durable although it raised),
    Transaction C leaves the database unchanged or equal to one application
    of the fenced write, and reports success only in the latter case. *)
Theorem transaction_c_writes_at_most_once faults p st e u db db' won :
  table_wf (dispatches db) →
  transaction_c faults p st e u db = (db', won) →
  (db' = db ∧ won = false) ∨
  (db' = fst (finish_outcome (pr_claim p) st e u db) ∧
   snd (finish_outcome (pr_claim p) st e u db) = true).
Proof. apply transaction_c_once. Qed.

(** ** Facts: finalisation, cycle, shutdown *)

Lemma finish_outcome_evolves c st e u db :
  table_wf (dispatches db) → evolves db (fst (finish_outcome c st e u db)).
Proof.
  intros Hwf. unfold finish_outcome.
  destruct (finish_external_dispatch c st e u db) as [[x y]|] eqn:E; [|done].
  by eapply finish_evolves.
Qed.

Lemma annotate_late_evolves f p o e u db :
  table_wf (dispatches db) → evolves db (annotate_late_outcome f p o e u db).
Proof.
  intros Hwf. unfold annotate_late_outcome.
  destruct (annotate_unknown_dispatch _ _ _ _ db) as [x y] eqn:E.
  apply annotate_evolves in E; [|done]. by destruct f.
Qed.

Lemma transaction_c_evolves faults p st e u db :
  table_wf (dispatches db) → evolves db (fst (transaction_c faults p st e u db)).
Proof.
  intros Hwf. unfold transaction_c. revert db Hwf. generalize 0%nat as k.
  generalize TXN_C_ATTEMPTS as n. intros n. induction n as [|n IH]; intros k db Hwf; [done|].
  cbn. pose proof (finish_outcome_evolves (pr_claim p) st e u db Hwf) as Hev.
  destruct (finish_outcome _ _ _ _ db) as [x y]. cbn in Hev.
  destruct (faults k); [done|by apply IH|].
  etrans; [exact Hev|]. apply IH. by apply Hev.
Qed.

Lemma finalize_evolves env p o e db :
  table_wf (dispatches db) → evolves db (fst (finalize_phase env p o e db)).
Proof.
  intros Hwf. unfold finalize_phase.
  pose proof (transaction_c_evolves (ce_faults env) p (state_of_outcome o) (outcome_error o e)
    (ce_utcnow env) db Hwf) as Hev.
  destruct (transaction_c _ _ _ _ _ db) as [x y]. cbn in *. destruct y; [done|].
  etrans; [exact Hev|]. apply annotate_late_evolves. by apply Hev.
Qed.

Lemma process_next_evolves `{Fernet} settings w env db rt :
  table_wf (dispatches db) →
  evolves db (fst (fst (fst (process_next_external_dispatch settings w env db rt)))).
Proof.
  intros Hwf. unfold process_next_external_dispatch.
  destruct (transaction_b _ _ _ db rt) as [[db1 rt1] b] eqn:E.
  apply transaction_b_evolves in E; [|done]. destruct b; cbn; try done.
  unfold execute_and_finalize. destruct (smtp_phase _ _ _ _) as [[o e] tr].
  pose proof (finalize_evolves (pe_c env) p o e db1 (ev_wf _ _ E Hwf)) as Hf.
  destruct (finalize_phase _ _ _ _ db1) as [db2 r]. cbn in *. by etrans.
Qed.

(** A worker that lost its claim cannot change the dispatch.  If, when the
    SMTP outcome comes back, the row is no longer the one this worker claimed
    (lease recovery or a shutdown resolved it), finalisation reports
    [persisted = false] and leaves the state, the claim and the identity of
    every dispatch as they are; only an UNKNOWN row may gain a note. *)
Theorem finalize_lost_claim_is_inert env p o e db :
  table_wf (dispatches db) →
  (∀ d, get (cl_dispatch_id (pr_claim p)) (dispatches db) = Some d →
        owns SENDING (pr_claim p) d = false) →
  let '(db', r) := finalize_phase env p o e db in
  dr_persisted r = false ∧ messages db' = messages db ∧
  ∀ i d, get i (dispatches db) = Some d →
    ∃ d', get i (dispatches db') = Some d' ∧ ed_state d' = ed_state d ∧
      ed_claimed_by d' = ed_claimed_by d ∧ ed_claimed_at d' = ed_claimed_at d ∧
      ed_message_id d' = ed_message_id d ∧ same_identity d d' ∧
      (ed_state d ≠ UNKNOWN → d' = d).
Proof.
  intros Hwf Hlost. unfold finalize_phase.
  assert (∃ x, finish_outcome (pr_claim p) (state_of_outcome o) (outcome_error o e) (ce_utcnow env) db
               = (db, x) ∧ x = false) as (x & Hf & ->).
  { destruct (finish_outcome _ _ _ _ db) as [db0 won] eqn:E.
    apply finish_outcome_inv in E as [(? & d & _ & _ & Hg & Ho & _)|(-> & -> & _)]; [| |done].
    - by rewrite (Hlost _ Hg) in Ho.
    - eauto. }
  destruct (transaction_c _ _ _ _ _ db) as [db1 won] eqn:Et.
  apply transaction_c_once in Et as [[-> ->]|[_ Hs]]; [| |done].
  2: { by rewrite Hf in Hs. }
  cbn. unfold annotate_late_outcome.
  destruct (annotate_unknown_dispatch _ _ _ _ db) as [db2 ok] eqn:Ea. cbn.
  assert (∀ i d, get i (dispatches db) = Some d → ∃ d', get i (dispatches db) = Some d' ∧
    ed_state d' = ed_state d ∧ ed_claimed_by d' = ed_claimed_by d ∧
    ed_claimed_at d' = ed_claimed_at d ∧ ed_message_id d' = ed_message_id d ∧ same_identity d d' ∧
    (ed_state d ≠ UNKNOWN → d' = d)) as Hsame.
  { intros i d Hd. exists d. by split_and!. }
  apply exec_update_inv in Ea as [(_ & _ & Hdb & d & Hg & Hp & Hg' & Hne)|(_ & -> & _)];
    [|by destruct (ce_annotate_fault env)|done|done].
  destruct (ce_annotate_fault env); [|by split_and!|].
  all: split_and!; [done|by rewrite Hdb|]; intros i d0 Hd0;
    destruct (decide (i = cl_dispatch_id (pr_claim p))) as [->|Hi];
    [assert (d0 = d) as -> by congruence; eexists; split; [exact Hg'|]; by bools
    |exists d0; rewrite Hne by done; by split_and!].
Qed.

(** An attempt that commits after rolled-back ones decides the transaction. *)
Lemma c_attempts_commit faults k claim st e u db : ∀ n i,
  (i ≤ k < n + i)%nat → faults k = CCommitted → (∀ j, (j < k)%nat → faults j = CRolledBack) →
  c_attempts n i faults claim st e u db = finish_outcome claim st e u db.
Proof.
  intros n. induction n as [|n IH]; intros i Hi Hck Hj; [lia|]. cbn.
  destruct (finish_outcome claim st e u db) as [x y] eqn:E.
  destruct (decide (i = k)) as [->|Hne]; [by rewrite Hck|].
  rewrite (Hj i) by lia. by rewrite IH by (done || lia).
Qed.

(** The owner's outcome is recorded.  If the worker still owns the claim and
    some attempt of Transaction C commits (earlier ones rolled back), the
    dispatch takes exactly the state of the SMTP outcome, its claim is
    cleared, the error text is stored, and the linked message takes the
    matching status. *)
Theorem finalize_records_outcome env p o e db k d m :
  table_wf (dispatches db) →
  get (cl_dispatch_id (pr_claim p)) (dispatches db) = Some d → owns SENDING (pr_claim p) d = true →
  ed_message_id d = Some (msg_id m) → get (msg_id m) (messages db) = Some m →
  (k < TXN_C_ATTEMPTS)%nat → ce_faults env k = CCommitted →
  (∀ j, (j < k)%nat → ce_faults env j = CRolledBack) →
  let '(db', r) := finalize_phase env p o e db in
  dr_persisted r = true ∧
  get (cl_dispatch_id (pr_claim p)) (dispatches db')
    = Some (finished (state_of_outcome o) (outcome_error o e) (ce_utcnow env) d) ∧
  ∃ m', get (msg_id m) (messages db') = Some m' ∧
    message_status_of (state_of_outcome o) = Some (msg_status m') ∧
    msg_error_message m' = outcome_error o e ∧ msg_body m' = msg_body m.
Proof.
  intros Hwf Hg Ho Hm Hgm Hk Hc Hrb. unfold finalize_phase, transaction_c.
  set (st := state_of_outcome o). set (err := outcome_error o e).
  assert (c_attempts TXN_C_ATTEMPTS 0 (ce_faults env) (pr_claim p) st err (ce_utcnow env) db
          = finish_outcome (pr_claim p) st err (ce_utcnow env) db) as ->.
  { apply (c_attempts_commit _ k); [unfold TXN_C_ATTEMPTS in *; lia|done|done]. }
  destruct (finish_outcome _ _ _ _ db) as [db' won] eqn:E.
  apply finish_outcome_inv in E as [(ms & d' & -> & Hms & Hg0 & _ & Hg' & _ & _ & Hmm & _)|(_ & _ & Hno)];
    [| |done].
  - assert (d' = d) as -> by congruence. cbn. split_and!; [done|done|].
    rewrite Hmm. unfold outcome_messages. rewrite update_message_get, Hgm, Hm by done. cbn.
    rewrite bool_decide_eq_true_2 by done. cbn. eexists. by split_and!.
  - rewrite (Hno ltac:(by unfold st; destruct o) d Hg) in Ho. done.
Qed.

Lemma smtp_phase_evidence settings server seed p o e trace :
  live_sending_enabled settings = true → smtplib_errors server →
  smtp_phase settings server seed p = (o, e, trace) →
  (∃ x, send_email settings server seed (pr_send_args p) = (Err x, trace) ∧ o = SO_UNKNOWN) ∨
  (∃ msg_id, (∀ h, sa_message_id_header (pr_send_args p) = Some h → msg_id = h) ∧
     outcome_evidence (smtp_config_or_default settings (sa_smtp_config (pr_send_args p))) o
       (sa_from_email (pr_send_args p)) (sa_to_email (pr_send_args p)) (build_mime (pr_send_args p) msg_id) trace).
Proof.
  intros Hl Hlib. unfold smtp_phase.
  destruct (send_email settings server seed (pr_send_args p)) as [[r|x] t] eqn:E;
    intros [= <- <- <-]; [right|left; by eauto].
  apply send_email_justified in E; [|done]. cbn in E. rewrite Hl in E. destruct E as (_ & _ & E).
  eexists. split; [|exact E]. by intros h ->.
Qed.

(** [send_email] raising is never taken for a failure: the recorded outcome
    is UNKNOWN, so nothing that might have been delivered is reported as not
    sent; and a reported FAILED is backed by an explicit refusal or by a
    failure before the hand-over. *)
Theorem smtp_phase_sound settings server seed p o e trace :
  live_sending_enabled settings = true → smtplib_errors server →
  smtp_phase settings server seed p = (o, e, trace) →
  (∃ x, send_email settings server seed (pr_send_args p) = (Err x, trace) ∧ o = SO_UNKNOWN) ∨
  (∃ msg_id, (∀ h, sa_message_id_header (pr_send_args p) = Some h → msg_id = h) ∧
     outcome_evidence (smtp_config_or_default settings (sa_smtp_config (pr_send_args p))) o
       (sa_from_email (pr_send_args p)) (sa_to_email (pr_send_args p)) (build_mime (pr_send_args p) msg_id) trace).
Proof. apply smtp_phase_evidence. Qed.

(** *** Bookkeeping of the runtime *)

Lemma dict_pop_set_In {A} k (v : A) l j x :
  In (j, x) (dict_pop k (dict_set k v l)) → In (j, x) l.
Proof.
  intros [Hin Hj]%filter_In. cbn in Hj. bools. revert Hin.
  induction l as [|[k' v'] l IH]; cbn; [naive_solver|].
  destruct (k' =? k) eqn:E; cbn; bools; naive_solver.
Qed.

Lemma b_after_claim_runtime `{Fernet} settings w env db c db1 rt db' rt' r :
  b_after_claim settings w env db c db1 rt = (db', rt', r) →
  rt_claim_attempts rt' = rt_claim_attempts rt ∧
  match r with
  | BPrepared p => rt' = rt ∧ pr_claim p = c
  | _ => rt' = unregister (cl_dispatch_id c) rt
  end.
Proof.
  unfold b_after_claim. destruct (get _ _); [|by intros [= <- <- <-]].
  destruct (b_gates _ _ _ _ _) as [[[? ?] ?]|[]]; try by intros [= <- <- <-].
  all: try destruct (fail_in_b _ _ _ _); destruct (be_fault env); by intros [= <- <- <-].
Qed.

(** Transaction B closes its claim attempt; it keeps the dispatch registered
    exactly when it hands a prepared send over. *)
Lemma transaction_b_runtime `{Fernet} settings w env db rt db' rt' r :
  0 ≤ rt_claim_attempts rt →
  transaction_b settings w env db rt = (db', rt', r) →
  rt_claim_attempts rt' = rt_claim_attempts rt ∧
  (rt_inflight rt' = rt_inflight rt ∧ (r = BNone ∨ r = BRaised) ∨
   ∃ c, rt_inflight rt' =
          (match r with BPrepared p => id | _ => dict_pop (cl_dispatch_id c) end)
            (dict_set (cl_dispatch_id c) c (rt_inflight rt)) ∧
        ∀ p, r = BPrepared p → pr_claim p = c).
Proof.
  intros Hpos. unfold transaction_b, begin_claim_attempt.
  destruct (rt_stopping rt) eqn:Est; cbn [negb]; [intros [= <- <- <-]; by auto|].
  set (rt2 := shutdown_if _ _).
  assert (rt_claim_attempts rt2 = rt_claim_attempts rt + 1 ∧ rt_inflight rt2 = rt_inflight rt)
    as [Ha Hi] by (unfold rt2; by destruct (be_stop_before_claim _)).
  assert (rt_claim_attempts (end_attempt rt2) = rt_claim_attempts rt ∧
          rt_inflight (end_attempt rt2) = rt_inflight rt) as [Hea Hei].
  { unfold end_attempt, end_claim_attempt. rewrite Ha.
    destruct (Z.leb_spec (rt_claim_attempts rt + 1) 0); [lia|]. cbn. split; [lia|done]. }
  destruct (rt_stopping rt2); [intros [= <- <- <-]; by auto|].
  destruct (be_fault env); [|intros [= <- <- <-]; by auto| |].
  all: destruct (claim_next_external_dispatch _ _ _ _ db) as [db0 [c|]];
    [|intros [= <- <- <-]; by auto].
  all: unfold register_claim_attempt; rewrite Ha;
    destruct (Z.leb_spec (rt_claim_attempts rt + 1) 0); [lia|].
  all: intros [Hatt Hrt]%b_after_claim_runtime.
  all: split; [rewrite Hatt; destruct (be_stop_before_commit env); cbn; lia|].
  all: right; exists c; destruct r; [subst rt'|subst rt'|destruct Hrt as [-> <-]|subst rt'];
    destruct (be_stop_before_commit env); cbn; rewrite Hi; naive_solver.
Qed.

(** The shutdown bookkeeping balances.  Processing one dispatch, whatever its
    outcome, ends with as many open claim attempts as before and leaves no
    entry behind in the in-flight set; and once a shutdown was requested no
    claim is attempted at all. *)
Theorem process_next_runtime_balanced `{Fernet} settings w env db rt db' rt' r trace :
  0 ≤ rt_claim_attempts rt →
  process_next_external_dispatch settings w env db rt = (db', rt', r, trace) →
  rt_claim_attempts rt' = rt_claim_attempts rt ∧
  (∀ j c, In (j, c) (rt_inflight rt') → In (j, c) (rt_inflight rt)) ∧
  (rt_stopping rt = true → db' = db ∧ rt' = rt ∧ r = PNone ∧ trace = []).
Proof.
  intros Hpos. unfold process_next_external_dispatch.
  destruct (transaction_b settings w (pe_b env) db rt) as [[db1 rt1] b] eqn:E. intros Hres.
  assert (rt_stopping rt = true → b = BNone ∧ db1 = db ∧ rt1 = rt) as Hstop.
  { intros Hs. unfold transaction_b in E. rewrite begin_claim_attempt_stopping in E by done.
    by injection E as <- <- <-. }
  apply transaction_b_runtime in E as [Ha Hi]; [|done].
  destruct b as [|res|p|].
  3: { destruct (execute_and_finalize _ _ _ _ _ _) as [[? ?] ?]. injection Hres as <- <- <- <-.
       destruct Hi as [(_ & [?|?])|(c & Hi & Hc)]; [done..|]. rewrite (Hc p eq_refl). cbn.
       split_and!; [done| |naive_solver]. rewrite Hi. intros j x. apply dict_pop_set_In. }
  all: injection Hres as <- <- <- <-; split_and!; [done| |naive_solver].
  all: destruct Hi as [[-> _]|(c & -> & _)]; [done|]; intros j x; apply dict_pop_set_In.
Qed.

(** *** Graceful shutdown *)

(** States that no step leaves. *)
Lemma unknown_stays db db' i d :
  evolves db db' → get i (dispatches db) = Some d → ed_state d = UNKNOWN →
  ∃ d', get i (dispatches db') = Some d' ∧ ed_state d' = UNKNOWN.
Proof.
  intros Hev Hg Hs. destruct (ev_kept _ _ Hev _ _ Hg) as (d' & Hg' & Hsteps). exists d'.
  split; [done|]. apply dispatch_steps_refine, terminal_closed in Hsteps;
    unfold phase_of in *; rewrite Hs in *; [|done].
  by destruct (ed_state d'), (is_none (ed_message_id d')).
Qed.

Lemma resolve_claims_spec faults u claims : ∀ k db db' abandoned elsewhere,
  table_wf (dispatches db) →
  resolve_claims claims faults k u db = (db', abandoned, elsewhere) →
  evolves db db' ∧
  abandoned ++ elsewhere ≡ₚ map cl_dispatch_id claims ∧
  (∀ i, In i abandoned → ∃ d', get i (dispatches db') = Some d' ∧ ed_state d' = UNKNOWN) ∧
  (∀ i d, get i (dispatches db) = Some d → ed_state d ≠ SENDING → get i (dispatches db') = Some d).
Proof.
  induction claims as [|c claims IH]; intros k db db' abandoned elsewhere Hwf; cbn [resolve_claims].
  { intros [= <- <- <-]. by split_and!. }
  pose proof (finish_outcome_evolves c UNKNOWN (Some shutdown_reason) u db Hwf) as Hev.
  destruct (finish_outcome _ _ _ _ db) as [db0 won0] eqn:Ef. cbn in Hev.
  assert (∀ i d, get i (dispatches db) = Some d → ed_state d ≠ SENDING →
                 get i (dispatches db0) = Some d) as Hkeep.
  { intros i d Hg Hs. apply finish_outcome_inv in Ef
      as [(? & d0 & _ & _ & Hg0 & Ho & _ & Hne & _)|(_ & -> & _)]; [| |done]; [|done].
    apply owns_spec in Ho as (_ & Hs0 & _). rewrite Hne; [done|]. intros ->. congruence. }
  set (sel := match faults k with CCommitted => (db0, won0) | CRolledBack => (db, false)
              | CCommitLost => (db0, false) end).
  assert (evolves db (fst sel) ∧ (∀ i d, get i (dispatches db) = Some d → ed_state d ≠ SENDING →
            get i (dispatches (fst sel)) = Some d) ∧
          (snd sel = true → ∃ d', get (cl_dispatch_id c) (dispatches (fst sel)) = Some d' ∧
                                  ed_state d' = UNKNOWN)) as (Hev1 & Hkeep1 & Hwon).
  { unfold sel. destruct (faults k); cbn; split_and!; try done. intros ->.
    apply finish_outcome_inv in Ef as [(? & d0 & _ & _ & _ & _ & Hg' & _)|(? & _)]; [|done|done].
    eauto. }
  destruct sel as [db1 won]. cbn in *.
  destruct (resolve_claims claims faults (S k) u db1) as [[db2 ab] el] eqn:Er.
  apply IH in Er as (Hev2 & Hperm & Hab & Hkeep2); [|by apply Hev1].
  assert (evolves db db2) by by etrans.
  destruct won; intros [= <- <- <-]; split_and!; try done; try (by eauto).
  - cbn. by rewrite Hperm.
  - intros i [<-|Hi]; [|by apply Hab]. destruct (Hwon eq_refl) as (d' & Hg & Hs).
    by apply (unknown_stays db1 db2 _ d').
  - by rewrite <- Permutation_middle, Hperm.
Qed.

(** A graceful shutdown never requeues and never resends.  Every claim still
    in flight is accounted for exactly once; each one reported abandoned is
    UNKNOWN in the database; dispatches that are not SENDING are untouched;
    and all changes follow the lifecycle. *)
Theorem shutdown_resolves_to_unknown seen faults u rt db db' report :
  table_wf (dispatches db) →
  drain_external_dispatches_on_shutdown seen faults u rt db = Some (db', report) →
  evolves db db' ∧
  sh_abandoned_unknown report ++ sh_still_owned_elsewhere report
    ≡ₚ map cl_dispatch_id (inflight rt) ∧
  (∀ i, In i (sh_abandoned_unknown report) →
     ∃ d', get i (dispatches db') = Some d' ∧ ed_state d' = UNKNOWN) ∧
  (∀ i d, get i (dispatches db) = Some d → ed_state d ≠ SENDING → get i (dispatches db') = Some d).
Proof.
  intros Hwf. unfold drain_external_dispatches_on_shutdown.
  destruct (drain seen) as [drained|]; [|done]. cbn [mbind option_bind].
  destruct (resolve_claims _ _ _ _ db) as [[db2 ab] el] eqn:E. intros [= <- <-]. cbn.
  by apply (resolve_claims_spec _ _ _ _ _ _ _ _ Hwf E).
Qed.

(** *** The polling cycle *)

Definition smtp_results (rs : list DispatchResult) : nat :=
  length (List.filter dr_smtp_attempted rs).

Lemma process_next_sendmails `{Fernet} settings w env db rt db' rt' r trace :
  process_next_external_dispatch settings w env db rt = (db', rt', r, trace) →
  (sendmails trace ≤ match r with PResult res => if dr_smtp_attempted res then 1 else 0 | _ => 0 end)%nat.
Proof.
  unfold process_next_external_dispatch.
  destruct (transaction_b _ _ _ db rt) as [[db1 rt1] b] eqn:Eb.
  destruct b as [|res|p|]; try by intros [= <- <- <- <-]; cbn; lia.
  unfold execute_and_finalize, smtp_phase, finalize_phase.
  pose proof (send_email_sendmails settings (pe_server env) (be_seed (pe_b env))
    (pr_send_args p)) as Hs.
  destruct (send_email _ _ _ _) as [v t]. cbn [snd] in Hs.
  destruct v as [v|v]; cbv beta iota zeta;
    (destruct (transaction_c (ce_faults (pe_c env)) p _ _ _ db1) as [x y];
     intros [= <- <- <- <-]; exact Hs).
Qed.

(** A polling cycle terminates within its limit and transmits at most one
    message per dispatch it reports as attempted: no more than [limit]
    results, no more [sendmail] calls than results with an SMTP attempt, and
    every change of a dispatch follows the lifecycle. *)
Theorem cycle_bounded `{Fernet} settings w max envs stops db rt db' rt' rs trace aborted :
  table_wf (dispatches db) →
  run_external_dispatch_cycle settings w max envs stops db rt = (db', rt', rs, trace, aborted) →
  (length rs ≤ Z.to_nat (default (external_dispatch_max_per_cycle settings) max))%nat ∧
  (sendmails trace ≤ smtp_results rs)%nat ∧ evolves db db'.
Proof.
  unfold run_external_dispatch_cycle. 
  generalize (Z.to_nat (default (external_dispatch_max_per_cycle settings) max)) as n.
  generalize 0%nat as k. intros k n. revert k db rt db' rt' rs trace aborted.
  induction n as [|n IH]; intros k db rt db' rt' rs trace aborted Hwf; cbn [cycle_loop].
  { intros [= <- <- <- <- <-]. cbn. by split_and!; [lia|lia|]. }
  destruct (rt_stopping _); [intros [= <- <- <- <- <-]; cbn; by split_and!; [lia|lia|]|].
  destruct (process_next_external_dispatch _ _ _ db _) as [[[db1 rt1] r] t] eqn:Ep.
  pose proof (process_next_sendmails _ _ _ _ _ _ _ _ _ Ep) as Hs.
  pose proof (process_next_evolves settings w (envs k) db (shutdown_if (stops k) rt) Hwf) as Hev.
  rewrite Ep in Hev. cbn in Hev.
  destruct r as [|res|]; [intros [= <- <- <- <- <-]; cbn in *; by split_and!; [lia|lia|]| |
    intros [= <- <- <- <- <-]; cbn in *; by split_and!; [lia|lia|]].
  destruct (cycle_loop _ _ n _ _ _ db1 rt1) as [[[[db2 rt2] rs'] t'] ab] eqn:Ec.
  apply IH in Ec as (Hlen & Hsm & Hev2); [|by apply Hev].
  intros [= <- <- <- <- <-]. rewrite sendmails_app. unfold smtp_results in *. cbn.
  split_and!; [lia| |by etrans]. destruct (dr_smtp_attempted res); cbn in *; lia.
Qed.

(** *** Witnesses: the sample database, a live deployment, a toy cipher *)

Section Witnesses.
#[local] Existing Instance sample_fernet.

Definition sample_benv : BEnv := mkBEnv postgres_session 100 sample_seed false false NoFault.
Definition accepting_server (k : nat) : Attempt := mkAttempt None None None None None.
Definition sample_cenv : CEnv := mkCEnv (λ _, CCommitted) CCommitted 300.
Definition flaky_cenv : CEnv := mkCEnv (λ k, match k with O => CRolledBack | _ => CCommitted end) CCommitted 300.
Definition sample_penv : ProcEnv := mkProcEnv sample_benv accepting_server sample_cenv.

(** Transaction B on the sample database. *)
Definition sample_b := transaction_b live_settings "w1" sample_benv sample_db new_runtime.
Definition sample_b_db : Db := fst (fst sample_b).
Definition sample_prepared : Prepared :=
  match snd sample_b with
  | BPrepared p => p
  | _ => mkPrepared sample_claim (mkCtx 0 "" None None "" "") sample_args ""
  end.

Lemma sample_b_eq :
  transaction_b live_settings "w1" sample_benv sample_db new_runtime
  = (sample_b_db, snd (fst sample_b), BPrepared sample_prepared).
Proof. vm_compute. reflexivity. Qed.

Lemma transaction_b_authorizes_witness :
  ∃ d cp ct m mb, send_authorized live_settings "w1" sample_db sample_b_db sample_prepared d cp ct m mb.
Proof. exact (transaction_b_authorizes _ _ _ _ _ _ _ _ sample_db_wf sample_b_eq). Defined.

(** With the mailbox disabled the dispatch is refused. *)
Definition disabled_db : Db := set_mailboxes (Table [set_mb_status MB_DISABLED sample_mailbox] 2) sample_db.
Lemma disabled_db_wf : db_wf disabled_db.
Proof. split; try table_wf. intros r r' [<-|[<-|[]]] [<-|[<-|[]]]; vm_compute; congruence. Qed.

Lemma transaction_b_refusal_fails_closed_witness :
  ∃ db' rt' r d', transaction_b live_settings "w1" sample_benv disabled_db new_runtime = (db', rt', BDone r) ∧
    get 1 (dispatches db') = Some d' ∧ ed_state d' = FAILED.
Proof.
  destruct (transaction_b live_settings "w1" sample_benv disabled_db new_runtime) as [[db' rt'] r] eqn:E.
  destruct r as [|r| |]; try (exfalso; vm_compute in E; discriminate E).
  destruct (transaction_b_refusal_fails_closed _ _ _ _ _ _ _ _ disabled_db_wf E)
    as (d & d' & reason & _ & _ & Hg' & Hs & _).
  assert (dr_dispatch_id r = 1) as Hr by (vm_compute in E; injection E as _ _ <-; reflexivity).
  rewrite Hr in Hg'. exists db', rt', r, d'. split_and!; [first [reflexivity|exact E]|exact Hg'|exact Hs].
Defined.

Lemma transaction_b_all_or_nothing_witness :
  ∃ rt', transaction_b live_settings "w1" (mkBEnv postgres_session 100 sample_seed false true NoFault)
    sample_db new_runtime = (sample_db, rt', BNone).
Proof.
  destruct (transaction_b live_settings "w1" (mkBEnv postgres_session 100 sample_seed false true NoFault)
    sample_db new_runtime) as [[db' rt'] r] eqn:E.
  assert (r = BNone) as -> by (vm_compute in E; by injection E as _ _ <-).
  assert (db' = sample_db) as ->
    by exact (transaction_b_all_or_nothing _ _ _ _ _ _ _ _ sample_db_wf E (or_introl eq_refl)).
  exists rt'. reflexivity.
Defined.

Lemma transaction_b_prepares_witness :
  ∃ db' rt' p, transaction_b live_settings "w1" sample_benv sample_db new_runtime = (db', rt', BPrepared p) ∧
    sa_body_text (pr_send_args p) = "Hello Bob, are you free to talk?".
Proof.
  destruct (transaction_b_prepares live_settings "w1" sample_benv sample_db new_runtime sample_dispatch
    sample_campaign sample_contact sample_message sample_mailbox
    (mkSmtpConfig "smtp.acme.io" 587 true "ann" "secret")
    sample_db_wf ltac:(vm_compute; discriminate) eq_refl eq_refl eq_refl eq_refl
    ltac:(vm_compute; reflexivity)) as (db' & rt' & p & E & _ & Hb & _).
  - split; try (vm_compute; reflexivity); [done|].
    eexists. split; vm_compute; reflexivity.
  - exists db', rt', p. split; [exact E|exact Hb].
Defined.

Lemma transaction_c_writes_at_most_once_witness :
  ∃ db', transaction_c (λ k, match k with O => CCommitLost | _ => CCommitted end) sample_prepared SENT None 300
      sample_b_db = (db', false) ∧
    db' = fst (finish_outcome (pr_claim sample_prepared) SENT None 300 sample_b_db).
Proof.
  assert (table_wf (dispatches sample_b_db)) as Hwf by table_wf.
  destruct (transaction_c (λ k, match k with O => CCommitLost | _ => CCommitted end) sample_prepared SENT
    None 300 sample_b_db) as [db' won] eqn:E.
  destruct (transaction_c_writes_at_most_once _ _ _ _ _ _ _ _ Hwf E) as [[-> ->]|[-> _]].
  - exfalso. vm_compute in E. discriminate E.
  - assert (won = false) as -> by (vm_compute in E; injection E as <-; reflexivity).
    eexists. split; [first [reflexivity|exact E]|reflexivity].
Defined.

Lemma finalize_lost_claim_is_inert_witness :
  dr_persisted (snd (finalize_phase sample_cenv sample_prepared SO_SENT None sample_db)) = false.
Proof.
  pose proof (finalize_lost_claim_is_inert sample_cenv sample_prepared SO_SENT None sample_db
    (wf_dispatches _ sample_db_wf)) as H.
  destruct (finalize_phase sample_cenv sample_prepared SO_SENT None sample_db) as [db' r].
  destruct H as [Hp _]; [|exact Hp].
  intros d Hd. vm_compute in Hd. injection Hd as <-. vm_compute. reflexivity.
Defined.

Lemma finalize_records_outcome_witness :
  ∃ d', get 1 (dispatches (fst (finalize_phase flaky_cenv sample_prepared SO_SENT None sample_b_db))) = Some d' ∧
    ed_state d' = SENT.
Proof.
  pose proof (finalize_records_outcome flaky_cenv sample_prepared SO_SENT None sample_b_db 1
    (mark_claimed SENDING "w1" 100 100 sample_dispatch)
    (set_msg_status MS_SENDING (set_msg_message_id_header (Some (pr_message_id sample_prepared)) sample_message))
    ltac:(table_wf) ltac:(vm_compute; reflexivity) ltac:(vm_compute; reflexivity) eq_refl
    ltac:(vm_compute; reflexivity) ltac:(unfold TXN_C_ATTEMPTS; lia) eq_refl) as H.
  destruct (finalize_phase flaky_cenv sample_prepared SO_SENT None sample_b_db) as [db' r].
  destruct H as (_ & Hg & _); [intros [|j] Hj; [reflexivity|lia]|]. eexists. split; [exact Hg|reflexivity].
Defined.

Lemma process_next_runtime_balanced_witness :
  ∃ db' rt' r trace,
    process_next_external_dispatch live_settings "w1" sample_penv sample_db new_runtime = (db', rt', r, trace) ∧
    rt_claim_attempts rt' = 0 ∧ sendmails trace = 1%nat.
Proof.
  destruct (process_next_external_dispatch live_settings "w1" sample_penv sample_db new_runtime)
    as [[[db' rt'] r] trace] eqn:E.
  assert (0 ≤ rt_claim_attempts new_runtime) as H0 by (vm_compute; discriminate).
  destruct (process_next_runtime_balanced _ _ _ _ _ _ _ _ _ H0 E) as [Ha _].
  exists db', rt', r, trace. split_and!; [first [reflexivity|exact E]|exact Ha|].
  vm_compute in E. injection E as _ _ _ <-. reflexivity.
Defined.

(** The wait wakes up once with time left, then at its deadline. *)
Definition stuck_wait : list (DispatchRuntime * Z) :=
  [(register sample_claim new_runtime, 500000); (register sample_claim new_runtime, 0)].

Lemma shutdown_resolves_to_unknown_witness :
  ∃ db' report, drain_external_dispatches_on_shutdown stuck_wait (λ _, CCommitted) 300
      (register sample_claim new_runtime) sending_db = Some (db', report) ∧ sh_drained report = false ∧ sh_abandoned_unknown report = [1] ∧
    ∃ d', get 1 (dispatches db') = Some d' ∧ ed_state d' = UNKNOWN.
Proof.
  destruct (drain_external_dispatches_on_shutdown stuck_wait (λ _, CCommitted) 300
    (register sample_claim new_runtime) sending_db) as [[db' report]|] eqn:E;
    [|exfalso; vm_compute in E; discriminate E].
  destruct (shutdown_resolves_to_unknown _ _ _ _ _ _ _ (wf_dispatches _ sending_db_wf) E) as (_ & _ & Hab & _).
  assert (sh_drained report = false ∧ sh_abandoned_unknown report = [1]) as [Hd Hr]
    by (vm_compute in E; injection E as _ <-; split; reflexivity).
  exists db', report. split_and!; [reflexivity|exact Hd|exact Hr|]. apply Hab. rewrite Hr. by left.
Defined.

Lemma cycle_bounded_witness :
  ∃ db' rt' rs trace aborted,
    run_external_dispatch_cycle live_settings "w1" None (λ _, sample_penv) (λ _, false) sample_db new_runtime
      = (db', rt', rs, trace, aborted) ∧ (length rs ≤ 5)%nat ∧ sendmails trace = 1%nat.
Proof.
  destruct (run_external_dispatch_cycle live_settings "w1" None (λ _, sample_penv) (λ _, false) sample_db
    new_runtime) as [[[[db' rt'] rs] trace] aborted] eqn:E.
  destruct (cycle_bounded _ _ _ _ _ _ _ _ _ _ _ _ (wf_dispatches _ sample_db_wf) E) as (Hlen & _ & _).
  exists db', rt', rs, trace, aborted. split_and!; [first [reflexivity|exact E]|exact Hlen|].
  vm_compute in E. injection E as _ _ _ <- _. reflexivity.
Defined.

End Witnesses.
