(* ===== verification/GenerationWorker.v ===== *)
(** * Outreach generation worker ([src/mailer_agent/mail/outreach_generation_worker.py])

    Transaction G1 (claim and validate the snapshot), the draft with no
    transaction open, Transaction G2 (one message, attached under the fence),
    the polling cycle and lease recovery.  The drafting agent
    ([llm/agent.py], an LLM call) is the interface [Drafter]: any answer or
    exception is allowed. *)

From S2P Require Import Prelude Sql Models Config Samples WorkClaiming Lifecycle Sender Regex Grounding ExactMessage ExternalDispatchWorker.

(** ** The drafting agent *)

Record DraftRequest := mkDraftRequest {
  rq_value_prop : string;
  rq_sender_name : string;
  rq_sender_org : string;
  rq_sender_email : string;
  rq_sender_title : option string;
  rq_tone : string;
  rq_contact_name : json;
  rq_contact_email : string;
  rq_contact_title : json;
  rq_contact_company : json;
  rq_context_notes : json;
  rq_action_type : string;
  rq_transcript : json;
  rq_planner_objective : option string
}.

Record Draft := mkDraft {
  df_subject : option string;
  df_body : string;
  df_grounding : option GroundingValidation
}.

Class Drafter := draft_message : DraftRequest → result exn Draft.

(** ** Results and prepared work *)

Record GenerationResult := mkGenResult {
  gr_dispatch_id : Z;
  gr_organization_id : string;
  gr_outcome : string;
  gr_reason : option string;
  gr_persisted : bool
}.

(** The threading facts of a reply, as validated. *)
Record ReplyParent := mkReplyParent {
  rp_subject : string;
  rp_in_reply_to_header : string;
  rp_references_header : json
}.

Record GPrepared := mkGPrepared {
  gp_claim : ClaimedDispatch;
  gp_contact_id : Z;
  gp_email : string;
  gp_sender_name : string;
  gp_sender_org : string;
  gp_sender_email : string;
  gp_sender_title : option string;
  gp_tone : string;
  gp_value_prop : string;
  gp_context_notes : json;
  gp_transcript : json;
  gp_recipient_name : json;
  gp_recipient_title : json;
  gp_recipient_company : json;
  gp_reply_parent : option ReplyParent
}.

Definition REPLY_OBJECTIVE : string :=
  "Reply to the prospect's most recent message in this conversation. Answer only what they "
  +:+ "wrote, using verified facts. Do not state or imply that any meeting time is booked, "
  +:+ "available or confirmed; if they proposed times, acknowledge them and say the sender will "
  +:+ "confirm.".

(** A refusal is its text. *)
Definition is_int (j : json) : bool :=
  match j with JInt _ | JBool _ => true | _ => false end.

Definition valid_reply_parent (value : json) : result string (option ReplyParent) :=
  match value with
  | JNull => Ok None
  | JObj f =>
      match is_int (jget "message_id" f), jget "subject" f, jget "in_reply_to_header" f with
      | true, JStr (String _ _ as s), JStr (String _ _ as h) =>
          Ok (Some (mkReplyParent s h (jget "references_header" f)))
      | _, _, _ => Err "generation_context_invalid: reply parent snapshot is malformed"
      end
  | _ => Err "generation_context_invalid: reply parent snapshot is malformed"
  end.

(** [snap.get("recipient") or {}], which must be a dict. *)
Definition recipient_fields (snap : list (string * json)) : result string (list (string * json)) :=
  let r := jget "recipient" snap in
  if json_falsy r then Ok []
  else match r with
       | JObj f => Ok f
       | _ => Err "generation_context_invalid: recipient snapshot is malformed"
       end.

Definition prepare (db : Db) (claim : ClaimedDispatch) (d : ExternalDispatch)
    : result string GPrepared :=
  '(snap, value_prop) ←
    match ed_grounding_context d with
    | Some (JObj f) =>
        match jget "value_prop" f with
        | JStr (String _ _ as v) => Ok (f, v)
        | _ => Err "generation_context_missing: dispatch has no usable grounding snapshot"
        end
    | _ => Err "generation_context_missing: dispatch has no usable grounding snapshot"
    end;
  recipient ← recipient_fields snap;
  campaign ← match select_first (λ c, (cp_id c == ed_campaign_id d)
                                      && (cp_organization_id c == Some (ed_organization_id d)))
                     (campaigns db) with
             | Some c => Ok c
             | None => Err "tenant_mismatch: campaign not found for this organization"
             end;
  contact ← match select_first (λ c, (ct_id c == ed_contact_id d)
                                     && (ct_campaign_id c == cp_id campaign)) (contacts db) with
            | Some c => Ok c
            | None => Err "tenant_mismatch: contact does not belong to the dispatch's campaign"
            end;
  reply_parent ← valid_reply_parent (jget "reply_parent" snap);
  mret (mkGPrepared claim (ct_id contact) (ct_email contact)
          (cp_sender_name campaign) (cp_sender_org campaign) (cp_sender_email campaign)
          (cp_sender_title campaign) (cp_tone campaign) value_prop
          (jget "context_notes" snap) (jget "conversation_transcript" snap)
          (jget "name" recipient) (jget "title" recipient) (jget "company" recipient)
          reply_parent).

(** ** Transaction G1 *)

Record GEnv := mkGEnv {
  ge_session : Session;
  ge_utcnow : Z;
  ge_stop_before_claim : bool;
  ge_stop_before_commit : bool;
  ge_fault : db_fault
}.

Inductive g1_result :=
  | GNone
  | GDone (r : GenerationResult)
  | GReady (p : GPrepared)
  | GRaised.

Definition transaction_g1 (worker_id : string) (env : GEnv) (db : Db) : Db * g1_result :=
  if ge_stop_before_claim env then (db, GNone)
  else
    match ge_fault env with
    | FaultInClaim => (db, GRaised)
    | fault =>
        let '(db1, claimed) :=
          claim_next_generation_dispatch (ge_session env) worker_id None (ge_utcnow env) db in
        match claimed with
        | None => (db, GNone)
        | Some claim =>
            match get (cl_dispatch_id claim) (dispatches db1) with
            | None => (db, GRaised)
            | Some d =>
                let '(db2, r) :=
                  match prepare db1 claim d with
                  | Err refusal =>
                      let '(db2, won) := fail_generation claim refusal (ge_utcnow env) db1 in
                      (db2, GDone (mkGenResult (cl_dispatch_id claim) (cl_organization_id claim)
                                     "failed" (Some refusal) won))
                  | Ok p => if ge_stop_before_commit env then (db, GNone) else (db1, GReady p)
                  end in
                match r, fault with
                | GNone, _ => (db, GNone)
                | _, FaultRolledBack => (db, GRaised)
                | _, FaultAfterCommit => (db2, GRaised)
                | _, _ => (db2, r)
                end
            end
        end
    end.

(** ** The draft *)

Definition draft_request (p : GPrepared) : DraftRequest :=
  mkDraftRequest (gp_value_prop p) (gp_sender_name p) (gp_sender_org p) (gp_sender_email p)
    (gp_sender_title p) (gp_tone p) (gp_recipient_name p) (gp_email p) (gp_recipient_title p)
    (gp_recipient_company p) (gp_context_notes p)
    (if is_not_none (gp_reply_parent p) then "reply" else "initial_outreach")
    (gp_transcript p)
    (if is_not_none (gp_reply_parent p) then Some REPLY_OBJECTIVE else None).

(** [_generate]: the draft, or the reason it cannot be used. *)
Definition generate `{Drafter} (p : GPrepared) : result string Draft :=
  match draft_message (draft_request p) with
  | Err e => Err ("generation_failed: " +:+ type_name (exn_cls e))
  | Ok draft =>
      match df_grounding draft with
      | None => Err "generation_grounding_blocked: no grounding result"
      | Some g => if hard_block g
                  then Err ("generation_grounding_blocked: " +:+ validation_notes g)
                  else Ok draft
      end
  end.

(** ** Transaction G2 *)

Definition TXN_G2_ATTEMPTS : nat := 3.

Definition json_text (j : json) : option (option string) :=
  match j with JNull => Some None | JStr s => Some (Some s) | _ => None end.

(** The message of a draft; [None] when a reply's stored References value is
    not text, which the INSERT rejects. *)
Definition generated_message (p : GPrepared) (draft : Draft) (created_at : Z) (reference : string)
    : option (Z → Message) :=
  match gp_reply_parent p with
  | None => Some (create_authorized_message (gp_contact_id p) (df_subject draft) (df_body draft)
                    created_at reference)
  | Some rp =>
      refs ← json_text (rp_references_header rp);
      Some (λ id, set_msg_references_header refs
                    (set_msg_in_reply_to_header (Some (rp_in_reply_to_header rp))
                       (set_msg_subject (Some (rp_subject rp))
                          (set_msg_message_type (Some MT_REPLY)
                             (create_authorized_message (gp_contact_id p) (df_subject draft)
                                (df_body draft) created_at reference id)))))
  end.

(** One attempt before its commit: [None] is an [SQLAlchemyError]. *)
Definition g2_once (p : GPrepared) (outcome : result string Draft) (utcnow : Z) (reference : string)
    (db : Db) : option (Db * bool) :=
  match outcome with
  | Err failure => Some (fail_generation (gp_claim p) failure utcnow db)
  | Ok draft =>
      mk ← generated_message p draft utcnow reference;
      match insert_unique message_clash "uq_messages" mk (messages db) with
      | Err _ => None
      | Ok (message, t) =>
          Some (complete_generation (gp_claim p) (msg_id message) utcnow (set_messages t db))
      end
  end.

(** [references k] is the fresh handle the [k]-th attempt's INSERT draws. *)
Fixpoint g2_attempts (n k : nat) (faults : nat → c_fault) (references : nat → string)
    (p : GPrepared) (outcome : result string Draft) (utcnow : Z) (db : Db) : Db * option bool :=
  match n with
  | O => (db, None)
  | S m =>
      match g2_once p outcome utcnow (references k) db with
      | None => g2_attempts m (S k) faults references p outcome utcnow db
      | Some (_, false) => (db, Some false)
      | Some (db', true) =>
          match faults k with
          | CCommitted => (db', Some true)
          | CRolledBack => g2_attempts m (S k) faults references p outcome utcnow db
          | CCommitLost => g2_attempts m (S k) faults references p outcome utcnow db'
          end
      end
  end.

Definition transaction_g2 (faults : nat → c_fault) (references : nat → string) (p : GPrepared)
    (outcome : result string Draft) (utcnow : Z) (db : Db) : Db * option bool :=
  g2_attempts TXN_G2_ATTEMPTS 0 faults references p outcome utcnow db.

(** ** Entry points *)

Record GProcEnv := mkGProcEnv {
  gpe_g1 : GEnv;
  gpe_faults : nat → c_fault;
  gpe_references : nat → string;
  gpe_utcnow : Z
}.

Inductive gen_result :=
  | GenNone
  | GenResult (r : GenerationResult)
  | GenRaised.

Definition failure_of (outcome : result string Draft) : option string :=
  match outcome with Ok _ => None | Err f => Some f end.

Definition generation_report (p : GPrepared) (outcome : result string Draft) (written : option bool)
    : GenerationResult :=
  let claim := gp_claim p in
  match written with
  | Some true =>
      mkGenResult (cl_dispatch_id claim) (cl_organization_id claim)
        (if truthy (failure_of outcome) then "failed" else "generated")
        (if truthy (failure_of outcome) then failure_of outcome else None) true
  | _ => mkGenResult (cl_dispatch_id claim) (cl_organization_id claim) "lease_lost"
           (failure_of outcome) false
  end.

Definition process_next_generation `{Drafter} (worker_id : string) (env : GProcEnv) (db : Db)
    : Db * gen_result :=
  let '(db1, r) := transaction_g1 worker_id (gpe_g1 env) db in
  match r with
  | GNone => (db1, GenNone)
  | GDone res => (db1, GenResult res)
  | GRaised => (db1, GenRaised)
  | GReady p =>
      let outcome := generate p in
      let '(db2, written) :=
        transaction_g2 (gpe_faults env) (gpe_references env) p outcome (gpe_utcnow env) db1 in
      (db2, GenResult (generation_report p outcome written))
  end.

(** One cycle; [stops k] is [runtime.stopping] before iteration [k]. *)
Fixpoint generation_loop `{Drafter} (worker_id : string) (n k : nat) (envs : nat → GProcEnv)
    (stops : nat → bool) (db : Db) : Db * list GenerationResult * bool :=
  match n with
  | O => (db, [], false)
  | S n' =>
      if stops k then (db, [], false)
      else
        let '(db1, r) := process_next_generation worker_id (envs k) db in
        match r with
        | GenRaised => (db1, [], true)
        | GenNone => (db1, [], false)
        | GenResult res =>
            let '(db2, rs, aborted) := generation_loop worker_id n' (S k) envs stops db1 in
            (db2, res :: rs, aborted)
        end
  end.

Definition run_generation_cycle `{Drafter} (settings : Settings) (worker_id : string)
    (max_items : option Z) (envs : nat → GProcEnv) (stops : nat → bool) (db : Db)
    : Db * list GenerationResult * bool :=
  generation_loop worker_id
    (Z.to_nat (default (external_dispatch_max_per_cycle settings) max_items)) 0 envs stops db.

Definition run_generation_lease_recovery (s : Session) (settings : Settings) (fault : c_fault)
    (utcnow : Z) (db : Db) : Db * nat :=
  let '(db', recovered) := recover_expired_generations s settings None None 100 utcnow db in
  match fault with
  | CCommitted => (db', length recovered)
  | CRolledBack => (db, O)
  | CCommitLost => (db', O)
  end.

(** ** Facts *)

Lemma generated_message_id p draft u ref mk : generated_message p draft u ref = Some mk →
  ∀ i, row_id (mk i) = i.
Proof.
  unfold generated_message. destruct (gp_reply_parent p) as [rp|].
  - destruct (json_text _); cbn; [|done]. by intros [= <-].
  - by intros [= <-].
Qed.

(** The two effects a successful attempt can have. *)
Lemma g2_once_inv p outcome u ref db db' won :
  table_wf (dispatches db) → table_wf (messages db) →
  g2_once p outcome u ref db = Some (db', won) →
  (won = false ∧ ∀ d, get (cl_dispatch_id (gp_claim p)) (dispatches db) = Some d →
                   generation_fence (gp_claim p) d = false) ∨
  (won = true ∧ table_wf (dispatches db') ∧ table_wf (messages db') ∧
   ∃ d, get (cl_dispatch_id (gp_claim p)) (dispatches db) = Some d ∧
     generation_fence (gp_claim p) d = true ∧
     (∀ j, j ≠ cl_dispatch_id (gp_claim p) → get j (dispatches db') = get j (dispatches db)) ∧
     db' = set_messages (messages db') (set_dispatches (dispatches db') db) ∧
     match outcome with
     | Err failure =>
         messages db' = messages db ∧
         get (cl_dispatch_id (gp_claim p)) (dispatches db') = Some (finished FAILED (Some failure) u d)
     | Ok draft =>
         ∃ mk, generated_message p draft u ref = Some mk ∧
           messages db' = snd (insert_row mk (messages db)) ∧
           get (cl_dispatch_id (gp_claim p)) (dispatches db')
             = Some (set_ed_message_id (Some (next_id (messages db))) (mark_released QUEUED u d))
     end).
Proof.
  intros Hd Hm. unfold g2_once. destruct outcome as [draft|failure].
  - destruct (generated_message p draft u ref) as [mk|] eqn:Emk; cbn [mbind option_bind]; [|done].
    pose proof (generated_message_id _ _ _ _ _ Emk) as Hid.
    destruct (insert_unique _ _ _ _) as [[m t]|] eqn:Ei; [|done]. intros E0.
    assert (complete_generation (gp_claim p) (msg_id m) u (set_messages t db) = (db', won)) as E
      by congruence. clear E0.
    apply insert_unique_Ok in Ei as [_ Ei].
    assert (t = snd (insert_row mk (messages db)) ∧ m = mk (next_id (messages db))) as [Ht ->]
      by (by rewrite <- Ei; injection Ei as -> ->).
    assert (table_wf t) as Htw by (rewrite Ht; by apply insert_row_wf).
    change (msg_id (mk (next_id (messages db)))) with (row_id (mk (next_id (messages db)))) in E.
    rewrite Hid in E.
    apply exec_update_inv in E as [(-> & Hwf' & Hdb & d & Hg & Hf & Hg' & Hne)|(-> & -> & Hno)];
      [| |done|done].
    + right. assert (messages db' = t) as Hmt by by rewrite Hdb.
      split_and!; [done|done|by rewrite Hmt|]. exists d. split_and!; try done.
      * rewrite Hdb. by destruct db.
      * exists mk. split_and!; [done|by rewrite Hmt|done].
    + left. done.
  - intros E0. assert (fail_generation (gp_claim p) failure u db = (db', won)) as E
      by congruence. clear E0.
    apply exec_update_inv in E as [(-> & Hwf' & Hdb & d & Hg & Hf & Hg' & Hne)|(-> & -> & Hno)];
      [| |done|done].
    + right. assert (messages db' = messages db) as Hmm by by rewrite Hdb.
      split_and!; [done|done|by rewrite Hmm|]. exists d. split_and!; try done.
      rewrite Hdb. by destruct db.
    + left. done.
Qed.

(** After a successful attempt the fence no longer matches. *)
Lemma g2_once_consumes p outcome u ref db db' :
  table_wf (dispatches db) → table_wf (messages db) →
  g2_once p outcome u ref db = Some (db', true) →
  ∀ d, get (cl_dispatch_id (gp_claim p)) (dispatches db') = Some d →
       generation_fence (gp_claim p) d = false.
Proof.
  intros Hd Hm [[? _]|(_ & _ & _ & d & _ & _ & _ & _ & Ho)]%g2_once_inv d' Hg'; [done| |done..].
  assert (ed_state d' ≠ GENERATING) as Hs.
  { destruct outcome; [destruct Ho as (mk & _ & _ & Ho)|destruct Ho as [_ Ho]];
      rewrite Ho in Hg'; by injection Hg' as <-. }
  unfold generation_fence, owns. rewrite (bool_decide_eq_false_2 _ Hs).
  by rewrite andb_false_r.
Qed.

(** With the fence lost, Transaction G2 writes nothing. *)
Lemma g2_lost faults refs p outcome u db : ∀ n k db' w,
  table_wf (dispatches db) → table_wf (messages db) →
  (∀ d, get (cl_dispatch_id (gp_claim p)) (dispatches db) = Some d →
        generation_fence (gp_claim p) d = false) →
  g2_attempts n k faults refs p outcome u db = (db', w) → db' = db ∧ w ≠ Some true.
Proof.
  intros n. induction n as [|n IH]; intros k db' w Hd Hm Hlost; cbn; [by intros [= <- <-]|].
  destruct (g2_once p outcome u (refs k) db) as [[db1 [|]]|] eqn:E.
  - exfalso. apply g2_once_inv in E as [[? _]|(_ & _ & _ & d & Hg & Hf & _)]; [done| |done..].
    by rewrite (Hlost d Hg) in Hf.
  - by intros [= <- <-].
  - by apply IH.
Qed.

Lemma transaction_g2_once faults refs p outcome u db db' w :
  table_wf (dispatches db) → table_wf (messages db) →
  transaction_g2 faults refs p outcome u db = (db', w) →
  (db' = db ∧ w ≠ Some true) ∨ ∃ k, g2_once p outcome u (refs k) db = Some (db', true).
Proof.
  intros Hd Hm. unfold transaction_g2. generalize 0%nat as k. generalize TXN_G2_ATTEMPTS as n.
  intros n. induction n as [|n IH]; intros k; cbn; [intros [= <- <-]; by left|].
  destruct (g2_once p outcome u (refs k) db) as [[db1 [|]]|] eqn:E.
  - destruct (faults k); [intros [= <- <-]; eauto|by apply IH|]. intros Hc. right. exists k.
    assert (table_wf (dispatches db1) ∧ table_wf (messages db1)) as [Hd1 Hm1].
    { pose proof E as E'. apply g2_once_inv in E' as [[? _]|(_ & ? & ? & _)]; done. }
    apply g2_lost in Hc as [-> _]; try done.
    exact (g2_once_consumes _ _ _ _ _ _ Hd Hm E).
  - intros [= <- <-]. by left.
  - by apply IH.
Qed.

Lemma g2_once_evolves p outcome u ref db db' :
  table_wf (dispatches db) → table_wf (messages db) →
  g2_once p outcome u ref db = Some (db', true) → evolves db db'.
Proof.
  intros Hd Hm [[? _]|(_ & Hwf' & _ & d & Hg & Hf & Hne & _ & Ho)]%g2_once_inv; [done| |done..].
  unfold generation_fence in Hf. apply andb_prop in Hf as [Hown Hnone]. bools.
  apply owns_spec in Hown as (_ & Hs & _).
  destruct outcome; [destruct Ho as (mk & _ & _ & Ho)|destruct Ho as [_ Ho]].
  - by eapply evolves_one; eauto using ds_generated.
  - by eapply evolves_one; eauto using ds_generation_failed.
Qed.

Lemma transaction_g2_evolves faults refs p outcome u db db' w :
  table_wf (dispatches db) → table_wf (messages db) →
  transaction_g2 faults refs p outcome u db = (db', w) → evolves db db'.
Proof.
  intros Hd Hm [[-> _]|[k Hk]]%transaction_g2_once; [done| |done..].
  exact (g2_once_evolves _ _ _ _ _ _ Hd Hm Hk).
Qed.

Lemma transaction_g1_inv w env db db' r :
  transaction_g1 w env db = (db', r) →
  (db' = db ∧ (r = GNone ∨ r = GRaised)) ∨
  ∃ c db1 d,
    claim_next_generation_dispatch (ge_session env) w None (ge_utcnow env) db = (db1, Some c) ∧
    get (cl_dispatch_id c) (dispatches db1) = Some d ∧
    ((∃ refusal, prepare db1 c d = Err refusal ∧
        db' = fst (fail_generation c refusal (ge_utcnow env) db1) ∧
        (r = GDone (mkGenResult (cl_dispatch_id c) (cl_organization_id c) "failed" (Some refusal)
                      (snd (fail_generation c refusal (ge_utcnow env) db1))) ∨ r = GRaised))
     ∨ (∃ p, prepare db1 c d = Ok p ∧ db' = db1 ∧ (r = GReady p ∨ r = GRaised))).
Proof.
  unfold transaction_g1. destruct (ge_stop_before_claim env); [intros [= <- <-]; by auto|].
  destruct (ge_fault env); [|intros [= <- <-]; by auto| |].
  all: destruct (claim_next_generation_dispatch _ _ _ _ db) as [db1 [c|]] eqn:Ec;
    [|intros [= <- <-]; by auto].
  all: destruct (get _ _) as [d|] eqn:Eg; [|intros [= <- <-]; by auto].
  all: destruct (prepare db1 c d) as [p|refusal] eqn:Ep;
    [destruct (ge_stop_before_commit env)
    |destruct (fail_generation _ _ _ _) as [db2 won] eqn:Ef]; intros [= <- <-]; try by auto.
  all: right; exists c, db1, d; (split; [done|]); (split; [done|]).
  all: first [left; exists refusal; rewrite Ef; by auto|right; exists p; by auto].
Qed.

Lemma transaction_g1_evolves w env db db' r :
  table_wf (dispatches db) → transaction_g1 w env db = (db', r) → evolves db db'.
Proof.
  intros Hwf [[-> _]|(c & db1 & d & Hc & Hg & Hcase)]%transaction_g1_inv; [done|].
  pose proof (claim_generation_evolves _ _ Hwf _ _ _ _ _ Hc) as Hev. etrans; [exact Hev|].
  destruct Hcase as [(refusal & _ & -> & _)|(p & _ & -> & _)]; [|done].
  destruct (fail_generation _ _ _ _) as [x y] eqn:Ef. eapply fail_generation_evolves; [|exact Ef].
  by apply Hev.
Qed.

(** ** Theorems *)

(** Generation creates at most one message per dispatch, and only under the
    claim's fence.  Whatever faults strike the three attempts of
    Transaction G2, either the database is unchanged (and the write is not
    reported as done), or exactly one message was inserted and attached to
    the still-owned dispatch, which is queued for sending; a failure leaves
    no message behind. *)
Theorem generation_attaches_one_message faults refs p outcome u db db' w :
  table_wf (dispatches db) → table_wf (messages db) →
  transaction_g2 faults refs p outcome u db = (db', w) →
  (db' = db ∧ w ≠ Some true) ∨
  ∃ d d', get (cl_dispatch_id (gp_claim p)) (dispatches db) = Some d ∧
    generation_fence (gp_claim p) d = true ∧
    get (cl_dispatch_id (gp_claim p)) (dispatches db') = Some d' ∧ same_identity d d' ∧
    (∀ j, j ≠ cl_dispatch_id (gp_claim p) → get j (dispatches db') = get j (dispatches db)) ∧
    match outcome with
    | Err failure => messages db' = messages db ∧ ed_state d' = FAILED ∧
                     ed_error_message d' = Some failure ∧ ed_message_id d' = None
    | Ok draft => ∃ m, rows (messages db') = rows (messages db) ++ [m] ∧
                    ed_state d' = QUEUED ∧ ed_message_id d' = Some (msg_id m) ∧
                    msg_status m = MS_DRAFT ∧ msg_body m = df_body draft ∧
                    msg_contact_id m = gp_contact_id p
    end.
Proof.
  intros Hd Hm [Hn|[k Hk]]%transaction_g2_once; [by left| |done..]. right.
  apply g2_once_inv in Hk as [[? _]|(_ & _ & _ & d & Hg & Hf & Hne & _ & Ho)]; [done| |done..].
  assert (ed_message_id d = None) as Hnone
    by (apply andb_prop in Hf as [_ Hn]; by apply is_none_true).
  destruct outcome as [draft|failure].
  - destruct Ho as (mk & Hmk & Hmsg & Hg'). exists d. eexists. split_and!; [done..|].
    exists (mk (next_id (messages db))). pose proof (generated_message_id _ _ _ _ _ Hmk) as Hid.
    assert (msg_id (mk (next_id (messages db))) = next_id (messages db)) as -> by apply Hid.
    rewrite Hmsg. split_and!; [done..| | |]; revert Hmk; unfold generated_message;
      (destruct (gp_reply_parent p) as [rp|];
       [destruct (json_text _); cbn; [|done]|]; by intros [= <-]).
  - destruct Ho as [Hmsg Hg']. exists d. eexists. by split_and!.
Qed.

(** The subject and threading headers of a generated reply are the stored
    parent's, never the model's; an initial outreach carries the draft's
    subject and no threading headers. *)
Theorem generated_message_headers p draft u ref mk i :
  generated_message p draft u ref = Some mk →
  match gp_reply_parent p with
  | Some rp => msg_subject (mk i) = Some (rp_subject rp) ∧
               msg_in_reply_to_header (mk i) = Some (rp_in_reply_to_header rp) ∧
               json_text (rp_references_header rp) = Some (msg_references_header (mk i)) ∧
               msg_message_type (mk i) = Some MT_REPLY
  | None => msg_subject (mk i) = df_subject draft ∧ msg_in_reply_to_header (mk i) = None ∧
            msg_references_header (mk i) = None ∧ msg_message_type (mk i) = Some MT_INITIAL
  end.
Proof.
  unfold generated_message. destruct (gp_reply_parent p) as [rp|].
  - destruct (json_text (rp_references_header rp)); cbn; [|done]. by intros [= <-].
  - by intros [= <-].
Qed.

(** Only a grounded draft becomes a message.  When the worker reports
    "generated", the drafting agent returned a draft whose grounding result
    exists and is not a hard block. *)
Theorem generated_draft_is_grounded `{Drafter} p draft :
  generate p = Ok draft →
  draft_message (draft_request p) = Ok draft ∧
  ∃ g, df_grounding draft = Some g ∧ hard_block g = false.
Proof.
  unfold generate. destruct (draft_message (draft_request p)) as [x|]; [|done].
  destruct (df_grounding x) as [g|] eqn:E; [|done]. destruct (hard_block g) eqn:Eh; [done|].
  intros [= ->]. eauto.
Qed.

(** *** Witnesses *)

Definition generation_claim : ClaimedDispatch := mkClaim 2 "acme" "w1" 100.
Definition sample_gprepared : GPrepared :=
  match prepare generating_db generation_claim generating_dispatch with
  | Ok p => p
  | Err _ => mkGPrepared generation_claim 0 "" "" "" "" None "" "" JNull JNull JNull JNull JNull None
  end.
Definition sample_draft : Draft := mkDraft (Some "Hi Bob") "We help teams." None.

Lemma generation_attaches_one_message_witness :
  ∃ db' m d', transaction_g2 (λ k, match k with O => CCommitLost | _ => CCommitted end) (λ k, match k with O => "g1" | _ => "g2" end)
      sample_gprepared (Ok sample_draft) 200 generating_db = (db', Some false) ∧
    rows (messages db') = rows (messages generating_db) ++ [m] ∧ msg_body m = "We help teams." ∧
    get 2 (dispatches db') = Some d' ∧ ed_message_id d' = Some (msg_id m).
Proof.
  destruct (transaction_g2 (λ k, match k with O => CCommitLost | _ => CCommitted end) (λ k, match k with O => "g1" | _ => "g2" end)
    sample_gprepared (Ok sample_draft) 200 generating_db) as [db' w] eqn:E.
  destruct (generation_attaches_one_message _ _ _ _ _ _ _ _ (wf_dispatches _ generating_db_wf)
    (wf_messages _ generating_db_wf) E) as [[-> _]|(d & d' & _ & _ & Hg' & _ & _ & m & Hm & _ & Hid & _ & Hb & _)].
  - exfalso. vm_compute in E. discriminate E.
  - assert (w = Some false) as -> by (vm_compute in E; injection E as _ <-; reflexivity).
    exists db', m, d'. split_and!; [reflexivity|exact Hm|exact Hb|exact Hg'|exact Hid].
Defined.
