(* ===== verification/WorkerStatus.v ===== *)
(** * Worker status ([src/mailer_agent/worker_status.py])

    Liveness rows and job-cycle outcomes that the scheduler processes write and
    the operator routes read: the counters a cycle may record, the buckets of
    inbound results, and the recorder of one process ([heartbeat],
    [mark_stopped], [record_cycle], [cleanup_stale_records]).

    The two tables are the state.  A method that meets a database error before
    its commit swallows it: [fault] says whether it does, and the tables are
    then as they were.  [race] is what another transaction commits between the
    reads of a heartbeat and its insert. *)

From S2P Require Import Prelude Sql Models Config Samples SemanticModels StateMachine Sender Regex Threading Grounding ExactMessage WorkClaiming Lifecycle Llm Memory Classifier Guardrails Scheduling FollowUp Inbound ExternalDispatchWorker GenerationWorker.

#[local] Open Scope bool_scope.

(** ** Vocabulary *)

Definition ROLE_SCHEDULER : string := "scheduler".

Definition KIND_EXTERNAL_DISPATCH : string := "external_dispatch".
Definition KIND_GENERATION : string := "generation".
Definition KIND_INBOUND_MAILBOX : string := "inbound_mailbox".
Definition KIND_INBOUND_LEGACY : string := "inbound_legacy".
Definition CYCLE_KINDS : list string :=
  [KIND_EXTERNAL_DISPATCH; KIND_GENERATION; KIND_INBOUND_MAILBOX; KIND_INBOUND_LEGACY].

Definition OUTCOME_COMPLETED : string := "completed".
Definition OUTCOME_DEGRADED : string := "degraded".
Definition OUTCOME_FAILED : string := "failed".
Definition OUTCOMES : list string := [OUTCOME_COMPLETED; OUTCOME_DEGRADED; OUTCOME_FAILED].

Definition BUCKET_PERSISTED : string := "persisted".
Definition BUCKET_DUPLICATE : string := "duplicate".
Definition BUCKET_UNMATCHED : string := "unmatched".
Definition BUCKET_AMBIGUOUS : string := "ambiguous".

Definition DISPATCH_KEYS : list string :=
  ["processed"; "smtp_attempted"; "smtp_accepted"; "failed"; "unknown"; "outcome_not_persisted"].
Definition GENERATION_KEYS : list string := ["processed"; "generated"; "failed"; "outcome_not_persisted"].
Definition MAILBOX_KEYS : list string :=
  ["mailboxes_listed"; "mailboxes_ok"; "mailboxes_skipped_ineligible";
   "mailboxes_credential_unavailable"; "mailboxes_imap_error"; "mailboxes_unexpected_error";
   "messages_marked_seen"; "messages_left_unseen";
   "handled_persisted"; "handled_duplicate"; "handled_unmatched"; "handled_ambiguous";
   "handled_unrecognized"; "classification_succeeded"; "classification_failed"].
Definition LEGACY_KEYS : list string :=
  ["emails_fetched"; "handler_failures";
   "handled_persisted"; "handled_duplicate"; "handled_unmatched"; "handled_unrecognized";
   "classification_succeeded"; "classification_failed"].
Definition COUNT_KEYS (kind : string) : list string :=
  if kind == KIND_EXTERNAL_DISPATCH then DISPATCH_KEYS
  else if kind == KIND_GENERATION then GENERATION_KEYS
  else if kind == KIND_INBOUND_MAILBOX then MAILBOX_KEYS
  else if kind == KIND_INBOUND_LEGACY then LEGACY_KEYS
  else [].

(** [_CLEANUP_EVERY], in microseconds. *)
Definition CLEANUP_EVERY : Z := seconds 3600.

(** ** Pure helpers *)

(** A dict of counters, in key order. *)
Definition Counts : Type := list (string * Z).
(** [Mapping[str, Any]]: what counters are passed and stored as. *)
Definition Mapping : Type := list (string * json).
Definition counts_json (c : Counts) : Mapping := map (λ x, (fst x, JInt (snd x))) c.
Definition count (k : string) (c : Counts) : Z := default 0 (assoc k c).

Definition safe_error_char (c : ascii) : bool :=
  let n := nat_of_ascii c in
  ((65 <=? n) && (n <=? 90) || (97 <=? n) && (n <=? 122) || (48 <=? n) && (n <=? 57) || (n =? 95) || (n =? 46))%nat.
Definition safe_error_type (value : option string) : option string :=
  match value with
  | None => None
  | Some name =>
      match take 64 (List.filter safe_error_char (String.list_ascii_of_string name)) with
      | [] => None
      | l => Some (String.string_of_list_ascii l)
      end
  end.

(** A value that counts; anything else is 0. *)
Definition clean_value (v : option json) : Z :=
  match v with Some (JInt n) => if 0 <=? n then n else 0 | _ => 0 end.
Definition clean_counts (kind : string) (counts : option Mapping) : Counts :=
  map (λ key, (key, clean_value (match counts with Some fields => assoc key fields | None => None end)))
    (COUNT_KEYS kind).

Definition classify_inbound_result (r : InboundResult) : string :=
  if rs_action r == Some "skipped_duplicate" then BUCKET_DUPLICATE
  else if rs_matched r then BUCKET_PERSISTED
  else if rs_reason r == Some "ambiguous" then BUCKET_AMBIGUOUS else BUCKET_UNMATCHED.

Definition classification_flag (r : InboundResult) : option bool :=
  if classify_inbound_result r != BUCKET_PERSISTED then None else rs_classification_success r.

(** Number of the results with a property, as a counter. *)
Definition tally {A} (p : A → bool) (l : list A) : Z := Z.of_nat (length (List.filter p l)).

Definition summarize_dispatch_results (results : list DispatchResult) : Counts :=
  [("processed", tally (λ _, true) results);
   ("smtp_attempted", tally dr_smtp_attempted results);
   ("smtp_accepted", tally (λ r, dr_outcome r == "sent") results);
   ("failed", tally (λ r, dr_outcome r == "failed") results);
   ("unknown", tally (λ r, dr_outcome r == "unknown") results);
   ("outcome_not_persisted", tally (λ r, negb (dr_persisted r)) results)].

Definition summarize_generation_results (results : list GenerationResult) : Counts :=
  [("processed", tally (λ _, true) results);
   ("generated", tally (λ r, gr_outcome r == "generated") results);
   ("failed", tally (λ r, gr_outcome r == "failed") results);
   ("outcome_not_persisted", tally (λ r, negb (gr_persisted r)) results)].

(** ** The tables *)

Record WorkerRuntimeStatus := mkRuntimeStatus {
  wr_id : Z;
  wr_instance_id : string;
  wr_role : string;
  wr_started_at : Z;
  wr_heartbeat_at : Z;
  wr_stopped_at : option Z
}.
#[global] Instance WorkerRuntimeStatus_row : Row WorkerRuntimeStatus := wr_id.
Definition set_wr_heartbeat_at (v : Z) (r : WorkerRuntimeStatus) : WorkerRuntimeStatus :=
  mkRuntimeStatus (wr_id r) (wr_instance_id r) (wr_role r) (wr_started_at r) v (wr_stopped_at r).
Definition set_wr_stopped_at (v : option Z) (r : WorkerRuntimeStatus) : WorkerRuntimeStatus :=
  mkRuntimeStatus (wr_id r) (wr_instance_id r) (wr_role r) (wr_started_at r) (wr_heartbeat_at r) v.

Record WorkerCycleStatus := mkCycleStatus {
  wc_id : Z;
  wc_instance_id : string;
  wc_kind : string;
  wc_last_cycle_at : Z;
  wc_last_outcome : string;
  wc_last_completed_at : option Z;
  wc_consecutive_unhealthy_cycles : Z;
  wc_cycles_recorded : Z;
  wc_last_error_type : option string;
  wc_last_counts : option Mapping;
  wc_total_counts : option Mapping
}.
#[global] Instance WorkerCycleStatus_row : Row WorkerCycleStatus := wc_id.

Record StatusDb := mkStatusDb { runtimes : table WorkerRuntimeStatus; cycles : table WorkerCycleStatus }.

Definition runtime_clash (n r : WorkerRuntimeStatus) : bool := wr_instance_id n == wr_instance_id r.

(** [DELETE ... WHERE p]: the table and [rowcount]. *)
Definition delete_where {A} (p : A → bool) (t : table A) : table A * nat :=
  (Table (List.filter (λ r, negb (p r)) (rows t)) (next_id t), length (List.filter p (rows t))).

(** ** The recorder of one process *)

Record WorkerStatusRecorder := mkRecorder {
  rc_instance_id : string;
  rc_role : string;
  rc_started_at : Z;
  rc_retention_hours : Z;
  rc_stopped : bool;
  rc_last_cleanup : option Z
}.

(** [_ROLE_RE]: [^[a-z][a-z0-9_]{0,31}$]; [$] also matches before a final newline. *)
Definition role_char (c : ascii) : bool :=
  let n := nat_of_ascii c in
  ((97 <=? n) && (n <=? 122) || (48 <=? n) && (n <=? 57) || (n =? 95))%nat.
Definition valid_role (role : string) : bool :=
  let body l :=
    match l with
    | c :: r => let n := nat_of_ascii c in
                ((97 <=? n) && (n <=? 122))%nat && forallb role_char r && (length r <=? 31)%nat
    | [] => false
    end in
  let l := String.list_ascii_of_string role in
  body l || match rev l with c :: r => (nat_of_ascii c =? 10)%nat && body (rev r) | [] => false end.

Definition new_recorder (role instance_id : string) (settings : Settings) (utcnow : Z) : WorkerStatusRecorder :=
  mkRecorder instance_id (if valid_role role then role else ROLE_SCHEDULER) utcnow
    (worker_runtime_retention_hours settings) false None.

Definition own_live (rc : WorkerStatusRecorder) (r : WorkerRuntimeStatus) : bool :=
  (wr_instance_id r == rc_instance_id rc) && is_none (wr_stopped_at r).
Definition own_row_exists (rc : WorkerStatusRecorder) (db : StatusDb) : bool :=
  is_not_none (select_first (λ r, wr_instance_id r == rc_instance_id rc) (runtimes db)).

(** The conditional UPDATE of a heartbeat. *)
Definition beat (rc : WorkerStatusRecorder) (now : Z) (db : StatusDb) : StatusDb * nat :=
  let '(t, n) := update_where (own_live rc) (set_wr_heartbeat_at now) (runtimes db) in
  (mkStatusDb t (cycles db), n).

Definition cleanup_stale_records (rc : WorkerStatusRecorder) (now : Z) (db : StatusDb) : StatusDb * nat :=
  let cutoff := now - seconds (3600 * rc_retention_hours rc) in
  let stale r := (wr_heartbeat_at r <? cutoff) && (wr_instance_id r != rc_instance_id rc) in
  let dead := map wr_instance_id (select stale (runtimes db)) in
  let cs := fst (delete_where (λ c, in_list (wc_instance_id c) dead) (cycles db)) in
  let '(rt, removed) := delete_where stale (runtimes db) in
  let known := map wr_instance_id (rows rt) in
  let cs := fst (delete_where (λ c, (wc_last_cycle_at c <? cutoff) && (wc_instance_id c != rc_instance_id rc)
                                    && negb (in_list (wc_instance_id c) known)) cs) in
  (mkStatusDb rt cs, removed).

(** [fault_cleanup]: the housekeeping meets an error, which is swallowed too. *)
Definition maybe_cleanup (fault_cleanup : bool) (rc : WorkerStatusRecorder) (now : Z) (db : StatusDb)
    : WorkerStatusRecorder * StatusDb :=
  if match rc_last_cleanup rc with Some t => now - t <? CLEANUP_EVERY | None => false end then (rc, db)
  else
    (mkRecorder (rc_instance_id rc) (rc_role rc) (rc_started_at rc) (rc_retention_hours rc) (rc_stopped rc) (Some now),
     if fault_cleanup then db else fst (cleanup_stale_records rc now db)).

Definition heartbeat (fault fault_cleanup : bool) (race : StatusDb → StatusDb) (now : Z)
    (rc : WorkerStatusRecorder) (db : StatusDb) : WorkerStatusRecorder * StatusDb * bool :=
  if rc_stopped rc then (rc, db, false)
  else if fault then (rc, db, false)
  else
    let done db := let '(rc, db) := maybe_cleanup fault_cleanup rc now db in (rc, db, true) in
    match beat rc now db with
    | (db', S _) => done db'
    | (db', O) =>
        if own_row_exists rc db' then done db'
        else
          let db' := race db' in
          let mk i := mkRuntimeStatus i (rc_instance_id rc) (rc_role rc) (rc_started_at rc) now None in
          match insert_unique runtime_clash "uq_worker_runtime_status_instance_id" mk (runtimes db') with
          | Ok (_, t) => done (mkStatusDb t (cycles db'))
          | Err _ =>
              if own_row_exists rc db' then done (fst (beat rc now db')) else (rc, db', false)
          end
    end.

Definition mark_stopped (fault : bool) (now : Z) (rc : WorkerStatusRecorder) (db : StatusDb)
    : WorkerStatusRecorder * StatusDb * bool :=
  let rc := mkRecorder (rc_instance_id rc) (rc_role rc) (rc_started_at rc) (rc_retention_hours rc) true
              (rc_last_cleanup rc) in
  if fault then (rc, db, false)
  else (rc, mkStatusDb (fst (update_where (own_live rc) (set_wr_stopped_at (Some now)) (runtimes db))) (cycles db),
        true).

(** [totals[key] += value] over the cleaned counters. *)
Definition add_counts (totals clean : Counts) : Counts :=
  map (λ x, (fst x, snd x + count (fst x) clean)) totals.

(** What a recorded cycle makes of the row. *)
Definition cycle_update (now : Z) (kind outcome : string) (clean : Counts) (error_type : option string)
    (r : WorkerCycleStatus) : WorkerCycleStatus :=
  let completed := outcome == OUTCOME_COMPLETED in
  mkCycleStatus (wc_id r) (wc_instance_id r) (wc_kind r) now outcome
    (if completed then Some now else wc_last_completed_at r)
    (if completed then 0 else wc_consecutive_unhealthy_cycles r + 1)
    (wc_cycles_recorded r + 1)
    (if completed then None else safe_error_type error_type)
    (Some (counts_json clean))
    (Some (counts_json (add_counts (clean_counts kind (wc_total_counts r)) clean))).

Definition record_cycle (fault : bool) (now : Z) (rc : WorkerStatusRecorder) (kind outcome : string)
    (counts : option Mapping) (error_type : option string) (db : StatusDb) : StatusDb * bool :=
  if negb (in_list kind CYCLE_KINDS) || negb (in_list outcome OUTCOMES) then (db, false)
  else if fault then (db, false)
  else
    let clean := clean_counts kind counts in
    let upd := cycle_update now kind outcome clean error_type in
    match select (λ c, (wc_instance_id c == rc_instance_id rc) && (wc_kind c == kind)) (cycles db) with
    | [] =>
        let mk i := upd (mkCycleStatus i (rc_instance_id rc) kind now outcome None 0 0 None None
                           (Some (counts_json (clean_counts kind None)))) in
        (mkStatusDb (runtimes db) (snd (insert_row mk (cycles db))), true)
    | [r] => (mkStatusDb (runtimes db) (fst (update_pk (wc_id r) (λ _, true) upd (cycles db))), true)
    | _ => (db, false)
    end.

(** ** Specification: what a row says about the history of its cycles *)

Record Cycle := mkCycle {
  cy_at : Z;
  cy_outcome : string;
  cy_counts : option Mapping;
  cy_error : option string
}.
Definition healthy (x : Cycle) : bool := cy_outcome x == OUTCOME_COMPLETED.

(** Number of leading cycles that did not complete. *)
Fixpoint unhealthy_prefix (l : list Cycle) : Z :=
  match l with [] => 0 | x :: r => if healthy x then 0 else 1 + unhealthy_prefix r end.

Definition counted (kind k : string) (x : Cycle) : Z := count k (clean_counts kind (cy_counts x)).
Definition total (kind k : string) (h : list Cycle) : Z := fold_right (λ x n, counted kind k x + n) 0 h.
Definition totals (kind : string) (h : list Cycle) : Counts := map (λ k, (k, total kind k h)) (COUNT_KEYS kind).

(** The row after the cycles [h], oldest first. *)
Record summarizes (instance_id kind : string) (h : list Cycle) (r : WorkerCycleStatus) : Prop := {
  sm_instance : wc_instance_id r = instance_id;
  sm_kind : wc_kind r = kind;
  sm_number : wc_cycles_recorded r = Z.of_nat (length h);
  sm_unhealthy : wc_consecutive_unhealthy_cycles r = unhealthy_prefix (rev h);
  sm_completed : wc_last_completed_at r = cy_at <$> List.find healthy (rev h);
  sm_totals : wc_total_counts r = Some (counts_json (totals kind h));
  sm_last : ∀ x, head (rev h) = Some x →
    wc_last_cycle_at r = cy_at x ∧ wc_last_outcome r = cy_outcome x ∧
    wc_last_counts r = Some (counts_json (clean_counts kind (cy_counts x))) ∧
    wc_last_error_type r = (if healthy x then None else safe_error_type (cy_error x))
}.

Definition run_cycles (rc : WorkerStatusRecorder) (kind : string) (h : list Cycle) (db : StatusDb) : StatusDb :=
  fold_left (λ db x, fst (record_cycle false (cy_at x) rc kind (cy_outcome x) (cy_counts x) (cy_error x) db)) h db.

(** ** Facts *)

Lemma assoc_map_keys {A} (f : string → A) keys k :
  k ∈ keys → assoc k (map (λ k, (k, f k)) keys) = Some (f k).
Proof.
  induction keys as [|x l IH]; [by intros ?%not_elem_of_nil|]. cbn.
  intros [->|Hk]%elem_of_cons; [by rewrite bool_decide_eq_true_2|].
  case_bool_decide; [by subst|auto].
Qed.

Lemma clean_value_nonneg v : 0 ≤ clean_value v.
Proof. unfold clean_value. repeat case_match; bools; lia. Qed.

Lemma counted_nonneg kind k x : 0 ≤ counted kind k x.
Proof.
  unfold counted, count, clean_counts. destruct (assoc k _) as [v|] eqn:E; cbn; [|lia].
  destruct (decide (k ∈ COUNT_KEYS kind)) as [Hin|Hn].
  - rewrite (assoc_map_keys (λ key, clean_value _)) in E by done. injection E as <-. apply clean_value_nonneg.
  - exfalso. revert E Hn. induction (COUNT_KEYS kind) as [|y l IH]; cbn; [done|].
    rewrite not_elem_of_cons. case_bool_decide; naive_solver.
Qed.

Lemma total_nonneg kind k h : 0 ≤ total kind k h.
Proof. unfold total. induction h as [|x h IH]; cbn [fold_right]; [lia|]. pose proof (counted_nonneg kind k x). lia. Qed.

Lemma total_snoc kind k h x : total kind k (h ++ [x]) = total kind k h + counted kind k x.
Proof. unfold total. induction h as [|y h IH]; cbn [app fold_right]; [lia|]. rewrite IH. lia. Qed.

(** Stored totals are read back as they are. *)
Lemma clean_totals kind h : clean_counts kind (Some (counts_json (totals kind h))) = totals kind h.
Proof.
  unfold clean_counts, totals, counts_json. apply map_ext_in. intros k Hk. f_equal.
  rewrite map_map. cbn [fst snd].
  rewrite (assoc_map_keys (λ k, JInt (total kind k h))) by by apply list_elem_of_In.
  cbn. pose proof (total_nonneg kind k h). by rewrite (proj2 (Z.leb_le _ _)).
Qed.

Lemma clean_none kind : clean_counts kind (Some (counts_json (clean_counts kind None))) = totals kind [].
Proof.
  change (clean_counts kind None) with (totals kind []). apply clean_totals.
Qed.

Lemma add_totals kind h x : add_counts (totals kind h) (clean_counts kind (cy_counts x)) = totals kind (h ++ [x]).
Proof.
  unfold add_counts, totals. rewrite map_map. apply map_ext. intros k. cbn. by rewrite total_snoc.
Qed.

Lemma cycle_update_summarizes instance_id kind h x r :
  summarizes instance_id kind h r →
  summarizes instance_id kind (h ++ [x]) (cycle_update (cy_at x) kind (cy_outcome x)
    (clean_counts kind (cy_counts x)) (cy_error x) r).
Proof.
  intros [Hi Hk Hn Hu Hc Ht _]. split; cbn.
  - done.
  - done.
  - rewrite length_app, Hn. cbn. lia.
  - rewrite rev_app_distr, Hu. cbn. unfold healthy. case_bool_decide; lia.
  - rewrite rev_app_distr, Hc. cbn. unfold healthy. by case_bool_decide.
  - by rewrite Ht, clean_totals, add_totals.
  - rewrite rev_app_distr. cbn. intros y [= <-]. done.
Qed.

Definition own_cycle (rc : WorkerStatusRecorder) (kind : string) (c : WorkerCycleStatus) : bool :=
  (wc_instance_id c == rc_instance_id rc) && (wc_kind c == kind).

Lemma filter_map_keep {A} (p : A → bool) (g : A → A) l :
  (∀ x, In x l → p (g x) = p x) → List.filter p (map g l) = map g (List.filter p l).
Proof.
  induction l as [|x l IH]; intros Hp; [done|]. cbn. rewrite Hp by by left.
  destruct (p x); cbn; rewrite IH; auto; intros; apply Hp; by right.
Qed.

Lemma select_update_pk {A} `{Row A} (p : A → bool) f (t : table A) r :
  table_wf t → select p t = [r] → p (f r) = true →
  select p (fst (update_pk (row_id r) (λ _, true) f t)) = [f r].
Proof.
  intros Hwf Hs Hf. assert (In r (rows t) ∧ p r = true) as [Hin Hp] by (apply select_In; rewrite Hs; by left).
  unfold select, update_pk, update_where in *. cbn [fst rows].
  rewrite filter_map_keep; [rewrite Hs; cbn; by rewrite Z.eqb_refl|].
  intros x Hx. rewrite andb_true_r. destruct (row_id x =? row_id r) eqn:E; [|done]. bools.
  by rewrite (table_wf_inj t x r Hwf Hx Hin E), Hf, Hp.
Qed.

(** One recorded cycle: the own row becomes the updated one, the rest stays. *)
Lemma record_cycle_row now rc kind outcome counts error db :
  in_list kind CYCLE_KINDS = true → in_list outcome OUTCOMES = true → table_wf (cycles db) →
  let '(db', ok) := record_cycle false now rc kind outcome counts error db in
  let upd := cycle_update now kind outcome (clean_counts kind counts) error in
  table_wf (cycles db') ∧ runtimes db' = runtimes db ∧
  (∀ c, own_cycle rc kind c = false → In c (rows (cycles db')) ↔ In c (rows (cycles db))) ∧
  match select (own_cycle rc kind) (cycles db) with
  | [] => ok = true ∧ select (own_cycle rc kind) (cycles db')
          = [upd (mkCycleStatus (next_id (cycles db)) (rc_instance_id rc) kind now outcome None 0 0 None None
                    (Some (counts_json (clean_counts kind None))))]
  | [r] => ok = true ∧ select (own_cycle rc kind) (cycles db') = [upd r]
  | _ => ok = false
  end.
Proof.
  intros Hk Ho Hwf. unfold record_cycle. rewrite Hk, Ho. cbn [negb orb].
  change (λ c, (wc_instance_id c == rc_instance_id rc) && (wc_kind c == kind)) with (own_cycle rc kind).
  assert (∀ c, wc_instance_id c = rc_instance_id rc → wc_kind c = kind → own_cycle rc kind c = true) as Hown.
  { intros c Hc1 Hc2. unfold own_cycle. by rewrite !bool_decide_eq_true_2. }
  destruct (select (own_cycle rc kind) (cycles db)) as [|r [|r2 l]] eqn:Es; cbn [cycles runtimes].
  - split_and!; [by apply insert_row_wf|done| |done|].
    + intros c Hc. rewrite insert_row_In. split; [|auto]. intros [?| ->]; [done|]. by rewrite Hown in Hc.
    + unfold select, insert_row in *. cbn [snd rows]. rewrite List.filter_app, Es. cbn. by rewrite Hown.
  - assert (In r (rows (cycles db)) ∧ own_cycle rc kind r = true) as [Hin Hr] by (apply select_In; rewrite Es; by left).
    assert (wc_instance_id r = rc_instance_id rc ∧ wc_kind r = kind) as [Hr1 Hr2].
    { unfold own_cycle in Hr. by bools. }
    split_and!; [by apply update_pk_wf|done| |done|].
    + intros c Hc. cbn. rewrite in_map_iff. setoid_rewrite andb_true_r. split.
      * intros (x & <- & Hx). destruct (row_id x =? wc_id r) eqn:E; [|done]. bools.
        assert (x = r) as -> by by eapply table_wf_inj. by rewrite Hown in Hc.
      * intros Hx. exists c. split; [|done]. destruct (row_id c =? wc_id r) eqn:E; [|done]. bools.
        assert (c = r) as -> by by eapply table_wf_inj. congruence.
    + apply (select_update_pk (own_cycle rc kind) _ (cycles db) r); [done|done|]. by apply Hown.
  - done.
Qed.

(** C20: the row an operator reads is the summary of the whole history.  After
    any sequence of recorded cycles of one kind, from a process that had none,
    there is exactly one row, and it equals the reference summary of that
    history: the number of cycles, the length of the current run of unhealthy
    ones, the time of the last completed one, the last outcome with its
    counters and sanitized error class, and totals that are the sums of the
    whitelisted, non-negative counters; rows of other processes and kinds are
    untouched. *)
Theorem cycle_row_summarizes_history rc kind h db :
  in_list kind CYCLE_KINDS = true → Forall (λ x, in_list (cy_outcome x) OUTCOMES = true) h →
  table_wf (cycles db) → select (own_cycle rc kind) (cycles db) = [] → h ≠ [] →
  (∃ r, select (own_cycle rc kind) (cycles (run_cycles rc kind h db)) = [r] ∧
        summarizes (rc_instance_id rc) kind h r) ∧
  runtimes (run_cycles rc kind h db) = runtimes db ∧
  ∀ c, own_cycle rc kind c = false →
    In c (rows (cycles (run_cycles rc kind h db))) ↔ In c (rows (cycles db)).
Proof.
  intros Hk Ho Hwf Hs Hne.
  assert (table_wf (cycles (run_cycles rc kind h db)) ∧ runtimes (run_cycles rc kind h db) = runtimes db ∧
    (∀ c, own_cycle rc kind c = false → In c (rows (cycles (run_cycles rc kind h db))) ↔ In c (rows (cycles db))) ∧
    match h with
    | [] => select (own_cycle rc kind) (cycles (run_cycles rc kind h db)) = []
    | _ => ∃ r, select (own_cycle rc kind) (cycles (run_cycles rc kind h db)) = [r] ∧
                summarizes (rc_instance_id rc) kind h r
    end) as (_ & Hr & Hc & Hh); [|by destruct h].
  clear Hne. induction h as [|x h IH] using rev_ind; [done|].
  apply Forall_app in Ho as [Ho Hx]. inversion Hx as [|? ? Hx' _]; subst. specialize (IH Ho).
  unfold run_cycles in *. rewrite fold_left_app. cbn [fold_left].
  set (db1 := fold_left _ h db) in *. destruct IH as (W & R & C & M).
  pose proof (record_cycle_row (cy_at x) rc kind (cy_outcome x) (cy_counts x) (cy_error x) db1 Hk Hx' W) as Hrow.
  destruct (record_cycle _ _ _ _ _ _ _ _) as [db2 ok]. cbn [fst]. cbv zeta in Hrow.
  destruct Hrow as (W2 & R2 & C2 & S2). split_and!; [done|congruence|intros c Hc; rewrite C2 by done; auto|].
  assert (∃ r, select (own_cycle rc kind) (cycles db2) = [r] ∧ summarizes (rc_instance_id rc) kind (h ++ [x]) r) as Hgoal.
  { destruct h as [|y h].
    - rewrite M in S2. destruct S2 as [_ S2]. eexists. split; [exact S2|].
      apply (cycle_update_summarizes (rc_instance_id rc) kind [] x). by split.
    - destruct M as (r & M & Hsum). rewrite M in S2. destruct S2 as [_ S2]. eexists. split; [exact S2|].
      by apply cycle_update_summarizes. }
  by destruct h.
Qed.

(** ** Liveness rows *)

Definition own (rc : WorkerStatusRecorder) (r : WorkerRuntimeStatus) : Prop := wr_instance_id r = rc_instance_id rc.
Definition cutoff (rc : WorkerStatusRecorder) (now : Z) : Z := now - seconds (3600 * rc_retention_hours rc).

Lemma beat_rows rc now db r :
  In r (rows (runtimes (fst (beat rc now db)))) ↔
  ∃ x, In x (rows (runtimes db)) ∧ r = if own_live rc x then set_wr_heartbeat_at now x else x.
Proof. cbn. rewrite in_map_iff. naive_solver. Qed.

Lemma beat_spec rc now db :
  let db' := fst (beat rc now db) in
  (∀ r, In r (rows (runtimes db)) → ¬ own rc r ∨ is_Some (wr_stopped_at r) → In r (rows (runtimes db'))) ∧
  (∀ r, In r (rows (runtimes db')) → own rc r → wr_stopped_at r = None → wr_heartbeat_at r = now) ∧
  (own_row_exists rc db' = own_row_exists rc db) ∧
  (snd (beat rc now db) ≠ O → own_row_exists rc db = true).
Proof.
  cbn zeta. assert (∀ d, own_row_exists rc d = true ↔ ∃ r, In r (rows (runtimes d)) ∧ own rc r) as Hex.
  { intros d. unfold own_row_exists, own. split.
    - intros [r Hr]%is_not_none_true. apply select_first_Some in Hr as [Hin Hp]. bools. by exists r.
    - intros (r & Hin & Ho). destruct (select_first _ _) eqn:E; [done|].
      pose proof (proj1 (select_first_None _ _) E r Hin) as Hf. cbn beta in Hf. bools. congruence. }
  split_and!.
  - intros r Hr Hc. apply beat_rows. exists r. split; [done|]. unfold own_live, own in *.
    destruct Hc as [Hc|[t Ht]]; [by rewrite bool_decide_eq_false_2|]. rewrite Ht, andb_false_r. done.
  - intros r (x & Hx & ->)%beat_rows Ho Hs. destruct (own_live rc x) eqn:E; [done|].
    unfold own_live, own in *. rewrite Hs, bool_decide_eq_true_2 in E by done. done.
  - apply eq_true_iff_eq. rewrite !Hex. setoid_rewrite beat_rows. split.
    + intros (r & (x & Hx & ->) & Ho). exists x. split; [done|]. by destruct (own_live rc x).
    + intros (r & Hr & Ho). eexists. split; [by exists r|]. by destruct (own_live rc r).
  - intros Hn. apply Hex. unfold beat, update_where in Hn. cbn in Hn.
    destruct (List.filter (own_live rc) (rows (runtimes db))) as [|r l] eqn:E; [done|].
    assert (In r (List.filter (own_live rc) (rows (runtimes db)))) as [Hin Hl]%filter_In by (rewrite E; by left).
    exists r. split; [done|]. unfold own_live in Hl. bools. done.
Qed.

Lemma own_row_exists_In rc db : own_row_exists rc db = true → ∃ r, In r (rows (runtimes db)) ∧ own rc r.
Proof.
  unfold own_row_exists. intros [r Hr]%is_not_none_true. apply select_first_Some in Hr as [Hin Hp]. bools.
  by exists r.
Qed.

Lemma cleanup_rows rc now db r :
  In r (rows (runtimes (fst (cleanup_stale_records rc now db)))) ↔
  In r (rows (runtimes db)) ∧ (own rc r ∨ cutoff rc now ≤ wr_heartbeat_at r).
Proof.
  unfold cleanup_stale_records. cbn [fst snd delete_where runtimes rows]. rewrite filter_In, negb_true_iff, andb_false_iff.
  unfold own, cutoff. rewrite negb_false_iff, bool_decide_eq_true, Z.ltb_ge. tauto.
Qed.

Lemma maybe_cleanup_rows fc rc now db rc' db' :
  maybe_cleanup fc rc now db = (rc', db') →
  (∀ r, In r (rows (runtimes db')) → In r (rows (runtimes db))) ∧
  (∀ r, In r (rows (runtimes db)) → own rc r ∨ cutoff rc now ≤ wr_heartbeat_at r → In r (rows (runtimes db'))).
Proof.
  unfold maybe_cleanup. destruct (match rc_last_cleanup rc with Some t => _ | None => _ end).
  { by intros [= <- <-]. }
  destruct fc; intros [= <- <-]; [done|]. setoid_rewrite cleanup_rows. naive_solver.
Qed.

(** A heartbeat is honest and harmless.  Reported success means the
    process has a liveness row, and that row, unless a graceful stop was
    recorded, carries this heartbeat's time; a stopped row is never touched
    (a stopped process does not look alive again); a process never deletes
    its own row; and another process's row is deleted only when its last
    heartbeat is older than the retention window, whatever else happens
    concurrently and whichever step fails. *)
Theorem heartbeat_honest fault fc race now rc db rc' db' ok :
  (∀ d r, In r (rows (runtimes d)) → In r (rows (runtimes (race d)))) →
  heartbeat fault fc race now rc db = (rc', db', ok) →
  (ok = true → rc_stopped rc = false ∧ (∃ r, In r (rows (runtimes db')) ∧ own rc r) ∧
     ∀ r, In r (rows (runtimes db')) → own rc r → wr_stopped_at r = None → wr_heartbeat_at r = now) ∧
  (∀ r, In r (rows (runtimes db)) → own rc r → is_Some (wr_stopped_at r) → In r (rows (runtimes db'))) ∧
  (∀ r, In r (rows (runtimes db)) → ¬ own rc r → In r (rows (runtimes db')) ∨ wr_heartbeat_at r < cutoff rc now).
Proof.
  intros Hrace. unfold heartbeat. destruct (rc_stopped rc) eqn:Est.
  { intros [= <- <- <-]. split_and!; [done|auto|auto]. }
  destruct fault; [intros [= <- <- <-]; split_and!; [done|auto|auto]|].
  assert (∀ d, (∀ r, In r (rows (runtimes db)) → ¬ own rc r ∨ is_Some (wr_stopped_at r) → In r (rows (runtimes d))) →
    own_row_exists rc d = true →
    (∀ r, In r (rows (runtimes d)) → own rc r → wr_stopped_at r = None → wr_heartbeat_at r = now) →
    (let '(rc, db) := maybe_cleanup fc rc now d in (rc, db, true)) = (rc', db', ok) →
    (ok = true → false = false ∧ (∃ r, In r (rows (runtimes db')) ∧ own rc r) ∧
       ∀ r, In r (rows (runtimes db')) → own rc r → wr_stopped_at r = None → wr_heartbeat_at r = now) ∧
    (∀ r, In r (rows (runtimes db)) → own rc r → is_Some (wr_stopped_at r) → In r (rows (runtimes db'))) ∧
    (∀ r, In r (rows (runtimes db)) → ¬ own rc r → In r (rows (runtimes db')) ∨ wr_heartbeat_at r < cutoff rc now))
    as Hdone.
  { intros d Hkeep Hown Hnow. destruct (maybe_cleanup fc rc now d) as [rc1 d1] eqn:Em.
    apply maybe_cleanup_rows in Em as [Hsub Hkept]. intros [= <- <- <-]. split_and!.
    - intros _. split_and!; [done| |by eauto]. apply own_row_exists_In in Hown as (r & Hr & Ho). eauto.
    - intros r Hr Ho Hs. auto.
    - intros r Hr Ho. destruct (decide (cutoff rc now ≤ wr_heartbeat_at r)); [left; auto|right; lia]. }
  pose proof (beat_spec rc now db) as (B1 & B2 & B3 & B4). destruct (beat rc now db) as [db1 n]. cbn [fst snd] in *.
  destruct n as [|n]; [|intros E; eapply Hdone; [exact B1| |exact B2|exact E]; rewrite B3; by apply B4].
  destruct (own_row_exists rc db1) eqn:Ex; [intros E; by eapply Hdone|].
  destruct (insert_unique _ _ _ _) as [[x t]|e] eqn:Ei.
  - apply insert_unique_Ok in Ei as [Hn Heq]. apply (f_equal snd) in Heq. cbn [snd] in Heq. subst t.
    intros E. eapply Hdone; [| | |exact E].
    + intros r Hr Hc. cbn [runtimes]. rewrite insert_row_In. auto.
    + unfold own_row_exists. cbn [runtimes]. destruct (select_first _ _) eqn:Es; [done|].
      pose proof (proj1 (select_first_None _ _) Es _ (proj2 (insert_row_In _ _ _) (or_intror eq_refl))) as Hf.
      cbn in Hf. by rewrite bool_decide_eq_true_2 in Hf.
    + cbn [runtimes]. intros r. rewrite insert_row_In. intros [Hr| ->]; [|done]. intros Ho. exfalso.
      specialize (Hn r Hr). unfold runtime_clash in Hn. cbn in Hn. unfold own in Ho. bools. congruence.
  - destruct (own_row_exists rc (race db1)) eqn:Er.
    + pose proof (beat_spec rc now (race db1)) as (C1 & C2 & C3 & _). intros E.
      eapply Hdone; [| |exact C2|exact E]; [|by rewrite C3]. intros r Hr Hc. apply C1; auto.
    + intros [= <- <- <-]. split_and!; [done| |]; intros r Hr Ho; [intros Hs|left]; apply Hrace, B1; auto.
Qed.

(** *** Witnesses *)

Definition sample_recorder : WorkerStatusRecorder := new_recorder "worker" "a1" live_settings 0.
Definition no_status : StatusDb := mkStatusDb empty_table empty_table.
Definition sample_history : list Cycle :=
  [mkCycle 10 "completed" (Some [("processed", JInt 2); ("secret", JStr "x")]) None;
   mkCycle 20 "failed" None (Some "Operational Error!");
   mkCycle 30 "degraded" (Some [("processed", JInt 1); ("failed", JInt (-1))]) None].

Example sample_history_row :
  map (λ r, (wc_cycles_recorded r, wc_consecutive_unhealthy_cycles r, wc_last_completed_at r))
    (rows (cycles (run_cycles sample_recorder KIND_EXTERNAL_DISPATCH sample_history no_status)))
  = [(3, 2, Some 10)] ∧ safe_error_type (Some "Operational Error!") = Some "OperationalError".
Proof. vm_compute. done. Qed.

Lemma cycle_row_summarizes_history_witness :
  ∃ r, select (own_cycle sample_recorder KIND_EXTERNAL_DISPATCH)
         (cycles (run_cycles sample_recorder KIND_EXTERNAL_DISPATCH sample_history no_status)) = [r] ∧
       summarizes (rc_instance_id sample_recorder) KIND_EXTERNAL_DISPATCH sample_history r.
Proof.
  assert (Forall (λ x, in_list (cy_outcome x) OUTCOMES = true) sample_history) as Ho
    by (repeat constructor).
  assert (sample_history ≠ []) as Hne by discriminate.
  exact (proj1 (cycle_row_summarizes_history sample_recorder KIND_EXTERNAL_DISPATCH sample_history no_status
    eq_refl Ho empty_table_wf eq_refl Hne)).
Defined.

Lemma heartbeat_honest_witness :
  ∃ rc' db', heartbeat false false (λ d, d) 5 sample_recorder no_status = (rc', db', true) ∧
    ∃ r, In r (rows (runtimes db')) ∧ own sample_recorder r.
Proof.
  eexists _, _. split; [vm_compute; reflexivity|].
  refine (proj1 (proj2 (proj1 (heartbeat_honest false false (λ d, d) 5 sample_recorder no_status _ _ true
    _ _) eq_refl))); [auto|vm_compute; reflexivity].
Defined.
