(* ===== verification/OperatorMetrics.v ===== *)
(** * Operator metrics ([src/mailer_agent/operator_metrics.py])

    The deployment-wide numbers behind the operator credential: dispatches by
    state with the age of the queue and the expired leases, the liveness and
    the cycles of the worker processes, and the inbound rows of a window.  All
    of it is read only, so each report is a function of the tables and of the
    instant [now].  The fixed texts of the [definitions] fields are left out.

    The theorems say what the numbers count, that they agree with the lease
    sweep and with what the worker processes recorded, and that no report
    depends on the content or the owner of a row. *)

From S2P Require Import Prelude Sql Models Config Samples Auth SemanticModels StateMachine Sender Regex Threading Grounding ExactMessage WorkClaiming Lifecycle Llm LlmSchemas Memory Classifier Guardrails Scheduling FollowUp Inbound SemanticParsing ExternalDispatchWorker GenerationWorker WorkerStatus.

#[local] Open Scope bool_scope.

(** ** SQL aggregates *)

(** [SELECT key, count( * ) GROUP BY key].  SQL leaves the order of the groups
    open; every use puts them into a dict. *)
Definition group_count (keys : list string) : list (string * Z) :=
  map (λ k, (k, tally (λ x, x == k) keys)) (remove_dups keys).

(** [sum(CASE WHEN p THEN 1 ELSE 0 END)], which is NULL over no rows. *)
Definition sum_case {A} (p : A → bool) (l : list A) : option Z :=
  match l with [] => None | _ => Some (tally p l) end.

(** [min(CASE WHEN p THEN f END)] *)
Definition min_case {A} (p : A → bool) (f : A → Z) (l : list A) : option Z :=
  match map f (List.filter p l) with [] => None | x :: r => Some (fold_left Z.min r x) end.

(** ** Helpers *)

Definition MAX_INSTANCES_LISTED : nat := 20.
Definition STATE_ORDER : list ExternalDispatchState := [QUEUED; GENERATING; SENDING; SENT; FAILED; UNKNOWN].
Definition STATE_VALUES : list string := map ExternalDispatchState_value STATE_ORDER.
Definition NON_TERMINAL : list ExternalDispatchState := [QUEUED; GENERATING; SENDING].

Definition iso (value : option Z) : option string := Clock.isoformat_utc <$> value.

(** [int(delta.total_seconds())] truncates.  The float is exact enough for
    that on any span below 272 years. *)
Definition age_seconds (then_ : option Z) (now : Z) : option Z :=
  (λ t, Z.max 0 (Z.quot (now - t) 1000000)) <$> then_.

(** [int(value or 0)] *)
Definition int_or_0 (value : option Z) : Z := default 0 value.

(** [sum(d.values())] *)
Definition sum_counts (c : Counts) : Z := fold_right (λ x n, snd x + n) 0 c.

(** ** Dispatches *)

Record DispatchMetrics := mkDispatchMetrics {
  dm_generated_at : string;
  dm_states : Counts;
  dm_total : Z;
  dm_unrecognized_state_rows : Z;
  dm_depth : Z;
  dm_awaiting_generation : Z;
  dm_ready_to_send : Z;
  dm_oldest_queued_age_seconds : option Z;
  dm_oldest_awaiting_generation_age_seconds : option Z;
  dm_oldest_ready_to_send_age_seconds : option Z;
  dm_in_flight_or_unexpired : Z;
  dm_stale_lease_expired : Z;
  dm_lease_seconds : Z;
  dm_smtp_accepted : Z;
  dm_failed_not_sent : Z;
  dm_unknown_needs_operator_reconciliation : Z
}.

(** One group of the first statement: [(per_state, unrecognized)] after it. *)
Definition count_state (acc : Counts * Z) (g : string * Z) : Counts * Z :=
  match assoc (fst g) (fst acc) with
  | Some _ => (dict_put (fst g) (snd g) (fst acc), snd acc)
  | None => (fst acc, snd acc + snd g)
  end.
Definition count_states (ds : list ExternalDispatch) : Counts * Z :=
  fold_left count_state (group_count (map (λ d, ExternalDispatchState_value (ed_state d)) ds))
    (map (λ s, (s, 0)) STATE_VALUES, 0).

Definition is_queued (d : ExternalDispatch) : bool := ed_state d == QUEUED.
Definition awaiting_generation (d : ExternalDispatch) : bool := is_queued d && is_none (ed_message_id d).
Definition ready_to_send (d : ExternalDispatch) : bool := is_queued d && is_not_none (ed_message_id d).
Definition stale_sending (lease_cutoff : Z) (d : ExternalDispatch) : bool :=
  (ed_state d == SENDING) && (is_none (ed_claimed_at d) || opt_lt (ed_claimed_at d) lease_cutoff).

Definition dispatch_metrics (now lease_seconds : Z) (db : Db) : DispatchMetrics :=
  let '(per_state, unrecognized) := count_states (rows (dispatches db)) in
  let state s := count (ExternalDispatchState_value s) per_state in
  let working := select (λ d, in_list (ed_state d) NON_TERMINAL) (dispatches db) in
  let n_stale := sum_case (stale_sending (now - seconds lease_seconds)) working in
  mkDispatchMetrics (Clock.isoformat_utc now) per_state (sum_counts per_state + unrecognized) unrecognized
    (state QUEUED)
    (int_or_0 (sum_case awaiting_generation working))
    (int_or_0 (sum_case ready_to_send working))
    (age_seconds (min_case is_queued ed_created_at working) now)
    (age_seconds (min_case awaiting_generation ed_created_at working) now)
    (age_seconds (min_case ready_to_send ed_created_at working) now)
    (Z.max 0 (state SENDING - int_or_0 n_stale)) (int_or_0 n_stale) lease_seconds
    (state SENT) (state FAILED) (state UNKNOWN).

(** ** Workers *)

Definition heartbeat_status (stopped_at heartbeat_at : option Z) (now stale_after_seconds : Z) : string :=
  if is_not_none stopped_at then "stopped"
  else match age_seconds heartbeat_at now with
       | None => "stale"
       | Some age => if stale_after_seconds <? age then "stale" else "fresh"
       end.

Record CycleView := mkCycleView {
  vw_last_cycle_at : option string;
  vw_last_cycle_age_seconds : option Z;
  vw_last_outcome : string;
  vw_last_completed_at : option string;
  vw_consecutive_unhealthy_cycles : Z;
  vw_cycles_recorded_since_instance_start : Z;
  vw_last_error_type : option string;
  vw_last_cycle_counts : Counts;
  vw_counts_since_instance_start : Counts
}.
Definition cycle_view (row : WorkerCycleStatus) (now : Z) : CycleView :=
  mkCycleView (iso (Some (wc_last_cycle_at row))) (age_seconds (Some (wc_last_cycle_at row)) now)
    (wc_last_outcome row) (iso (wc_last_completed_at row)) (wc_consecutive_unhealthy_cycles row)
    (wc_cycles_recorded row) (safe_error_type (wc_last_error_type row))
    (clean_counts (wc_kind row) (wc_last_counts row)) (clean_counts (wc_kind row) (wc_total_counts row)).

(** ORDER BY heartbeat_at DESC, id DESC. *)
Definition fresher (a b : WorkerRuntimeStatus) : Prop :=
  wr_heartbeat_at b < wr_heartbeat_at a ∨ (wr_heartbeat_at a = wr_heartbeat_at b ∧ wr_id b ≤ wr_id a).
#[global] Instance fresher_dec : RelDecision fresher.
Proof. intros a b. unfold fresher. apply _. Defined.

Record InstanceView := mkInstanceView {
  iv_instance_id : string;
  iv_role : string;
  iv_heartbeat_status : string;
  iv_started_at : option string;
  iv_uptime_seconds : option Z;
  iv_last_heartbeat_at : option string;
  iv_heartbeat_age_seconds : option Z;
  iv_stopped_at : option string;
  iv_cycles : list (string * CycleView)
}.

Record WorkerMetrics := mkWorkerMetrics {
  wm_generated_at : string;
  wm_heartbeat_interval_seconds : Z;
  wm_stale_after_seconds : Z;
  wm_retention_hours : Z;
  wm_heartbeat_status : string;
  wm_fresh : Z;
  wm_stale : Z;
  wm_stopped : Z;
  wm_roles_with_multiple_fresh_instances : list string;
  wm_instances : list InstanceView;
  wm_instances_truncated : bool
}.

(** [cycles_by_instance.setdefault(c.instance_id, {})[c.kind] = _cycle_view(c, now)] *)
Definition add_cycle (now : Z) (acc : list (string * list (string * CycleView))) (c : WorkerCycleStatus)
    : list (string * list (string * CycleView)) :=
  if in_list (wc_kind c) CYCLE_KINDS then
    dict_put (wc_instance_id c) (dict_put (wc_kind c) (cycle_view c now) (default [] (assoc (wc_instance_id c) acc))) acc
  else acc.
Definition cycles_by_instance (now : Z) (listed : list WorkerRuntimeStatus) (db : StatusDb)
    : list (string * list (string * CycleView)) :=
  match listed with
  | [] => []
  | _ => fold_left (add_cycle now) (select (λ c, in_list (wc_instance_id c) (map wr_instance_id listed)) (cycles db)) []
  end.

Definition status_of (now stale_after_seconds : Z) (r : WorkerRuntimeStatus) : string :=
  heartbeat_status (wr_stopped_at r) (Some (wr_heartbeat_at r)) now stale_after_seconds.
Definition instance_view (now stale_after_seconds : Z) (by_instance : list (string * list (string * CycleView)))
    (r : WorkerRuntimeStatus) : InstanceView :=
  let status := status_of now stale_after_seconds r in
  mkInstanceView (wr_instance_id r) (wr_role r) status (iso (Some (wr_started_at r)))
    (if status == "stopped" then None else age_seconds (Some (wr_started_at r)) now)
    (iso (Some (wr_heartbeat_at r))) (age_seconds (Some (wr_heartbeat_at r)) now) (iso (wr_stopped_at r))
    (default [] (assoc (wr_instance_id r) by_instance)).

(** [d[k] = d.get(k, 0) + 1] over the keys. *)
Definition bump_key (d : Counts) (k : string) : Counts := dict_put k (count k d + 1) d.

Definition worker_metrics (now stale_after_seconds heartbeat_interval_seconds retention_hours : Z) (db : StatusDb)
    : WorkerMetrics :=
  let fetched := take (S MAX_INSTANCES_LISTED) (merge_sort fresher (rows (runtimes db))) in
  let listed := take MAX_INSTANCES_LISTED fetched in
  let status := status_of now stale_after_seconds in
  let tallied := fold_left bump_key (map status listed) [("fresh", 0); ("stale", 0); ("stopped", 0)] in
  let fresh_by_role := fold_left bump_key (map wr_role (List.filter (λ r, status r == "fresh") listed)) [] in
  let overall := match listed with
                 | [] => "no_instances_recorded"
                 | _ => if count "fresh" tallied != 0 then "fresh"
                        else if count "stale" tallied != 0 then "stale" else "stopped"
                 end in
  mkWorkerMetrics (Clock.isoformat_utc now) heartbeat_interval_seconds stale_after_seconds retention_hours overall
    (count "fresh" tallied) (count "stale" tallied) (count "stopped" tallied)
    (merge_sort string_le (map fst (List.filter (λ x, 1 <? snd x) fresh_by_role)))
    (map (instance_view now stale_after_seconds (cycles_by_instance now listed db)) listed)
    (MAX_INSTANCES_LISTED <? length fetched)%nat.

(** ** Inbound *)

(** ORDER BY last_cycle_at DESC, id DESC. *)
Definition later_cycle (a b : WorkerCycleStatus * option WorkerRuntimeStatus) : Prop :=
  wc_last_cycle_at (fst b) < wc_last_cycle_at (fst a) ∨
  (wc_last_cycle_at (fst a) = wc_last_cycle_at (fst b) ∧ wc_id (fst b) ≤ wc_id (fst a)).
#[global] Instance later_cycle_dec : RelDecision later_cycle.
Proof. intros a b. unfold later_cycle. apply _. Defined.

(** The outer join with the process rows of the same instance. *)
Definition with_runtime (db : StatusDb) (c : WorkerCycleStatus) : list (WorkerCycleStatus * option WorkerRuntimeStatus) :=
  match select (λ r, wr_instance_id r == wc_instance_id c) (runtimes db) with
  | [] => [(c, None)]
  | rs => map (λ r, (c, Some r)) rs
  end.

Record InboundCycleRows := mkInboundCycleRows {
  ir_last_completed_cycle_at : option string;
  ir_last_completed_cycle_age_seconds : option Z;
  ir_instances : list (CycleView * string * string)
}.

(** [max] of the times seen so far. *)
Definition later_completed (acc done : option Z) : option Z :=
  match done with
  | None => acc
  | Some d => match acc with Some a => if a <? d then Some d else acc | None => Some d end
  end.

Definition inbound_cycle_rows (kind : string) (now stale_after_seconds : Z) (db : StatusDb) : InboundCycleRows :=
  let rs := take MAX_INSTANCES_LISTED
              (merge_sort later_cycle (flat_map (with_runtime db) (select (λ c, wc_kind c == kind) (cycles db)))) in
  let last_completed := fold_left (λ acc x, later_completed acc (wc_last_completed_at (fst x))) rs None in
  mkInboundCycleRows (iso last_completed) (age_seconds last_completed now)
    (map (λ x, (cycle_view (fst x) now, wc_instance_id (fst x),
                match snd x with
                | Some rt => heartbeat_status (wr_stopped_at rt) (Some (wr_heartbeat_at rt)) now stale_after_seconds
                | None => "unknown"
                end)) rs).

Record InboundMetrics := mkInboundMetrics {
  im_generated_at : string;
  im_mailbox_polling : InboundCycleRows;
  im_legacy_global_imap : InboundCycleRows;
  im_window_hours : Z;
  im_window_start : option string;
  im_stored_message_rows : Z;
  im_stored_via_mailbox_polling : Z;
  im_classification_succeeded : Z;
  im_classification_failed : Z;
  im_classification_not_recorded : Z
}.

Definition inbound_metrics (now window_hours stale_after_seconds : Z) (db : Db) (status : StatusDb) : InboundMetrics :=
  let since := now - seconds (3600 * window_hours) in
  let ms := select (λ m, (msg_direction m == INBOUND) && (since <=? msg_created_at m)) (messages db) in
  let total := Z.of_nat (length ms) in
  let ok := int_or_0 (sum_case (λ m, msg_classification_success m == Some true) ms) in
  let failed := int_or_0 (sum_case (λ m, msg_classification_success m == Some false) ms) in
  mkInboundMetrics (Clock.isoformat_utc now)
    (inbound_cycle_rows KIND_INBOUND_MAILBOX now stale_after_seconds status)
    (inbound_cycle_rows KIND_INBOUND_LEGACY now stale_after_seconds status)
    window_hours (iso (Some since)) total
    (int_or_0 (sum_case (λ m, is_not_none (msg_mailbox_id m)) ms))
    ok failed (Z.max 0 (total - ok - failed)).

(** ** Facts *)

(** *** Counting *)

Lemma tally_cons {A} (p : A → bool) x l : tally p (x :: l) = (if p x then 1 else 0) + tally p l.
Proof. unfold tally. cbn. destruct (p x); cbn [length]; lia. Qed.
Lemma tally_ge_0 {A} (p : A → bool) l : 0 ≤ tally p l.
Proof. unfold tally. lia. Qed.
Lemma tally_true {A} (l : list A) : tally (λ _, true) l = Z.of_nat (length l).
Proof. induction l as [|x l IH]; [done|]. rewrite tally_cons, IH. cbn [length]. lia. Qed.
Lemma tally_ext_in {A} (p q : A → bool) l : (∀ x, In x l → p x = q x) → tally p l = tally q l.
Proof. intros E. unfold tally. by rewrite (filter_ext_in _ _ _ E). Qed.
Lemma tally_map {A B} (f : A → B) p l : tally p (map f l) = tally (λ x, p (f x)) l.
Proof. induction l as [|x l IH]; [done|]. cbn [map]. by rewrite !tally_cons, IH. Qed.
Lemma tally_filter {A} (p q : A → bool) l : tally p (List.filter q l) = tally (λ x, q x && p x) l.
Proof. induction l as [|x l IH]; [done|]. rewrite tally_cons. cbn. destruct (q x); [by rewrite tally_cons, IH|done]. Qed.
Lemma tally_select {A} `{Row A} (p q : A → bool) t :
  (∀ x, p x = true → q x = true) → tally p (select q t) = tally p (rows t).
Proof.
  intros E. unfold select. rewrite tally_filter. apply tally_ext_in. intros x _.
  destruct (p x) eqn:Ep; [by rewrite (E x Ep)|apply andb_false_r].
Qed.
Lemma tally_le {A} (p q : A → bool) l : (∀ x, p x = true → q x = true) → tally p l ≤ tally q l.
Proof.
  intros E. induction l as [|x l IH]; [done|]. rewrite !tally_cons. destruct (p x) eqn:Ep; [rewrite (E x Ep)|case_match]; lia.
Qed.
(** A count splits along any test. *)
Lemma tally_split {A} (q p : A → bool) l : tally p l = tally (λ x, p x && q x) l + tally (λ x, p x && negb (q x)) l.
Proof. induction l as [|x l IH]; [done|]. rewrite !tally_cons. destruct (p x), (q x); cbn; lia. Qed.

Lemma int_sum_case {A} (p : A → bool) l : int_or_0 (sum_case p l) = tally p l.
Proof. by destruct l. Qed.

(** The rows of a table are counted by their keys. *)
Lemma tally_by_id {A} `{Row A} (p : A → bool) t :
  table_wf t → tally p (rows t) = tally (λ i, match get i t with Some r => p r | None => false end) (map row_id (rows t)).
Proof.
  intros Hwf. rewrite tally_map. apply tally_ext_in. intros r Hr. by rewrite (get_complete t r Hwf Hr).
Qed.

Lemma same_ids {A} `{Row A} (t t' : table A) :
  table_wf t → table_wf t' → (∀ i, is_Some (get i t) ↔ is_Some (get i t')) → map row_id (rows t) = map row_id (rows t').
Proof.
  intros Hwf Hwf' Hg.
  assert (∀ (u : table A), table_wf u → ∀ i, i ∈ map row_id (rows u) ↔ is_Some (get i u)) as Hin.
  { intros u Hu i. rewrite list_elem_of_In, in_map_iff. split.
    - intros (r & <- & Hr). exists r. by apply get_complete.
    - intros [r [Hr Hi]%get_Some]. by exists r. }
  assert (∀ (u : table A), table_wf u → NoDup (map row_id (rows u))) as Hnd.
  { intros u [Hs _]. induction Hs as [|x l Hs IH Hall]; constructor; [|done].
    rewrite Forall_forall in Hall. intros Hx. specialize (Hall x Hx). lia. }
  assert (∀ (u : table A), table_wf u → StronglySorted Z.le (map row_id (rows u))) as Hle.
  { intros u [Hs _]. induction Hs as [|x l Hs IH Hall]; constructor; [done|].
    eapply Forall_impl; [exact Hall|]. cbn. lia. }
  apply (StronglySorted_unique Z.le); [by apply Hle..|].
  apply NoDup_Permutation; [by apply Hnd..|]. intros i. rewrite !Hin by done. apply Hg.
Qed.

(** *** Dictionaries *)

Lemma assoc_map_keys_none {A} (f : string → A) keys k : k ∉ keys → assoc k (map (λ k, (k, f k)) keys) = None.
Proof.
  induction keys as [|x l IH]; [done|]. cbn. intros [Hne Hn]%not_elem_of_cons. rewrite bool_decide_eq_false_2 by done. auto.
Qed.

Lemma dict_put_present {A} k (v : A) d :
  NoDup (map fst d) → is_Some (assoc k d) → dict_put k v d = map (λ x, if k == fst x then (fst x, v) else x) d.
Proof.
  induction d as [|[k' v'] d IH]; cbn; [by intros _ []|]. intros [Hn Hd]%NoDup_cons Hk.
  destruct (decide (k = k')) as [->|Hne].
  - rewrite !bool_decide_eq_true_2 by done. f_equal. symmetry. rewrite <- (map_id d) at 2. apply map_ext_in.
    intros [a b] Hin. cbn. rewrite bool_decide_eq_false_2; [done|]. intros <-.
    apply Hn, list_elem_of_In, in_map_iff. by exists (k', b).
  - rewrite !bool_decide_eq_false_2 by done. f_equal. apply IH; [done|]. by rewrite bool_decide_eq_false_2 in Hk.
Qed.

Lemma assoc_dom {A} k (d : list (string * A)) : is_Some (assoc k d) ↔ k ∈ map fst d.
Proof.
  induction d as [|[k' v] d IH]; cbn; [split; [by intros []|by intros ?%not_elem_of_nil]|].
  rewrite elem_of_cons, <- IH. case_bool_decide; [subst; split; [by left|by eexists]|naive_solver].
Qed.

Lemma group_count_keys keys : map fst (group_count keys) = remove_dups keys.
Proof. unfold group_count. rewrite map_map. apply map_id. Qed.

Lemma group_count_assoc keys k : assoc k (group_count keys) = if bool_decide (k ∈ keys) then Some (tally (λ x, x == k) keys) else None.
Proof.
  unfold group_count. case_bool_decide as Hk.
  - apply (assoc_map_keys (λ k, tally (λ x, x == k) keys)). by apply elem_of_remove_dups.
  - apply (assoc_map_keys_none (λ k, tally (λ x, x == k) keys)). by rewrite elem_of_remove_dups.
Qed.

(** *** The states *)

Lemma fold_count_state gs : ∀ per u,
  NoDup (map fst per) → NoDup (map fst gs) → (∀ k, k ∈ map fst gs → is_Some (assoc k per)) →
  fold_left count_state gs (per, u) = (map (λ x, (fst x, default (snd x) (assoc (fst x) gs))) per, u).
Proof.
  induction gs as [|[k n] gs IH]; intros per u Hp Hg Hin; cbn [fold_left].
  { f_equal. symmetry. rewrite <- (map_id per) at 2. apply map_ext. by intros []. }
  apply NoDup_cons in Hg as [Hk Hg]. destruct (Hin k) as [v Hv]; [by left|]. unfold count_state at 2. cbn [fst snd].
  rewrite Hv, dict_put_present by (done || by eexists).
  set (per' := map _ per).
  assert (map fst per' = map fst per) as Hfst.
  { unfold per'. rewrite map_map. apply map_ext. intros x. by case_match. }
  rewrite IH; [|by rewrite Hfst|done|].
  - f_equal. unfold per'. rewrite map_map. apply map_ext. intros [a b]. cbn [fst snd assoc].
    destruct (decide (k = a)) as [->|Hne].
    + rewrite !(bool_decide_eq_true_2 (a = a)) by done. cbn [fst snd].
      destruct (assoc a gs) eqn:E; [|done]. exfalso. apply Hk, assoc_dom. by eexists.
    + rewrite (bool_decide_eq_false_2 (k = a)) by done. cbn [fst snd]. by rewrite (bool_decide_eq_false_2 (a = k)) by done.
  - intros x Hx. rewrite assoc_dom, Hfst, <- assoc_dom. apply Hin. by right.
Qed.

Definition in_state (s : ExternalDispatchState) (d : ExternalDispatch) : bool := ed_state d == s.

Lemma state_value_eqb s s' :
  (ExternalDispatchState_value s == ExternalDispatchState_value s') = (s == s').
Proof. by destruct s, s'. Qed.

(** Every row is counted under its state, and none is unrecognized. *)
Lemma count_states_exact ds :
  count_states ds = (map (λ s, (ExternalDispatchState_value s, tally (in_state s) ds)) STATE_ORDER, 0).
Proof.
  unfold count_states. set (keys := map _ ds).
  assert (∀ k, k ∈ keys → k ∈ STATE_VALUES) as Hk.
  { intros k (d & <- & _)%list_elem_of_In%in_map_iff. apply list_elem_of_In. destruct (ed_state d); cbn; tauto. }
  rewrite fold_count_state.
  - f_equal. unfold STATE_VALUES. rewrite !map_map. apply map_ext. intros s. cbn [fst snd]. f_equal.
    rewrite group_count_assoc. unfold keys. rewrite tally_map.
    rewrite (tally_ext_in _ (in_state s)) by (intros d _; apply state_value_eqb).
    case_bool_decide as E; [done|]. cbn [default from_option id].
    unfold tally. rewrite filter_false_nil; [done|]. intros d Hd. apply not_true_is_false. intros Hs. unfold in_state in Hs.
    bools. apply E, list_elem_of_In, in_map_iff. exists d. by subst.
  - cbn. compute_done.
  - rewrite group_count_keys. apply NoDup_remove_dups.
  - intros k. rewrite group_count_keys, elem_of_remove_dups, assoc_dom. intros ?%Hk.
    by rewrite map_map, map_id.
Qed.

Lemma state_total ds : sum_counts (map (λ s, (ExternalDispatchState_value s, tally (in_state s) ds)) STATE_ORDER)
  = Z.of_nat (length ds).
Proof.
  induction ds as [|d ds IH]; [done|]. revert IH. unfold STATE_ORDER, sum_counts. cbn [map fold_right snd].
  rewrite !tally_cons. repeat match goal with |- context [in_state ?s d] => change (in_state s d) with (ed_state d == s) end.
  intros IH. cbn [length]. rewrite Nat2Z.inj_succ, <- IH.
  destruct (ed_state d); repeat case_bool_decide; (done || lia).
Qed.

(** The working set of the second statement loses none of the rows counted. *)
Lemma working_tally p db :
  (∀ d, p d = true → in_list (ed_state d) NON_TERMINAL = true) →
  int_or_0 (sum_case p (select (λ d, in_list (ed_state d) NON_TERMINAL) (dispatches db))) = tally p (rows (dispatches db)).
Proof. intros E. rewrite int_sum_case. by apply tally_select. Qed.

Lemma fold_min_spec l : ∀ x, (fold_left Z.min l x = x ∨ In (fold_left Z.min l x) l) ∧
  fold_left Z.min l x ≤ x ∧ ∀ y, In y l → fold_left Z.min l x ≤ y.
Proof.
  induction l as [|z l IH]; intros x; cbn; [split_and!; [by left|lia|done]|].
  destruct (IH (Z.min x z)) as (Hor & Hle & Hall). split_and!.
  - destruct Hor as [->|Hin]; [|by right; right]. destruct (Z.min_spec x z) as [[_ ->]|[_ ->]]; [by left|by right; left].
  - lia.
  - intros y [<-|Hy]; [lia|by apply Hall].
Qed.

Lemma min_case_spec {A} (p : A → bool) f l :
  match min_case p f l with
  | None => ∀ x, In x l → p x = false
  | Some m => ∃ x, In x l ∧ p x = true ∧ f x = m ∧ ∀ y, In y l → p y = true → m ≤ f y
  end.
Proof.
  unfold min_case. destruct (List.filter p l) as [|x0 r] eqn:E; cbn [map].
  - intros x Hx. apply not_true_is_false. intros Hp. assert (In x (List.filter p l)) as Hf by by apply filter_In.
    by rewrite E in Hf.
  - destruct (fold_min_spec (map f r) (f x0)) as (Hor & Hle & Hall).
    assert (∃ x, In x (x0 :: r) ∧ f x = fold_left Z.min (map f r) (f x0)) as (x & Hx & Hfx).
    { destruct Hor as [->|(x & <- & Hx)%in_map_iff]; [by exists x0; split; [left|]|by exists x; split; [right|]]. }
    rewrite <- E in Hx. apply filter_In in Hx as [Hin Hp]. exists x. split_and!; [done..|].
    intros y Hy Hpy. assert (In y (x0 :: r)) as [<-|Hr] by (rewrite <- E; by apply filter_In); [done|].
    apply Hall, in_map_iff. by exists y.
Qed.

Lemma queued_working d : is_queued d = true → in_list (ed_state d) NON_TERMINAL = true.
Proof. unfold is_queued. intros E. bools. by rewrite E. Qed.

(** How old a row is, in whole seconds. *)
Definition row_age (now : Z) (d : ExternalDispatch) : Z := Z.max 0 (Z.quot (now - ed_created_at d) 1000000).

(** The age reported for the rows with a property is that of the oldest. *)
Definition oldest_of (now : Z) (p : ExternalDispatch → bool) (ds : list ExternalDispatch) (age : option Z) : Prop :=
  match age with
  | None => ∀ d, In d ds → p d = false
  | Some a => (∃ d, In d ds ∧ p d = true ∧ row_age now d = a) ∧ ∀ d, In d ds → p d = true → row_age now d ≤ a
  end.

Lemma oldest_of_min now p db :
  (∀ d, p d = true → in_list (ed_state d) NON_TERMINAL = true) →
  oldest_of now p (rows (dispatches db))
    (age_seconds (min_case p ed_created_at (select (λ d, in_list (ed_state d) NON_TERMINAL) (dispatches db))) now).
Proof.
  intros Hp. pose proof (min_case_spec p ed_created_at (select (λ d, in_list (ed_state d) NON_TERMINAL) (dispatches db))) as H.
  destruct (min_case _ _ _) as [m|]; cbn.
  - destruct H as (x & [Hx _]%select_In & Hpx & <- & Hmin). split; [by exists x|].
    intros d Hd Hpd. assert (ed_created_at x ≤ ed_created_at d) as Hle by (apply Hmin; [apply select_In; auto|done]).
    unfold row_age. apply Z.max_le_compat_l, Z.quot_le_mono; lia.
  - intros d Hd. destruct (p d) eqn:E; [|done]. rewrite <- E. apply H, select_In. auto.
Qed.

Lemma count_state_value s ds :
  count (ExternalDispatchState_value s) (map (λ s, (ExternalDispatchState_value s, tally (in_state s) ds)) STATE_ORDER)
  = tally (in_state s) ds.
Proof. by destruct s. Qed.

(** Each number of the report, from the rows. *)
Lemma dispatch_metrics_counts now lease db :
  let ds := rows (dispatches db) in
  let m := dispatch_metrics now lease db in
  dm_states m = map (λ s, (ExternalDispatchState_value s, tally (in_state s) ds)) STATE_ORDER ∧
  dm_total m = Z.of_nat (length ds) ∧ dm_unrecognized_state_rows m = 0 ∧
  dm_depth m = tally (in_state QUEUED) ds ∧
  dm_awaiting_generation m = tally awaiting_generation ds ∧ dm_ready_to_send m = tally ready_to_send ds ∧
  dm_in_flight_or_unexpired m =
    Z.max 0 (tally (in_state SENDING) ds - tally (stale_sending (now - seconds lease)) ds) ∧
  dm_stale_lease_expired m = tally (stale_sending (now - seconds lease)) ds ∧
  dm_smtp_accepted m = tally (in_state SENT) ds ∧ dm_failed_not_sent m = tally (in_state FAILED) ds ∧
  dm_unknown_needs_operator_reconciliation m = tally (in_state UNKNOWN) ds.
Proof.
  cbv zeta. unfold dispatch_metrics. rewrite count_states_exact, state_total.
  cbn [dm_states dm_total dm_unrecognized_state_rows dm_depth dm_awaiting_generation dm_ready_to_send dm_in_flight_or_unexpired
       dm_stale_lease_expired dm_smtp_accepted dm_failed_not_sent dm_unknown_needs_operator_reconciliation].
  rewrite !count_state_value.
  split_and!; try done; [lia|..]; rewrite ?working_tally; try done;
    intros d; unfold awaiting_generation, ready_to_send, is_queued, stale_sending;
    destruct (ed_state d); cbn; (done || by rewrite ?andb_false_l).
Qed.

(** The dispatch report counts every row once, under what it is.  The six
    states partition the table: their counts add up to the total and to the
    number of rows, and none is unrecognized.  What waits for generation and
    what is ready to send partition the queue; expired and unexpired leases
    partition what is being sent.  The three ages are those of the oldest
    queued dispatch, of the oldest that waits for generation and of the oldest
    ready to send, and absent exactly when there is none. *)
Theorem dispatch_report_exact now lease db :
  let ds := rows (dispatches db) in
  let m := dispatch_metrics now lease db in
  (∀ s, count (ExternalDispatchState_value s) (dm_states m) = tally (in_state s) ds) ∧
  sum_counts (dm_states m) = dm_total m ∧ dm_total m = Z.of_nat (length ds) ∧ dm_unrecognized_state_rows m = 0 ∧
  dm_awaiting_generation m + dm_ready_to_send m = dm_depth m ∧ dm_depth m = tally (in_state QUEUED) ds ∧
  dm_in_flight_or_unexpired m + dm_stale_lease_expired m = tally (in_state SENDING) ds ∧
  dm_smtp_accepted m = tally (in_state SENT) ds ∧ dm_failed_not_sent m = tally (in_state FAILED) ds ∧
  dm_unknown_needs_operator_reconciliation m = tally (in_state UNKNOWN) ds ∧
  oldest_of now (in_state QUEUED) ds (dm_oldest_queued_age_seconds m) ∧
  oldest_of now awaiting_generation ds (dm_oldest_awaiting_generation_age_seconds m) ∧
  oldest_of now ready_to_send ds (dm_oldest_ready_to_send_age_seconds m).
Proof.
  cbv zeta. destruct (dispatch_metrics_counts now lease db) as (Hst & Htot & Hu & Hq & Haw & Hrd & Hfl & Hstale & Hs & Hf & Hk).
  set (ds := rows (dispatches db)) in *.
  assert (tally awaiting_generation ds + tally ready_to_send ds = tally (in_state QUEUED) ds) as Hqueue.
  { rewrite (tally_split (λ d, is_none (ed_message_id d)) (in_state QUEUED)). done. }
  assert (tally (stale_sending (now - seconds lease)) ds ≤ tally (in_state SENDING) ds) as Hle.
  { apply tally_le. intros d. unfold stale_sending, in_state. by intros [? _]%andb_prop. }
  split_and!; try done.
  - intros s. rewrite Hst. apply count_state_value.
  - by rewrite Hst, state_total, Htot.
  - lia.
  - lia.
  - unfold dispatch_metrics. destruct (count_states _). apply oldest_of_min, queued_working.
  - unfold dispatch_metrics. destruct (count_states _). apply oldest_of_min. by intros d [? _]%andb_prop; apply queued_working.
  - unfold dispatch_metrics. destruct (count_states _). apply oldest_of_min. by intros d [? _]%andb_prop; apply queued_working.
Qed.

(** *** The lease sweep *)

(** What the sweep does to each row of the table. *)
Lemma sweep_effect s settings dt lease n u db db' rs :
  table_wf (dispatches db) → table_wf (messages db) → (∀ i, is_postgres s && locked s i = false) →
  let cutoff := naive_utc dt u - seconds lease in
  (length (List.filter (stale_sending cutoff) (rows (dispatches db))) ≤ n)%nat →
  recover_expired_external_dispatches s settings dt (Some lease) n u db = (db', rs) →
  length rs = length (List.filter (stale_sending cutoff) (rows (dispatches db))) ∧
  table_wf (dispatches db') ∧
  (∀ i, get i (dispatches db) = None → get i (dispatches db') = None) ∧
  ∀ i d, get i (dispatches db) = Some d → ∃ d', get i (dispatches db') = Some d' ∧
    if stale_sending cutoff d then ed_state d' = UNKNOWN else d' = d.
Proof.
  intros Hd Hm Hl cutoff Hn E.
  assert (sweep_batch s (sending_expired cutoff) n db = List.filter (stale_sending cutoff) (rows (dispatches db))) as Hb.
  { unfold sweep_batch, select. rewrite (filter_ext _ (stale_sending cutoff)).
    - by apply take_ge.
    - intros d. by rewrite Hl, andb_true_r. }
  unfold recover_expired_external_dispatches in E. cbn [default from_option id] in E. fold cutoff in E. rewrite Hb in E.
  pose proof (sweep_batch_ok s (sending_expired cutoff) n db Hd) as Hok. rewrite Hb in Hok.
  apply recover_rows_spec in E as (-> & Hd' & _ & Hrow & Hne & _ & _); [|done..].
  split_and!; [by rewrite length_map|done| |].
  { intros i Hg. rewrite Hne; [done|]. rewrite list_elem_of_In. intros (r & <- & [Hin _]%filter_In)%in_map_iff.
    by rewrite (get_complete _ r Hd Hin : get (ed_id r) _ = _) in Hg. }
  intros i d Hg. pose proof (get_Some _ _ _ Hg) as [Hin Hid].
  change (ed_id d = i) in Hid. destruct (stale_sending cutoff d) eqn:Es.
  - eexists. split; [rewrite <- Hid; apply Hrow; by apply filter_In|done].
  - exists d. split; [|done]. rewrite Hne; [done|]. rewrite list_elem_of_In. intros (r & Hr & [Hin' Hs]%filter_In)%in_map_iff.
    assert (r = d) as ->; [|congruence].
    apply (table_wf_inj _ _ _ Hd Hin' Hin). transitivity i; [exact Hr|by symmetry].
Qed.

Lemma stale_is_sending cutoff d : stale_sending cutoff d = true → ed_state d = SENDING.
Proof. intros [Hs _]%andb_prop. by bools. Qed.

(** Counting after the sweep. *)
Section Swept.
Context (cutoff : Z) (t t' : table ExternalDispatch) (Hwf : table_wf t) (Hwf' : table_wf t').
Context (Hnone : ∀ i, get i t = None → get i t' = None).
Context (Heff : ∀ i d, get i t = Some d →
  ∃ d', get i t' = Some d' ∧ if stale_sending cutoff d then ed_state d' = UNKNOWN else d' = d).

Lemma swept_ids : map row_id (rows t) = map row_id (rows t').
Proof using Hwf Hwf' Hnone Heff.
  apply same_ids; [done..|]. intros i. destruct (get i t) as [d|] eqn:E.
  - destruct (Heff i d E) as (d' & -> & _). split; by eexists.
  - by rewrite (Hnone i E).
Qed.

Lemma swept_tally (q : ExternalDispatch → bool) (v : bool) :
  (∀ d', ed_state d' = UNKNOWN → q d' = v) →
  tally q (rows t') = tally (λ d, if stale_sending cutoff d then v else q d) (rows t).
Proof using Hwf Hwf' Hnone Heff.
  intros Hq. rewrite (tally_by_id q t' Hwf'), (tally_by_id _ t Hwf), swept_ids.
  apply tally_ext_in. intros i _. destruct (get i t) as [d|] eqn:E; [|by rewrite (Hnone i E)].
  destruct (Heff i d E) as (d' & -> & Hd'). destruct (stale_sending cutoff d); [by apply Hq|by subst].
Qed.

(** Rows that are neither being sent nor resolved are counted as before. *)
Lemma swept_same (q : ExternalDispatch → bool) :
  (∀ d, ed_state d = UNKNOWN → q d = false) → (∀ d, ed_state d = SENDING → q d = false) →
  tally q (rows t') = tally q (rows t).
Proof using Hwf Hwf' Hnone Heff.
  intros Hu Hs. rewrite (swept_tally q false Hu). apply tally_ext_in. intros d _.
  destruct (stale_sending cutoff d) eqn:Es; [|done]. symmetry. by apply stale_is_sending, Hs in Es.
Qed.
Lemma swept_state s : s ≠ UNKNOWN → s ≠ SENDING → tally (in_state s) (rows t') = tally (in_state s) (rows t).
Proof using Hwf Hwf' Hnone Heff.
  intros H1 H2. apply swept_same; intros d Ed; unfold in_state; rewrite Ed; by apply bool_decide_eq_false_2.
Qed.

Lemma swept_stale : tally (stale_sending cutoff) (rows t') = 0.
Proof using Hwf Hwf' Hnone Heff.
  rewrite (swept_tally _ false) by (intros d Ed; unfold stale_sending; by rewrite Ed).
  unfold tally. rewrite filter_false_nil; [done|]. intros d _. by destruct (stale_sending cutoff d) eqn:Es.
Qed.

Lemma swept_sending :
  tally (in_state SENDING) (rows t') + tally (stale_sending cutoff) (rows t) = tally (in_state SENDING) (rows t).
Proof using Hwf Hwf' Hnone Heff.
  rewrite (swept_tally _ false) by (intros d Ed; unfold in_state; by rewrite Ed). clear.
  induction (rows t) as [|d l IH]; [done|]. rewrite !tally_cons, <- IH.
  destruct (stale_sending cutoff d) eqn:Es; [|lia]. apply stale_is_sending in Es.
  assert (in_state SENDING d = true) as -> by (unfold in_state; by rewrite Es). lia.
Qed.

Lemma swept_unknown :
  tally (in_state UNKNOWN) (rows t') = tally (in_state UNKNOWN) (rows t) + tally (stale_sending cutoff) (rows t).
Proof using Hwf Hwf' Hnone Heff.
  rewrite (swept_tally _ true) by (intros d Ed; unfold in_state; by rewrite Ed). clear.
  induction (rows t) as [|d l IH]; [done|]. rewrite !tally_cons, IH.
  destruct (stale_sending cutoff d) eqn:Es; [|lia]. apply stale_is_sending in Es.
  assert (in_state UNKNOWN d = false) as -> by (unfold in_state; by rewrite Es). lia.
Qed.
End Swept.

(** C33: the report and the lease sweep mean the same rows.  When no row is
    locked and the batch is large enough, a run of the lease recovery at the
    instant and with the lease of a report resolves exactly as many dispatches
    as the report calls stale.  The next report has none left, has them among
    the outcomes that need reconciliation, and is otherwise the same: the same
    total, the same queue, the same leases in flight, and the same accepted
    and failed dispatches, so recovery never makes a dispatch look sent or
    retried. *)
Theorem stale_report_is_swept s settings now lease n u db db' rs :
  table_wf (dispatches db) → table_wf (messages db) → (∀ i, is_postgres s && locked s i = false) →
  let before := dispatch_metrics now lease db in
  dm_stale_lease_expired before ≤ Z.of_nat n →
  recover_expired_external_dispatches s settings (Some (Naive now)) (Some lease) n u db = (db', rs) →
  let after := dispatch_metrics now lease db' in
  Z.of_nat (length rs) = dm_stale_lease_expired before ∧ dm_stale_lease_expired after = 0 ∧
  dm_unknown_needs_operator_reconciliation after =
    dm_unknown_needs_operator_reconciliation before + dm_stale_lease_expired before ∧
  dm_total after = dm_total before ∧ dm_depth after = dm_depth before ∧
  dm_awaiting_generation after = dm_awaiting_generation before ∧ dm_ready_to_send after = dm_ready_to_send before ∧
  dm_in_flight_or_unexpired after = dm_in_flight_or_unexpired before ∧
  dm_smtp_accepted after = dm_smtp_accepted before ∧ dm_failed_not_sent after = dm_failed_not_sent before.
Proof.
  intros Hd Hm Hl before Hn E after.
  destruct (dispatch_metrics_counts now lease db) as (_ & Ht & _ & Hq & Haw & Hrd & Hfl & Hst & Hs & Hf & Hk).
  destruct (dispatch_metrics_counts now lease db') as (_ & Ht' & _ & Hq' & Haw' & Hrd' & Hfl' & Hst' & Hs' & Hf' & Hk').
  fold before in Ht, Hq, Haw, Hrd, Hfl, Hst, Hs, Hf, Hk. fold after in Ht', Hq', Haw', Hrd', Hfl', Hst', Hs', Hf', Hk'.
  set (cutoff := now - seconds lease) in *.
  apply sweep_effect in E as (Hlen & Hd' & Hnone & Heff); [|done|done|done|].
  2:{ rewrite Hst in Hn. unfold tally in Hn. cbn [naive_utc]. fold cutoff. lia. }
  cbn [naive_utc] in Hlen, Heff. fold cutoff in Hlen, Heff.
  pose proof (swept_sending cutoff _ _ Hd Hd' Hnone Heff) as Hsend.
  pose proof (swept_stale cutoff _ _ Hd Hd' Hnone Heff) as Hst0.
  split_and!.
  - rewrite Hlen, Hst. done.
  - by rewrite Hst'.
  - rewrite Hk', Hk, Hst. by apply swept_unknown.
  - pose proof (f_equal length (swept_ids cutoff _ _ Hd Hd' Hnone Heff)) as Hids. rewrite !length_map in Hids.
    by rewrite Ht', Ht, Hids.
  - rewrite Hq', Hq. by apply (swept_state cutoff).
  - rewrite Haw', Haw. apply (swept_same cutoff); try done; intros d Ed; unfold awaiting_generation, is_queued; by rewrite Ed.
  - rewrite Hrd', Hrd. apply (swept_same cutoff); try done; intros d Ed; unfold ready_to_send, is_queued; by rewrite Ed.
  - rewrite Hfl', Hfl. lia.
  - rewrite Hs', Hs. by apply (swept_state cutoff).
  - rewrite Hf', Hf. by apply (swept_state cutoff).
Qed.

(** *** Workers *)

Lemma bumped_count k keys : ∀ d, count k (fold_left bump_key keys d) = count k d + tally (λ x, x == k) keys.
Proof.
  induction keys as [|x keys IH]; intros d; cbn [fold_left]; [by rewrite Z.add_0_r|].
  rewrite IH, tally_cons. unfold count at 1, bump_key. rewrite assoc_put.
  case_bool_decide as E1; case_bool_decide as E2; subst; try done; cbn; unfold count; lia.
Qed.

#[local] Instance fresher_total : Total fresher.
Proof. intros a b. unfold fresher. lia. Qed.
#[local] Instance fresher_trans : Transitive fresher.
Proof. intros a b c. unfold fresher. lia. Qed.

(** The three possible labels. *)
Lemma status_cases now stale r :
  status_of now stale r = "stopped" ∧ is_Some (wr_stopped_at r) ∨
  wr_stopped_at r = None ∧
    (status_of now stale r = "stale" ∧ stale < Z.max 0 (Z.quot (now - wr_heartbeat_at r) 1000000) ∨
     status_of now stale r = "fresh" ∧ Z.max 0 (Z.quot (now - wr_heartbeat_at r) 1000000) ≤ stale).
Proof.
  unfold status_of, heartbeat_status. destruct (wr_stopped_at r); cbn; [left; split; [done|by eexists]|]. right.
  split; [done|]. destruct (stale <? _) eqn:E; bools; [by left|by right].
Qed.

Lemma fresher_status now stale a b :
  fresher a b → wr_stopped_at a = None → status_of now stale b = "fresh" → status_of now stale a = "fresh".
Proof.
  intros Hab Ha Hb. destruct (status_cases now stale b) as [[? _]|(_ & [[? _]|[_ Hle]])]; [congruence|congruence|].
  destruct (status_cases now stale a) as [[_ [t Ht]]|(_ & [[_ Hlt]|[-> _]])]; [congruence| |done]. exfalso.
  assert (Z.quot (now - wr_heartbeat_at a) 1000000 ≤ Z.quot (now - wr_heartbeat_at b) 1000000); [|lia].
  apply Z.quot_le_mono; [lia|]. unfold fresher in Hab. lia.
Qed.

Definition listed (db : StatusDb) : list WorkerRuntimeStatus := take MAX_INSTANCES_LISTED (merge_sort fresher (rows (runtimes db))).

Lemma listed_split db :
  ∃ rest, listed db ++ rest ≡ₚ rows (runtimes db) ∧ (∀ a b, In a (listed db) → In b rest → fresher a b) ∧
    merge_sort fresher (rows (runtimes db)) = listed db ++ rest.
Proof.
  exists (drop MAX_INSTANCES_LISTED (merge_sort fresher (rows (runtimes db)))). unfold listed. rewrite take_drop. split_and!.
  - apply merge_sort_Permutation.
  - assert (StronglySorted fresher (merge_sort fresher (rows (runtimes db)))) as Hs
      by (apply StronglySorted_merge_sort; apply _).
    rewrite <- (take_drop MAX_INSTANCES_LISTED) in Hs. apply StronglySorted_app in Hs as (Hab & _ & _).
    intros a b Ha Hb. apply Hab; by apply list_elem_of_In.
  - done.
Qed.

Lemma tally_pos {A} (p : A → bool) l : tally p l ≠ 0 ↔ ∃ x, In x l ∧ p x = true.
Proof.
  setoid_rewrite <- filter_In. unfold tally. split.
  - destruct (List.filter p l) as [|x r]; [done|]. intros _. exists x. by left.
  - intros (x & Hx). destruct (List.filter p l); [done|cbn; lia].
Qed.

Section Report.
Context (now stale hb ret : Z) (db : StatusDb).
#[local] Abbreviation report := (worker_metrics now stale hb ret db).
#[local] Abbreviation status := (status_of now stale).
#[local] Abbreviation labelled l := (λ r, status r == l).

Lemma report_instances :
  wm_instances report = map (instance_view now stale (cycles_by_instance now (listed db) db)) (listed db).
Proof. unfold worker_metrics. cbn [wm_instances]. by rewrite take_take, Nat.min_l by lia. Qed.

Lemma report_counts :
  wm_fresh report = tally (labelled "fresh") (listed db) ∧ wm_stale report = tally (labelled "stale") (listed db) ∧
  wm_stopped report = tally (labelled "stopped") (listed db).
Proof.
  unfold worker_metrics. cbn [wm_fresh wm_stale wm_stopped]. rewrite take_take, Nat.min_l by lia.
  rewrite !bumped_count, !tally_map. done.
Qed.

Lemma report_partition : wm_fresh report + wm_stale report + wm_stopped report = Z.of_nat (length (listed db)).
Proof.
  destruct report_counts as (-> & -> & ->). induction (listed db) as [|r l IH]; [done|].
  rewrite !tally_cons. cbn [length]. rewrite Nat2Z.inj_succ, <- IH.
  destruct (status_cases now stale r) as [[-> _]|(_ & [[-> _]|[-> _]])];
    repeat case_bool_decide; (done || lia).
Qed.

Lemma report_overall : wm_heartbeat_status report = "fresh" ↔ ∃ r, In r (listed db) ∧ status r = "fresh".
Proof.
  assert (wm_fresh report ≠ 0 ↔ ∃ r, In r (listed db) ∧ status r = "fresh") as <-.
  { destruct report_counts as (-> & _ & _). rewrite tally_pos. by setoid_rewrite bool_decide_eq_true. }
  unfold worker_metrics. cbn [wm_fresh wm_heartbeat_status]. rewrite take_take, Nat.min_l by lia. fold (listed db).
  destruct (listed db) as [|r l]; [done|]. set (c := count "fresh" _). destruct (decide (c = 0)) as [->|Hc].
  - rewrite bool_decide_eq_true_2 by done. cbn [negb]. split; [|done]. by case_match.
  - by rewrite bool_decide_eq_false_2 by done.
Qed.
End Report.

(** The worker report is honest about liveness.  It lists the twenty
    processes with the most recent heartbeats, says whether there are more,
    and gives each exactly one of three labels: stopped, when a graceful stop
    was recorded, and otherwise fresh or stale by the age of its heartbeat.
    The counts add up to the list.  The summary is fresh exactly when a listed
    process is; and when it is not, and no listed process is stopped, then no
    process at all is fresh, also none beyond the list. *)
Theorem worker_report_honest now stale hb ret db :
  let m := worker_metrics now stale hb ret db in
  let status := status_of now stale in
  ∃ shown rest, shown ++ rest ≡ₚ rows (runtimes db) ∧ (∀ a b, In a shown → In b rest → fresher a b) ∧
    (length shown ≤ 20)%nat ∧ (wm_instances_truncated m = true ↔ rest ≠ []) ∧
    Forall2 (λ r v, iv_instance_id v = wr_instance_id r ∧ iv_heartbeat_status v = status r) shown (wm_instances m) ∧
    wm_fresh m + wm_stale m + wm_stopped m = Z.of_nat (length shown) ∧
    (wm_heartbeat_status m = "fresh" ↔ ∃ r, In r shown ∧ status r = "fresh") ∧
    (wm_heartbeat_status m ≠ "fresh" → wm_stopped m = 0 → ∀ r, In r (rows (runtimes db)) → status r ≠ "fresh").
Proof.
  cbv zeta. destruct (listed_split db) as (rest & Hperm & Hfr & Heq). exists (listed db), rest. split_and!.
  - done.
  - done.
  - unfold listed. rewrite length_take. unfold MAX_INSTANCES_LISTED. lia.
  - unfold worker_metrics. cbn [wm_instances_truncated]. rewrite Nat.ltb_lt, length_take, Heq, length_app.
    assert (length (listed db) = Nat.min MAX_INSTANCES_LISTED (length (listed db) + length rest)) as Hlen.
    { rewrite <- length_app, <- Heq. apply length_take. }
    destruct rest; cbn [length] in *; (split; [|try done]); intros ?; [exfalso; lia|done|lia].
  - rewrite report_instances. apply Forall2_fmap_r, Forall_Forall2_diag, Forall_true. done.
  - apply report_partition.
  - apply report_overall.
  - intros Hn Hs r Hr Hst. apply Hn, report_overall.
    apply list_elem_of_In in Hr. rewrite <- Hperm, elem_of_app, !list_elem_of_In in Hr.
    destruct Hr as [Hr|Hr]; [by exists r|].
    assert (∃ a, In a (listed db)) as [a Ha].
    { unfold listed in *. destruct (merge_sort fresher (rows (runtimes db))) as [|a l]; [|exists a; by left].
      symmetry in Heq. apply app_eq_nil in Heq as [_ ->]. done. }
    exists a. split; [done|]. apply (fresher_status now stale a r); [by apply Hfr| |done].
    destruct (wr_stopped_at a) eqn:Ea; [|done]. exfalso. destruct (report_counts now stale hb ret db) as (_ & _ & Hc).
    rewrite Hc in Hs. revert Hs. apply tally_pos. exists a. split; [done|]. apply bool_decide_eq_true_2.
    unfold status_of, heartbeat_status. by rewrite Ea.
Qed.

Lemma quot_seconds_le d n : 0 ≤ n → d < seconds (n + 1) → Z.max 0 (Z.quot d 1000000) ≤ n.
Proof.
  unfold seconds. intros Hn Hd. destruct (Z.lt_ge_cases d 0).
  - pose proof (Z.quot_le_mono d 0 1000000 ltac:(lia) ltac:(lia)) as Hq. change (Z.quot 0 1000000) with 0 in Hq. lia.
  - rewrite Z.quot_div_nonneg by lia. assert (d / 1000000 < n + 1) by (apply Z.div_lt_upper_bound; lia). lia.
Qed.

(** A process that reported a heartbeat is not reported stale.  Whatever ran
    concurrently, after a successful heartbeat every report within the stale
    threshold lists the process (as long as no more than twenty are recorded),
    never as stale; unless a stop was recorded for it, it is fresh and so is
    the summary. *)
Theorem beating_worker_is_fresh fc race beat_at rc db rc' db' now stale hb ret :
  (∀ d r, In r (rows (runtimes d)) → In r (rows (runtimes (race d)))) →
  heartbeat false fc race beat_at rc db = (rc', db', true) →
  (length (rows (runtimes db')) ≤ 20)%nat → 0 ≤ stale → now - beat_at < seconds (stale + 1) →
  let m := worker_metrics now stale hb ret db' in
  ∃ v, In v (wm_instances m) ∧ iv_instance_id v = rc_instance_id rc ∧
    (iv_heartbeat_status v = "stopped" ∨ iv_heartbeat_status v = "fresh" ∧ wm_heartbeat_status m = "fresh") ∧
    ((∀ r, In r (rows (runtimes db')) → own rc r → wr_stopped_at r = None) → iv_heartbeat_status v = "fresh").
Proof.
  intros Hrace Hb Hlen Hst Hnow m. apply heartbeat_honest in Hb as (Hok & _ & _); [|done].
  destruct (Hok eq_refl) as (_ & (r & Hr & Ho) & Hat).
  destruct (listed_split db') as (rest & Hperm & _ & Heq).
  assert (In r (listed db')) as Hin.
  { apply list_elem_of_In. unfold listed. rewrite take_ge; [|by rewrite merge_sort_Permutation].
    rewrite merge_sort_Permutation. by apply list_elem_of_In. }
  exists (instance_view now stale (cycles_by_instance now (listed db') db') r). split_and!.
  - unfold m. rewrite report_instances. apply in_map_iff. by exists r.
  - done.
  - cbn [iv_heartbeat_status instance_view]. destruct (status_cases now stale r) as [[-> _]|(Hns & [[_ Hlt]|[E _]])].
    + by left.
    + exfalso. rewrite (Hat r Hr Ho Hns) in Hlt. pose proof (quot_seconds_le (now - beat_at) stale Hst Hnow). lia.
    + right. split; [done|]. apply report_overall. by exists r.
  - intros Hlive. cbn [iv_heartbeat_status instance_view].
    destruct (status_cases now stale r) as [[_ [t Ht]]|(Hns & [[_ Hlt]|[-> _]])]; [by rewrite Hlive in Ht| |done].
    exfalso. rewrite (Hat r Hr Ho Hns) in Hlt. pose proof (quot_seconds_le (now - beat_at) stale Hst Hnow). lia.
Qed.

(** *** What a report can show *)

Section Related.
Context {A : Type} (R : A → A → Prop).

Lemma related_filter q l l' :
  (∀ a b, R a b → q a = q b) → Forall2 R l l' → Forall2 R (List.filter q l) (List.filter q l').
Proof.
  intros Hq. induction 1 as [|a b l l' Hab Hl IH]; [constructor|]. cbn. rewrite <- (Hq a b Hab).
  destruct (q a); [by constructor|done].
Qed.
Lemma related_tally p l l' : (∀ a b, R a b → p a = p b) → Forall2 R l l' → tally p l = tally p l'.
Proof. intros Hp. induction 1 as [|a b l l' Hab Hl IH]; [done|]. by rewrite !tally_cons, IH, (Hp a b Hab). Qed.
Lemma related_sum p l l' : (∀ a b, R a b → p a = p b) → Forall2 R l l' → sum_case p l = sum_case p l'.
Proof. intros Hp Hl. pose proof (related_tally p l l' Hp Hl) as E. destruct Hl; cbn; [done|]. by f_equal. Qed.
Lemma related_map {B} (f : A → B) l l' : (∀ a b, R a b → f a = f b) → Forall2 R l l' → map f l = map f l'.
Proof. intros Hf. induction 1 as [|a b l l' Hab Hl IH]; [done|]. cbn. by rewrite IH, (Hf a b Hab). Qed.
Lemma related_min p f l l' :
  (∀ a b, R a b → p a = p b) → (∀ a b, R a b → f a = f b) → Forall2 R l l' → min_case p f l = min_case p f l'.
Proof.
  intros Hp Hf Hl. unfold min_case. by rewrite (related_map f _ _ Hf (related_filter p _ _ Hp Hl)).
Qed.
End Related.

(** What the reports may depend on: of a dispatch its state, whether it has a
    message, its lease and its creation; of a message its direction, whether
    it was classified, whether a mailbox received it, and its creation. *)
Record same_progress (a b : ExternalDispatch) : Prop := {
  sp_state : ed_state a = ed_state b;
  sp_message : is_none (ed_message_id a) = is_none (ed_message_id b);
  sp_claimed : ed_claimed_at a = ed_claimed_at b;
  sp_created : ed_created_at a = ed_created_at b
}.
Record same_arrival (a b : Message) : Prop := {
  sa_direction : msg_direction a = msg_direction b;
  sa_classified : msg_classification_success a = msg_classification_success b;
  sa_mailbox : is_none (msg_mailbox_id a) = is_none (msg_mailbox_id b);
  sa_created : msg_created_at a = msg_created_at b
}.

(** A label a report may contain: short and plain. *)
Definition plain_label (s : string) : Prop :=
  (String.length s ≤ 64)%nat ∧ Forall (λ c, safe_error_char c = true) (String.list_ascii_of_string s).

Lemma safe_error_type_plain v s : safe_error_type v = Some s → plain_label s.
Proof.
  unfold safe_error_type. destruct v as [name|]; [|done].
  destruct (take 64 _) as [|c0 l0] eqn:El; [done|]. intros [= <-].
  assert (Forall (λ c, safe_error_char c = true) (c0 :: l0) ∧ (length (c0 :: l0) ≤ 64)%nat) as [Hl Hn].
  { rewrite <- El. split; [|rewrite length_take; lia]. apply Forall_take, Forall_forall. intros c Hc.
    apply list_elem_of_In, filter_In in Hc. tauto. }
  change (String c0 (String.string_of_list_ascii l0)) with (String.string_of_list_ascii (c0 :: l0)).
  unfold plain_label. rewrite String.list_ascii_of_string_of_list_ascii. split; [|done].
  assert (∀ l, String.length (String.string_of_list_ascii l) = length l) as ->; [|done].
  induction l as [|c l IH]; cbn; [done|by rewrite IH].
Qed.

Lemma is_not_none_same {A B} (a : option A) (b : option B) : is_none a = is_none b → is_not_none a = is_not_none b.
Proof. by destruct a, b. Qed.

Lemma dispatch_metrics_progress now lease db db' :
  Forall2 same_progress (rows (dispatches db)) (rows (dispatches db')) →
  dispatch_metrics now lease db = dispatch_metrics now lease db'.
Proof.
  intros Hd. unfold dispatch_metrics, select.
  assert (count_states (rows (dispatches db)) = count_states (rows (dispatches db'))) as ->.
  { unfold count_states.
    by rewrite (related_map same_progress _ _ _ (λ a b H, f_equal ExternalDispatchState_value (sp_state a b H)) Hd). }
  pose proof (related_filter same_progress (λ d, in_list (ed_state d) NON_TERMINAL) _ _ ltac:(by intros a b [-> _ _ _]) Hd) as Hf.
  assert (∀ a b, same_progress a b → is_queued a = is_queued b) as Hq by (intros a b [E _ _ _]; unfold is_queued; by rewrite E).
  assert (∀ a b, same_progress a b → awaiting_generation a = awaiting_generation b) as Ha
    by (intros a b Hab; unfold awaiting_generation; rewrite (Hq a b Hab), (sp_message a b Hab); done).
  assert (∀ a b, same_progress a b → ready_to_send a = ready_to_send b) as Hr
    by (intros a b Hab; unfold ready_to_send; rewrite (Hq a b Hab), (is_not_none_same _ _ (sp_message a b Hab)); done).
  assert (∀ a b, same_progress a b → stale_sending (now - seconds lease) a = stale_sending (now - seconds lease) b) as Hs
    by (intros a b [E _ Ec _]; unfold stale_sending; by rewrite E, Ec).
  rewrite (related_sum _ _ _ _ Hs Hf), (related_sum _ _ _ _ Ha Hf), (related_sum _ _ _ _ Hr Hf),
    (related_min _ _ _ _ _ Hq sp_created Hf), (related_min _ _ _ _ _ Ha sp_created Hf),
    (related_min _ _ _ _ _ Hr sp_created Hf). done.
Qed.

Lemma inbound_metrics_arrival now window stale db db' status :
  Forall2 same_arrival (rows (messages db)) (rows (messages db')) →
  inbound_metrics now window stale db status = inbound_metrics now window stale db' status.
Proof.
  intros Hm. unfold inbound_metrics, select.
  set (since := now - _).
  assert (∀ a b, same_arrival a b → (msg_direction a == INBOUND) && (since <=? msg_created_at a)
    = (msg_direction b == INBOUND) && (since <=? msg_created_at b)) as Hw by (by intros a b [-> _ _ ->]).
  pose proof (related_filter same_arrival _ _ _ Hw Hm) as Hf.
  rewrite (Forall2_length _ _ _ Hf).
  rewrite !(related_sum same_arrival (λ m, msg_classification_success m == Some true) _ _ ltac:(by intros a b [_ -> _ _]) Hf),
    !(related_sum same_arrival (λ m, msg_classification_success m == Some false) _ _ ltac:(by intros a b [_ -> _ _]) Hf),
    (related_sum same_arrival (λ m, is_not_none (msg_mailbox_id m)) _ _ ltac:(by intros a b [_ _ ?%is_not_none_same _]) Hf).
  done.
Qed.

(** No operator report shows content or an owner.  The dispatch report and
    the inbound report are determined by states, times and whether a message
    or mailbox is attached: two databases that agree on these, and differ in
    organizations, contacts, addresses, texts, identifiers, keys or error
    messages in any way, give the same report.  In the report of a worker's
    cycles, the error is a short label without white space or punctuation,
    and the counters are those of the fixed vocabulary, whatever was stored. *)
Theorem operator_reports_show_no_content now lease window stale db db' status row :
  Forall2 same_progress (rows (dispatches db)) (rows (dispatches db')) →
  Forall2 same_arrival (rows (messages db)) (rows (messages db')) →
  dispatch_metrics now lease db = dispatch_metrics now lease db' ∧
  inbound_metrics now window stale db status = inbound_metrics now window stale db' status ∧
  (∀ s, vw_last_error_type (cycle_view row now) = Some s → plain_label s) ∧
  map fst (vw_last_cycle_counts (cycle_view row now)) = COUNT_KEYS (wc_kind row) ∧
  map fst (vw_counts_since_instance_start (cycle_view row now)) = COUNT_KEYS (wc_kind row).
Proof.
  intros Hd Hm. split_and!.
  - by apply dispatch_metrics_progress.
  - by apply inbound_metrics_arrival.
  - intros s. apply safe_error_type_plain.
  - cbn. unfold clean_counts. rewrite map_map. apply map_id.
  - cbn. unfold clean_counts. rewrite map_map. apply map_id.
Qed.

(** The inbound report counts the stored rows of its window once each: the
    classified, the failed and the unrecorded add up to the stored rows, and
    no more rows came through mailbox polling than were stored. *)
Theorem inbound_report_exact now window stale db status :
  let m := inbound_metrics now window stale db status in
  let arrived r := (msg_direction r == INBOUND) && (now - seconds (3600 * window) <=? msg_created_at r) in
  im_stored_message_rows m = tally arrived (rows (messages db)) ∧
  im_classification_succeeded m + im_classification_failed m + im_classification_not_recorded m = im_stored_message_rows m ∧
  im_classification_not_recorded m = tally (λ r, arrived r && is_none (msg_classification_success r)) (rows (messages db)) ∧
  im_stored_via_mailbox_polling m ≤ im_stored_message_rows m.
Proof.
  cbv zeta. set (arrived := λ r, _). unfold inbound_metrics. cbn [im_stored_message_rows im_classification_succeeded
    im_classification_failed im_classification_not_recorded im_stored_via_mailbox_polling].
  rewrite !int_sum_case. fold arrived. unfold select. set (ms := List.filter arrived (rows (messages db))).
  assert (Z.of_nat (length ms) = tally (λ m, msg_classification_success m == Some true) ms
    + tally (λ m, msg_classification_success m == Some false) ms + tally (λ m, is_none (msg_classification_success m)) ms) as Hsum.
  { induction ms as [|r l IH]; [done|]. rewrite !tally_cons. cbn [length]. rewrite Nat2Z.inj_succ, IH.
    destruct (msg_classification_success r) as [[]|]; cbn [is_none]; repeat case_bool_decide; (done || lia). }
  pose proof (tally_ge_0 (λ m, is_none (msg_classification_success m)) ms).
  split_and!; [done|lia| |].
  - rewrite <- (tally_filter (λ m, is_none (msg_classification_success m)) arrived). fold ms. lia.
  - rewrite <- tally_true. by apply tally_le.
Qed.

(** *** Witnesses *)

Definition beaten : StatusDb := snd (fst (heartbeat false false (λ d, d) 5 sample_recorder no_status)).

(** The sample database as it would be if its texts and owners were others. *)
Definition anonymous_dispatch (d : ExternalDispatch) : ExternalDispatch :=
  mkExternalDispatch (ed_id d) "somebody" "key" None None 7 7 (ed_message_id d) None "" None "" (ed_state d)
    None (ed_claimed_at d) (Some "text") (ed_created_at d) 0.

Lemma stale_report_is_swept_witness :
  let before := dispatch_metrics 2000000 1 sending_db in
  dm_stale_lease_expired before = 1 ∧
  ∃ db' rs, recover_expired_external_dispatches sqlite_session default_settings (Some (Naive 2000000)) (Some 1) 10 2000000
      sending_db = (db', rs) ∧
    dm_stale_lease_expired (dispatch_metrics 2000000 1 db') = 0 ∧
    dm_unknown_needs_operator_reconciliation (dispatch_metrics 2000000 1 db') = 1.
Proof.
  split; [vm_compute; reflexivity|].
  destruct (recover_expired_external_dispatches sqlite_session default_settings (Some (Naive 2000000)) (Some 1) 10 2000000
    sending_db) as [db' rs] eqn:E.
  exists db', rs. split; [done|].
  assert (dm_stale_lease_expired (dispatch_metrics 2000000 1 sending_db) ≤ Z.of_nat 10) as Hn by (vm_compute; discriminate).
  destruct (stale_report_is_swept sqlite_session default_settings 2000000 1 10 2000000 sending_db db' rs
    (wf_dispatches _ sending_db_wf) (wf_messages _ sending_db_wf) (λ _, eq_refl) Hn E) as (_ & H0 & Hu & _).
  split; [exact H0|]. rewrite Hu. vm_compute. reflexivity.
Defined.

Lemma operator_reports_show_no_content_witness :
  dispatch_metrics 2000000 1 sending_db
  = dispatch_metrics 2000000 1
      (set_dispatches (Table (map anonymous_dispatch (rows (dispatches sending_db))) 9) sending_db).
Proof.
  refine (proj1 (operator_reports_show_no_content 2000000 1 24 120 sending_db
    (set_dispatches (Table (map anonymous_dispatch (rows (dispatches sending_db))) 9) sending_db) no_status
    (mkCycleStatus 1 "a1" KIND_GENERATION 0 OUTCOME_FAILED None 1 1 (Some "Boom!") None None) _ _)).
  - cbn [dispatches set_dispatches rows]. apply Forall2_fmap_r, Forall_Forall2_diag, Forall_true. by intros d.
  - cbn [messages set_dispatches]. apply Forall_Forall2_diag, Forall_true. by intros m.
Defined.

Lemma beating_worker_is_fresh_witness :
  heartbeat false false (λ d, d) 5 sample_recorder no_status
    = (fst (fst (heartbeat false false (λ d, d) 5 sample_recorder no_status)), beaten, true) ∧
  ∃ v, In v (wm_instances (worker_metrics 60000000 120 30 72 beaten)) ∧ iv_instance_id v = "a1" ∧
    iv_heartbeat_status v = "fresh".
Proof.
  assert (heartbeat false false (λ d, d) 5 sample_recorder no_status
    = (fst (fst (heartbeat false false (λ d, d) 5 sample_recorder no_status)), beaten, true)) as E by (vm_compute; reflexivity).
  split; [exact E|].
  destruct (beating_worker_is_fresh false (λ d, d) 5 sample_recorder no_status _ beaten 60000000 120 30 72
    (λ _ _ H, H) E) as (v & Hin & Hid & _ & Hf); [vm_compute; lia|lia|vm_compute; reflexivity|].
  exists v. split; [exact Hin|]. split; [exact Hid|]. apply Hf. intros r [<-|[]] _. vm_compute. reflexivity.
Defined.

(** Twenty-one processes are recorded; the twenty that stopped beat last, so
    the live one is not listed and the summary says stopped. *)
Example live_worker_beyond_the_list :
  let stopped := map (λ i, mkRuntimeStatus (Z.of_nat i) (String.string_of_list_ascii [ascii_of_nat (64 + i)]) "worker" 0
                             (seconds 100) (Some (seconds 100))) (seq 1 20) in
  let live := mkRuntimeStatus 21 "live" "worker" 0 (seconds 99) None in
  let m := worker_metrics (seconds 100) 120 30 72 (mkStatusDb (Table (stopped ++ [live]) 22) empty_table) in
  wm_heartbeat_status m = "stopped" ∧ wm_instances_truncated m = true ∧ status_of (seconds 100) 120 live = "fresh".
Proof. vm_compute. done. Qed.
