(* ===== verification/CanonicalJson.v ===== *)
(** * Canonical JSON

    [json.dumps(..., sort_keys=True, separators=(",", ":"))] as the request
    fingerprints of [src/mailer_agent/api/integrations.py] and
    [src/mailer_agent/api/integrations_generated.py] use it, and the proof that
    the text determines the values. *)

From S2P Require Import Prelude.

(** ** Encoding *)

(** [json.dumps] of a string with [ensure_ascii]: short escapes, [\u00XX] for
    everything outside the printable ASCII range. *)
Definition json_escape_char (c : ascii) : string :=
  let n := nat_of_ascii c in
  if (n =? 34)%nat then String "\"%char (String c "")
  else if (n =? 92)%nat then "\\"
  else if (n =? 8)%nat then "\b"
  else if (n =? 9)%nat then "\t"
  else if (n =? 10)%nat then "\n"
  else if (n =? 12)%nat then "\f"
  else if (n =? 13)%nat then "\r"
  else if (n <? 32)%nat || (126 <? n)%nat
       then "\u00" +:+ String (Str.hex_digit (n / 16)) (String (Str.hex_digit (n mod 16)) "")
  else String c "".
Fixpoint json_escape (s : string) : string :=
  match s with "" => "" | String c r => json_escape_char c +:+ json_escape r end.
Definition json_string (s : string) : string :=
  String Str.dquote (json_escape s +:+ String Str.dquote "").
Definition json_opt (o : option string) : string :=
  match o with None => "null" | Some s => json_string s end.

(** An object with its keys already sorted, [separators=(",", ":")]. *)
Definition json_object (fields : list (string * string)) : string :=
  "{" +:+ Str.join "," (map (λ '(k, v), json_string k +:+ ":" +:+ v) fields) +:+ "}".

(** ** Decoding

    A reader of one escaped character, used only to show that the encoding
    loses nothing. *)

Definition hex_value (c : ascii) : nat :=
  let n := nat_of_ascii c in if (n <? 58)%nat then n - 48 else n - 87.

Definition json_unescape_char (s : string) : option (ascii * string) :=
  match s with
  | "" => None
  | String c r =>
      if bool_decide (c = "\"%char) then
        match r with
        | String "b" r => Some (ascii_of_nat 8, r)
        | String "t" r => Some (ascii_of_nat 9, r)
        | String "n" r => Some (ascii_of_nat 10, r)
        | String "f" r => Some (ascii_of_nat 12, r)
        | String "r" r => Some (ascii_of_nat 13, r)
        | String "u" (String _ (String _ (String a (String b r)))) =>
            Some (ascii_of_nat (16 * hex_value a + hex_value b), r)
        | String e r => Some (e, r)
        | "" => None
        end
      else Some (c, r)
  end.

Lemma json_unescape_escape c r : json_unescape_char (json_escape_char c +:+ r) = Some (c, r).
Proof. destruct c as [[] [] [] [] [] [] [] []]; reflexivity. Qed.

Lemma json_escape_char_head c : ∃ a s, json_escape_char c = String a s ∧ a ≠ Str.dquote.
Proof. destruct c as [[] [] [] [] [] [] [] []]; eexists _, _; (split; [reflexivity|discriminate]). Qed.

Lemma json_escape_char_inj c c' r r' :
  json_escape_char c +:+ r = json_escape_char c' +:+ r' → c = c' ∧ r = r'.
Proof.
  intros H. pose proof (json_unescape_escape c r) as H1. rewrite H, json_unescape_escape in H1.
  by injection H1 as <- <-.
Qed.

Lemma json_escape_inj s s' r r' :
  json_escape s +:+ String Str.dquote r = json_escape s' +:+ String Str.dquote r' →
  s = s' ∧ r = r'.
Proof.
  revert s'. induction s as [|c s IH]; intros [|c' s'].
  - by intros [= <-].
  - destruct (json_escape_char_head c') as (a & t & E & Hn). cbn. rewrite E. cbn.
    intros [=]; congruence.
  - destruct (json_escape_char_head c) as (a & t & E & Hn). cbn. rewrite E. cbn.
    intros [=]; congruence.
  - cbn [json_escape]. rewrite !string_app_assoc. intros [-> H]%json_escape_char_inj.
    by destruct (IH _ H) as [-> ->].
Qed.

(** The text of a string value determines the value and what follows it. *)
Lemma json_string_inj s s' r r' :
  json_string s +:+ r = json_string s' +:+ r' → s = s' ∧ r = r'.
Proof.
  unfold json_string. cbn [String.append]. intros [= H].
  rewrite !string_app_assoc in H. by apply json_escape_inj in H.
Qed.

Lemma json_opt_inj o o' r r' : json_opt o +:+ r = json_opt o' +:+ r' → o = o' ∧ r = r'.
Proof.
  destruct o as [s|], o' as [s'|]; cbn [json_opt]; try done.
  - by intros [-> ->]%json_string_inj.
  - intros [= H]. by split.
Qed.

Lemma string_app_inj (k v v' : string) : k +:+ v = k +:+ v' → v = v'.
Proof. induction k as [|c k IH]; [done|]. intros [= H]. by apply IH. Qed.
