(* ===== verification/Integrations.v ===== *)
(** * LeadBoost intake ([src/mailer_agent/api/integrations.py])

    Idempotent acceptance of an authorized outreach action, and its
    reconciliation read.  An endpoint is a computation in the monad [M]: it
    threads the committed database and may stop with an HTTP error.  Between a
    query and the commit that relies on it, other requests may commit; that
    interference is the argument [Interference], so the IntegrityError races
    are part of the model.  SHA-256 is an interface. *)

From S2P Require Import Prelude Sql Models Config WorkClaiming Lifecycle Sender Regex Grounding ExactMessage CanonicalJson Samples.

(** ** The request monad *)

Inductive api_error :=
  | HTTPException (status_code : Z) (detail : string)
  | Unhandled (e : db_error)
  | Crashed (e : exn).

Definition M (A : Type) : Type := Db → Db * result api_error A.
#[global] Instance M_ret : MRet M := λ A a db, (db, Ok a).
#[global] Instance M_bind : MBind M :=
  λ A B k m db, match m db with
                | (db', Ok a) => k a db'
                | (db', Err e) => (db', Err e)
                end.

Definition raise {A} (e : api_error) : M A := λ db, (db, Err e).
(** A read of the current database. *)
Definition query {A} (f : Db → A) : M A := λ db, (db, Ok (f db)).
(** Other transactions commit here. *)
Definition others (f : Db → Db) : M unit := λ db, (f db, Ok ()).
(** [db.commit()] of pending rows: the new database, or the error. *)
Definition try_commit {E A} (f : Db → result E (Db * A)) : M (result E A) :=
  λ db, match f db with
        | Ok (db', a) => (db', Ok (Ok a))
        | Err e => (db, Ok (Err e))
        end.

(** A write of the request's own, committed with a value. *)
Definition modify {A} (f : Db → Db * A) : M A := λ db, (fst (f db), Ok (snd (f db))).

(** ** Canonical JSON and the request fingerprint *)

Class Sha256 := sha256_hex : string → string.

Definition canonical_request (external_action_id : option string) (recipient_email : string)
    (recipient_name subject : option string) (body : string) : string :=
  json_object
    [("body", json_string body);
     ("external_action_id", json_opt external_action_id);
     ("recipient_email", json_string recipient_email);
     ("recipient_name", json_opt recipient_name);
     ("subject", json_opt subject)].

Definition compute_request_fingerprint `{Sha256} (external_action_id : option string)
    (recipient_email : string) (recipient_name subject : option string) (body : string) : string :=
  sha256_hex (canonical_request external_action_id recipient_email recipient_name subject body).

(** ** Sending mailbox *)

Definition no_mailbox_detail : string :=
  "No active mailbox is configured for this organization; nothing was queued.".
Definition many_mailboxes_detail : string :=
  "This organization has more than one active mailbox; exactly one is required for dispatch. Nothing was queued.".

Definition resolve_sole_active_mailbox (org_id : string) : M Z :=
  ids ← query (λ db, map mb_id (take 2 (select (λ m, (mb_organization_id m == org_id)
                                                     && (mb_status m == MB_ACTIVE))
                                          (mailboxes db))));
  match ids with
  | [] => raise (HTTPException 409 no_mailbox_detail)
  | [i] => mret i
  | _ => raise (HTTPException 409 many_mailboxes_detail)
  end.

(** ** Get-or-create *)

Definition LEADBOOST_INTEGRATION_SOURCE : string := "leadboost".

(** What other requests commit between a step's query and its commit, the
    clock and the random handles of one request. *)
Record Interference := mkInterference {
  if_campaign : Db → Db;
  if_contact : Db → Db;
  if_dispatch : Db → Db;
  if_utcnow : Z;
  if_reply_reference : string;
  if_public_reference : string
}.

Definition find_integration_campaign (org_id : string) (db : Db) : option Campaign :=
  select_first (λ c, (cp_organization_id c == Some org_id)
                     && (cp_integration_source c == Some LEADBOOST_INTEGRATION_SOURCE))
    (campaigns db).

Definition integration_value_prop : string :=
  "LeadBoost-authorized outreach -- every message sent under this "
  +:+ "campaign is authorized per action by LeadBoost (supplied verbatim, "
  +:+ "or generated from that action's own request-local context); this "
  +:+ "campaign's own value_prop is never used to draft or alter any "
  +:+ "message.".

Definition new_integration_campaign (settings : Settings) (org_id : string) (utcnow id : Z) : Campaign :=
  {| cp_id := id;
     cp_name := "LeadBoost Integration";
     cp_organization_id := Some org_id;
     cp_integration_source := Some LEADBOOST_INTEGRATION_SOURCE;
     cp_sender_name := leadboost_integration_sender_name settings;
     cp_sender_org := leadboost_integration_sender_org settings;
     cp_sender_email := leadboost_integration_sender_email settings;
     cp_reply_to_email := None;
     cp_sender_title := None;
     cp_sender_signature_extra := None;
     cp_value_prop := integration_value_prop;
     cp_proof_points := None;
     cp_tone := "professional, direct, concise";
     cp_follow_up_days := [];
     cp_max_follow_ups := Some 0;
     cp_timezone := "UTC";
     cp_is_active := true;
     cp_created_at := utcnow |}.

Definition not_configured_detail : string :=
  "LeadBoost integration is not configured on this Mailer Agent deployment (missing sender identity). Contact the operator.".

Definition get_or_create_integration_campaign (settings : Settings) (env : Interference)
    (org_id : string) : M Campaign :=
  found ← query (find_integration_campaign org_id);
  match found with
  | Some c => mret c
  | None =>
      if leadboost_integration_sender_email settings == ""
      then raise (HTTPException 503 not_configured_detail)
      else
        _ ← others (if_campaign env);
        committed ← try_commit (λ db,
          match insert_unique campaign_clash "uq_campaigns_org_integration_source"
                  (new_integration_campaign settings org_id (if_utcnow env)) (campaigns db) with
          | Ok (c, t) => Ok (set_campaigns t db, c)
          | Err e => Err e
          end);
        match committed with
        | Ok c => mret c
        | Err e =>
            winner ← query (find_integration_campaign org_id);
            match winner with Some c => mret c | None => raise (Unhandled e) end
        end
  end.

Definition active_followup_detail : string :=
  "This recipient already has an active, human-attended follow-up scheduled on the LeadBoost integration campaign (next_action_at is set). A new LeadBoost-authorized dispatch cannot be safely applied without risking a conflicting message to the same contact. No dispatch was created; next_action_at was not modified.".

Definition reject_if_contact_has_active_followup (contact : Contact) : M unit :=
  if is_not_none (ct_next_action_at contact)
  then raise (HTTPException 409 active_followup_detail)
  else mret ().

Definition find_contact (campaign_id : Z) (email : string) (db : Db) : option Contact :=
  select_first (λ c, (ct_campaign_id c == campaign_id) && (ct_email c == email)) (contacts db).

Definition new_integration_contact (campaign_id : Z) (email : string) (name : option string)
    (utcnow id : Z) : Contact :=
  {| ct_id := id;
     ct_campaign_id := campaign_id;
     ct_name := name;
     ct_email := email;
     ct_title := None;
     ct_company := None;
     ct_context_notes := None;
     ct_status := CS_NEW;
     ct_follow_up_index := 0;
     ct_next_action_at := None;
     ct_last_reply_at := None;
     ct_last_outbound_at := None;
     ct_buying_stage := None;
     ct_engagement_score := 0%Q;
     ct_memory_summary := None;
     ct_claimed_by := None;
     ct_claimed_at := None;
     ct_created_at := utcnow;
     ct_updated_at := utcnow |}.

Definition get_or_create_integration_contact (env : Interference) (campaign_id : Z) (email : string)
    (name : option string) : M Contact :=
  found ← query (find_contact campaign_id email);
  match found with
  | Some c => _ ← reject_if_contact_has_active_followup c; mret c
  | None =>
      _ ← others (if_contact env);
      committed ← try_commit (λ db,
        match insert_unique contact_clash "uq_contacts_campaign_email"
                (new_integration_contact campaign_id email name (if_utcnow env)) (contacts db) with
        | Ok (c, t) => Ok (set_contacts t db, c)
        | Err e => Err e
        end);
      match committed with
      | Ok c => mret c
      | Err e =>
          winner ← query (find_contact campaign_id email);
          match winner with
          | Some c => _ ← reject_if_contact_has_active_followup c; mret c
          | None => raise (Unhandled e)
          end
      end
  end.

(** ** POST /integrations/leadboost/outreach-actions *)

Record OutreachActionIn := mkOutreachActionIn {
  oa_idempotency_key : string;
  oa_external_action_id : option string;
  oa_correlation_id : option string;
  oa_recipient_email : string;
  oa_recipient_name : option string;
  oa_subject : option string;
  oa_body : string
}.

Record Accepted := mkAccepted { ac_accepted : bool; ac_mailing_agent_reference : string }.

Definition accepted_response (d : ExternalDispatch) : Accepted := mkAccepted true (ed_public_reference d).

Definition find_dispatch (org_id key : string) (db : Db) : option ExternalDispatch :=
  select_first (λ d, (ed_organization_id d == org_id) && (ed_idempotency_key d == key)) (dispatches db).

Definition conflict_detail : string :=
  "idempotency_key has already been used with a different request payload. Use a new idempotency_key for a genuinely new action.".

Definition replay_or_conflict (detail fingerprint : string) (existing : ExternalDispatch) : M Accepted :=
  if ed_request_fingerprint existing == fingerprint then mret (accepted_response existing)
  else raise (HTTPException 409 detail).

Definition new_dispatch (org_id key : string) (external_action_id correlation_id : option string)
    (campaign_id contact_id : Z) (message_id : option Z) (mailbox_id : Z) (fingerprint : string)
    (grounding : option json) (public_reference : string) (utcnow id : Z) : ExternalDispatch :=
  {| ed_id := id;
     ed_organization_id := org_id;
     ed_idempotency_key := key;
     ed_external_action_id := external_action_id;
     ed_correlation_id := correlation_id;
     ed_campaign_id := campaign_id;
     ed_contact_id := contact_id;
     ed_message_id := message_id;
     ed_mailbox_id := Some mailbox_id;
     ed_request_fingerprint := fingerprint;
     ed_grounding_context := grounding;
     ed_public_reference := public_reference;
     ed_state := QUEUED;
     ed_claimed_by := None;
     ed_claimed_at := None;
     ed_error_message := None;
     ed_created_at := utcnow;
     ed_updated_at := utcnow |}.

(** The final transaction of the exact route: the message and its dispatch, both
    or neither.  The message is flushed outside the [try] that guards the
    commit. *)
Inductive final_error := AtFlush (e : db_error) | AtCommit (e : db_error).

Definition commit_message_and_dispatch (message : Z → Message) (dispatch : Z → Z → ExternalDispatch)
    (db : Db) : result final_error (Db * ExternalDispatch) :=
  match insert_unique message_clash "uq_messages" message (messages db) with
  | Err e => Err (AtFlush e)
  | Ok (m, tm) =>
      match insert_unique dispatch_clash "uq_external_dispatches" (dispatch (msg_id m))
              (dispatches db) with
      | Err e => Err (AtCommit e)
      | Ok (d, td) => Ok (set_dispatches td (set_messages tm db), d)
      end
  end.

(** After the failed final commit: converge on the winner's row. *)
Definition converge (detail fingerprint org_id key : string) (e : db_error) : M Accepted :=
  winner ← query (find_dispatch org_id key);
  match winner with
  | Some d => replay_or_conflict detail fingerprint d
  | None => raise (Unhandled e)
  end.

Definition create_leadboost_outreach_action `{Sha256} (settings : Settings) (env : Interference)
    (org_id : string) (payload : OutreachActionIn) : M Accepted :=
  let key := oa_idempotency_key payload in
  let fingerprint :=
    compute_request_fingerprint (oa_external_action_id payload) (oa_recipient_email payload)
      (oa_recipient_name payload) (oa_subject payload) (oa_body payload) in
  existing ← query (find_dispatch org_id key);
  match existing with
  | Some d => replay_or_conflict conflict_detail fingerprint d
  | None =>
      mailbox_id ← resolve_sole_active_mailbox org_id;
      campaign ← get_or_create_integration_campaign settings env org_id;
      contact ← get_or_create_integration_contact env (cp_id campaign) (oa_recipient_email payload)
                  (oa_recipient_name payload);
      _ ← others (if_dispatch env);
      committed ← try_commit
        (commit_message_and_dispatch
           (create_authorized_message (ct_id contact) (oa_subject payload) (oa_body payload)
              (if_utcnow env) (if_reply_reference env))
           (λ message_id, new_dispatch org_id key (oa_external_action_id payload)
              (oa_correlation_id payload) (cp_id campaign) (ct_id contact) (Some message_id)
              mailbox_id fingerprint None (if_public_reference env) (if_utcnow env)));
      match committed with
      | Ok d => mret (accepted_response d)
      | Err (AtFlush e) => raise (Unhandled e)
      | Err (AtCommit e) => converge conflict_detail fingerprint org_id key e
      end
  end.

(** ** GET /integrations/leadboost/outreach-actions/{idempotency_key} *)

Record ActionStatus := mkActionStatus {
  as_accepted : bool;
  as_state : ExternalDispatchState;
  as_mailing_agent_reference : string;
  as_updated_at : Z
}.

Definition public_state (st : ExternalDispatchState) : ExternalDispatchState :=
  match st with GENERATING => QUEUED | _ => st end.

Definition get_leadboost_outreach_action (org_id key : string) : M ActionStatus :=
  row ← query (find_dispatch org_id key);
  match row with
  | None => raise (HTTPException 404 "Outreach action not found")
  | Some d => mret (mkActionStatus true (public_state (ed_state d)) (ed_public_reference d)
                      (ed_updated_at d))
  end.

(** ** Facts: growth of the database

    What a request, and the requests running beside it, may do to the rows
    that exist: dispatches follow the lifecycle, campaigns are kept, contacts
    keep their campaign and address, messages their contact. *)

Record grows_rows (db db' : Db) : Prop := {
  gr_dispatches : evolves db db';
  gr_campaigns : ∀ i c, get i (campaigns db) = Some c → get i (campaigns db') = Some c;
  gr_contacts : ∀ i c, get i (contacts db) = Some c →
    ∃ c', get i (contacts db') = Some c' ∧ ct_campaign_id c' = ct_campaign_id c ∧
          ct_email c' = ct_email c;
  gr_messages : ∀ i m, get i (messages db) = Some m →
    ∃ m', get i (messages db') = Some m' ∧ msg_contact_id m' = msg_contact_id m
}.

Definition grows (db db' : Db) : Prop := db_wf db → db_wf db' ∧ grows_rows db db'.

#[global] Instance grows_rows_preorder : PreOrder grows_rows.
Proof.
  split.
  - intros db. split; [done|done|eauto|eauto].
  - intros a b c [E1 C1 T1 M1] [E2 C2 T2 M2]. split; [by etrans|by auto| |].
    + intros i x Hx. destruct (T1 _ _ Hx) as (y & Hy & ? & ?). destruct (T2 _ _ Hy) as (z & Hz & ? & ?).
      exists z. split_and!; [done|congruence..].
    + intros i x Hx. destruct (M1 _ _ Hx) as (y & Hy & ?). destruct (M2 _ _ Hy) as (z & Hz & ?).
      exists z. split; [done|congruence].
Qed.

#[global] Instance grows_preorder : PreOrder grows.
Proof.
  split; [by intros db Hwf|].
  intros a b c H1 H2 Hwf. destruct (H1 Hwf) as [Hb Hab]. destruct (H2 Hb) as [Hc Hbc].
  split; [done|by etrans].
Qed.

(** Interfering requests behave like requests of this program. *)
Record benign (env : Interference) : Prop := {
  bn_campaign : ∀ db, grows db (if_campaign env db);
  bn_contact : ∀ db, grows db (if_contact env db);
  bn_dispatch : ∀ db, grows db (if_dispatch env db)
}.

(** No interference. *)
Definition alone (utcnow : Z) (reply_reference public_reference : string) : Interference :=
  mkInterference id id id utcnow reply_reference public_reference.

Lemma alone_benign u r p : benign (alone u r p).
Proof. by split. Qed.

Definition quiet (env : Interference) : Prop :=
  ∀ db, if_campaign env db = db ∧ if_contact env db = db ∧ if_dispatch env db = db.

(** What a request leaves alone until its final transaction. *)
Definition same_mail (db db' : Db) : Prop :=
  dispatches db' = dispatches db ∧ messages db' = messages db.

Lemma M_bind_inv {A B} (m : M A) (k : A → M B) db db' r :
  (m ≫= k) db = (db', r) →
  (∃ e, m db = (db', Err e) ∧ r = Err e) ∨ (∃ db1 a, m db = (db1, Ok a) ∧ k a db1 = (db', r)).
Proof.
  unfold mbind, M_bind. destruct (m db) as [db1 [a|e]] eqn:E; [eauto|].
  intros [= <- <-]. left. eauto.
Qed.

Lemma query_bind {A B} (f : Db → A) (k : A → M B) db : (query f ≫= k) db = k (f db) db.
Proof. reflexivity. Qed.
Lemma others_bind {B} f (k : unit → M B) db : (others f ≫= k) db = k () (f db).
Proof. reflexivity. Qed.
Lemma try_commit_bind {E A B} (f : Db → result E (Db * A)) (k : result E A → M B) db :
  (try_commit f ≫= k) db = match f db with Ok (db', a) => k (Ok a) db' | Err e => k (Err e) db end.
Proof. unfold mbind, M_bind, try_commit. by destruct (f db) as [[? ?]|]. Qed.

Lemma set_campaigns_grows mk db c t :
  (∀ i, row_id (mk i) = i) →
  insert_unique campaign_clash "uq_campaigns_org_integration_source" mk (campaigns db) = Ok (c, t) →
  grows db (set_campaigns t db).
Proof.
  intros Hid [_ Hi]%insert_unique_Ok Hwf.
  assert (t = snd (insert_row mk (campaigns db))) as -> by by rewrite <- Hi.
  destruct Hwf. split.
  - split; cbn; try done. by apply insert_row_wf.
  - split; [by apply evolves_same| |eauto|eauto].
    intros i x Hx. cbn. rewrite insert_row_get_old; try done. by eapply get_lt_next.
Qed.

Lemma set_contacts_grows mk db c t :
  (∀ i, row_id (mk i) = i) →
  insert_unique contact_clash "uq_contacts_campaign_email" mk (contacts db) = Ok (c, t) →
  grows db (set_contacts t db).
Proof.
  intros Hid [_ Hi]%insert_unique_Ok Hwf.
  assert (t = snd (insert_row mk (contacts db))) as -> by by rewrite <- Hi.
  destruct Hwf. split.
  - split; cbn; try done. by apply insert_row_wf.
  - split; [by apply evolves_same|done| |eauto].
    intros i x Hx. exists x. cbn. rewrite insert_row_get_old; try done. by eapply get_lt_next.
Qed.

(** Adding a queued dispatch is an evolution. *)
Lemma insert_dispatch_evolves mk (db db' : Db) :
  (∀ i, row_id (mk i) = i) → (∀ i, initial_dispatch (mk i)) → table_wf (dispatches db) →
  dispatches db' = snd (insert_row mk (dispatches db)) → evolves db db'.
Proof.
  intros Hid Hini Hwf E. split.
  - intros _. rewrite E. by apply insert_row_wf.
  - intros i d Hg. exists d. split; [|done]. rewrite E, insert_row_get_old; try done.
    by eapply get_lt_next.
  - intros i d Hg Hn. rewrite E in Hg. apply get_Some in Hg as [Hin Hi].
    apply insert_row_In in Hin as [Hin| ->].
    + exfalso. subst i. by rewrite (get_complete _ d Hwf Hin) in Hn.
    + exists (mk (next_id (dispatches db))). split; [apply Hini|done].
Qed.

Lemma commit_message_and_dispatch_inv message dispatch db db' d :
  (∀ i, row_id (message i) = i) → (∀ m i, row_id (dispatch m i) = i) →
  (∀ m i, initial_dispatch (dispatch m i)) →
  commit_message_and_dispatch message dispatch db = Ok (db', d) →
  rows (messages db') = rows (messages db) ++ [message (next_id (messages db))] ∧
  rows (dispatches db') = rows (dispatches db) ++ [d] ∧
  d = dispatch (next_id (messages db)) (next_id (dispatches db)) ∧
  campaigns db' = campaigns db ∧ contacts db' = contacts db ∧ mailboxes db' = mailboxes db ∧
  grows db db'.
Proof.
  intros Hm Hd Hini. unfold commit_message_and_dispatch.
  destruct (insert_unique message_clash _ _ _) as [[m tm]|] eqn:Em; [|done].
  destruct (insert_unique dispatch_clash _ _ _) as [[d0 td]|] eqn:Ed; [|done].
  intros [= <- <-]. pose proof Ed as Ed'.
  apply insert_unique_Ok in Em as [_ Em], Ed as [_ Ed].
  assert (m = message (next_id (messages db))) as ->
    by (change m with (fst (m, tm)); by rewrite Em).
  assert (tm = snd (insert_row message (messages db))) as -> by by rewrite <- Em.
  change (msg_id (message (next_id (messages db)))) with (row_id (message (next_id (messages db)))) in *.
  rewrite Hm in *.
  assert (td = snd (insert_row (dispatch (next_id (messages db))) (dispatches db))) as Htd
    by by rewrite <- Ed.
  assert (d0 = dispatch (next_id (messages db)) (next_id (dispatches db))) as Hd0
    by (change d0 with (fst (d0, td)); by rewrite Ed).
  split_and!; try done.
  - cbn. by rewrite Htd, Hd0.
  - intros Hwf. split.
    + destruct Hwf. split; cbn; try done.
      * by apply insert_row_wf.
      * rewrite Htd. by apply insert_row_wf.
      * by eapply unique_dispatches_insert.
    + destruct Hwf. split; cbn.
      * by apply (insert_dispatch_evolves (dispatch (next_id (messages db)))).
      * done.
      * eauto.
      * intros i x Hx. exists x. rewrite insert_row_get_old; try done. by eapply get_lt_next.
Qed.

Lemma get_or_create_campaign_grows settings env org db db' r :
  benign env → get_or_create_integration_campaign settings env org db = (db', r) → grows db db'.
Proof.
  intros Hb. unfold get_or_create_integration_campaign. rewrite query_bind.
  destruct (find_integration_campaign org db); [by intros [= <- <-]|].
  destruct (bool_decide _); [by intros [= <- <-]|]. rewrite others_bind, try_commit_bind.
  pose proof (bn_campaign _ Hb db) as Hg. set (db1 := if_campaign env db) in *.
  destruct (insert_unique _ _ _ (campaigns db1)) as [[c t]|e] eqn:Ei.
  - intros [= <- <-]. etrans; [exact Hg|]. by eapply set_campaigns_grows, Ei.
  - rewrite query_bind. destruct (find_integration_campaign org db1); by intros [= <- <-].
Qed.

Lemma reject_followup_db c db db' r :
  reject_if_contact_has_active_followup c db = (db', r) → db' = db.
Proof. unfold reject_if_contact_has_active_followup. case_match; by intros [= <- <-]. Qed.

Lemma get_or_create_contact_grows env cid email name db db' r :
  benign env → get_or_create_integration_contact env cid email name db = (db', r) → grows db db'.
Proof.
  intros Hb. unfold get_or_create_integration_contact. rewrite query_bind.
  destruct (find_contact cid email db) as [c|].
  { intros [(e & Hr & _)|(db1 & [] & Hr & [= <- <-])]%M_bind_inv;
      apply reject_followup_db in Hr as ->; done. }
  rewrite others_bind, try_commit_bind.
  pose proof (bn_contact _ Hb db) as Hg. set (db1 := if_contact env db) in *.
  destruct (insert_unique _ _ _ (contacts db1)) as [[c t]|e] eqn:Ei.
  - intros [= <- <-]. etrans; [exact Hg|]. by eapply set_contacts_grows, Ei.
  - rewrite query_bind. destruct (find_contact cid email db1) as [c|]; [|by intros [= <- <-]].
    intros [(e' & Hr & _)|(db2 & [] & Hr & [= <- <-])]%M_bind_inv;
      apply reject_followup_db in Hr as ->; done.
Qed.

Lemma resolve_mailbox_inv org db db' r :
  resolve_sole_active_mailbox org db = (db', r) →
  db' = db ∧ ∀ i, r = Ok i → ∃ mb, In mb (rows (mailboxes db)) ∧ mb_id mb = i ∧
    mb_organization_id mb = org ∧ mb_status mb = MB_ACTIVE ∧
    (∀ mb', In mb' (rows (mailboxes db)) → mb_organization_id mb' = org →
            mb_status mb' = MB_ACTIVE → mb' = mb).
Proof.
  unfold resolve_sole_active_mailbox. rewrite query_bind.
  destruct (select _ (mailboxes db)) as [|mb [|mb2 l]] eqn:E; cbn;
    intros [= <- <-]; split; try done.
  intros i [= <-]. assert (In mb (select (λ m, (mb_organization_id m == org)
    && (mb_status m == MB_ACTIVE)) (mailboxes db))) as [Hin Hp]%select_In by (rewrite E; by left).
  exists mb. bools. split_and!; try done. intros mb' Hin' Ho Hs.
  assert (In mb' [mb]) as [<-|[]]; [|done]. rewrite <- E. apply select_In.
  split; [done|]. by rewrite !bool_decide_eq_true_2.
Qed.

(** ** Facts: what the get-or-create steps return *)

(** A query whose predicate fixes the key finds the row with that key. *)
Lemma select_first_pk {A} `{Row A} (p : A → bool) t i r :
  table_wf t → get i t = Some r → p r = true → (∀ x, p x = true → row_id x = i) →
  select_first p t = Some r.
Proof.
  intros Hwf Hg Hp Hi. apply get_Some in Hg as [Hin Hid].
  destruct (select_first p t) as [x|] eqn:E.
  - apply select_first_Some in E as [Hx Hpx]. f_equal. eapply table_wf_inj; eauto.
    rewrite Hid. by apply Hi.
  - by rewrite (proj1 (select_first_None _ _) E r Hin) in Hp.
Qed.

Lemma find_dispatch_complete db d :
  table_wf (dispatches db) → unique_dispatches (dispatches db) → In d (rows (dispatches db)) →
  find_dispatch (ed_organization_id d) (ed_idempotency_key d) db = Some d.
Proof.
  intros Hwf Hu Hin. unfold find_dispatch.
  destruct (select_first _ _) as [x|] eqn:E.
  - apply select_first_Some in E as [Hx Hp]. f_equal. apply (table_wf_inj _ _ _ Hwf Hx Hin).
    apply Hu; try done. unfold dispatch_clash. by rewrite Hp.
  - pose proof (proj1 (select_first_None _ _) E d Hin) as Hn. cbn in Hn.
    by rewrite !bool_decide_eq_true_2 in Hn.
Qed.

Lemma find_dispatch_Some org key db d :
  find_dispatch org key db = Some d →
  In d (rows (dispatches db)) ∧ ed_organization_id d = org ∧ ed_idempotency_key d = key.
Proof. intros [Hin Hp]%select_first_Some. bools. done. Qed.

Lemma find_campaign_Some org db c :
  table_wf (campaigns db) → find_integration_campaign org db = Some c →
  get (cp_id c) (campaigns db) = Some c ∧ cp_organization_id c = Some org ∧
  cp_integration_source c = Some LEADBOOST_INTEGRATION_SOURCE.
Proof.
  intros Hwf [Hin Hp]%select_first_Some. bools. split_and!; try done.
  by apply (get_complete _ c).
Qed.

Lemma get_or_create_campaign_Ok settings env org db db' c :
  benign env → db_wf db →
  get_or_create_integration_campaign settings env org db = (db', Ok c) →
  get (cp_id c) (campaigns db') = Some c ∧ cp_organization_id c = Some org ∧
  cp_integration_source c = Some LEADBOOST_INTEGRATION_SOURCE.
Proof.
  intros Hb Hwf. unfold get_or_create_integration_campaign. rewrite query_bind.
  destruct (find_integration_campaign org db) as [x|] eqn:E.
  { intros [= <- <-]. apply find_campaign_Some; [by destruct Hwf|done]. }
  destruct (bool_decide _); [done|]. rewrite others_bind, try_commit_bind.
  destruct (bn_campaign _ Hb db Hwf) as [Hwf1 _]. set (db1 := if_campaign env db) in *.
  destruct (insert_unique _ _ _ (campaigns db1)) as [[y t]|e] eqn:Ei.
  - intros [= <- <-]. apply insert_unique_Ok in Ei as [_ Ei].
    assert (t = snd (insert_row (new_integration_campaign settings org (if_utcnow env)) (campaigns db1)))
      as -> by by rewrite <- Ei.
    assert (y = new_integration_campaign settings org (if_utcnow env) (next_id (campaigns db1))) as ->
      by (change y with (fst (y, snd (insert_row (new_integration_campaign settings org (if_utcnow env))
            (campaigns db1)))); by rewrite Ei).
    split_and!; try done. apply insert_row_get_new; [by destruct Hwf1|done].
  - rewrite query_bind. destruct (find_integration_campaign org db1) as [x|] eqn:Ew; [|done].
    intros [= <- <-]. apply find_campaign_Some; [by destruct Hwf1|done].
Qed.

Lemma find_contact_Some cid email db c :
  table_wf (contacts db) → find_contact cid email db = Some c →
  get (ct_id c) (contacts db) = Some c ∧ ct_campaign_id c = cid ∧ ct_email c = email.
Proof.
  intros Hwf [Hin Hp]%select_first_Some. bools. split_and!; try done.
  by apply (get_complete _ c).
Qed.

Lemma reject_followup_Ok c db db' u :
  reject_if_contact_has_active_followup c db = (db', Ok u) → db' = db ∧ ct_next_action_at c = None.
Proof.
  unfold reject_if_contact_has_active_followup, is_not_none.
  destruct (ct_next_action_at c); cbn; [done|]. by intros [= <- _].
Qed.

Lemma get_or_create_contact_Ok env cid email name db db' c :
  benign env → db_wf db →
  get_or_create_integration_contact env cid email name db = (db', Ok c) →
  get (ct_id c) (contacts db') = Some c ∧ ct_campaign_id c = cid ∧ ct_email c = email ∧
  ct_next_action_at c = None.
Proof.
  intros Hb Hwf. unfold get_or_create_integration_contact. rewrite query_bind.
  destruct (find_contact cid email db) as [x|] eqn:E.
  { intros [(e & _ & ?)|(db1 & [] & Hr & [= <- <-])]%M_bind_inv; [done|].
    apply reject_followup_Ok in Hr as [-> Hn].
    destruct (find_contact_Some _ _ _ _ (wf_contacts _ Hwf) E) as (? & ? & ?). done. }
  rewrite others_bind, try_commit_bind.
  destruct (bn_contact _ Hb db Hwf) as [Hwf1 _]. set (db1 := if_contact env db) in *.
  destruct (insert_unique _ _ _ (contacts db1)) as [[y t]|e] eqn:Ei.
  - intros [= <- <-]. apply insert_unique_Ok in Ei as [_ Ei].
    set (mk := new_integration_contact cid email name (if_utcnow env)) in *.
    assert (t = snd (insert_row mk (contacts db1))) as -> by by rewrite <- Ei.
    assert (y = mk (next_id (contacts db1))) as ->
      by (change y with (fst (y, snd (insert_row mk (contacts db1)))); by rewrite Ei).
    split_and!; try done. apply insert_row_get_new; [by destruct Hwf1|done].
  - rewrite query_bind. destruct (find_contact cid email db1) as [x|] eqn:Ew; [|done].
    intros [(e' & _ & ?)|(db2 & [] & Hr & [= <- <-])]%M_bind_inv; [done|].
    apply reject_followup_Ok in Hr as [-> Hn].
    destruct (find_contact_Some _ _ _ _ (wf_contacts _ Hwf1) Ew) as (? & ? & ?). done.
Qed.

Lemma converge_inv detail fp org key e db db' r :
  converge detail fp org key e db = (db', r) →
  db' = db ∧ ∀ a, r = Ok a → ∃ d, find_dispatch org key db = Some d ∧
    ed_request_fingerprint d = fp ∧ a = accepted_response d.
Proof.
  unfold converge. rewrite query_bind. destruct (find_dispatch org key db) as [d|];
    [|by intros [= <- <-]]. unfold replay_or_conflict.
  destruct (bool_decide _) eqn:E; intros [= <- <-]; split; try done.
  intros a [= <-]. bools. eauto.
Qed.

Lemma get_or_create_campaign_mail settings env org db db' r :
  quiet env → get_or_create_integration_campaign settings env org db = (db', r) → same_mail db db'.
Proof.
  intros Hq. unfold get_or_create_integration_campaign. rewrite query_bind.
  destruct (find_integration_campaign org db); [by intros [= <- <-]|].
  destruct (bool_decide _); [by intros [= <- <-]|]. rewrite others_bind, try_commit_bind.
  destruct (Hq db) as (-> & _ & _).
  destruct (insert_unique _ _ _ (campaigns db)) as [[c t]|e]; [by intros [= <- <-]|].
  rewrite query_bind. destruct (find_integration_campaign org db); by intros [= <- <-].
Qed.

Lemma get_or_create_contact_mail env cid email name db db' r :
  quiet env → get_or_create_integration_contact env cid email name db = (db', r) → same_mail db db'.
Proof.
  intros Hq. unfold get_or_create_integration_contact. rewrite query_bind.
  assert (∀ c (k : unit → M Contact), (∀ db0 db1 r0, k () db0 = (db1, r0) → db1 = db0) →
    (reject_if_contact_has_active_followup c ≫= k) db = (db', r) → same_mail db db') as Hrej.
  { intros c k Hk [(e & Hr & _)|(db1 & [] & Hr & Hr')]%M_bind_inv.
    - by apply reject_followup_db in Hr as ->.
    - apply Hk in Hr' as ->. by apply reject_followup_db in Hr as ->. }
  destruct (find_contact cid email db) as [c|].
  { apply Hrej. by intros ??? [= <- _]. }
  rewrite others_bind, try_commit_bind. destruct (Hq db) as (_ & -> & _).
  destruct (insert_unique _ _ _ (contacts db)) as [[c t]|e]; [by intros [= <- <-]|].
  rewrite query_bind. destruct (find_contact cid email db); [|by intros [= <- <-]].
  apply Hrej. by intros ??? [= <- _].
Qed.

Lemma find_dispatch_same_mail org key db db' :
  same_mail db db' → find_dispatch org key db' = find_dispatch org key db.
Proof. intros [H _]. unfold find_dispatch. by rewrite H. Qed.

#[global] Instance same_mail_preorder : PreOrder same_mail.
Proof. split; [done|]. intros a b c [H1 H2] [H3 H4]. split; congruence. Qed.

(** ** The exact-message route as a whole *)

Definition request_fingerprint `{Sha256} (payload : OutreachActionIn) : string :=
  compute_request_fingerprint (oa_external_action_id payload) (oa_recipient_email payload)
    (oa_recipient_name payload) (oa_subject payload) (oa_body payload).

(** [i] is the mailbox the organization's mail leaves from: it is the
    organization's, ACTIVE, and the only one that is. *)
Definition sole_active_mailbox (org : string) (db : Db) (i : Z) : Prop :=
  ∃ mb, In mb (rows (mailboxes db)) ∧ mb_id mb = i ∧ mb_organization_id mb = org ∧ mb_status mb = MB_ACTIVE ∧
    ∀ mb', In mb' (rows (mailboxes db)) → mb_organization_id mb' = org → mb_status mb' = MB_ACTIVE → mb' = mb.

(** The dispatch and message a fresh acceptance creates, wired to the
    organization's integration campaign, the recipient's contact in it and the
    organization's sole ACTIVE mailbox. *)
Record accepted_effect `{Sha256} (org : string) (payload : OutreachActionIn) (db db' : Db)
    (d : ExternalDispatch) (m : Message) (ct : Contact) (cp : Campaign) : Prop := {
  ae_dispatch : get (ed_id d) (dispatches db') = Some d;
  ae_identity : ed_organization_id d = org ∧ ed_idempotency_key d = oa_idempotency_key payload ∧
                ed_request_fingerprint d = request_fingerprint payload ∧ ed_state d = QUEUED;
  ae_message : get (msg_id m) (messages db') = Some m ∧ ed_message_id d = Some (msg_id m) ∧
               msg_body m = oa_body payload ∧ msg_subject m = oa_subject payload ∧
               msg_status m = MS_DRAFT ∧ msg_direction m = OUTBOUND ∧ msg_contact_id m = ct_id ct;
  ae_contact : get (ct_id ct) (contacts db') = Some ct ∧ ed_contact_id d = ct_id ct ∧
               ct_campaign_id ct = cp_id cp ∧ ct_email ct = oa_recipient_email payload;
  ae_campaign : get (cp_id cp) (campaigns db') = Some cp ∧ ed_campaign_id d = cp_id cp ∧
                cp_organization_id cp = Some org ∧
                cp_integration_source cp = Some LEADBOOST_INTEGRATION_SOURCE;
  ae_mailbox : ∃ i, ed_mailbox_id d = Some i ∧ sole_active_mailbox org db i
}.

(** [d] and [m] are the only dispatch and message the request added. *)
Definition only_added (db db' : Db) (d : ExternalDispatch) (m : Message) : Prop :=
  rows (dispatches db') = rows (dispatches db) ++ [d] ∧ rows (messages db') = rows (messages db) ++ [m].

(** The final commit wires the new rows to the ones the request resolved. *)
Lemma committed_effect `{Sha256} env org payload mid i ct cp db db3 db4 d :
  db_wf db3 → get i (contacts db3) = Some ct → ct_campaign_id ct = cp_id cp →
  ct_email ct = oa_recipient_email payload → get (cp_id cp) (campaigns db3) = Some cp →
  cp_organization_id cp = Some org → cp_integration_source cp = Some LEADBOOST_INTEGRATION_SOURCE →
  sole_active_mailbox org db mid →
  commit_message_and_dispatch
    (create_authorized_message i (oa_subject payload) (oa_body payload)
       (if_utcnow env) (if_reply_reference env))
    (λ message_id, new_dispatch org (oa_idempotency_key payload) (oa_external_action_id payload)
       (oa_correlation_id payload) (cp_id cp) i (Some message_id) mid (request_fingerprint payload)
       None (if_public_reference env) (if_utcnow env)) db3 = Ok (db4, d) →
  grows db3 db4 ∧ ∃ m, accepted_effect org payload db db4 d m ct cp ∧
    only_added db3 db4 d m.
Proof.
  intros Hwf3 Hct Hcc Hce Hcp Hcpo Hcps Hmb Ec.
  apply commit_message_and_dispatch_inv in Ec as (Hms & Hds & Hd & Hca & Hco & _ & G4); [|done..].
  destruct (G4 Hwf3) as [Hwf4 _]. split; [done|].
  assert (ct_id ct = i) as <- by (by apply get_Some in Hct as [_ ?]).
  exists (create_authorized_message (ct_id ct) (oa_subject payload) (oa_body payload)
            (if_utcnow env) (if_reply_reference env) (next_id (messages db3))).
  split; [|done]. split.
  - apply (get_complete _ d); [by destruct Hwf4|]. rewrite Hds. apply in_or_app. right. by left.
  - by rewrite Hd.
  - split_and!; [|by rewrite Hd|done..].
    set (m := create_authorized_message _ _ _ _ _ _).
    apply (get_complete _ m); [by destruct Hwf4|]. rewrite Hms. apply in_or_app. right. by left.
  - rewrite Hco. split_and!; [done|by rewrite Hd|done..].
  - rewrite Hca. by split_and!; [|by rewrite Hd|..].
  - exists mid. by rewrite Hd.
Qed.

(** The four ways a request ends: replay, conflict, refusal (or a lost race
    with another payload), acceptance (its own or the race winner's row). *)
Lemma create_action_inv `{Sha256} settings env org payload db db' r :
  benign env → db_wf db →
  create_leadboost_outreach_action settings env org payload db = (db', r) →
  (∃ d, find_dispatch org (oa_idempotency_key payload) db = Some d ∧ db' = db ∧
        r = if ed_request_fingerprint d == request_fingerprint payload
            then Ok (accepted_response d) else Err (HTTPException 409 conflict_detail)) ∨
  (find_dispatch org (oa_idempotency_key payload) db = None ∧ grows db db' ∧
   ((∃ e, r = Err e ∧ (quiet env → same_mail db db')) ∨
    (∃ d, find_dispatch org (oa_idempotency_key payload) db' = Some d ∧
          ed_request_fingerprint d = request_fingerprint payload ∧ r = Ok (accepted_response d) ∧
          ~ quiet env) ∨
    (∃ d m ct cp, accepted_effect org payload db db' d m ct cp ∧ (quiet env → only_added db db' d m) ∧
       r = Ok (accepted_response d)))).
Proof.
  intros Hb Hwf. unfold create_leadboost_outreach_action. rewrite query_bind.
  fold (request_fingerprint payload).
  destruct (find_dispatch org (oa_idempotency_key payload) db) as [d|] eqn:Ef.
  { unfold replay_or_conflict. intros Hr. left. exists d. split; [done|].
    destruct (bool_decide _); by injection Hr as <- <-. }
  intros Hr. right. split; [done|].
  apply M_bind_inv in Hr as [(e & Hm & ->)|(db0 & mid & Hm & Hr)];
    apply resolve_mailbox_inv in Hm as [-> Hmb]; [split; [done|]; left; by exists e|].
  apply M_bind_inv in Hr as [(e & Hc & ->)|(db1 & cp & Hc & Hr)];
    [split; [by eapply get_or_create_campaign_grows|];
     left; exists e; split; [done|]; intros Hq; by eapply get_or_create_campaign_mail|].
  pose proof (get_or_create_campaign_grows _ _ _ _ _ _ Hb Hc) as G1.
  destruct (G1 Hwf) as [Hwf1 R1].
  destruct (get_or_create_campaign_Ok _ _ _ _ _ _ Hb Hwf Hc) as (Hcp & Hcpo & Hcps).
  assert (quiet env → same_mail db db1) as Q1 by (intros Hq; by eapply get_or_create_campaign_mail).
  apply M_bind_inv in Hr as [(e & Ht & ->)|(db2 & ct & Ht & Hr)].
  { split; [etrans; [exact G1|by eapply get_or_create_contact_grows]|].
    left. exists e. split; [done|]. intros Hq. etrans; [by apply Q1|].
    by eapply get_or_create_contact_mail. }
  pose proof (get_or_create_contact_grows _ _ _ _ _ _ _ Hb Ht) as G2.
  destruct (G2 Hwf1) as [Hwf2 R2].
  destruct (get_or_create_contact_Ok _ _ _ _ _ _ _ Hb Hwf1 Ht) as (Hct & Hctc & Hcte & _).
  rewrite others_bind, try_commit_bind in Hr.
  pose proof (bn_dispatch _ Hb db2) as G3. destruct (G3 Hwf2) as [Hwf3 R3].
  assert (quiet env → same_mail db (if_dispatch env db2)) as Q3.
  { intros Hq. destruct (Hq db2) as (_ & _ & ->). etrans; [by apply Q1|].
    by eapply get_or_create_contact_mail. }
  set (db3 := if_dispatch env db2) in *.
  assert (grows db db3) as G by (etrans; [exact G1|by etrans]).
  destruct (commit_message_and_dispatch _ _ db3) as [[db4 d]|[e|e]] eqn:Ec.
  - injection Hr as <- <-. destruct (gr_contacts _ _ R3 _ _ Hct) as (ct' & Hct' & Hcc & Hce).
    apply (gr_campaigns _ _ R2), (gr_campaigns _ _ R3) in Hcp.
    apply (committed_effect _ _ _ _ _ ct' _ db) in Ec as (G4 & m & Hm & Ha & Hb'); [|try congruence..].
    2:{ by apply Hmb. }
    split; [by etrans|]. right; right. exists d, m, ct', cp. split_and!; [done| |done].
    intros Hq. destruct (Q3 Hq) as [Hds Hms]. split; congruence.
  - injection Hr as <- <-. split; [done|]. left. by exists (Unhandled e).
  - apply converge_inv in Hr as [-> Ha]. split; [done|].
    destruct r as [a|x]; [|left; by exists x]. destruct (Ha a eq_refl) as (d & Hfd & ? & ->).
    right; left. exists d. split_and!; try done.
    intros Hq. by rewrite (find_dispatch_same_mail _ _ _ _ (Q3 Hq)), Ef in Hfd.
Qed.

Lemma accepted_effect_found `{Sha256} org payload db db' d m ct cp :
  db_wf db' → accepted_effect org payload db db' d m ct cp →
  find_dispatch org (oa_idempotency_key payload) db' = Some d.
Proof.
  intros Hwf [Hg (Ho & Hk & _ & _) _ _ _ _]. apply get_Some in Hg as [Hin _].
  rewrite <- Ho, <- Hk. by apply find_dispatch_complete; destruct Hwf.
Qed.

(** The dispatch found under a key survives, with its identity, in every later
    database. *)
Lemma find_dispatch_evolves org key db db' d :
  db_wf db → db_wf db' → evolves db db' → find_dispatch org key db = Some d →
  ∃ d', find_dispatch org key db' = Some d' ∧ same_identity d d'.
Proof.
  intros Hwf Hwf' Hev Hf. apply find_dispatch_Some in Hf as (Hin & Ho & Hk).
  pose proof (get_complete _ d (wf_dispatches _ Hwf) Hin) as Hg.
  destruct (ev_kept _ _ Hev _ _ Hg) as (d' & Hg' & Hs).
  pose proof (dispatch_steps_identity _ _ Hs) as Hid. exists d'. split; [|done].
  apply get_Some in Hg' as [Hin' _]. destruct Hid as (_ & Ho' & Hk' & _).
  rewrite <- Ho, <- Hk, <- Ho', <- Hk'. by apply find_dispatch_complete; destruct Hwf'.
Qed.

(** The canonical text, as a chain of members. *)
Lemma canonical_request_eq a e n s b :
  canonical_request a e n s b =
  "{" +:+ json_string "body" +:+ ":" +:+ json_string b
  +:+ "," +:+ json_string "external_action_id" +:+ ":" +:+ json_opt a
  +:+ "," +:+ json_string "recipient_email" +:+ ":" +:+ json_string e
  +:+ "," +:+ json_string "recipient_name" +:+ ":" +:+ json_opt n
  +:+ "," +:+ json_string "subject" +:+ ":" +:+ json_opt s +:+ "}".
Proof.
  unfold canonical_request, json_object. cbn [map Str.join]. by rewrite !string_app_assoc.
Qed.

(** Peel the members of two canonical texts that agree on their keys. *)
Ltac peel :=
  repeat match goal with
  | H : ?k +:+ ?v = ?k +:+ ?v' |- _ => apply string_app_inj in H
  | H : json_string _ +:+ _ = json_string _ +:+ _ |- _ => apply json_string_inj in H as [? H]
  | H : json_opt _ +:+ _ = json_opt _ +:+ _ |- _ => apply json_opt_inj in H as [? H]
  end.

(** The database keeps at most one dispatch per (organization, key), and no
    two dispatches share a public reference, whatever requests race; an
    accepted request moves existing dispatches only along the lifecycle. *)
Lemma intake_preserves_wf `{Sha256} settings env org payload db db' r :
  benign env → db_wf db →
  create_leadboost_outreach_action settings env org payload db = (db', r) →
  db_wf db' ∧ evolves db db'.
Proof.
  intros Hb Hwf [(d & _ & -> & _)|(_ & G & _)]%create_action_inv; [done| |done..].
  destruct (G Hwf) as [? []]. done.
Qed.

(** The id of the organization's integration campaign: the existing one's, or
    the one a first request gets. *)
Definition campaign_id_for (org : string) (db : Db) : Z :=
  match find_integration_campaign org db with Some cp => cp_id cp | None => next_id (campaigns db) end.

(** Why an undisturbed request with a fresh key is refused. *)
Inductive refusal_cause (settings : Settings) (rref pref org : string) (payload : OutreachActionIn)
    (db : Db) : Prop :=
| NoSoleMailbox (Hno : ∀ i, ~ sole_active_mailbox org db i)
| NotConfigured (Hcampaign : find_integration_campaign org db = None)
    (Hsender : leadboost_integration_sender_email settings = "")
| FollowUpScheduled ct (Hcontact : find_contact (campaign_id_for org db) (oa_recipient_email payload) db = Some ct)
    (Hnext : ct_next_action_at ct <> None)
| ReplyReferenceTaken m (Hm : In m (rows (messages db))) (Href : msg_reply_reference m = Some rref)
| PublicReferenceTaken d (Hd : In d (rows (dispatches db))) (Href : ed_public_reference d = pref).

Lemma resolve_mailbox_Err org db db' e :
  table_wf (mailboxes db) → resolve_sole_active_mailbox org db = (db', Err e) →
  ∀ i, ~ sole_active_mailbox org db i.
Proof.
  intros Hwf. unfold resolve_sole_active_mailbox. rewrite query_bind.
  destruct (select _ (mailboxes db)) as [|x [|y l]] eqn:E; cbn; intros [= <- <-] i (mb & Hin & _ & Ho & Hs & Hu).
  - assert (In mb []) as []. rewrite <- E. apply select_In. split; [done|]. by rewrite !bool_decide_eq_true_2.
  - assert (∀ z, In z (x :: y :: l) → z = mb) as Hz.
    { intros z Hz. rewrite <- E in Hz. apply select_In in Hz as [? ?]. bools. by apply Hu. }
    assert (NoDup (map row_id (x :: y :: l))) as Hnd by (rewrite <- E; by apply select_NoDup_ids).
    rewrite (Hz x), (Hz y) in Hnd by (cbn; auto). apply NoDup_cons in Hnd as [Hnd _]. apply Hnd. left.
Qed.

Lemma undisturbed_campaign_Err settings u rref pref org db db' e :
  get_or_create_integration_campaign settings (alone u rref pref) org db = (db', Err e) →
  find_integration_campaign org db = None ∧ leadboost_integration_sender_email settings = "".
Proof.
  unfold get_or_create_integration_campaign. rewrite query_bind.
  destruct (find_integration_campaign org db) eqn:E; [done|].
  destruct (bool_decide _) eqn:Eb; [bools; done|]. rewrite others_bind, try_commit_bind. cbn.
  destruct (insert_unique _ _ _ _) as [[y t]|x] eqn:Ei; [done|]. exfalso.
  apply insert_unique_Err in Ei as (c & Hin & Hc). unfold campaign_clash in Hc. apply andb_prop in Hc as [? ?].
  repeat match goal with H : same_some _ _ = true |- _ => apply same_some_true in H as (? & Hx & ?); cbn in Hx; injection Hx as <- end.
  unfold find_integration_campaign in E. rewrite select_first_None in E. specialize (E c Hin). by rewrite !bool_decide_eq_true_2 in E.
Qed.

Lemma undisturbed_contact_Err u rref pref cid email name db db' e :
  get_or_create_integration_contact (alone u rref pref) cid email name db = (db', Err e) →
  ∃ ct, find_contact cid email db = Some ct ∧ ct_next_action_at ct <> None.
Proof.
  unfold get_or_create_integration_contact. rewrite query_bind.
  destruct (find_contact cid email db) as [ct|] eqn:E.
  - intros [(x & Hr & _)|(? & ? & _ & [=])]%M_bind_inv. exists ct. split; [done|].
    unfold reject_if_contact_has_active_followup in Hr. by destruct (ct_next_action_at ct).
  - rewrite others_bind, try_commit_bind. cbn.
    destruct (insert_unique _ _ _ _) as [[y t]|x] eqn:Ei; [done|]. exfalso.
    apply insert_unique_Err in Ei as (c & Hin & Hc). unfold contact_clash in Hc. cbn in Hc. bools.
    unfold find_contact in E. rewrite select_first_None in E. specialize (E c Hin).
    by rewrite !bool_decide_eq_true_2 in E.
Qed.

(** The campaign the request runs on, and what finding or creating it changed. *)
Lemma undisturbed_campaign_Ok settings u rref pref org db db1 cp :
  get_or_create_integration_campaign settings (alone u rref pref) org db = (db1, Ok cp) →
  cp_id cp = campaign_id_for org db ∧ contacts db1 = contacts db.
Proof.
  unfold get_or_create_integration_campaign, campaign_id_for. rewrite query_bind.
  destruct (find_integration_campaign org db) eqn:E; [by intros [= <- <-]|].
  destruct (bool_decide _); [done|]. rewrite others_bind, try_commit_bind. cbn.
  destruct (insert_unique _ _ _ _) as [[y t]|x] eqn:Ei.
  - apply insert_unique_Ok in Ei as [_ [= -> ->]]. by intros [= <- <-].
  - by rewrite query_bind, E.
Qed.

(** The final transaction fails only on one of the freshly drawn references. *)
Lemma commit_refused org key eid corr cp cid subj body mid fp u rref pref db e :
  find_dispatch org key db = None →
  commit_message_and_dispatch (create_authorized_message cid subj body u rref)
    (λ message_id, new_dispatch org key eid corr cp cid (Some message_id) mid fp None pref u) db = Err e →
  (∃ m, In m (rows (messages db)) ∧ msg_reply_reference m = Some rref) ∨
  (∃ d, In d (rows (dispatches db)) ∧ ed_public_reference d = pref).
Proof.
  intros Hn. unfold commit_message_and_dispatch.
  destruct (insert_unique message_clash _ _ _) as [[m tm]|] eqn:Em.
  - destruct (insert_unique dispatch_clash _ _ _) as [[? ?]|] eqn:Ed; [done|]. intros _. right.
    apply insert_unique_Err in Ed as (d & Hin & Hc). exists d. split; [done|].
    unfold dispatch_clash in Hc. cbn in Hc. apply orb_prop in Hc as [Hc|Hc]; bools; [|done].
    unfold find_dispatch in Hn. rewrite select_first_None in Hn. specialize (Hn d Hin).
    by rewrite !bool_decide_eq_true_2 in Hn.
  - intros _. left. apply insert_unique_Err in Em as (m & Hin & Hc). exists m. split; [done|].
    unfold message_clash in Hc. apply orb_prop in Hc as [Hc|Hc]; [cbn in Hc; by rewrite andb_false_r in Hc|].
    apply same_some_true in Hc as (x & Hx & ?). cbn in Hx. by injection Hx as <-.
Qed.

Lemma refused_with_cause `{Sha256} settings u rref pref org payload db db' e :
  db_wf db → find_dispatch org (oa_idempotency_key payload) db = None →
  create_leadboost_outreach_action settings (alone u rref pref) org payload db = (db', Err e) →
  refusal_cause settings rref pref org payload db.
Proof.
  intros Hwf Hn. unfold create_leadboost_outreach_action. rewrite query_bind, Hn.
  intros [(x & Hm & _)|(db0 & mid & Hm & Hr)]%M_bind_inv.
  { apply NoSoleMailbox. eapply resolve_mailbox_Err; [by destruct Hwf|done]. }
  apply resolve_mailbox_inv in Hm as [-> _].
  apply M_bind_inv in Hr as [(x & Hc & _)|(db1 & cp & Hc & Hr)].
  { apply undisturbed_campaign_Err in Hc as [? ?]. by apply NotConfigured. }
  destruct (undisturbed_campaign_Ok _ _ _ _ _ _ _ _ Hc) as [Hid Hcts].
  apply get_or_create_campaign_mail in Hc; [|done].
  apply M_bind_inv in Hr as [(x & Ht & _)|(db2 & ct & Ht & Hr)].
  { apply undisturbed_contact_Err in Ht as (ct & Hf & Hnx). apply (FollowUpScheduled _ _ _ _ _ _ ct); [|done].
    by rewrite <- Hid; unfold find_contact in *; rewrite <- Hcts. }
  apply get_or_create_contact_mail in Ht; [|done]. rewrite others_bind, try_commit_bind in Hr. cbn in Hr.
  assert (same_mail db db2) as Hs by (by etrans). pose proof (find_dispatch_same_mail org (oa_idempotency_key payload) _ _ Hs) as Hf.
  rewrite Hn in Hf. destruct Hs as [Hsd Hsm].
  destruct (commit_message_and_dispatch _ _ db2) as [[db4 d]|x] eqn:Ec; [done|].
  apply commit_refused in Ec; [|done]. rewrite Hsm, Hsd in Ec.
  destruct Ec as [(m & ? & ?)|(d & ? & ?)]; [by eapply ReplyReferenceTaken|by eapply PublicReferenceTaken].
Qed.

(** ** Theorems *)

(** The fingerprint text binds the whole request: two requests with the
    same canonical JSON have the same action id, recipient, name, subject and
    body, whatever quotes, braces or control characters they contain, and
    whichever optional fields are absent. *)
Theorem canonical_request_injective a e n s b a' e' n' s' b' :
  canonical_request a e n s b = canonical_request a' e' n' s' b' →
  a = a' ∧ e = e' ∧ n = n' ∧ s = s' ∧ b = b'.
Proof. rewrite !canonical_request_eq. intros H. peel. done. Qed.

Lemma canonical_request_injective_witness :
  canonical_request None "a@b.c" (Some "null") None "x" = canonical_request None "a@b.c" (Some "null") None "x"
  ∧ "x" = "x".
Proof. split; [reflexivity|]. by apply (canonical_request_injective None "a@b.c" (Some "null") None "x" None "a@b.c" (Some "null") None "x"). Defined.

(** C24: a key, once accepted, always answers the same.  After a request was
    accepted, repeating it at any later time (after any further lifecycle of
    the dispatches, with any interference and settings) returns the same
    reference and changes nothing; reusing the key for a request with another
    fingerprint is refused with 409 and changes nothing. *)
Theorem accepted_request_is_idempotent `{Sha256} settings env settings' env' org payload payload'
    db db1 db2 a :
  benign env → db_wf db →
  create_leadboost_outreach_action settings env org payload db = (db1, Ok a) →
  db_wf db2 → evolves db1 db2 →
  oa_idempotency_key payload' = oa_idempotency_key payload →
  create_leadboost_outreach_action settings' env' org payload' db2 =
    (db2, if request_fingerprint payload == request_fingerprint payload'
          then Ok a else Err (HTTPException 409 conflict_detail)).
Proof.
  intros Hb Hwf Hc Hwf2 Hev Hk.
  assert (db_wf db1 ∧ ∃ d, find_dispatch org (oa_idempotency_key payload) db1 = Some d ∧
    ed_request_fingerprint d = request_fingerprint payload ∧ a = accepted_response d)
    as (Hwf1 & d & Hf & Hfp & ->).
  { apply create_action_inv in Hc as [(d & Hf & -> & Hr)|(_ & G & Hr)]; [| |done..].
    - destruct (bool_decide _) eqn:E; [|done]. injection Hr as ->. bools. eauto.
    - destruct (G Hwf) as [Hwf1 _]. split; [done|].
      destruct Hr as [(e & ? & _)|[(d & ? & ? & [= ->] & _)|(d & m & ct & cp & He & _ & [= ->])]]; [done|by eauto|].
      exists d. split_and!; [by eapply accepted_effect_found| |done].
      by destruct He as [_ (_ & _ & ? & _) _ _ _ _]. }
  destruct (find_dispatch_evolves _ _ _ _ _ Hwf1 Hwf2 Hev Hf) as (d' & Hf' & Hid).
  unfold create_leadboost_outreach_action. rewrite query_bind, Hk, Hf'.
  fold (request_fingerprint payload'). unfold replay_or_conflict, accepted_response.
  destruct Hid as (_ & _ & _ & _ & _ & _ & _ & _ & -> & _ & -> & _). rewrite Hfp.
  by destruct (bool_decide _).
Qed.

(** C25: a fresh acceptance is complete, and a refusal has a cause.  With the
    key unused and no race, an accepted request adds exactly one dispatch and
    one message: the dispatch is queued and owned by the authenticated
    organization, the message a DRAFT with the caller's exact subject and
    body, and both are wired to the organization's integration campaign (the
    one whose source is leadboost), the recipient's contact in it and the
    organization's sole ACTIVE mailbox ([accepted_effect]).  A refused request
    creates neither, and is refused only because the organization has no
    sole ACTIVE mailbox, the deployment has no sender identity for a first
    campaign, the contact has a follow-up scheduled, or a freshly drawn
    reference is already in use ([refusal_cause]). *)
Theorem intake_accepts_verbatim `{Sha256} settings u rref pref org payload db db' r :
  db_wf db → find_dispatch org (oa_idempotency_key payload) db = None →
  create_leadboost_outreach_action settings (alone u rref pref) org payload db = (db', r) →
  match r with
  | Ok a => ∃ d m ct cp, accepted_effect org payload db db' d m ct cp ∧ only_added db db' d m ∧
              a = mkAccepted true (ed_public_reference d)
  | Err _ => dispatches db' = dispatches db ∧ messages db' = messages db ∧
             refusal_cause settings rref pref org payload db
  end.
Proof.
  intros Hwf Hn Hr. assert (quiet (alone u rref pref)) as Hq by done. pose proof Hr as Hr0.
  apply create_action_inv in Hr as [(d & Hf & _)|(_ & _ & Hr)];
    [by rewrite Hf in Hn| |apply alone_benign|done].
  destruct Hr as [(e & -> & Hs)|[(d & _ & _ & _ & Hnq)|(d & m & ct & cp & He & Ha & ->)]];
    [|done|exists d, m, ct, cp; by auto].
  destruct (Hs Hq). split_and!; [done..|]. by eapply refused_with_cause.
Qed.

(** *** Witnesses *)

Section IntakeWitnesses.
#[local] Instance sample_sha : Sha256 := λ s, s.

Definition sample_action : OutreachActionIn :=
  mkOutreachActionIn "key-9" (Some "act-9") None "bob@corp.io" (Some "Bob") (Some "Hello") "A new message.".
Definition sample_interference : Interference := alone 400 "r9" "ref-9".

Lemma accepted_request_is_idempotent_witness :
  ∃ db1 a, create_leadboost_outreach_action live_settings sample_interference "acme" sample_action sample_db
      = (db1, Ok a) ∧
    create_leadboost_outreach_action live_settings sample_interference "acme" sample_action db1 = (db1, Ok a).
Proof.
  destruct (create_leadboost_outreach_action live_settings sample_interference "acme" sample_action sample_db)
    as [db1 [a|e]] eqn:E; [|exfalso; vm_compute in E; discriminate E].
  exists db1, a. split; [reflexivity|].
  destruct (intake_preserves_wf _ _ _ _ _ _ _ (alone_benign _ _ _) sample_db_wf E) as [Hwf1 _].
  rewrite (accepted_request_is_idempotent _ _ live_settings sample_interference _ _ sample_action _ _ db1 _
    (alone_benign _ _ _) sample_db_wf E Hwf1 ltac:(reflexivity) eq_refl).
  by rewrite bool_decide_eq_true_2.
Defined.

Lemma intake_accepts_verbatim_witness :
  ∃ db1 a d m ct cp, create_leadboost_outreach_action live_settings sample_interference "acme" sample_action
      sample_db = (db1, Ok a) ∧ accepted_effect "acme" sample_action sample_db db1 d m ct cp.
Proof.
  destruct (create_leadboost_outreach_action live_settings sample_interference "acme" sample_action sample_db)
    as [db1 r] eqn:E.
  pose proof (intake_accepts_verbatim live_settings 400 "r9" "ref-9" "acme" sample_action sample_db db1 r
    sample_db_wf ltac:(vm_compute; reflexivity) E) as H.
  destruct r as [a|e]; [|exfalso; vm_compute in E; discriminate E].
  destruct H as (d & m & ct & cp & He & _ & _). exists db1, a, d, m, ct, cp. split; [reflexivity|exact He].
Defined.

End IntakeWitnesses.
