(* ===== verification/MailboxPolling.v ===== *)
(** * Mailbox polling

    [src/mailer_agent/mail/imap_reader.py] (parsing a raw message, draining an
    IMAP connection, the deployment-wide fetch) and
    [src/mailer_agent/mail/mailbox_inbound.py] (one cycle over every eligible
    mailbox, and its summary).

    The IMAP server and Python's MIME parser are interfaces: every answer or
    exception is allowed.  A poll threads the committed database; its result
    also lists the UIDs marked Seen, in order, and the SMTP trace of automatic
    replies.  For each message, [race] is what other transactions commit while
    it is processed. *)

From S2P Require Import Prelude Sql Models Config Samples SemanticModels StateMachine Sender Regex Threading Grounding ExactMessage WorkClaiming Lifecycle Llm Memory Classifier Guardrails Scheduling FollowUp Inbound InboundSafety ExternalDispatchWorker GenerationWorker WorkerStatus CanonicalJson Integrations.

#[local] Open Scope bool_scope.

(** ** Parsing *)

(** What the code uses of [email.message.Message]; a payload that cannot be
    decoded raises. *)
Record MimePart := mkPart {
  pt_content_type : string;
  pt_disposition : option string;
  pt_text : result exn string
}.
Record ParsedMail := mkParsedMail {
  mm_headers : list (string * string);
  mm_multipart : bool;
  mm_walk : list MimePart;
  mm_text : result exn string
}.

(** [email.message_from_bytes], the address of [parseaddr] and the decoded
    parts of [decode_header]. *)
Class EmailLib := {
  message_from_bytes : string → result exn ParsedMail;
  parseaddr : string → string;
  decode_header : string → result exn (list string)
}.

(** [msg.get(name)]: header names are case-insensitive. *)
Definition header (name : string) (msg : ParsedMail) : option string :=
  snd <$> List.find (λ h, Str.lower (fst h) == Str.lower name) (mm_headers msg).

Definition synthetic_message_id `{Sha256} (raw : string) : string := SYNTHETIC_ID_PREFIX +:+ sha256_hex raw.

Definition decode_value `{EmailLib} (value : option string) : result exn string :=
  if truthy value then parts ← decode_header (default "" value); mret (Str.join "" parts) else Ok "".

Definition extract_plain_text (msg : ParsedMail) : result exn string :=
  if mm_multipart msg then
    match List.find (λ p, (pt_content_type p == "text/plain")
                          && negb (Str.contains "attachment" (py_or (pt_disposition p) ""))) (mm_walk msg) with
    | Some p => pt_text p
    | None => Ok ""
    end
  else mm_text msg.

Definition parse_inbound_bytes `{EmailLib} `{Sha256} (raw : string) : result exn InboundEmail :=
  msg ← message_from_bytes raw;
  let from_addr := parseaddr (default "" (header "From" msg)) in
  let references := Str.split_ws (py_or (header "References" msg) "") in
  let auto_submitted_header := Str.lower (Str.strip (py_or (header "Auto-Submitted" msg) "no")) in
  let message_id := usable_message_id (header "Message-ID" msg) in
  subject ← decode_value (header "Subject" msg);
  body ← extract_plain_text msg;
  mret (mkInbound (Str.lower from_addr) subject (Str.strip body) message_id
          (if truthy (header "In-Reply-To" msg) then Str.strip <$> header "In-Reply-To" msg else None)
          references None (auto_submitted_header != "no")
          (if truthy message_id then None else Some (synthetic_message_id raw))).

(** ** One IMAP session *)

(** The usable part of a FETCH answer: no tuple, a tuple without bytes, bytes. *)
Inductive FetchBody := FB_none | FB_not_bytes | FB_raw (raw : string).

Record ImapServer := mkServer {
  sv_connect : option exn;
  sv_login : option exn;
  sv_select : result exn string;
  sv_search : result exn (string * list string);
  sv_fetch : string → result exn (string * FetchBody);
  sv_store : string → result exn string
}.

Definition open_authenticated_connection (server : ImapServer) : result exn () :=
  match sv_connect server with
  | Some e => Err e
  | None => match sv_login server with Some e => Err e | None => Ok () end
  end.

Definition imap_poll_error (message : string) : exn := mkExn (C_Other "ImapPollError") message.
Definition fetch_error (message : string) : exn := mkExn C_ValueError message.

Record DrainStats := mkDrain { seen_marked : Z; left_unseen : Z }.

Section Drain.
Context `{EmailLib} `{Sha256}.
Context {S : Type} (handler : string → InboundEmail → S → S * result exn InboundResult).

(** FETCH and parse. *)
Definition fetch_email (server : ImapServer) (uid : string) : result exn InboundEmail :=
  answer ← sv_fetch server uid;
  match answer with
  | (status, body) =>
      if status != "OK" then Err (fetch_error "fetch returned no message body")
      else match body with
           | FB_none => Err (fetch_error "fetch returned no message body")
           | FB_not_bytes => Err (fetch_error "fetch returned a non-bytes body")
           | FB_raw raw => parse_inbound_bytes raw
           end
  end.

Definition stored (r : result exn string) : bool := match r with Ok s => s == "OK" | Err _ => false end.

(** The loop over the UIDs; [seen] are those flagged so far. *)
Fixpoint drain_uids (server : ImapServer) (uids : list string) (s : S) (stats : DrainStats) (seen : list string)
    : S * DrainStats * list string :=
  match uids with
  | [] => (s, stats, seen)
  | uid :: rest =>
      let left := mkDrain (seen_marked stats) (left_unseen stats + 1) in
      match fetch_email server uid with
      | Err _ => drain_uids server rest s left seen
      | Ok e =>
          match handler uid e s with
          | (s, Err _) => drain_uids server rest s left seen
          | (s, Ok _) =>
              if stored (sv_store server uid)
              then drain_uids server rest s (mkDrain (seen_marked stats + 1) (left_unseen stats)) (seen ++ [uid])
              else drain_uids server rest s left seen
          end
      end
  end.

Definition drain_unseen (server : ImapServer) (s : S) : S * result exn DrainStats * list string :=
  match (status ← sv_select server;
         _ ← raise_if (status != "OK") (imap_poll_error "IMAP SELECT INBOX was refused");
         found ← sv_search server;
         _ ← raise_if (fst found != "OK") (imap_poll_error "IMAP SEARCH UNSEEN was refused");
         mret (snd found)) with
  | Err e => (s, Err e, [])
  | Ok uids =>
      let '(s, stats, seen) := drain_uids server uids s (mkDrain 0 0) [] in (s, Ok stats, seen)
  end.
End Drain.

(** ** One mailbox *)

Definition STATUS_OK : string := "ok".
Definition STATUS_SKIPPED : string := "skipped_ineligible".
Definition STATUS_CREDENTIAL_UNAVAILABLE : string := "credential_unavailable".
Definition STATUS_IMAP_ERROR : string := "imap_error".
Definition STATUS_UNEXPECTED : string := "unexpected_error".

Record MailboxImapTarget := mkTarget {
  tg_mailbox_id : Z;
  tg_organization_id : string;
  tg_public_reference : string;
  tg_imap_host : string;
  tg_imap_port : Z;
  tg_imap_username : string;
  tg_imap_password_enc : string
}.

Record MailboxPollOutcome := mkPollOutcome {
  po_mailbox_id : Z;
  po_public_reference : option string;
  po_status : string;
  po_processed : Z;
  po_left_unseen : Z;
  po_error_type : option string;
  po_handled : Counts;
  po_classification_succeeded : Z;
  po_classification_failed : Z
}.
Definition new_outcome (mailbox_id : Z) (public_reference : option string) (status : string)
    (error_type : option string) : MailboxPollOutcome :=
  mkPollOutcome mailbox_id public_reference status 0 0 error_type [] 0 0.
Definition set_po_failure (status : string) (error_type : option string) (o : MailboxPollOutcome)
    : MailboxPollOutcome :=
  mkPollOutcome (po_mailbox_id o) (po_public_reference o) status (po_processed o) (po_left_unseen o) error_type
    (po_handled o) (po_classification_succeeded o) (po_classification_failed o).
Definition set_po_stats (st : DrainStats) (o : MailboxPollOutcome) : MailboxPollOutcome :=
  mkPollOutcome (po_mailbox_id o) (po_public_reference o) (po_status o) (seen_marked st) (left_unseen st)
    (po_error_type o) (po_handled o) (po_classification_succeeded o) (po_classification_failed o).

(** [x and x.strip()]. *)
Definition nonblank (o : option string) : bool :=
  match o with Some s => (s != "") && (Str.strip s != "") | None => false end.

Definition eligible (m : Mailbox) : bool :=
  (mb_status m == MB_ACTIVE) && nonblank (mb_imap_host m)
  && match mb_imap_port m with Some p => negb (p =? 0) | None => false end
  && nonblank (mb_imap_username m) && truthy (mb_imap_password_enc m).

Definition list_pollable_mailbox_ids (db : Db) : list Z := map mb_id (select eligible (mailboxes db)).

Definition load_pollable_target (mailbox_id : Z) (db : Db) : option MailboxImapTarget :=
  match get mailbox_id (mailboxes db) with
  | None => None
  | Some m =>
      if negb (eligible m) then None
      else Some (mkTarget (mb_id m) (mb_organization_id m) (mb_public_reference m)
                   (Str.strip (default "" (mb_imap_host m))) (default 0 (mb_imap_port m))
                   (Str.strip (default "" (mb_imap_username m))) (default "" (mb_imap_password_enc m)))
  end.

(** [d[k] = d.get(k, 0) + 1]. *)
Fixpoint bump (k : string) (c : Counts) : Counts :=
  match c with
  | [] => [(k, 1)]
  | (k', n) :: r => if k == k' then (k', n + 1) :: r else (k', n) :: bump k r
  end.

Definition tally_handler_result (o : MailboxPollOutcome) (r : InboundResult) : MailboxPollOutcome :=
  mkPollOutcome (po_mailbox_id o) (po_public_reference o) (po_status o) (po_processed o) (po_left_unseen o)
    (po_error_type o) (bump (classify_inbound_result r) (po_handled o))
    (match classification_flag r with
     | Some true => po_classification_succeeded o + 1
     | _ => po_classification_succeeded o
     end)
    (match classification_flag r with
     | Some false => po_classification_failed o + 1
     | _ => po_classification_failed o
     end).

(** What is carried through a poll: committed database, outcome so far, trace. *)
Record PollState := mkPollState { ps_db : Db; ps_outcome : MailboxPollOutcome; ps_trace : list smtp_event }.

(** How the commit of a transaction ends: it returns, raises with everything
    rolled back, or raises although it is durable. *)
Inductive CommitFault := CommitReturns | CommitRolledBack (e : exn) | CommitDurable (e : exn).

(** The surroundings of each message, by UID: what others commit before its
    session is opened and while it is open, and how its own commit ends. *)
Record MessageEnv := mkMessageEnv {
  me_env : InboundEnv;
  me_before : Db → Db;
  me_race : Db → Db;
  me_commit : CommitFault
}.

Section Poll.
Context `{LlmProvider} `{FloatRepr} `{FromIsoformat} `{Classifier} `{Planner} `{EmailLib} `{Sha256} `{Fernet}.

(** [_persist_inbound]: one session, one transaction; on an exception, of the
    handler or of the commit, only what the other transactions committed
    remains, unless the commit was durable in spite of it. *)
Definition persist_inbound (me : MessageEnv) (target : MailboxImapTarget) (e : InboundEmail) (db : Db)
    : Db * result exn InboundResult * list smtp_event :=
  let db := me_before me db in
  match process_mailbox_inbound (me_env me) (me_race me) e (tg_mailbox_id target) (tg_organization_id target) db with
  | (Ok (db', r), trace) =>
      match me_commit me with
      | CommitReturns => (db', Ok r, trace)
      | CommitRolledBack err => (me_race me db, Err err, trace)
      | CommitDurable err => (db', Err err, trace)
      end
  | (Err err, trace) => (me_race me db, Err err, trace)
  end.

Definition handle_message (envs : string → MessageEnv) (target : MailboxImapTarget) (uid : string)
    (e : InboundEmail) (s : PollState) : PollState * result exn InboundResult :=
  match persist_inbound (envs uid) target e (ps_db s) with
  | (db, Ok r, trace) =>
      (mkPollState db (tally_handler_result (ps_outcome s) r) (ps_trace s ++ trace), Ok r)
  | (db, Err err, trace) => (mkPollState db (ps_outcome s) (ps_trace s ++ trace), Err err)
  end.

Definition poll_mailbox (settings : Settings) (server : ImapServer) (envs : string → MessageEnv)
    (target : MailboxImapTarget) (db : Db) : PollState * list string :=
  let outcome := new_outcome (tg_mailbox_id target) (Some (tg_public_reference target)) STATUS_OK None in
  let failed status name o := set_po_failure status (Some name) o in
  match decrypt_secret settings (tg_imap_password_enc target) with
  | Err (MailboxEncryptionUnavailable _) =>
      (mkPollState db (failed STATUS_CREDENTIAL_UNAVAILABLE "MailboxEncryptionUnavailable" outcome) [], [])
  | Err (MailboxDecryptionError _) =>
      (mkPollState db (failed STATUS_CREDENTIAL_UNAVAILABLE "MailboxDecryptionError" outcome) [], [])
  | Err (SecretOther e) => (mkPollState db (failed STATUS_IMAP_ERROR (type_name (exn_cls e)) outcome) [], [])
  | Ok password =>
      match open_authenticated_connection server with
      | Err e => (mkPollState db (failed STATUS_IMAP_ERROR (type_name (exn_cls e)) outcome) [], [])
      | Ok _ =>
          match drain_unseen (handle_message envs target) server (mkPollState db outcome []) with
          | (s, Ok stats, seen) => (mkPollState (ps_db s) (set_po_stats stats (ps_outcome s)) (ps_trace s), seen)
          | (s, Err e, seen) =>
              (mkPollState (ps_db s) (failed STATUS_IMAP_ERROR (type_name (exn_cls e)) (ps_outcome s)) (ps_trace s),
               seen)
          end
      end
  end.

(** ** One cycle *)

(** What surrounds the poll of one mailbox: what others commit before it is
    read again, whether that read fails, its server and the messages' own. *)
Record MailboxEnv := mkMailboxEnv {
  mx_before : Db → Db;
  mx_read_fault : option exn;
  mx_server : ImapServer;
  mx_messages : string → MessageEnv
}.

Record MailboxCycleReport := mkCycleReport { cr_outcomes : list MailboxPollOutcome; cr_listing_failed : bool }.

Fixpoint poll_ids (settings : Settings) (envs : Z → MailboxEnv) (ids : list Z) (db : Db)
    : Db * list MailboxPollOutcome * list (Z * string) :=
  match ids with
  | [] => (db, [], [])
  | mailbox_id :: rest =>
      let env := envs mailbox_id in
      let db := mx_before env db in
      let '(db, outcome, seen) :=
        match mx_read_fault env with
        | Some e => (db, new_outcome mailbox_id None STATUS_UNEXPECTED (Some (type_name (exn_cls e))), [])
        | None =>
            match load_pollable_target mailbox_id db with
            | None => (db, new_outcome mailbox_id None STATUS_SKIPPED None, [])
            | Some target =>
                let '(s, seen) := poll_mailbox settings (mx_server env) (mx_messages env) target db in
                (ps_db s, ps_outcome s, map (λ uid, (mailbox_id, uid)) seen)
            end
        end in
      let '(db, outcomes, more) := poll_ids settings envs rest db in
      (db, outcome :: outcomes, seen ++ more)
  end.

Definition poll_all_mailboxes_report (settings : Settings) (listing_fault : bool) (envs : Z → MailboxEnv) (db : Db)
    : Db * MailboxCycleReport * list (Z * string) :=
  if listing_fault then (db, mkCycleReport [] true, [])
  else
    let '(db, outcomes, seen) := poll_ids settings envs (list_pollable_mailbox_ids db) db in
    (db, mkCycleReport outcomes false, seen).
End Poll.

Definition zsum {A} (f : A → Z) (l : list A) : Z := fold_right (λ x n, f x + n) 0 l.

Definition summarize_mailbox_cycle (report : MailboxCycleReport) : string * Counts * option string :=
  let os := cr_outcomes report in
  let with_status s := tally (λ o, po_status o == s) os in
  let handled b := zsum (λ o, zsum (λ x, if fst x == b then snd x else 0) (po_handled o)) os in
  let credential := with_status STATUS_CREDENTIAL_UNAVAILABLE in
  let imap := with_status STATUS_IMAP_ERROR in
  let unexpected := with_status STATUS_UNEXPECTED in
  let unseen := zsum po_left_unseen os in
  let c :=
    [("mailboxes_listed", tally (λ _, true) os); ("mailboxes_ok", with_status STATUS_OK);
     ("mailboxes_skipped_ineligible", with_status STATUS_SKIPPED);
     ("mailboxes_credential_unavailable", credential); ("mailboxes_imap_error", imap);
     ("mailboxes_unexpected_error", unexpected);
     ("messages_marked_seen", zsum po_processed os); ("messages_left_unseen", unseen);
     ("handled_persisted", handled BUCKET_PERSISTED); ("handled_duplicate", handled BUCKET_DUPLICATE);
     ("handled_unmatched", handled BUCKET_UNMATCHED); ("handled_ambiguous", handled BUCKET_AMBIGUOUS);
     ("handled_unrecognized", handled "unrecognized");
     ("classification_succeeded", zsum po_classification_succeeded os);
     ("classification_failed", zsum po_classification_failed os)] in
  let first_error :=
    match List.find (λ o, (po_status o != STATUS_OK) && (po_status o != STATUS_SKIPPED)
                          && is_not_none (po_error_type o)) os with
    | Some o => po_error_type o
    | None => None
    end in
  if cr_listing_failed report then (OUTCOME_FAILED, c, Some "MailboxListingFailed")
  else (if negb (credential + imap + unexpected + unseen =? 0) then OUTCOME_DEGRADED else OUTCOME_COMPLETED,
        c, first_error).

(** ** The deployment-wide fetch

    A parsed message is flagged Seen before anything has processed it;
    [gs_flagged] says whether the server did set the flag. *)
Record GlobalServer := mkGlobal {
  gs_connect : option exn;
  gs_search : result exn (string * list string);
  gs_fetch : string → result exn (string * FetchBody);
  gs_flagged : string → bool
}.

Section Global.
Context `{EmailLib}.

(** Its own reading of the headers: identities are taken as they are. *)
Definition parse_global (raw : string) : result exn InboundEmail :=
  msg ← message_from_bytes raw;
  let references := Str.split_ws (py_or (header "References" msg) "") in
  let auto_submitted_header := Str.lower (Str.strip (py_or (header "Auto-Submitted" msg) "no")) in
  subject ← decode_value (header "Subject" msg);
  body ← extract_plain_text msg;
  mret (mkInbound (Str.lower (parseaddr (default "" (header "From" msg)))) subject (Str.strip body)
          (header "Message-ID" msg) (header "In-Reply-To" msg) references None (auto_submitted_header != "no") None).

Fixpoint fetch_global (server : GlobalServer) (uids : list string) : list InboundEmail * list string :=
  match uids with
  | [] => ([], [])
  | uid :: rest =>
      let '(es, seen) := fetch_global server rest in
      match gs_fetch server uid with
      | Ok (status, body) =>
          if status != "OK" then (es, seen)
          else match body with
               | FB_raw raw =>
                   match parse_global raw with
                   | Ok e => (e :: es, if gs_flagged server uid then uid :: seen else seen)
                   | Err _ => (es, seen)
                   end
               | _ => (es, seen)
               end
      | Err _ => (es, seen)
      end
  end.

(** The messages returned and the UIDs flagged.  The connection, the login and
    [select] fail as one. *)
Definition fetch_unseen_replies (settings : Settings) (server : GlobalServer) : list InboundEmail * list string :=
  if (imap_username settings == "") || (imap_password settings == "") then ([], [])
  else match gs_connect server with
       | Some _ => ([], [])
       | None =>
           match gs_search server with
           | Ok (status, uids) => if status != "OK" then ([], []) else fetch_global server uids
           | Err _ => ([], [])
           end
       end.
End Global.

(** ** Facts *)

(** The message exists in the database, attached or retained. *)
Definition durable (db : Db) (mb : Z) (identity org : string) : Prop :=
  (∃ m, attached db mb identity org m) ∨ retained db mb identity org.

(** What the rest of the program may do between two transactions: anything that
    keeps the schema and deletes nothing; a received message keeps its contact,
    mailbox and identity, a retained one its mailbox, tenant and identity, a
    contact its campaign, campaigns and mailboxes their tenant.  (No statement
    of the program deletes a row or changes one of these columns.) *)
Record tame (f : Db → Db) : Prop := {
  tm_schema : ∀ db, inbound_schema db → inbound_schema (f db);
  tm_received : ∀ db m, In m (rows (messages db)) → msg_direction m = INBOUND →
    ∃ m', In m' (rows (messages (f db))) ∧ msg_direction m' = INBOUND ∧ msg_contact_id m' = msg_contact_id m ∧
      msg_mailbox_id m' = msg_mailbox_id m ∧ msg_message_id_header m' = msg_message_id_header m;
  tm_retained : ∀ db u, In u (rows (unmatched db)) →
    ∃ u', In u' (rows (unmatched (f db))) ∧ um_mailbox_id u' = um_mailbox_id u ∧
      um_message_id_header u' = um_message_id_header u ∧ um_organization_id u' = um_organization_id u;
  tm_contacts : ∀ db i c, get i (contacts db) = Some c →
    ∃ c', get i (contacts (f db)) = Some c' ∧ ct_campaign_id c' = ct_campaign_id c;
  tm_campaigns : ∀ db i cp, get i (campaigns db) = Some cp →
    ∃ cp', get i (campaigns (f db)) = Some cp' ∧ cp_organization_id cp' = cp_organization_id cp;
  tm_mailboxes : ∀ db i mb, get i (mailboxes db) = Some mb →
    ∃ mb', get i (mailboxes (f db)) = Some mb' ∧ mb_organization_id mb' = mb_organization_id mb
}.

(** What it may do while one message is being processed: the same, but it
    leaves the rows of contacts and campaigns alone. *)
Record harmless (f : Db → Db) : Prop := {
  hm_tame : tame f;
  hm_contacts : ∀ db, contacts (f db) = contacts db;
  hm_campaigns : ∀ db, campaigns (f db) = campaigns db
}.

Lemma tame_id : tame (λ d, d).
Proof. split; eauto 10. Qed.
Lemma harmless_id : harmless (λ d, d).
Proof. split; [apply tame_id|done..]. Qed.

Lemma harmless_inserts f db : harmless f → inbound_schema db → inserts_only f db.
Proof.
  intros Hf Hi. split; [apply Hf|apply Hf|apply Hi|]. apply (is_wf _ (tm_schema _ (hm_tame _ Hf) db Hi)).
Qed.

(** Rows that stay in place keep a message durable. *)
Lemma durable_mono db db' mb identity org :
  (∀ m, In m (rows (messages db)) → In m (rows (messages db'))) →
  (∀ u, In u (rows (unmatched db)) → In u (rows (unmatched db'))) →
  contacts db' = contacts db → campaigns db' = campaigns db →
  durable db mb identity org → durable db' mb identity org.
Proof.
  intros Hm Hu Hc Hcm [(m & Hin & H1 & H2 & H3 & H4)|(u & Hin & Hr)].
  - left. exists m. split_and!; try done; [by apply Hm|].
    revert H4. unfold message_org, message_contact, contact_org, contact_campaign. by rewrite Hc, Hcm.
  - right. exists u. split; [by apply Hu|done].
Qed.

Lemma tame_durable f db mb identity org :
  tame f → durable db mb identity org → durable (f db) mb identity org.
Proof.
  intros Hf [(m & Hin & H1 & H2 & H3 & H4)|(u & Hin & H1 & H2 & H3)].
  - left. destruct (tm_received _ Hf db m Hin H3) as (m' & Hin' & Hd & Hc & Hmb & Hh).
    exists m'. split_and!; [done|congruence|congruence|done|]. revert H4.
    unfold message_org, message_contact, contact_org, contact_campaign. rewrite Hc.
    destruct (get (msg_contact_id m) (contacts db)) as [c|] eqn:Ec; [|done].
    destruct (tm_contacts _ Hf db _ _ Ec) as (c' & -> & ->).
    destruct (get (ct_campaign_id c) (campaigns db)) as [cp|] eqn:Ep; [|done].
    by destruct (tm_campaigns _ Hf db _ _ Ep) as (cp' & -> & ->).
  - right. destruct (tm_retained _ Hf db u Hin) as (u' & Hin' & ? & ? & ?). exists u'. split_and!; [done|congruence..].
Qed.

(** The reach of one message keeps every other message durable. *)
Lemma confined_durable who o mb0 db db' mb identity org :
  confined who o mb0 db db' → get (ct_id who) (contacts db) = Some who →
  durable db mb identity org → durable db' mb identity org.
Proof.
  intros Hc Hg [(m & Ha)|(u & Hin & Hu1 & Hu2 & Hu3)].
  - left. destruct (decide (msg_contact_id m = ct_id who)) as [Hm|Hm].
    + destruct Ha as (Hin & H1 & H2 & H3 & H4). assert (contact_org db who = Some org) as Ho.
      { revert H4. unfold message_org, message_contact. by rewrite Hm, Hg. }
      destruct (attached_confined who o mb0 db db' mb identity org m Hc Hg Hm Ho) as (m' & Ha & _); [done|].
      by exists m'.
    + destruct Ha as (Hin & H1 & H2 & H3 & H4). exists m. split_and!; try done; [by apply (cf_other_messages _ _ _ _ _ Hc)|].
      revert H4. unfold message_org, message_contact, contact_org, contact_campaign.
      by rewrite (cf_other_contacts _ _ _ _ _ Hc) by done; rewrite (cf_campaigns _ _ _ _ _ Hc).
  - right. destruct (decide (Some (um_mailbox_id u) = mb0)) as [Hm|Hm].
    + destruct (cf_own_retained _ _ _ _ _ Hc u Hin Hm) as (u' & Hin' & K & K1 & K2 & K3 & _).
      exists u'. split_and!; [done|congruence..].
    + exists u. split_and!; try done. by apply (cf_other_retained _ _ _ _ _ Hc).
Qed.

Section PollFacts.
Context `{LlmProvider} `{FloatRepr} `{FromIsoformat} `{Classifier} `{Planner} `{EmailLib} `{Sha256} `{Fernet}.

(** What is stored stays stored, mailboxes stay with their tenant, and the
    schema is kept. *)
Definition same_tenants (db db' : Db) : Prop :=
  ∀ i mb, get i (mailboxes db) = Some mb →
    ∃ mb', get i (mailboxes db') = Some mb' ∧ mb_organization_id mb' = mb_organization_id mb.
Record keeps (db db' : Db) : Prop := {
  kp_schema : inbound_schema db';
  kp_durable : ∀ mb i o, durable db mb i o → durable db' mb i o;
  kp_tenants : same_tenants db db'
}.

Lemma same_tenants_eq db db' : mailboxes db' = mailboxes db → same_tenants db db'.
Proof. intros He i mb Hg. exists mb. by rewrite He. Qed.
Lemma same_tenants_trans a b c : same_tenants a b → same_tenants b c → same_tenants a c.
Proof.
  intros Hab Hbc i mb Hg. destruct (Hab i mb Hg) as (mb1 & Hg1 & <-). exact (Hbc i mb1 Hg1).
Qed.
Lemma keeps_refl db : inbound_schema db → keeps db db.
Proof. split; [done|done|by apply same_tenants_eq]. Qed.
Lemma keeps_trans a b c : keeps a b → keeps b c → keeps a c.
Proof. intros [_ K1 T1] [? K2 T2]. split; [done|auto|by eapply same_tenants_trans]. Qed.
Lemma tame_keeps f db : tame f → inbound_schema db → keeps db (f db).
Proof.
  intros Hf Hi. split; [by apply Hf|intros mb i o; by apply tame_durable|].
  intros i mb. by apply (tm_mailboxes _ Hf).
Qed.

Lemma process_keeps env race email mb org db db' res trace :
  harmless race → inbound_schema db →
  process_mailbox_inbound env race email mb org db = (Ok (db', res), trace) → keeps db db'.
Proof.
  intros Hr Hi E. pose proof (harmless_inserts race db Hr Hi) as Hio. pose proof Hio as [Hc Hcm Hwc Hwm].
  pose proof (tame_keeps race db (hm_tame _ Hr) Hi) as Hk.
  assert (inbound_schema db') as Hs.
  { eapply inbound_schema_kept; [exact Hio|done|by apply Hr|]. left. eauto. }
  apply mailbox_end_inv in E as (identity & _ & _ & E); [|done].
  destruct E as [base m [->| ->] _|reason db' _ Hret|contact campaign m db1 db' res trace Hg Ho _ Ei E];
    [by apply keeps_refl|done| |].
  - eapply keeps_trans; [exact Hk|]. apply retain_unmatched_Ok in Hret as [_ [->| ->]]; [by apply keeps_refl|].
    split; [done| |by apply same_tenants_eq]. intros mb' i o. apply durable_mono; try done.
    intros u Hu. cbn [unmatched set_unmatched]. rewrite insert_row_In. by left.
  - assert (contact_org (race db) contact = Some org) as Ho'.
    { revert Ho. unfold contact_org, contact_campaign. by rewrite Hcm. }
    destruct (attach_outcome env (normalize_inbound email) contact campaign identity mb org (race db) m db1)
      as [_ Hout]; try done; [by rewrite Hc|by rewrite Hc|].
    destruct (Hout _ _ _ E) as (Hcf & _). eapply keeps_trans; [exact Hk|]. split; [done| |].
    + intros mb' i o. eapply confined_durable; [exact Hcf|]. by rewrite Hc.
    + apply same_tenants_eq, Hcf.
Qed.

(** One message: everything is kept, and after success this one is durable too. *)
Lemma persist_inbound_spec me target e db db' r trace :
  tame (me_before me) → harmless (me_race me) → inbound_schema db → persist_inbound me target e db = (db', r, trace) →
  keeps db db' ∧
  (∀ res, r = Ok res → ∃ identity, identity_of e = Some identity ∧
     durable db' (tg_mailbox_id target) identity (tg_organization_id target)).
Proof.
  intros Hb0 Hb Hi. unfold persist_inbound. cbv zeta. pose proof (tame_keeps _ db Hb0 Hi) as Hk0.
  set (db0 := me_before me db) in *. assert (inbound_schema db0) as Hi0 by apply Hk0.
  assert (keeps db (me_race me db0)) as Hk1 by (eapply keeps_trans; [exact Hk0|by apply tame_keeps; [apply Hb|]]).
  destruct (process_mailbox_inbound _ _ _ _ _ _) as [[[db1 res]|err] t] eqn:E.
  2: { intros [= <- <- <-]. by split. }
  pose proof (process_keeps _ _ _ _ _ _ _ _ _ Hb Hi0 E) as Hk2.
  destruct (me_commit me); intros [= <- <- <-]; [|by split|split; [exact (keeps_trans _ _ _ Hk0 Hk2)|done]].
  split; [exact (keeps_trans _ _ _ Hk0 Hk2)|]. intros res' [= <-].
  destruct (mailbox_durable _ _ _ _ _ _ _ _ _ (harmless_inserts _ _ Hb Hi0) E) as (identity & Hid & _ & Hd).
  exists identity. split; [done|]. destruct Hd as [(_ & m & Ha & _)|(_ & Hr & _)]; [left; eauto|by right].
Qed.

(** A flagged UID whose message is durable under the target's tenant. *)
Definition accounted (server : ImapServer) (target : MailboxImapTarget) (db : Db) (uid : string) : Prop :=
  ∃ e identity, fetch_email server uid = Ok e ∧ identity_of e = Some identity ∧
    durable db (tg_mailbox_id target) identity (tg_organization_id target).

(** The surroundings of a mailbox's messages are well behaved. *)
Definition well_behaved (envs : string → MessageEnv) : Prop :=
  ∀ u, tame (me_before (envs u)) ∧ harmless (me_race (envs u)).

Lemma accounted_keeps server target db db' uid :
  keeps db db' → accounted server target db uid → accounted server target db' uid.
Proof. intros [_ Hk _] (e & i & He & Hi & Hd). exists e, i. auto. Qed.

Lemma handle_message_spec envs target uid e s s' r :
  well_behaved envs → inbound_schema (ps_db s) → handle_message envs target uid e s = (s', r) →
  keeps (ps_db s) (ps_db s') ∧
  (∀ res, r = Ok res → ∃ identity, identity_of e = Some identity ∧
     durable (ps_db s') (tg_mailbox_id target) identity (tg_organization_id target)).
Proof.
  intros Hb Hi. unfold handle_message.
  destruct (persist_inbound (envs uid) target e (ps_db s)) as [[db1 [res|err]] trace] eqn:E;
    intros [= <- <-]; cbn [ps_db];
    apply persist_inbound_spec in E as (Hk & Hd); try done; apply Hb.
Qed.

(** An invariant of the handler is one of the drain. *)
Lemma drain_uids_ind {S} (handler : string → InboundEmail → S → S * result exn InboundResult) (P : S → Prop) :
  (∀ uid e s, P s → P (fst (handler uid e s))) →
  ∀ server uids s stats seen s' stats' seen',
  P s → drain_uids handler server uids s stats seen = (s', stats', seen') → P s'.
Proof.
  intros HP server. induction uids as [|uid rest IH]; intros s stats seen s' stats' seen' Hs; cbn [drain_uids].
  { by intros [= <- _ _]. }
  destruct (fetch_email server uid) as [e|]; [|by apply IH].
  pose proof (HP uid e s Hs) as Hs1. destruct (handler uid e s) as [s1 [r|]]; [|by apply IH].
  destruct (stored _); by apply IH.
Qed.

Lemma handle_message_outcome envs target uid e s :
  po_mailbox_id (ps_outcome s) = tg_mailbox_id target ∧ po_status (ps_outcome s) = STATUS_OK →
  po_mailbox_id (ps_outcome (fst (handle_message envs target uid e s))) = tg_mailbox_id target ∧
  po_status (ps_outcome (fst (handle_message envs target uid e s))) = STATUS_OK.
Proof. unfold handle_message. by destruct (persist_inbound _ _ _ _) as [[db [r|]] t]. Qed.

Lemma drain_uids_spec envs target server uids : ∀ s stats seen s' stats' seen',
  well_behaved envs → inbound_schema (ps_db s) →
  drain_uids (handle_message envs target) server uids s stats seen = (s', stats', seen') →
  keeps (ps_db s) (ps_db s') ∧
  (∃ more, seen' = seen ++ more ∧ sublist more uids ∧ Forall (accounted server target (ps_db s')) more ∧
     seen_marked stats' = seen_marked stats + Z.of_nat (length more)) ∧
  seen_marked stats' + left_unseen stats' = seen_marked stats + left_unseen stats + Z.of_nat (length uids).
Proof.
  induction uids as [|uid rest IH]; intros s stats seen s' stats' seen' Hb Hi; cbn [drain_uids].
  { intros [= <- <- <-]. split_and!; [by apply keeps_refl| |cbn; lia]. exists []. rewrite app_nil_r. cbn.
    split_and!; [done|constructor|constructor|lia]. }
  set (left := mkDrain (seen_marked stats) (left_unseen stats + 1)).
  assert (∀ s1, keeps (ps_db s) (ps_db s1) →
    drain_uids (handle_message envs target) server rest s1 left seen = (s', stats', seen') →
    keeps (ps_db s) (ps_db s') ∧
    (∃ more, seen' = seen ++ more ∧ sublist more (uid :: rest) ∧ Forall (accounted server target (ps_db s')) more ∧
       seen_marked stats' = seen_marked stats + Z.of_nat (length more)) ∧
    seen_marked stats' + left_unseen stats' = seen_marked stats + left_unseen stats + Z.of_nat (length (uid :: rest)))
    as Hleft.
  { intros s1 Hk E. apply IH in E as (Hk' & (more & -> & Hsub & Hall & Hn) & Hsum); [|done|by apply Hk].
    split_and!; [by eapply keeps_trans| |cbn in *; lia].
    exists more. split_and!; [done|by apply sublist_cons|done|done]. }
  destruct (fetch_email server uid) as [e|err] eqn:Ef; [|apply Hleft; by apply keeps_refl].
  destruct (handle_message envs target uid e s) as [s1 r] eqn:Eh.
  apply handle_message_spec in Eh as [Hk Hd]; [|done|done].
  destruct r as [res|err]; [|by apply Hleft]. destruct (stored _); [|by apply Hleft].
  intros E. apply IH in E as (Hk' & (more & -> & Hsub & Hall & Hn) & Hsum); [|done|by apply Hk].
  destruct (Hd res eq_refl) as (identity & Hid & Hdur).
  split_and!; [by eapply keeps_trans| |cbn in *; lia].
  exists (uid :: more). rewrite <- app_assoc. split_and!; [done|by apply sublist_skip| |cbn in *; lia].
  constructor; [|done]. exists e, identity. split_and!; [done|done|]. by apply Hk'.
Qed.

Definition KNOWN_STATUSES : list string :=
  [STATUS_OK; STATUS_SKIPPED; STATUS_CREDENTIAL_UNAVAILABLE; STATUS_IMAP_ERROR; STATUS_UNEXPECTED].
Definition sane (o : MailboxPollOutcome) : Prop := 0 ≤ po_left_unseen o ∧ po_status o ∈ KNOWN_STATUSES.

Lemma poll_mailbox_spec settings server envs target db s seen :
  well_behaved envs → inbound_schema db →
  poll_mailbox settings server envs target db = (s, seen) →
  keeps db (ps_db s) ∧ Forall (accounted server target (ps_db s)) seen ∧
  po_mailbox_id (ps_outcome s) = tg_mailbox_id target ∧
  po_processed (ps_outcome s) = Z.of_nat (length seen) ∧
  (po_status (ps_outcome s) = STATUS_OK →
     ∃ uids, sv_search server = Ok ("OK", uids) ∧ sublist seen uids ∧
       po_processed (ps_outcome s) + po_left_unseen (ps_outcome s) = Z.of_nat (length uids)) ∧
  (po_status (ps_outcome s) ≠ STATUS_OK → seen = [] ∧ ps_db s = db ∧ ps_trace s = [] ∧
     is_Some (po_error_type (ps_outcome s))) ∧
  sane (ps_outcome s).
Proof.
  intros Hb Hi. unfold poll_mailbox.
  set (outcome := new_outcome _ _ _ _).
  assert (∀ status name, status ≠ STATUS_OK → status ∈ KNOWN_STATUSES →
    (mkPollState db (set_po_failure status (Some name) outcome) [], [] : list string) = (s, seen) →
    keeps db (ps_db s) ∧ Forall (accounted server target (ps_db s)) seen ∧
    po_mailbox_id (ps_outcome s) = tg_mailbox_id target ∧
    po_processed (ps_outcome s) = Z.of_nat (length seen) ∧
    (po_status (ps_outcome s) = STATUS_OK →
       ∃ uids, sv_search server = Ok ("OK", uids) ∧ sublist seen uids ∧
         po_processed (ps_outcome s) + po_left_unseen (ps_outcome s) = Z.of_nat (length uids)) ∧
    (po_status (ps_outcome s) ≠ STATUS_OK → seen = [] ∧ ps_db s = db ∧ ps_trace s = [] ∧
       is_Some (po_error_type (ps_outcome s))) ∧ sane (ps_outcome s)) as Hfail.
  { intros status name Hne Hst [= <- <-]. cbn. split_and!; [by apply keeps_refl|by constructor|done|done|done| |done].
    intros _. split_and!; [done..|by eexists]. }
  assert (STATUS_CREDENTIAL_UNAVAILABLE ∈ KNOWN_STATUSES ∧ STATUS_IMAP_ERROR ∈ KNOWN_STATUSES ∧ STATUS_OK ∈ KNOWN_STATUSES)
    as (Kc & Ki & Ko) by (unfold KNOWN_STATUSES; rewrite !elem_of_cons; tauto).
  destruct (decrypt_secret _ _) as [password|[]]; try by apply Hfail.
  destruct (open_authenticated_connection server) as [[]|e]; [|by apply Hfail].
  unfold drain_unseen. destruct (mbind _ (sv_select server)) as [uids|e] eqn:Eu; [|by apply Hfail].
  destruct (drain_uids _ _ _ _ _ _) as [[s1 stats] seen1] eqn:Ed. intros [= <- <-]. cbn [ps_db ps_outcome].
  pose proof (drain_uids_ind (handle_message envs target)
    (λ s, po_mailbox_id (ps_outcome s) = tg_mailbox_id target ∧ po_status (ps_outcome s) = STATUS_OK)
    (handle_message_outcome envs target) server uids (mkPollState db outcome []) _ _ _ _ _
    (conj eq_refl eq_refl) Ed) as [Hmb Hst].
  apply drain_uids_spec in Ed as (Hk & (more & -> & Hsub & Hall & Hn) & Hsum); [|done|done].
  pose proof (sublist_length _ _ Hsub). cbn in *.
  split_and!; [done|done|done|done| |done|split; cbn; [lia|congruence]].
  intros _. exists uids. split_and!; [|done|lia].
  apply result_bind_Ok in Eu as (st & _ & Eu). apply result_bind_Ok in Eu as (u1 & _ & Eu).
  apply result_bind_Ok in Eu as ([st2 us] & Es & Eu). apply result_bind_Ok in Eu as (u2 & Er & Eu).
  injection Eu as <-. apply raise_if_Ok in Er. cbn in Er. bools. by rewrite Es, Er.
Qed.

Lemma load_target_id mailbox_id db target :
  load_pollable_target mailbox_id db = Some target →
  tg_mailbox_id target = mailbox_id ∧
  ∃ m, get mailbox_id (mailboxes db) = Some m ∧ tg_organization_id target = mb_organization_id m.
Proof.
  unfold load_pollable_target. destruct (get mailbox_id (mailboxes db)) as [m|] eqn:E; [|done].
  destruct (negb _); [done|]. intros [= <-]. split; [by apply get_Some in E as [_ E]|by exists m].
Qed.

(** A flagged message of a cycle that started in [db0]: in [db] it is durable
    under its own identity, and under the tenant its mailbox belongs to. *)
Definition cycle_accounted (envs : Z → MailboxEnv) (db0 db : Db) (x : Z * string) : Prop :=
  ∃ m e identity, get (fst x) (mailboxes db0) = Some m ∧
    fetch_email (mx_server (envs (fst x))) (snd x) = Ok e ∧ identity_of e = Some identity ∧
    durable db (fst x) identity (mb_organization_id m).

(** The surroundings of a cycle. *)
Definition cycle_behaved (envs : Z → MailboxEnv) : Prop :=
  ∀ i, tame (mx_before (envs i)) ∧ well_behaved (mx_messages (envs i)).

Lemma poll_ids_spec settings envs start : ∀ ids db db' os seen,
  cycle_behaved envs → (∀ i, In i ids → is_Some (get i (mailboxes start))) → same_tenants start db →
  inbound_schema db → poll_ids settings envs ids db = (db', os, seen) →
  keeps db db' ∧ map po_mailbox_id os = ids ∧ Forall sane os ∧
  zsum po_processed os = Z.of_nat (length seen) ∧ Forall (cycle_accounted envs start db') seen.
Proof.
  induction ids as [|i rest IH]; intros db db' os seen Hb Hids0 Hst Hi; cbn [poll_ids].
  { intros [= <- <- <-]. cbn. split_and!; [by apply keeps_refl|done|constructor|done|constructor]. }
  destruct (Hb i) as [Hb0 Hm]. pose proof (tame_keeps _ db Hb0 Hi) as Hk0. set (db0 := mx_before (envs i) db) in *.
  assert (same_tenants start db0) as Hst0 by (eapply same_tenants_trans; [exact Hst|apply Hk0]).
  destruct (match mx_read_fault (envs i) with Some e => _ | None => _ end) as [[db1 o] seen1] eqn:E1.
  assert (keeps db0 db1 ∧ po_mailbox_id o = i ∧ sane o ∧ po_processed o = Z.of_nat (length seen1) ∧
    Forall (cycle_accounted envs start db1) seen1) as (Hk1 & Hid & Hs & Hp & Ha).
  { assert (inbound_schema db0) as Hi0 by apply Hk0. revert E1.
    destruct (mx_read_fault (envs i)) as [e|].
    { intros [= <- <- <-]. split_and!; [by apply keeps_refl|done| |done|constructor].
      split; [done|]. apply list_elem_of_In. cbn. tauto. }
    destruct (load_pollable_target i db0) as [target|] eqn:Et.
    2: { intros [= <- <- <-]. split_and!; [by apply keeps_refl|done| |done|constructor].
         split; [done|]. apply list_elem_of_In. cbn. tauto. }
    apply load_target_id in Et as [Hti (m1 & Hm1 & Horg)].
    destruct (Hids0 i ltac:(by left)) as [m Hgm]. destruct (Hst0 i m Hgm) as (m' & Hgm' & Horg').
    assert (m' = m1) as -> by congruence.
    destruct (poll_mailbox _ _ _ _ _) as [s sn] eqn:Ep. intros [= <- <- <-].
    apply poll_mailbox_spec in Ep as (Hk & Hacc & Hmb & Hpr & _ & _ & Hsn); [|done|done].
    split_and!; [done|congruence|done|by rewrite length_map|].
    apply Forall_map. eapply Forall_impl; [exact Hacc|]. intros uid (e & identity & He & Hidt & Hd).
    exists m, e, identity. cbn [fst snd]. split_and!; try done. by rewrite <- Horg', <- Horg, <- Hti at 1. }
  destruct (poll_ids settings envs rest db1) as [[db2 os2] seen2] eqn:E2. intros [= <- <- <-].
  apply IH in E2 as (Hk2 & Hids & Hss & Hz & Hacc);
    [|done|intros; apply Hids0; by right|eapply same_tenants_trans; [exact Hst0|apply Hk1]|by apply Hk1].
  split_and!.
  - by eapply keeps_trans, keeps_trans.
  - cbn. by rewrite Hid, Hids.
  - by constructor.
  - cbn. rewrite length_app. unfold zsum in Hz |- *. rewrite Hz, Hp. lia.
  - apply Forall_app. split; [|done]. eapply Forall_impl; [exact Ha|].
    intros x (m & e & identity & ? & ? & ? & Hd). exists m, e, identity. split_and!; try done. by apply Hk2.
Qed.

Lemma listed_exist db i : inbound_schema db → In i (list_pollable_mailbox_ids db) → is_Some (get i (mailboxes db)).
Proof.
  intros Hi (m & <- & [Hin _]%select_In)%in_map_iff. exists m.
  apply (get_complete (mailboxes db) m); [|done]. apply (is_wf _ Hi).
Qed.

(** C6: a cycle over the mailboxes loses no mail.  Whatever the servers, the
    model and the commits do, every message a cycle marks Seen is in the
    database at its end, attached or retained under its own identity and the
    tenant to which its mailbox belonged when the cycle began; everything that
    was stored before still is; the data model stays well formed; and the
    cycle reports one outcome per eligible mailbox, in order, whose counts of
    handled messages add up to the flags it set.  Other transactions run
    throughout: between any two transactions of the cycle they may do
    anything that keeps the schema, deletes nothing and leaves received
    messages, contacts, campaigns and mailboxes with their owners ([tame]);
    while one message is being processed they may do the same but do not touch
    contacts and campaigns ([harmless]). *)
Theorem mailbox_cycle_loses_no_mail settings envs db db' report seen :
  cycle_behaved envs → inbound_schema db →
  poll_all_mailboxes_report settings false envs db = (db', report, seen) →
  Forall (cycle_accounted envs db db') seen ∧
  (∀ mb i o, durable db mb i o → durable db' mb i o) ∧ inbound_schema db' ∧
  map po_mailbox_id (cr_outcomes report) = list_pollable_mailbox_ids db ∧
  zsum po_processed (cr_outcomes report) = Z.of_nat (length seen).
Proof.
  intros Hb Hi. unfold poll_all_mailboxes_report.
  destruct (poll_ids _ _ _ _) as [[db1 os] sn] eqn:E. intros [= <- <- <-].
  apply (poll_ids_spec settings envs db) in E as ([Hs Hk _] & Hids & _ & Hz & Hacc);
    [|done|intros; by apply listed_exist|by apply same_tenants_eq|done]. by split_and!.
Qed.
End PollFacts.

(** ** The summary of a cycle *)

Lemma tally_nonneg {A} (p : A → bool) l : 0 ≤ tally p l.
Proof. unfold tally. lia. Qed.

Lemma tally_zero {A} (p : A → bool) l : tally p l = 0 ↔ Forall (λ x, p x = false) l.
Proof.
  unfold tally. induction l as [|x l IH]; cbn; [by split|]. rewrite Forall_cons, <- IH.
  destruct (p x); cbn [length]; split; [lia|naive_solver|naive_solver|naive_solver].
Qed.

Lemma zsum_zero {A} (f : A → Z) l :
  Forall (λ x, 0 ≤ f x) l → 0 ≤ zsum f l ∧ (zsum f l = 0 ↔ Forall (λ x, f x = 0) l).
Proof.
  unfold zsum. induction 1 as [|x l Hx _ [IH0 IH]]; cbn [fold_right]; [split; [lia|by split]|].
  split; [lia|]. rewrite Forall_cons, <- IH. split; [intros; lia|intros [-> ->]; lia].
Qed.

Definition all_well (o : MailboxPollOutcome) : Prop :=
  (po_status o = STATUS_OK ∨ po_status o = STATUS_SKIPPED) ∧ po_left_unseen o = 0.

Lemma sane_well o :
  sane o → (po_status o == STATUS_CREDENTIAL_UNAVAILABLE) = false →
  (po_status o == STATUS_IMAP_ERROR) = false → (po_status o == STATUS_UNEXPECTED) = false →
  po_left_unseen o = 0 → all_well o.
Proof.
  intros [_ Hk] H1 H2 H3 Hl. split; [|done]. bools. unfold KNOWN_STATUSES in Hk.
  rewrite !elem_of_cons, elem_of_nil in Hk. tauto.
Qed.

(** Zero observed failures means all is well. *)
Lemma unhealthy_zero os :
  Forall sane os →
  tally (λ o, po_status o == STATUS_CREDENTIAL_UNAVAILABLE) os + tally (λ o, po_status o == STATUS_IMAP_ERROR) os
    + tally (λ o, po_status o == STATUS_UNEXPECTED) os + zsum po_left_unseen os = 0 ↔ Forall all_well os.
Proof.
  intros Hs. destruct (zsum_zero po_left_unseen os) as [Hz0 Hz].
  { eapply Forall_impl; [exact Hs|]. by intros o [? _]. }
  pose proof (tally_nonneg (λ o, po_status o == STATUS_CREDENTIAL_UNAVAILABLE) os).
  pose proof (tally_nonneg (λ o, po_status o == STATUS_IMAP_ERROR) os).
  pose proof (tally_nonneg (λ o, po_status o == STATUS_UNEXPECTED) os). split.
  - intros Hsum.
    assert (tally (λ o, po_status o == STATUS_CREDENTIAL_UNAVAILABLE) os = 0) as T1%tally_zero by lia.
    assert (tally (λ o, po_status o == STATUS_IMAP_ERROR) os = 0) as T2%tally_zero by lia.
    assert (tally (λ o, po_status o == STATUS_UNEXPECTED) os = 0) as T3%tally_zero by lia.
    assert (zsum po_left_unseen os = 0) as T4%Hz by lia.
    rewrite Forall_forall in *. intros o Ho. apply sane_well; auto.
  - intros Hw. assert (∀ st, st ≠ STATUS_OK → st ≠ STATUS_SKIPPED → tally (λ o, po_status o == st) os = 0) as Ht.
    { intros st N1 N2. apply tally_zero. eapply Forall_impl; [exact Hw|]. intros o [[E|E] _];
        rewrite E; by apply bool_decide_eq_false_2. }
    rewrite !Ht by done. assert (zsum po_left_unseen os = 0) as ->; [|done].
    apply Hz. eapply Forall_impl; [exact Hw|]. by intros o [_ ?].
Qed.

Lemma filter_all {A} (l : list A) : List.filter (λ _, true) l = l.
Proof. induction l as [|x l IH]; cbn; congruence. Qed.

(** The recorded outcome of a cycle is truthful.  It is "failed" exactly
    when the mailboxes could not be listed, and otherwise "completed" exactly
    when every eligible mailbox was polled and no message was left unseen; the
    counter of handled messages is the number of Seen flags the cycle set. *)
Theorem mailbox_cycle_summary_truthful `{LlmProvider} `{FloatRepr} `{FromIsoformat} `{Classifier} `{Planner}
    `{EmailLib} `{Sha256} `{Fernet} settings fault envs db db' report seen :
  cycle_behaved envs → inbound_schema db →
  poll_all_mailboxes_report settings fault envs db = (db', report, seen) →
  let '(outcome, counts, _) := summarize_mailbox_cycle report in
  (outcome = OUTCOME_FAILED ↔ fault = true) ∧
  (outcome = OUTCOME_COMPLETED ↔ fault = false ∧ Forall all_well (cr_outcomes report)) ∧
  count "messages_marked_seen" counts = Z.of_nat (length seen) ∧
  (fault = false → count "mailboxes_listed" counts = Z.of_nat (length (list_pollable_mailbox_ids db))).
Proof.
  intros Hb Hi. unfold poll_all_mailboxes_report. destruct fault.
  { intros [= <- <- <-]. cbn. split_and!; naive_solver. }
  destruct (poll_ids _ _ _ _) as [[db1 os] sn] eqn:E. intros [= <- <- <-].
  apply (poll_ids_spec settings envs db) in E as (_ & Hids & Hs & Hz & _);
    [|done|intros; by apply listed_exist|by apply same_tenants_eq|done].
  unfold summarize_mailbox_cycle. cbn [cr_outcomes cr_listing_failed].
  pose proof (unhealthy_zero os Hs) as Hu. split_and!.
  - case_match; naive_solver.
  - rewrite <- Hu. destruct (_ =? 0) eqn:Ez; cbn [negb]; bools; naive_solver.
  - cbn. exact Hz.
  - intros _. cbn. rewrite <- Hids, length_map. unfold tally. by rewrite filter_all.
Qed.

(** *** Witnesses *)

(** A parser for messages that consist of a sender address only. *)
Definition sample_email_lib : EmailLib := {|
  message_from_bytes raw :=
    Ok (mkParsedMail [("From", raw); ("Message-Id", "<r2@corp.io>"); ("Subject", "Re: Hi")] false [] (Ok "Sounds good."));
  parseaddr := λ s, s;
  decode_header := λ s, Ok [s]
|}.
Definition plain_sha : Sha256 := λ s, s.

(** A mailbox with an IMAP identity, and a server with two messages, the flag of
    the second of which is refused. *)
Definition imap_mailbox : Mailbox :=
  mkMailbox 1 "mb1" "acme" "ann@acme.io" "smtp.acme.io" 587 true "ann" "Tsecret" (Some " imap.acme.io ") (Some 993)
    (Some "ann") (Some "Tsecret") MB_ACTIVE 0 0.
Definition imap_db : Db := set_mailboxes (Table [imap_mailbox] 2) sample_db.
Definition sample_server : ImapServer :=
  mkServer None None (Ok "OK") (Ok ("OK", ["7"; "9"]))
    (λ uid, Ok ("OK", FB_raw (if uid == "7" then "Eve@corp.io" else "stranger@x.io")))
    (λ uid, Ok (if uid == "7" then "OK" else "NO")).
Definition sample_mailbox_env (i : Z) : MailboxEnv :=
  mkMailboxEnv (λ d, d) None sample_server (λ _, mkMessageEnv reply_env (λ d, d) (λ d, d) CommitReturns).
#[local] Abbreviation sample_poll :=
  (poll_all_mailboxes_report (H:=sample_llm) (H0:=no_floats) (H1:=no_iso) (H2:=positive_classifier)
    (H3:=answering_planner) (H4:=sample_email_lib) (H5:=plain_sha) (H6:=sample_fernet)
    live_settings false sample_mailbox_env imap_db).

Example sample_poll_result :
  let '(_, report, seen) := sample_poll in
  seen = [(1, "7")] ∧ fst (fst (summarize_mailbox_cycle report)) = OUTCOME_DEGRADED ∧
  map po_left_unseen (cr_outcomes report) = [1].
Proof. vm_compute. done. Qed.

Lemma sample_behaved : cycle_behaved sample_mailbox_env.
Proof. intros i. split; [apply tame_id|]. intros u. split; [apply tame_id|apply harmless_id]. Qed.

Lemma imap_schema : inbound_schema imap_db.
Proof.
  destruct sample_schema as [[] Hm Hs Hu Hf Hc]. split; try assumption. split; try assumption. table_wf.
Qed.

Lemma mailbox_cycle_loses_no_mail_witness :
  ∃ db' report seen, sample_poll = (db', report, seen) ∧ seen = [(1, "7")] ∧
    Forall (cycle_accounted (H4:=sample_email_lib) (H5:=plain_sha) sample_mailbox_env imap_db db') seen.
Proof.
  destruct sample_poll as [[db' report] seen] eqn:E. exists db', report, seen. split; [reflexivity|].
  split; [vm_compute in E; injection E as _ _ <-; reflexivity|].
  exact (proj1 (mailbox_cycle_loses_no_mail (H:=sample_llm) (H0:=no_floats) (H1:=no_iso) (H2:=positive_classifier)
    (H3:=answering_planner) (H4:=sample_email_lib) (H5:=plain_sha) (H6:=sample_fernet) live_settings
    sample_mailbox_env imap_db db' report seen sample_behaved imap_schema E)).
Defined.

Lemma mailbox_cycle_summary_truthful_witness :
  ∃ db' report seen, sample_poll = (db', report, seen) ∧
    count "messages_marked_seen" (snd (fst (summarize_mailbox_cycle report))) = Z.of_nat (length seen).
Proof.
  destruct sample_poll as [[db' report] seen] eqn:E. exists db', report, seen. split; [reflexivity|].
 
  pose proof (mailbox_cycle_summary_truthful (H:=sample_llm) (H0:=no_floats) (H1:=no_iso) (H2:=positive_classifier)
    (H3:=answering_planner) (H4:=sample_email_lib) (H5:=plain_sha) (H6:=sample_fernet) live_settings false
    sample_mailbox_env imap_db db' report seen sample_behaved imap_schema E) as Ht.
  destruct (summarize_mailbox_cycle report) as [[o c] err]. exact (proj1 (proj2 (proj2 Ht))).
Defined.
