(* ===== verification/SchedulerJobs.v ===== *)
(** * Scheduled jobs ([src/mailer_agent/followup/scheduler.py])

    The jobs that run the dispatch, generation and mailbox cycles and record
    their outcome with this process's recorder (none before the scheduler has
    started, and none after [mark_runtime_stopped]). *)

From S2P Require Import Prelude Sql Models Config Samples SemanticModels StateMachine Sender Regex Threading Grounding ExactMessage WorkClaiming Lifecycle Llm Memory Classifier Guardrails Scheduling FollowUp Inbound InboundSafety ExternalDispatchWorker GenerationWorker WorkerStatus CanonicalJson Integrations MailboxPolling.

#[local] Open Scope bool_scope.

(** One recording: its clock and whether the database refuses it. *)
Record RecordEnv := mkRecordEnv { re_now : Z; re_fault : bool }.

Definition record_cycle_of (env : RecordEnv) (recorder : option WorkerStatusRecorder) (kind outcome : string)
    (counts : option Counts) (error_type : option string) (sdb : StatusDb) : StatusDb :=
  match recorder with
  | None => sdb
  | Some rc => fst (record_cycle (re_fault env) (re_now env) rc kind outcome (counts_json <$> counts) error_type sdb)
  end.

Definition worker_heartbeat_job (fault fault_cleanup : bool) (race : StatusDb → StatusDb) (now : Z)
    (recorder : option WorkerStatusRecorder) (sdb : StatusDb) : option WorkerStatusRecorder * StatusDb :=
  match recorder with
  | None => (None, sdb)
  | Some rc => let '(rc, sdb, _) := heartbeat fault fault_cleanup race now rc sdb in (Some rc, sdb)
  end.

Definition mark_runtime_stopped (fault : bool) (now : Z) (recorder : option WorkerStatusRecorder) (sdb : StatusDb)
    : option WorkerStatusRecorder * StatusDb * bool :=
  match recorder with
  | None => (None, sdb, false)
  | Some rc => let '(_, sdb, ok) := mark_stopped fault now rc sdb in (None, sdb, ok)
  end.

(** The outcome both dispatch jobs record: an aborted cycle is not an empty one. *)
Definition job_outcome (aborted : bool) (counts : Counts) : string * option string :=
  if aborted then (OUTCOME_FAILED, Some "DatabaseErrorCaughtByCycle")
  else if negb (count "outcome_not_persisted" counts =? 0) then (OUTCOME_DEGRADED, None)
  else (OUTCOME_COMPLETED, None).

Definition dispatch_external_dispatches_job `{Fernet} (settings : Settings) (worker_id : string)
    (envs : nat → ProcEnv) (stops : nat → bool) (env : RecordEnv) (recorder : option WorkerStatusRecorder)
    (db : Db) (rt : DispatchRuntime) (sdb : StatusDb) : Db * DispatchRuntime * list smtp_event * StatusDb :=
  let '(db, rt, results, trace, aborted) := run_external_dispatch_cycle settings worker_id None envs stops db rt in
  let cycle_counts := summarize_dispatch_results results in
  let '(outcome, error) := job_outcome aborted cycle_counts in
  (db, rt, trace, record_cycle_of env recorder KIND_EXTERNAL_DISPATCH outcome (Some cycle_counts) error sdb).

Definition generate_external_dispatches_job `{Drafter} (settings : Settings) (worker_id : string)
    (envs : nat → GProcEnv) (stops : nat → bool) (env : RecordEnv) (recorder : option WorkerStatusRecorder)
    (db : Db) (sdb : StatusDb) : Db * StatusDb :=
  let '(db, results, aborted) := run_generation_cycle settings worker_id None envs stops db in
  let cycle_counts := summarize_generation_results results in
  let '(outcome, error) := job_outcome aborted cycle_counts in
  (db, record_cycle_of env recorder KIND_GENERATION outcome (Some cycle_counts) error sdb).

Definition poll_mailbox_inboxes_job `{LlmProvider} `{FloatRepr} `{FromIsoformat} `{Classifier} `{Planner}
    `{EmailLib} `{Sha256} `{Fernet} (settings : Settings) (listing_fault : bool) (envs : Z → MailboxEnv)
    (env : RecordEnv) (recorder : option WorkerStatusRecorder) (db : Db) (sdb : StatusDb)
    : Db * list (Z * string) * StatusDb :=
  let '(db, report, seen) := poll_all_mailboxes_report settings listing_fault envs db in
  let '(outcome, counts, error) := summarize_mailbox_cycle report in
  (db, seen, record_cycle_of env recorder KIND_INBOUND_MAILBOX outcome (Some counts) error sdb).

(** [_tally_legacy_result]; the tally starts with the two counters given. *)
Definition tally_legacy_result (tally : Counts) (r : InboundResult) : Counts :=
  let bucket := classify_inbound_result r in
  let bucket := if bucket == BUCKET_AMBIGUOUS then BUCKET_UNMATCHED else bucket in
  let tally := bump ("handled_" +:+ bucket) tally in
  match classification_flag r with
  | Some true => bump "classification_succeeded" tally
  | Some false => bump "classification_failed" tally
  | None => tally
  end.

Definition legacy_tally (results : list (result exn InboundResult)) : Counts :=
  fold_left (λ t r, match r with Ok x => tally_legacy_result t x | Err _ => bump "handler_failures" t end) results
    [("emails_fetched", Z.of_nat (length results)); ("handler_failures", 0)].

(** The recording of [poll_replies_job] after a non-empty fetch; [crashed] is
    the exception of the surrounding transaction, if any. *)
Definition record_legacy_cycle (env : RecordEnv) (recorder : option WorkerStatusRecorder)
    (results : list (result exn InboundResult)) (crashed : option exn) (sdb : StatusDb) : StatusDb :=
  let tally := legacy_tally results in
  match crashed with
  | Some e => record_cycle_of env recorder KIND_INBOUND_LEGACY OUTCOME_FAILED (Some tally)
                (Some (type_name (exn_cls e))) sdb
  | None => record_cycle_of env recorder KIND_INBOUND_LEGACY
              (if count "handler_failures" tally =? 0 then OUTCOME_COMPLETED else OUTCOME_DEGRADED)
              (Some tally) None sdb
  end.

(** A session around the follow-up cycle; the cycle commits at its end, and the
    commit of the session after it finds nothing more. *)
Definition dispatch_followups_job `{LlmProvider} `{FromIsoformat} (s : Session) (settings : Settings) (claim_lease_seconds : Z)
    (penv : ProcessEnv) (envs : Z → SendEnv) (utcnow : Z) (fault : c_fault) (commit_error : exn) (db : Db)
    : Db * list smtp_event * result exn unit :=
  match run_followup_cycle s settings claim_lease_seconds (make_worker_id penv "worker") None envs utcnow db with
  | (Err e, trace) => (db, trace, Err e)
  | (Ok (db', _), trace) =>
      match fault with
      | CCommitted => (db', trace, Ok ())
      | CRolledBack => (db, trace, Err commit_error)
      | CCommitLost => (db', trace, Err commit_error)
      end
  end.

(** The two sweeps: an exception ends the job and nothing else. *)
Definition recover_external_generation_leases_job (s : Session) (settings : Settings) (fault : c_fault) (utcnow : Z) (db : Db) : Db :=
  fst (run_generation_lease_recovery s settings fault utcnow db).
Definition recover_external_dispatch_leases_job (s : Session) (settings : Settings) (fault : c_fault) (utcnow : Z) (db : Db) : Db :=
  fst (run_external_dispatch_lease_recovery s settings fault utcnow db).

(** ** Facts *)

Lemma assoc_counts k n (c : Counts) :
  NoDup (map fst c) → In (k, n) c → assoc k (map (λ x, (fst x, JInt (snd x))) c) = Some (JInt n).
Proof.
  induction c as [|[k' n'] c IH]; [done|]. cbn. intros Hn [[= -> ->]|Hin].
  - by rewrite bool_decide_eq_true_2.
  - apply NoDup_cons in Hn as [Hk Hn]. rewrite bool_decide_eq_false_2; [by apply IH|].
    intros ->. apply Hk. apply list_elem_of_In, in_map_iff. by exists (k', n).
Qed.

(** Counters with exactly the whitelisted keys are stored as they are. *)
Lemma clean_counts_id kind c :
  map fst c = COUNT_KEYS kind → NoDup (map fst c) → Forall (λ x, 0 ≤ snd x) c →
  clean_counts kind (Some (counts_json c)) = c.
Proof.
  intros Hk Hn Hp. unfold clean_counts, counts_json. rewrite <- Hk, map_map.
  transitivity (map (λ x, x) c); [|apply map_id]. apply map_ext_in. intros [k n] Hin. cbn [fst].
  rewrite (assoc_counts k n) by done. f_equal. cbn.
  rewrite Forall_forall in Hp. specialize (Hp (k, n)). rewrite list_elem_of_In in Hp. cbn in Hp.
  by rewrite (proj2 (Z.leb_le 0 n)) by auto.
Qed.

Lemma dispatch_counts_clean rs :
  clean_counts KIND_EXTERNAL_DISPATCH (Some (counts_json (summarize_dispatch_results rs)))
  = summarize_dispatch_results rs.
Proof.
  apply clean_counts_id; [reflexivity| |repeat constructor; apply tally_nonneg].
  change (map fst (summarize_dispatch_results rs)) with DISPATCH_KEYS. by apply (bool_decide_unpack _); vm_compute.
Qed.

Lemma not_persisted_zero rs :
  count "outcome_not_persisted" (summarize_dispatch_results rs) = 0 ↔ Forall (λ r, dr_persisted r = true) rs.
Proof.
  change (count "outcome_not_persisted" (summarize_dispatch_results rs))
    with (tally (λ r, negb (dr_persisted r)) rs). rewrite tally_zero.
  split; intros Hf; (eapply Forall_impl; [exact Hf|]); intros r; cbn; by destruct (dr_persisted r).
Qed.

(** What the operator reads about a dispatch cycle is what happened.  With
    the recorder running and the database answering, the job leaves exactly
    one row for this process, whose counters are the summary of the results
    with nothing dropped, and whose outcome is "completed" exactly when the
    cycle was not cut short by a database error and every outcome it reached
    was persisted; the recording never changes a dispatch. *)
Theorem dispatch_job_record_truthful `{Fernet} settings w envs stops env rc db rt sdb :
  re_fault env = false → table_wf (cycles sdb) →
  (length (select (own_cycle rc KIND_EXTERNAL_DISPATCH) (cycles sdb)) ≤ 1)%nat →
  let '(db1, rt1, results, trace, aborted) := run_external_dispatch_cycle settings w None envs stops db rt in
  ∃ r sdb', dispatch_external_dispatches_job settings w envs stops env (Some rc) db rt sdb = (db1, rt1, trace, sdb') ∧
    select (own_cycle rc KIND_EXTERNAL_DISPATCH) (cycles sdb') = [r] ∧
    wc_last_counts r = Some (counts_json (summarize_dispatch_results results)) ∧
    (wc_last_outcome r = OUTCOME_COMPLETED ↔ aborted = false ∧ Forall (λ x, dr_persisted x = true) results).
Proof.
  intros Hf Hwf Hone. unfold dispatch_external_dispatches_job.
  destruct (run_external_dispatch_cycle settings w None envs stops db rt) as [[[[db1 rt1] results] trace] aborted].
  destruct (job_outcome aborted (summarize_dispatch_results results)) as [outcome error] eqn:Ej.
  assert (in_list outcome OUTCOMES = true ∧
    (outcome = OUTCOME_COMPLETED ↔ aborted = false ∧ Forall (λ x, dr_persisted x = true) results)) as [Ho Hiff].
  { rewrite <- not_persisted_zero. unfold job_outcome in Ej. destruct aborted; [injection Ej as <- _; split; [reflexivity|by split; [|intros [? _]]]|].
    destruct (_ =? 0) eqn:E in Ej; injection Ej as <- _; bools; (split; [reflexivity|]); split; [done|tauto|done|tauto]. }
  unfold record_cycle_of. rewrite Hf. cbn [fmap option_fmap option_map].
  pose proof (record_cycle_row (re_now env) rc KIND_EXTERNAL_DISPATCH outcome
    (Some (counts_json (summarize_dispatch_results results))) error sdb eq_refl Ho Hwf) as Hrow.
  destruct (record_cycle _ _ _ _ _ _ _ _) as [sdb' ok]. cbv zeta in Hrow. destruct Hrow as (_ & _ & _ & Hs).
  destruct (select _ (cycles sdb)) as [|r0 [|? ?]]; [| |cbn in Hone; lia]; destruct Hs as [_ Hs];
    (eexists _, sdb'; split_and!; [reflexivity|exact Hs| |exact Hiff]);
    cbn [wc_last_counts cycle_update]; by rewrite dispatch_counts_clean.
Qed.

(** *** Witness *)

Lemma dispatch_job_record_truthful_witness :
  let '(_, _, results, _, aborted) :=
    run_external_dispatch_cycle (H:=sample_fernet) live_settings "w1" None (λ _, sample_penv) (λ _, false) sample_db
      new_runtime in
  ∃ r sdb', select (own_cycle sample_recorder KIND_EXTERNAL_DISPATCH) (cycles sdb') = [r] ∧
    wc_last_counts r = Some (counts_json (summarize_dispatch_results results)).
Proof.
  pose proof (dispatch_job_record_truthful (H:=sample_fernet) live_settings "w1" (λ _, sample_penv) (λ _, false)
    (mkRecordEnv 50 false) sample_recorder sample_db new_runtime no_status eq_refl empty_table_wf
    (Nat.le_0_l 1)) as Ht.
  destruct (run_external_dispatch_cycle _ _ _ _ _ _ _) as [[[[db1 rt1] results] trace] aborted].
  destruct Ht as (r & sdb' & _ & Hs & Hc & _). exists r, sdb'. split; [exact Hs|exact Hc].
Defined.
