(* ===== verification/LegacyPolling.v ===== *)
(** * The deployment-wide reply poll ([poll_replies_job] of [src/mailer_agent/followup/scheduler.py])

    The job fetches the unseen mails of one inbox, flags them Seen, and hands
    all of them to the inbound handler in one database session, which it
    commits at the end.  The session carries two databases: what a rollback
    leaves ([base]) and what it has changed that to. *)

From S2P Require Import Prelude Sql Models Config Samples SemanticModels StateMachine Sender Regex Threading Grounding ExactMessage WorkClaiming Lifecycle Llm Memory Classifier Guardrails Scheduling FollowUp Inbound InboundSafety ExternalDispatchWorker GenerationWorker WorkerStatus CanonicalJson Integrations MailboxPolling SchedulerJobs.

#[local] Open Scope bool_scope.

(** The surroundings of one mail: what the handler uses, what other
    transactions commit before its insert, and what a handler that raises has
    flushed by then (the session keeps it). *)
Record MailEnv := mkMailEnv { le_env : InboundEnv; le_race : Db → Db; le_left : Db → Db }.

Section Job.
Context `{LlmProvider} `{FloatRepr} `{FromIsoformat} `{Classifier} `{Planner}.

(** The insert of the inbound row, when the handler gets to it. *)
Definition insert_attempt (env : MailEnv) (email : InboundEmail) (db : Db) : option (result exn (Message * Db)) :=
  let e := normalize_inbound email in
  if is_not_none (if truthy (ie_message_id e) then find_by_message_id db (ie_message_id e) None else None) then None
  else
    contact ← correlate_inbound db e None;
    Some (insert_message (inbound_row (le_env env) e (ct_id contact) None (ie_message_id e)) (le_race env db)).

(** One mail of the batch: the two databases afterwards, the result or the
    exception the loop catches, and what was transmitted. *)
Definition poll_step (env : MailEnv) (email : InboundEmail) (base db : Db)
    : Db * Db * result exn InboundResult * list smtp_event :=
  let out := process_in_session (le_env env) (le_race env) email None base db in
  let base := if is_not_none (insert_attempt env email db) then le_race env base else base in
  match fst out with
  | Ok (db', res) => (base, db', Ok res, snd out)
  | Err e => (base, le_left env (le_race env db), Err e, snd out)
  end.

Fixpoint poll_loop (envs : nat → MailEnv) (k : nat) (emails : list InboundEmail) (base db : Db)
    : Db * Db * list (result exn InboundResult) * list smtp_event :=
  match emails with
  | [] => (base, db, [], [])
  | email :: rest =>
      let '(base, db, r, t) := poll_step (envs k) email base db in
      let '(base, db, rs, ts) := poll_loop envs (S k) rest base db in
      (base, db, r :: rs, t ++ ts)
  end.

(** The database, the UIDs flagged Seen, the mail transmitted, the status
    database, and the exception of a failed commit. *)
Definition poll_replies_job `{EmailLib} (settings : Settings) (server : GlobalServer) (envs : nat → MailEnv)
    (fault : c_fault) (commit_error : exn) (env : RecordEnv) (recorder : option WorkerStatusRecorder)
    (db : Db) (sdb : StatusDb) : Db * list string * list smtp_event * StatusDb * result exn unit :=
  let '(emails, seen) := fetch_unseen_replies settings server in
  match emails with
  | [] => (db, seen, [], sdb, Ok ())
  | _ =>
      let '(base, work, results, trace) := poll_loop envs 0 emails db db in
      match fault with
      | CCommitted => (work, seen, trace, record_legacy_cycle env recorder results None sdb, Ok ())
      | CRolledBack => (base, seen, trace, record_legacy_cycle env recorder results (Some commit_error) sdb, Err commit_error)
      | CCommitLost => (work, seen, trace, record_legacy_cycle env recorder results (Some commit_error) sdb, Err commit_error)
      end
  end.

(** ** Facts *)

Definition refused (env : MailEnv) (email : InboundEmail) (db : Db) : Prop :=
  ∃ x, insert_attempt env email db = Some (Err x).

(** The cases before the insert: a stored copy, no contact, a contact. *)
Ltac to_the_insert :=
  destruct (if truthy _ then _ else None); [by cbn|]; cbn;
  destruct (correlate_inbound _ _ _); [|done]; cbn.

(** A session that is not rolled back works like one of its own. *)
Lemma unrefused_session env email base db : ¬ refused env email db →
  process_in_session (le_env env) (le_race env) email None base db
  = process_inbound_email_v2 (le_env env) (le_race env) email None db.
Proof.
  unfold refused, insert_attempt, process_inbound_email_v2, process_in_session. cbv zeta.
  to_the_insert; destruct (insert_message _ _) as [[m db1]|x]; try done; intros []; by exists x.
Qed.

(** A refused insert answers, and leaves what other transactions committed. *)
Lemma refused_session env email base db : refused env email db →
  ∃ res, process_in_session (le_env env) (le_race env) email None base db = (Ok (le_race env base, res), []).
Proof.
  intros [x Hx]. revert Hx. unfold insert_attempt, process_in_session. cbv zeta.
  to_the_insert; intros [= ->]; by eexists.
Qed.

(** The reference: every mail in a transaction of its own. *)
Fixpoint one_by_one (envs : nat → MailEnv) (k : nat) (emails : list InboundEmail) (db : Db)
    : option (Db * list InboundResult * list smtp_event) :=
  match emails with
  | [] => Some (db, [], [])
  | email :: rest =>
      match process_inbound_email_v2 (le_env (envs k)) (le_race (envs k)) email None db with
      | (Ok (db', res), t) => '(db'', rs, ts) ← one_by_one envs (S k) rest db'; Some (db'', res :: rs, t ++ ts)
      | (Err _, _) => None
      end
  end.

(** No insert of the run is refused. *)
Fixpoint undisturbed (envs : nat → MailEnv) (k : nat) (emails : list InboundEmail) (db : Db) : Prop :=
  match emails with
  | [] => True
  | email :: rest =>
      ¬ refused (envs k) email db ∧
      ∀ db' res t, process_inbound_email_v2 (le_env (envs k)) (le_race (envs k)) email None db = (Ok (db', res), t) →
        undisturbed envs (S k) rest db'
  end.

Lemma batch_one_by_one envs emails : ∀ k base db db' rs ts,
  undisturbed envs k emails db → one_by_one envs k emails db = Some (db', rs, ts) →
  ∃ base', poll_loop envs k emails base db = (base', db', map Ok rs, ts).
Proof.
  induction emails as [|email rest IH]; intros k base db db' rs ts Hu E.
  - injection E as <- <- <-. by exists base.
  - cbn [undisturbed one_by_one poll_loop] in *. destruct Hu as [Hn Hu]. unfold poll_step. rewrite (unrefused_session _ _ _ _ Hn).
    destruct (process_inbound_email_v2 _ _ _ _ _) as [[[db1 res]|e] t] eqn:Ep; [|done]. cbn [fst snd].
    destruct (one_by_one envs (S k) rest db1) as [[[db2 rs2] ts2]|] eqn:Eo; [|done]. injection E as <- <- <-.
    destruct (IH (S k) (if is_not_none (insert_attempt (envs k) email db) then le_race (envs k) base else base) db1 db2 rs2 ts2
                (Hu _ _ _ eq_refl) Eo) as [base' ->]. by exists base'.
Qed.

(** What other transactions alone can have made of a database. *)
Inductive others_commit (envs : nat → MailEnv) : Db → Db → Prop :=
  | others_none db : others_commit envs db db
  | others_next db k db' : others_commit envs (le_race (envs k) db) db' → others_commit envs db db'.

Lemma poll_loop_base envs emails : ∀ k base db base' db' rs ts,
  poll_loop envs k emails base db = (base', db', rs, ts) → others_commit envs base base'.
Proof.
  induction emails as [|email rest IH]; intros k base db base' db' rs ts E.
  - injection E as <- _ _ _. constructor.
  - cbn [poll_loop] in E. destruct (poll_step (envs k) email base db) as [[[b1 d1] r1] t1] eqn:Es.
    destruct (poll_loop envs (S k) rest b1 d1) as [[[b2 d2] rs2] ts2] eqn:El. injection E as <- <- <- <-.
    apply IH in El. unfold poll_step in Es. destruct (is_not_none _).
    + apply (others_next envs base k). by destruct (fst _) as [[]|]; injection Es as -> _ _ _.
    + by destruct (fst _) as [[]|]; injection Es as -> _ _ _.
Qed.

Lemma poll_loop_app envs pre post : ∀ k base db,
  poll_loop envs k (pre ++ post) base db =
  let '(b1, d1, rs1, ts1) := poll_loop envs k pre base db in
  let '(b2, d2, rs2, ts2) := poll_loop envs (k + length pre)%nat post b1 d1 in (b2, d2, rs1 ++ rs2, ts1 ++ ts2).
Proof.
  induction pre as [|email rest IH]; intros k base db.
  - cbn. replace (k + 0)%nat with k by lia. by destruct (poll_loop envs k post base db) as [[[] ?] ?].
  - cbn [poll_loop app length]. destruct (poll_step (envs k) email base db) as [[[b d] r] t]. rewrite IH.
    replace (k + S (length rest))%nat with (S k + length rest)%nat by lia.
    destruct (poll_loop envs (S k) rest b d) as [[[b1 d1] rs1] ts1].
    destruct (poll_loop envs (S k + length rest) post b1 d1) as [[[b2 d2] rs2] ts2]. by rewrite app_assoc.
Qed.

(** Mails that precede a refused insert leave no trace in the session. *)
Lemma refused_step env email base db : refused env email db →
  ∃ res, poll_step env email base db = (le_race env base, le_race env base, Ok res, []).
Proof.
  intros Hr. destruct (refused_session env email base db Hr) as [res E]. destruct Hr as [x Hx].
  unfold poll_step. rewrite E, Hx. by exists res.
Qed.

(** The fetch returns the mails it could read, in order, and flags each of them
    unless the server refuses the flag. *)
Definition fetched `{EmailLib} (server : GlobalServer) (uid : string) (e : InboundEmail) : Prop :=
  ∃ raw, gs_fetch server uid = Ok ("OK", FB_raw raw) ∧ parse_global raw = Ok e.

Lemma fetch_global_spec `{EmailLib} server uids :
  ∃ l, fst (fetch_global server uids) = map snd l ∧
    snd (fetch_global server uids) = List.filter (gs_flagged server) (map fst l) ∧
    ∀ uid e, In (uid, e) l → fetched server uid e.
Proof.
  induction uids as [|uid rest (l & He & Hs & Hl)]; [by exists []|]. cbn [fetch_global].
  destruct (fetch_global server rest) as [es seen]. cbn [fst snd] in *.
  destruct (gs_fetch server uid) as [[status body]|] eqn:Eg; [|by exists l].
  case_bool_decide as Hst; cbn [negb]; [|by exists l]. destruct body as [| |raw]; [by exists l|by exists l|].
  destruct (parse_global raw) as [e|] eqn:Ep; [|by exists l]. exists ((uid, e) :: l). cbn. split_and!.
  - by rewrite He.
  - rewrite Hs. by destruct (gs_flagged server uid).
  - intros u x [[= <- <-]|Hx]; [|by apply Hl]. exists raw. by subst.
Qed.

Lemma fetch_unseen_spec `{EmailLib} settings server emails seen :
  fetch_unseen_replies settings server = (emails, seen) →
  ∃ l, emails = map snd l ∧ seen = List.filter (gs_flagged server) (map fst l) ∧
    ∀ uid e, In (uid, e) l → fetched server uid e.
Proof.
  assert (∃ l : list (string * InboundEmail), [] = map snd l ∧ [] = List.filter (gs_flagged server) (map fst l) ∧
    ∀ uid e, In (uid, e) l → fetched server uid e) as Hnil by (by exists []).
  unfold fetch_unseen_replies. destruct (_ || _); [by intros [= <- <-]|].
  destruct (gs_connect server); [by intros [= <- <-]|].
  destruct (gs_search server) as [[status uids]|]; [|by intros [= <- <-]].
  destruct (bool_decide _); cbn [negb]; [|by intros [= <- <-]]. intros E.
  pose proof (fetch_global_spec server uids) as Hf. by rewrite E in Hf.
Qed.

(** A batch with a refused insert: the loop forgets the mails before it. *)
Lemma refused_batch envs pre email post db base1 db1 rs1 ts1 :
  poll_loop envs 0 pre db db = (base1, db1, rs1, ts1) → refused (envs (length pre)) email db1 →
  ∃ base2 res, others_commit envs db base2 ∧
    poll_loop envs 0 (pre ++ email :: post) db db =
      let '(base', db', rs, ts) := poll_loop envs (S (length pre)) post base2 base2 in
      (base', db', rs1 ++ Ok res :: rs, ts1 ++ ts).
Proof.
  intros E1 Hr. apply poll_loop_base in E1 as Hb.
  destruct (refused_step _ _ base1 _ Hr) as [res Es]. exists (le_race (envs (length pre)) base1), res. split.
  - clear -Hb. induction Hb; [econstructor; constructor|]. by econstructor.
  - rewrite poll_loop_app, E1. cbn [poll_loop Nat.add]. rewrite Es.
    by destruct (poll_loop envs (S (length pre)) post _ _) as [[[] ?] ?].
Qed.

Lemma poll_replies_result `{EmailLib} settings server envs fault err renv recorder db sdb emails seen base work rs ts :
  fetch_unseen_replies settings server = (emails, seen) → emails ≠ [] →
  poll_loop envs 0 emails db db = (base, work, rs, ts) →
  let '(db', seen', trace, _, r) := poll_replies_job settings server envs fault err renv recorder db sdb in
  seen' = seen ∧ trace = ts ∧ db' = (match fault with CRolledBack => base | _ => work end) ∧
  r = (match fault with CCommitted => Ok () | _ => Err err end).
Proof.
  intros Hf Hne Hl. unfold poll_replies_job. rewrite Hf. destruct emails as [|e es]; [done|]. rewrite Hl. by destruct fault.
Qed.

(** C29: the batch of the deployment-wide poll is flagged first and is atomic,
    and mail is lost with it.  The job flags every mail it could read as Seen,
    whatever becomes of it (a server may refuse a flag).  If no insert of the
    batch is refused, no handler raises and the commit returns, the job leaves
    exactly what processing each mail in its own transaction would leave: the
    same database and the same replies.  But one refused insert (a Message-ID
    that another row already holds) rolls the session back from within: the
    rest of the batch runs on what other transactions alone have committed, so
    that nothing of the mails before it reaches the database, although their
    replies were transmitted and they are flagged; when it is the last of the
    batch, the job stores nothing at all. *)
Theorem refused_insert_loses_batch `{EmailLib} settings server envs fault err renv recorder db sdb emails seen :
  fetch_unseen_replies settings server = (emails, seen) →
  let '(db', seen', trace, _, r) := poll_replies_job settings server envs fault err renv recorder db sdb in
  (seen' = seen ∧ ∃ l, emails = map snd l ∧ seen = List.filter (gs_flagged server) (map fst l) ∧
     ∀ uid e, In (uid, e) l → fetched server uid e) ∧
  (∀ dbx rs ts, undisturbed envs 0 emails db → one_by_one envs 0 emails db = Some (dbx, rs, ts) → fault = CCommitted →
     db' = dbx ∧ trace = ts ∧ r = Ok ()) ∧
  (∀ pre email post base1 db1 rs1 ts1,
     emails = pre ++ email :: post → poll_loop envs 0 pre db db = (base1, db1, rs1, ts1) →
     refused (envs (length pre)) email db1 →
     ∃ base2, others_commit envs db base2 ∧
       (let '(base', work, _, ts) := poll_loop envs (S (length pre)) post base2 base2 in
        db' = (match fault with CRolledBack => base' | _ => work end) ∧ trace = ts1 ++ ts) ∧
       (post = [] → db' = base2)).
Proof.
  intros Hf. pose proof (fetch_unseen_spec _ _ _ _ Hf) as Hflags.
  destruct (poll_loop envs 0 emails db db) as [[[base work] results] trace0] eqn:Hl.
  destruct emails as [|e0 es].
  { unfold poll_replies_job. rewrite Hf. split_and!; [done|done| |].
    - intros dbx rs ts _ [= <- <- <-] _. done.
    - by intros [|? ?] ? ? ? ? ? ? ?. }
  pose proof (poll_replies_result settings server envs fault err renv recorder db sdb _ _ _ _ _ _ Hf ltac:(done) Hl) as Hj.
  destruct (poll_replies_job _ _ _ _ _ _ _ _ _) as [[[[db' seen'] trace] sdb'] r].
  destruct Hj as (-> & -> & Hdb & Hr). split_and!; [done|done| |].
  - intros dbx rs ts Hu Ho ->. destruct (batch_one_by_one envs _ 0 db db dbx rs ts Hu Ho) as [b Hb].
    rewrite Hb in Hl. injection Hl as <- <- <- <-. done.
  - intros pre email post base1 db1 rs1 ts1 He E1 Href.
    destruct (refused_batch envs pre email post db base1 db1 rs1 ts1 E1 Href) as (base2 & res & Ho & El).
    exists base2. split; [done|]. rewrite <- He, Hl in El. rewrite Hdb.
    destruct (poll_loop envs (S (length pre)) post base2 base2) as [[[b w] rs2] ts2] eqn:Ep.
    injection El as -> -> _ ->. split; [done|]. intros ->. injection Ep as <- <- _ _. by destruct fault.
Qed.
End Job.

(** *** Witness *)

(** Two mails of one prospect: an answer, and a copy of a mail sent to him. *)
Definition copy_lib : EmailLib := {|
  message_from_bytes raw :=
    Ok (mkParsedMail [("From", "eve@corp.io"); ("Message-Id", raw); ("Subject", "Re: Hi")] false [] (Ok "Sounds good."));
  parseaddr := λ s, s;
  decode_header := λ s, Ok [s]
|}.
Definition sent_copy : Message :=
  mkMessage 3 2 OUTBOUND (Some MT_INITIAL) (Some "Hi") "Hello Eve" MS_SENT (Some "<sent@acme.io>") None None None None None
    None None None None 0 (Some "r3").
Definition inbox_db : Db := set_messages (Table [sample_message; sample_inbound; sent_copy] 4) sample_db.
Definition inbox : GlobalServer :=
  mkGlobal None (Ok ("OK", ["1"; "2"]))
    (λ uid, Ok ("OK", FB_raw (if uid == "1" then "<answer@corp.io>" else "<sent@acme.io>"))) (λ _, true).
Definition inbox_env (k : nat) : MailEnv := mkMailEnv reply_env (λ d, d) (λ d, d).
Definition inbox_mails : list InboundEmail := fst (fetch_global (H := copy_lib) inbox ["1"; "2"]).
#[local] Abbreviation inbox_loop mails :=
  (poll_loop (H:=sample_llm) (H0:=no_floats) (H1:=no_iso) (H2:=positive_classifier) (H3:=answering_planner)
     inbox_env 0 mails inbox_db inbox_db).

(** The answer alone is stored, with the reply to it.  With the copy behind it
    in the batch it is replied to, both mails are flagged, and nothing of it is
    in the database. *)
Example answer_alone_is_stored :
  let '(_, db, _, trace) := inbox_loop (take 1 inbox_mails) in
  length (rows (messages db)) = 5%nat ∧ sendmails trace = 1%nat.
Proof. vm_compute. done. Qed.

#[local] Abbreviation inbox_job :=
  (poll_replies_job (H:=sample_llm) (H0:=no_floats) (H1:=no_iso) (H2:=positive_classifier) (H3:=answering_planner)
     (H4:=copy_lib) (live_settings_with true) inbox inbox_env CCommitted (mkExn C_Exception "") (mkRecordEnv 0 false) None inbox_db (mkStatusDb (Table [] 1) (Table [] 1))).

Lemma refused_insert_loses_batch_witness :
  fetch_unseen_replies (H := copy_lib) (live_settings_with true) inbox = (inbox_mails, ["1"; "2"]) ∧
  let '(db', seen', trace, _, _) := inbox_job in
  seen' = ["1"; "2"] ∧ sendmails trace = 1%nat ∧ others_commit inbox_env inbox_db db'.
Proof.
  assert (fetch_unseen_replies (H := copy_lib) (live_settings_with true) inbox = (inbox_mails, ["1"; "2"])) as Hf
    by (vm_compute; reflexivity).
  split; [exact Hf|].
  pose proof (refused_insert_loses_batch (H:=sample_llm) (H0:=no_floats) (H1:=no_iso) (H2:=positive_classifier)
    (H3:=answering_planner) (H4:=copy_lib) (live_settings_with true) inbox inbox_env CCommitted (mkExn C_Exception "")
    (mkRecordEnv 0 false) None inbox_db (mkStatusDb (Table [] 1) (Table [] 1)) _ _ Hf) as Hj.
  assert (sendmails (snd (fst (fst inbox_job))) = 1%nat) as Hn by (vm_compute; reflexivity).
  destruct inbox_job as [[[[db' seen'] trace] sdb'] r]. destruct Hj as ([-> _] & _ & Hbad).
  split; [reflexivity|]. split; [exact Hn|].
  destruct (inbox_loop (take 1 inbox_mails)) as [[[base1 db1] rs1] ts1] eqn:E1.
  destruct (inbox_mails) as [|e1 [|e2 [|]]] eqn:Em; [discriminate Em|discriminate Em| |discriminate Em].
  destruct (Hbad [e1] e2 [] base1 db1 rs1 ts1 eq_refl E1) as (base2 & Ho & _ & Hlast).
  - vm_compute in Em. injection Em as <- <-. vm_compute in E1. injection E1 as <- <- <- <-. eexists. vm_compute. reflexivity.
  - rewrite (Hlast eq_refl). exact Ho.
Defined.
