(* ===== verification/Process.v ===== *)
(** * Processes and their schema ([src/mailer_agent/db.py], [src/worker.py], [src/mailer_agent/api/main.py], [src/mailer_agent/followup/scheduler.py])

    Start and stop of the two kinds of process.  A start prepares the schema
    (creates missing tables, or only verifies), and starts the scheduler with
    its ten jobs.  A shutdown closes the gate for new claims, stops the
    scheduler, waits for the dispatches in flight, releases the contact claims
    of the worker, and only then marks the process as stopped.

    The threads of the scheduler go on while the main thread shuts down
    ([shutdown(wait=False)] waits for no running job): what it sees of the
    shared [DispatchRuntime] is an input, related by [threads] to what it saw
    before, and what they and other processes commit between its own
    transactions is an input too ([se_others]).  Every step of a shutdown may
    raise. *)

From stdpp Require Import relations.
From S2P Require Import Prelude Sql Models Config Samples Auth SemanticModels StateMachine Sender Regex Threading Grounding ExactMessage WorkClaiming Lifecycle Llm LlmSchemas Memory Classifier SemanticParsing Guardrails Scheduling FollowUp Inbound InboundSafety ExternalDispatchWorker GenerationWorker WorkerStatus OperatorMetrics CanonicalJson Integrations MailboxPolling SchedulerJobs.

#[local] Open Scope bool_scope.

(** ** The schema *)

Definition normalize_database_url (url : string) : string :=
  let url := if Str.startswith "postgres://" url
             then "postgresql://" +:+ slice (String.length "postgres://") (String.length url) url else url in
  if Str.startswith "postgresql://" url
  then "postgresql+psycopg2://" +:+ slice (String.length "postgresql://") (String.length url) url else url.

(** The tables of a database with their columns. *)
Definition Schema : Type := list (string * list string).

(** [Base.metadata.sorted_tables]: a table comes after those it refers to. *)
Definition METADATA : Schema :=
  [("campaigns", ["id"; "name"; "organization_id"; "integration_source"; "sender_name"; "sender_org"; "sender_email";
      "reply_to_email"; "sender_title"; "sender_signature_extra"; "value_prop"; "proof_points"; "tone";
      "follow_up_days"; "max_follow_ups"; "timezone"; "is_active"; "created_at"]);
   ("mailboxes", ["id"; "public_reference"; "organization_id"; "email_address"; "smtp_host"; "smtp_port";
      "smtp_use_tls"; "smtp_username"; "smtp_password_enc"; "imap_host"; "imap_port"; "imap_username";
      "imap_password_enc"; "status"; "created_at"; "updated_at"]);
   ("suppression_list", ["id"; "email"; "organization_id"; "reason"; "created_at"]);
   ("worker_cycle_status", ["id"; "instance_id"; "kind"; "last_cycle_at"; "last_outcome"; "last_completed_at";
      "consecutive_unhealthy_cycles"; "cycles_recorded"; "last_error_type"; "last_counts"; "total_counts"]);
   ("worker_runtime_status", ["id"; "instance_id"; "role"; "started_at"; "heartbeat_at"; "stopped_at"]);
   ("contacts", ["id"; "campaign_id"; "name"; "email"; "title"; "company"; "context_notes"; "status";
      "follow_up_index"; "next_action_at"; "last_reply_at"; "last_outbound_at"; "buying_stage"; "engagement_score";
      "memory_summary"; "claimed_by"; "claimed_at"; "created_at"; "updated_at"]);
   ("unmatched_inbound_messages", ["id"; "mailbox_id"; "organization_id"; "message_id_header"; "reason"; "from_email";
      "subject"; "body"; "in_reply_to_header"; "references_header"; "created_at"; "resolved_at"]);
   ("messages", ["id"; "contact_id"; "direction"; "message_type"; "subject"; "body"; "status"; "message_id_header";
      "in_reply_to_header"; "references_header"; "detected_intent"; "intent_confidence"; "semantic_analysis";
      "classification_success"; "classification_failure_reason"; "error_message"; "mailbox_id"; "created_at";
      "reply_reference"]);
   ("external_dispatches", ["id"; "organization_id"; "idempotency_key"; "external_action_id"; "correlation_id";
      "campaign_id"; "contact_id"; "message_id"; "mailbox_id"; "request_fingerprint"; "grounding_context";
      "public_reference"; "state"; "claimed_by"; "claimed_at"; "error_message"; "created_at"; "updated_at"])].

Definition table_problems (schema : Schema) (t : string * list string) : list string :=
  match assoc (fst t) schema with
  | None => ["missing table " +:+ fst t]
  | Some have => map (λ c, "missing column " +:+ fst t +:+ "." +:+ c)
                   (List.filter (λ c, negb (in_list c have)) (snd t))
  end.
Definition schema_problems (schema : Schema) : list string := flat_map (table_problems schema) METADATA.

(** [Base.metadata.create_all]: a table that exists is left as it is. *)
Definition create_tables (ts schema : Schema) : Schema :=
  fold_left (λ s t, match assoc (fst t) s with Some _ => s | None => s ++ [t] end) ts schema.
Definition create_all (schema : Schema) : Schema := create_tables METADATA schema.

Inductive schema_error :=
  | SchemaNotReadyError (message : string)
  | SchemaInitLockTimeout (message : string)
  | SchemaOther (e : exn).

Definition lock_timeout_message : string :=
  "Another process held the schema-initialization lock for more than 45s. Check for a stuck migration or session.".

(** [fault] is what the call raises, and how many tables it has gone through
    by then.  On PostgreSQL it is one transaction behind an advisory lock, so
    a call that raises creates nothing. *)
Definition init_db (postgres : bool) (fault : option (nat * exn)) (schema : Schema) : Schema * result schema_error unit :=
  match fault with
  | None => (create_all schema, Ok ())
  | Some (n, e) =>
      if postgres then
        (schema, Err (if (type_name (exn_cls e) == "OperationalError") && Str.contains "lock timeout" (Str.lower (exn_str e))
                      then SchemaInitLockTimeout lock_timeout_message else SchemaOther e))
      else (create_tables (take n METADATA) schema, Err (SchemaOther e))
  end.

Definition not_ready_message (problems : list string) : string :=
  "Database schema is not ready (SCHEMA_INIT_MODE=verify, " +:+ pretty (Z.of_nat (length problems))
  +:+ " problem(s): " +:+ Str.join "; " (take 10 problems)
  +:+ (if (10 <? length problems)%nat then "; ... and " +:+ pretty (Z.of_nat (length problems) - 10) +:+ " more" else "")
  +:+ "). No DDL was attempted. Run scripts/migrate_release.sh (see docs/C13_DEPLOYMENT_RUNBOOK.md) "
  +:+ "before starting this service.".
Definition verify_schema (schema : Schema) : result schema_error unit :=
  match schema_problems schema with [] => Ok () | problems => Err (SchemaNotReadyError (not_ready_message problems)) end.

Definition prepare_schema (settings : Settings) (postgres : bool) (fault : option (nat * exn)) (schema : Schema)
    : Schema * result schema_error unit :=
  match schema_init_mode settings with
  | schema_verify => (schema, verify_schema schema)
  | schema_create => init_db postgres fault schema
  end.

(** ** The scheduler *)

Record Job := mkJob { job_id : string; job_seconds : Z; job_max_instances : Z; job_at_once : bool }.

(** The jobs [start_scheduler] adds, in order. *)
Definition scheduler_jobs (settings : Settings) : list Job :=
  let every seconds id := mkJob id seconds 1 false in
  [every (imap_poll_seconds settings) "poll_replies";
   every (imap_poll_seconds settings) "poll_mailbox_inboxes";
   every (followup_poll_seconds settings) "dispatch_new_contacts";
   every (followup_poll_seconds settings) "dispatch_followups";
   every (external_dispatch_poll_seconds settings) "dispatch_external_dispatches";
   every (external_dispatch_poll_seconds settings) "generate_external_dispatches";
   every (external_dispatch_recovery_poll_seconds settings) "recover_external_generation_leases";
   every (external_dispatch_recovery_poll_seconds settings) "recover_external_dispatch_leases";
   every 300 "health_check";
   mkJob "worker_heartbeat" (Z.max 5 (worker_heartbeat_interval_seconds settings)) 1 true].

(** The module globals of a process. *)
Record Process := mkProcess {
  ps_runtime : DispatchRuntime;
  ps_scheduler : option (list Job);
  ps_recorder : option WorkerStatusRecorder;
  ps_terminating : bool
}.

Definition still_in_flight : exn :=
  mkExn (C_Other "RuntimeError") "Cannot start scheduler while previous external dispatches remain in flight".

(** [fault] is what starting APScheduler raises. *)
Definition start_scheduler (settings : Settings) (role instance_id : string) (utcnow : Z) (fault : option exn)
    (ps : Process) : Process * result exn unit :=
  match ps_scheduler ps with
  | Some _ => (ps, Ok ())
  | None =>
      let '(rt, resumed) := resume_if_idle (ps_runtime ps) in
      if negb resumed then (ps, Err still_in_flight)
      else
        let recorder := Some (new_recorder role instance_id settings utcnow) in
        match fault with
        | Some e => (mkProcess rt None recorder (ps_terminating ps), Err e)
        | None => (mkProcess rt (Some (scheduler_jobs settings)) recorder (ps_terminating ps), Ok ())
        end
  end.

(** [fault]: the shutdown of APScheduler raises. *)
Definition stop_scheduler (fault : bool) (scheduler : option (list Job)) : option (list Job) * bool :=
  match scheduler with
  | None => (None, true)
  | Some jobs => if fault then (Some jobs, false) else (None, true)
  end.

(** The SIGTERM handler: the first signal raises SystemExit (true). *)
Definition handle_sigterm (ps : Process) : Process * bool :=
  if ps_terminating ps then (ps, false)
  else (mkProcess (ps_runtime ps) (ps_scheduler ps) (ps_recorder ps) true, true).

(** ** Shutdown *)

(** The moments of a shutdown at which others commit: before the claims still
    in flight are resolved, before the contact claims are released, and between
    that release and the stop marker. *)
Inductive moment := BeforeResolve | BeforeRelease | BeforeMark.

(** What a shutdown meets: which steps raise, what the bounded wait sees, the
    runtime when the wait is over, how the commits of the resolved claims and
    of the released contacts end, the clock of the stop marker, and what jobs
    that are still running (and other processes) commit meanwhile. *)
Record ShutdownEnv := mkShutdownEnv {
  se_begin_fault : bool;
  se_stop_fault : bool;
  se_drain_fault : option nat;
  se_observations : list (DispatchRuntime * Z);
  se_after : DispatchRuntime;
  se_claim_faults : nat → c_fault;
  se_release_fault : c_fault;
  se_mark_fault : bool;
  se_utcnow : Z;
  se_others : moment → Db → Db
}.

(** The steps up to the drain; the report is absent when it raised, with so
    many of the claims resolved.  [None]: the wait has not ended. *)
Definition drained_shutdown (env : ShutdownEnv) (scheduler : option (list Job)) (db : Db)
    : option (option (list Job) * Db * bool * option ShutdownReport) :=
  let '(scheduler, stopped) := stop_scheduler (se_stop_fault env) scheduler in
  let ready := negb (se_begin_fault env) && stopped in
  let db := se_others env BeforeResolve db in
  match se_drain_fault env with
  | Some n =>
      let '(db, _, _) := resolve_claims (take n (inflight (se_after env))) (se_claim_faults env) 0 (se_utcnow env) db in
      Some (scheduler, db, false, None)
  | None =>
      '(db, report) ← drain_external_dispatches_on_shutdown (se_observations env) (se_claim_faults env) (se_utcnow env)
                        (se_after env) db;
      Some (scheduler, db, ready && sh_drained report, Some report)
  end.

(** The stop marker, when all that comes before it succeeded. *)
Definition mark_if_ready (env : ShutdownEnv) (ready : bool) (report : option ShutdownReport)
    (recorder : option WorkerStatusRecorder) (sdb : StatusDb) : option WorkerStatusRecorder * StatusDb :=
  if ready && match report with Some r => sh_drained r | None => false end
  then fst (mark_runtime_stopped (se_mark_fault env) (se_utcnow env) recorder sdb)
  else (recorder, sdb).

(** [worker.graceful_shutdown] *)
Definition graceful_shutdown (env : ShutdownEnv) (worker_id : string) (ps : Process) (db : Db) (sdb : StatusDb)
    : option (Process * Db * StatusDb) :=
  '(scheduler, db, ready, report) ← drained_shutdown env (ps_scheduler ps) db;
  let db := se_others env BeforeRelease db in
  let released := fst (release_all_claims worker_id (se_utcnow env) db) in
  let '(db, ok) := match se_release_fault env with
                   | CCommitted => (released, true)
                   | CRolledBack => (db, false)
                   | CCommitLost => (released, false)
                   end in
  let db := se_others env BeforeMark db in
  let '(recorder, sdb) := mark_if_ready env (ready && ok) report (ps_recorder ps) sdb in
  Some (mkProcess (se_after env) scheduler recorder (ps_terminating ps), db, sdb).

(** The part of the API's lifespan after its [yield]. *)
Definition lifespan_shutdown (settings : Settings) (env : ShutdownEnv) (ps : Process) (db : Db) (sdb : StatusDb)
    : option (Process * Db * StatusDb) :=
  if run_scheduler_in_process settings then
    '(scheduler, db, ready, report) ← drained_shutdown env (ps_scheduler ps) db;
    let db := se_others env BeforeMark db in
    let '(recorder, sdb) := mark_if_ready env ready report (ps_recorder ps) sdb in
    Some (mkProcess (se_after env) scheduler recorder (ps_terminating ps), db, sdb)
  else Some (ps, db, sdb).

(** ** Start *)

Inductive start_error := AuthRefused (message : string) | SchemaRefused (e : schema_error) | SchedulerRefused (e : exn).

Definition ROLE_API_EMBEDDED : string := "api_embedded".
Definition ROLE_WORKER : string := "worker".

(** The part of the API's lifespan before its [yield]. *)
Definition lifespan_startup (settings : Settings) (cfg : AuthConfig) (postgres : bool) (schema_fault : option (nat * exn))
    (instance_id : string) (utcnow : Z) (scheduler_fault : option exn) (schema : Schema) (ps : Process)
    : Schema * Process * result start_error unit :=
  match validate_auth_configuration settings cfg with
  | Err m => (schema, ps, Err (AuthRefused m))
  | Ok _ =>
      match prepare_schema settings postgres schema_fault schema with
      | (schema, Err e) => (schema, ps, Err (SchemaRefused e))
      | (schema, Ok _) =>
          if run_scheduler_in_process settings then
            match start_scheduler settings ROLE_API_EMBEDDED instance_id utcnow scheduler_fault ps with
            | (ps, Err e) => (schema, ps, Err (SchedulerRefused e))
            | (ps, Ok _) => (schema, ps, Ok ())
            end
          else (schema, ps, Ok ())
      end
  end.

(** [worker.py] up to its loop. *)
Definition worker_startup (settings : Settings) (postgres : bool) (schema_fault : option (nat * exn))
    (instance_id : string) (utcnow : Z) (scheduler_fault : option exn) (schema : Schema) (ps : Process)
    : Schema * Process * result start_error unit :=
  match prepare_schema settings postgres schema_fault schema with
  | (schema, Err e) => (schema, ps, Err (SchemaRefused e))
  | (schema, Ok _) =>
      match start_scheduler settings ROLE_WORKER instance_id utcnow scheduler_fault ps with
      | (ps, Err e) => (schema, ps, Err (SchedulerRefused e))
      | (ps, Ok _) => (schema, ps, Ok ())
      end
  end.

(** ** Facts *)

(** *** The schema *)

(** What a service needs is there. *)
Definition provides (schema : Schema) : Prop :=
  ∀ t cols, In (t, cols) METADATA → ∃ have, assoc t schema = Some have ∧ ∀ c, In c cols → c ∈ have.

Lemma flat_map_empty {A B} (f : A → list B) l : flat_map f l = [] ↔ ∀ x, In x l → f x = [].
Proof.
  induction l as [|x l IH]; cbn; [done|]. split.
  - intros [H1 H2]%app_eq_nil y [<-|Hy]; [done|by apply IH].
  - intros H. rewrite (H x) by by left. apply IH. auto.
Qed.

Lemma schema_problems_nil schema : schema_problems schema = [] ↔ provides schema.
Proof.
  unfold schema_problems, provides. rewrite flat_map_empty. split.
  - intros H t cols Hin. specialize (H (t, cols) Hin). unfold table_problems in H. cbn [fst snd] in H.
    destruct (assoc t schema) as [have|]; [|done]. exists have. split; [done|]. intros c Hc.
    destruct (decide (c ∈ have)) as [|Hn]; [done|]. apply map_eq_nil in H.
    assert (In c (List.filter (λ c, negb (in_list c have)) cols)) as Hf.
    { apply filter_In. split; [done|]. unfold in_list. by rewrite bool_decide_eq_false_2. }
    by rewrite H in Hf.
  - intros H [t cols] Hin. unfold table_problems. cbn [fst snd]. destruct (H t cols Hin) as (have & -> & Hc).
    rewrite filter_false_nil; [done|]. intros c Hin'. unfold in_list. by rewrite bool_decide_eq_true_2 by auto.
Qed.

Lemma create_tables_assoc ts : ∀ s t,
  assoc t (create_tables ts s) = match assoc t s with Some h => Some h | None => assoc t ts end.
Proof.
  assert (∀ (s s' : Schema) t, assoc t (s ++ s') = match assoc t s with Some h => Some h | None => assoc t s' end) as Happ.
  { intros s s' t. induction s as [|[k v] s IH]; [done|]. cbn. by case_bool_decide. }
  unfold create_tables. induction ts as [|[k cols] ts IH]; intros s t; cbn [fold_left]; [by destruct (assoc t s)|].
  rewrite IH. cbn [fst assoc]. destruct (assoc k s) as [h|] eqn:E.
  - destruct (assoc t s) eqn:Et; [done|]. case_bool_decide; [congruence|done].
  - rewrite Happ. destruct (assoc t s); [done|]. cbn. by case_bool_decide.
Qed.

(** Preparing the schema is safe and tells the truth.  In verify mode nothing
    is created, and the start goes on exactly when every table and column of
    the models exists.  In create mode no existing table is altered; on
    PostgreSQL a failed start has created nothing; and after a successful one
    every table of the models exists, complete if it was missing before. *)
Theorem prepare_schema_safe settings postgres fault schema schema' r :
  prepare_schema settings postgres fault schema = (schema', r) →
  (∀ t have, assoc t schema = Some have → assoc t schema' = Some have) ∧
  match schema_init_mode settings with
  | schema_verify => schema' = schema ∧ (r = Ok () ↔ provides schema)
  | schema_create =>
      (∀ e, r = Err e → postgres = true → schema' = schema) ∧
      (r = Ok () → ∀ t cols, In (t, cols) METADATA →
         assoc t schema' = Some (default cols (assoc t schema)))
  end.
Proof.
  unfold prepare_schema. destruct (schema_init_mode settings).
  - unfold init_db. destruct fault as [[n e]|].
    + destruct postgres; intros [= <- <-]; [done|]. split; [|done]. intros t have E. by rewrite create_tables_assoc, E.
    + intros [= <- <-]. split; [intros t have E; unfold create_all; by rewrite create_tables_assoc, E|].
      split; [done|]. intros _ t cols Hin. unfold create_all. rewrite create_tables_assoc.
      destruct (assoc t schema); [done|]. cbn.
      cbn in Hin. repeat destruct Hin as [[= <- <-]|Hin]; done.
  - intros [= <- <-]. split; [done|]. split; [done|]. rewrite <- schema_problems_nil. unfold verify_schema.
    by destruct (schema_problems schema).
Qed.

(** The URL handed to SQLAlchemy names a driver: never the bare forms that a
    newer SQLAlchemy refuses or resolves to a driver that is not installed;
    and normalizing twice changes nothing more. *)
Theorem normalized_url_names_driver url :
  let u := normalize_database_url url in
  Str.startswith "postgres://" u = false ∧ Str.startswith "postgresql://" u = false ∧ normalize_database_url u = u.
Proof.
  cbv zeta. assert (∀ u, Str.startswith "postgres://" u = false → Str.startswith "postgresql://" u = false →
    normalize_database_url u = u) as Hid by (intros u E1 E2; unfold normalize_database_url; by rewrite E1, E2).
  assert (Str.startswith "postgres://" (normalize_database_url url) = false ∧
          Str.startswith "postgresql://" (normalize_database_url url) = false) as [E1 E2]; [|auto].
  unfold normalize_database_url. destruct (Str.startswith "postgres://" url) eqn:E1.
  - match goal with |- context [if ?b then _ else _] => change b with true end. done.
  - destruct (Str.startswith "postgresql://" url) eqn:E2; [done|]. by rewrite E1, E2.
Qed.

(** *** Shutdown *)

(** What the scheduler's threads do to the shared runtime. *)
Inductive thread_step : DispatchRuntime → DispatchRuntime → Prop :=
  | ts_begin rt : thread_step rt (fst (begin_claim_attempt rt))
  | ts_end rt rt' : end_claim_attempt rt = Ok rt' → thread_step rt rt'
  | ts_register claim rt rt' : register_claim_attempt claim rt = Ok rt' → thread_step rt rt'
  | ts_unregister i rt : thread_step rt (unregister i rt).
Definition threads : DispatchRuntime → DispatchRuntime → Prop := rtc thread_step.

(** Nothing is in flight, and nothing more can be. *)
Definition at_rest (rt : DispatchRuntime) : Prop := idle rt = true ∧ rt_stopping rt = true.

Lemma rest_step rt rt' : at_rest rt → thread_step rt rt' → rt' = rt.
Proof.
  intros [Hi Hs] Hst. destruct rt as [l n stop]. cbn in Hs. subst stop. unfold idle in Hi. cbn in Hi.
  destruct l; [|done]. bools. subst n. inversion Hst; subst; try done.
Qed.
Lemma rest_threads rt rt' : at_rest rt → threads rt rt' → rt' = rt.
Proof. intros Hq. induction 1 as [|rt rt1 rt2 Hst _ IH]; [done|]. apply rest_step in Hst as ->; auto. Qed.

Lemma stopping_threads rt rt' : rt_stopping rt = true → threads rt rt' → rt_stopping rt' = true.
Proof.
  intros Hs. induction 1 as [|rt rt1 rt2 Hst _ IH]; [done|]. apply IH. inversion Hst as [| ? ? E | ? ? ? E |]; subst.
  - unfold begin_claim_attempt. by rewrite Hs.
  - unfold end_claim_attempt in E. destruct (rt_claim_attempts rt <=? 0); [done|]. by injection E as <-.
  - unfold register_claim_attempt in E. destruct (rt_claim_attempts rt <=? 0); [done|]. by injection E as <-.
  - done.
Qed.

(** The main thread's successive observations, and the last one. *)
Fixpoint observed (rt : DispatchRuntime) (obs : list (DispatchRuntime * Z)) (after : DispatchRuntime) : Prop :=
  match obs with
  | [] => threads rt after
  | (rt', _) :: rest => threads rt rt' ∧ observed rt' rest after
  end.

Lemma observed_rest rt obs after : at_rest rt → observed rt obs after → after = rt.
Proof.
  revert rt. induction obs as [|[rt' t] obs IH]; intros rt Hq; cbn; [by apply rest_threads|].
  intros [Ht Ho]. apply rest_threads in Ht as ->; [|done]. auto.
Qed.

Lemma drained_at_rest rt obs after :
  rt_stopping rt = true → observed rt obs after → drain obs = Some true → at_rest after.
Proof.
  revert rt. induction obs as [|[rt' left] obs IH]; intros rt Hs; cbn; [done|]. intros [Ht Ho].
  apply stopping_threads in Ht; [|done]. destruct (idle rt') eqn:Ei.
  - intros _. assert (at_rest rt') as Hq by done. by apply (observed_rest _ _ _ Hq) in Ho as ->.
  - destruct (left <=? 0); [done|]. by apply (IH rt').
Qed.

(** The runtime when the scheduler's threads run on beside the shutdown. *)
Definition shut (env : ShutdownEnv) (rt : DispatchRuntime) : DispatchRuntime :=
  if se_begin_fault env then rt else begin_external_dispatch_shutdown rt.

(** A drain that was reported: what it says, and what it left. *)
Lemma drained_shutdown_ready env sched db sched' db1 ready report rt :
  observed (shut env rt) (se_observations env) (se_after env) →
  drained_shutdown env sched db = Some (sched', db1, ready, report) → ready = true →
  sched' = None ∧ at_rest (se_after env) ∧ db1 = se_others env BeforeResolve db ∧ ∃ r, report = Some r ∧ sh_drained r = true.
Proof.
  unfold drained_shutdown. intros Ho. destruct (stop_scheduler (se_stop_fault env) sched) as [s1 stopped] eqn:Es.
  destruct (se_drain_fault env) as [n|].
  { destruct (resolve_claims _ _ _ _ _) as [[? ?] ?]. by intros [= <- <- <- <-]. }
  unfold drain_external_dispatches_on_shutdown. destruct (drain (se_observations env)) as [drained|] eqn:Ed; [|done].
  cbn [mbind option_bind]. destruct (resolve_claims _ _ _ _ _) as [[db2 ab] el] eqn:Er. cbn [sh_drained].
  intros [= <- <- <- <-] Hready. apply andb_prop in Hready as [[Hb Hs]%andb_prop ->]. apply negb_true_iff in Hb.
  assert (at_rest (se_after env)) as Hq.
  { eapply drained_at_rest; [|exact Ho|exact Ed]. unfold shut. by rewrite Hb. }
  split_and!; [|done| |by eexists].
  - unfold stop_scheduler in Es. destruct sched; [destruct (se_stop_fault env)|]; by injection Es as <- <-.
  - destruct Hq as [Hi _]. unfold idle, inflight in *. destruct (rt_inflight (se_after env)); [|done].
    cbn in Er. by injection Er as <- _ _.
Qed.

(** The drain touches only dispatches that were SENDING, along their lifecycle. *)
Definition resolves_only_sending (db db' : Db) : Prop :=
  evolves db db' ∧ ∀ i d, get i (dispatches db) = Some d → ed_state d ≠ SENDING → get i (dispatches db') = Some d.


Lemma drained_shutdown_evolves env sched db sched' db1 ready report :
  table_wf (dispatches (se_others env BeforeResolve db)) →
  drained_shutdown env sched db = Some (sched', db1, ready, report) →
  resolves_only_sending (se_others env BeforeResolve db) db1.
Proof.
  intros Hwf. unfold drained_shutdown. destruct (stop_scheduler _ sched) as [s1 stopped]. cbv zeta.
  destruct (se_drain_fault env) as [n|].
  - destruct (resolve_claims _ _ _ _ _) as [[db2 ab] el] eqn:Er. intros [= <- <- <- <-].
    apply resolve_claims_spec in Er as (Hev & _ & _ & Hkeep); [|done]. done.
  - destruct (drain_external_dispatches_on_shutdown _ _ _ _ _) as [[db2 rep]|] eqn:Er; [|done].
    cbn [mbind option_bind]. intros [= <- <- <- <-].
    apply shutdown_resolves_to_unknown in Er as (Hev & _ & _ & Hkeep); [|done]. done.
Qed.

Lemma release_all_claims_spec w u db :
  let db' := fst (release_all_claims w u db) in
  dispatches db' = dispatches db ∧ messages db' = messages db ∧
  ∀ c, In c (rows (contacts db')) → ct_claimed_by c ≠ Some w.
Proof.
  cbn. split_and!; [done|done|]. intros c (x & <- & _)%in_map_iff. destruct (ct_claimed_by x == Some w) eqn:E; [done|].
  by bools.
Qed.

Lemma mark_if_ready_changed env ready report recorder sdb recorder' sdb' :
  mark_if_ready env ready report recorder sdb = (recorder', sdb') → sdb' ≠ sdb → ready = true ∧ recorder' = None.
Proof.
  unfold mark_if_ready. destruct ready; cbn; [|by intros [= <- <-]].
  destruct report as [r|]; [|by intros [= <- <-]]. destruct (sh_drained r); [|by intros [= <- <-]].
  unfold mark_runtime_stopped. destruct recorder as [rc|]; [|by intros [= <- <-]].
  destruct (mark_stopped _ _ rc sdb) as [[rc' s'] ok]. by intros [= <- <-].
Qed.

Lemma drained_shutdown_clean env sched db :
  se_begin_fault env = false → se_stop_fault env = false → se_drain_fault env = None →
  drain (se_observations env) = Some true →
  ∃ s1 d1 rep, drained_shutdown env sched db = Some (s1, d1, true, Some rep) ∧ sh_drained rep = true.
Proof.
  intros Hb Hs Hf Hd. unfold drained_shutdown. rewrite Hb, Hs, Hf. unfold drain_external_dispatches_on_shutdown. rewrite Hd.
  cbn [mbind option_bind]. destruct (resolve_claims _ _ _ _ _) as [[d1 ab] el].
  destruct sched; cbn; by eexists _, _, _.
Qed.

Lemma mark_stopped_rows now rc sdb r :
  In r (rows (runtimes (snd (fst (mark_stopped false now rc sdb))))) → own rc r → is_Some (wr_stopped_at r).
Proof.
  cbn. intros (x & <- & _)%in_map_iff Ho. unfold own, own_live in *. cbn [rc_instance_id] in *.
  destruct (wr_stopped_at x) eqn:E; cbn.
  - by rewrite andb_false_r, E.
  - cbn in Ho. rewrite andb_true_r in *. case_bool_decide as Hi; [by eexists|done].
Qed.

(** What others commit meanwhile keeps dispatches to their lifecycle. *)
Definition others_orderly (env : ShutdownEnv) : Prop := ∀ p db, evolves db (se_others env p db).

(** The process after a recorded stop: no scheduler, no recorder, and for its
    dispatch threads, whatever they still do, nothing in flight, nothing being
    claimed, and no way to claim. *)
Definition quiesced (ps : Process) : Prop :=
  ps_scheduler ps = None ∧ ps_recorder ps = None ∧
  ∀ rt, threads (ps_runtime ps) rt → inflight rt = [] ∧ rt_claim_attempts rt = 0 ∧ begin_claim_attempt rt = (rt, false).

Lemma at_rest_threads rt rt' :
  at_rest rt → threads rt rt' → inflight rt' = [] ∧ rt_claim_attempts rt' = 0 ∧ begin_claim_attempt rt' = (rt', false).
Proof.
  intros Hq Ht. apply (rest_threads _ _ Hq) in Ht as ->. destruct Hq as [Hi Hs]. unfold idle, inflight in *.
  destruct (rt_inflight rt); [|done]. bools. split_and!; [done|done|]. by apply begin_claim_attempt_stopping.
Qed.

(** C37: a worker that reports itself stopped has no external dispatch in
    flight.  A graceful shutdown writes to the database twice: it resolves what
    is still in flight, and it releases the contact claims.  Before, between
    and after the two, jobs that were already running go on (the scheduler does
    not wait for them) and commit what they like, as do other processes,
    provided dispatches follow their lifecycle.  The shutdown itself changes
    only dispatches that were SENDING, and only along their lifecycle, so it
    never requeues one.  If it records the stop, every step before it
    succeeded: the scheduler is gone, no external dispatch of this process is
    in flight, being claimed or claimable ([quiesced]), none had to be
    resolved, and the release left no contact claimed by this worker, so a
    contact that it holds at the end was claimed after the release, by a job
    that was still running.  When nothing fails and the drain ends in time, the
    stop is recorded. *)
Theorem stopped_worker_has_nothing_in_flight env w ps db sdb ps' db' sdb' :
  table_wf (dispatches db) → others_orderly env →
  observed (shut env (ps_runtime ps)) (se_observations env) (se_after env) →
  graceful_shutdown env w ps db sdb = Some (ps', db', sdb') →
  (∃ drained released,
     let db1 := se_others env BeforeResolve db in
     let db2 := se_others env BeforeRelease drained in
     resolves_only_sending db1 drained ∧ dispatches released = dispatches db2 ∧
     db' = se_others env BeforeMark released ∧ evolves db db' ∧
     (sdb' ≠ sdb →
        quiesced ps' ∧ drained = db1 ∧ released = fst (release_all_claims w (se_utcnow env) db2) ∧
        (∀ c, In c (rows (contacts released)) → ct_claimed_by c ≠ Some w) ∧
        (∀ c, In c (rows (contacts db')) → ct_claimed_by c = Some w → ~ In c (rows (contacts released))))) ∧
  (∀ rc, se_begin_fault env = false → se_stop_fault env = false → se_drain_fault env = None →
     se_release_fault env = CCommitted → se_mark_fault env = false → drain (se_observations env) = Some true →
     ps_recorder ps = Some rc → ∀ r, In r (rows (runtimes sdb')) → own rc r → is_Some (wr_stopped_at r)).
Proof.
  intros Hwf Hord Ho. unfold graceful_shutdown.
  destruct (drained_shutdown env (ps_scheduler ps) db) as [[[[sched db1] ready] report]|] eqn:Ed; [|done].
  cbn [mbind option_bind]. cbv zeta. set (rel := fst (release_all_claims w (se_utcnow env) (se_others env BeforeRelease db1))).
  set (sel := match se_release_fault env with CCommitted => _ | _ => _ end). destruct sel as [db2 ok] eqn:Esel.
  destruct (mark_if_ready env (ready && ok) report (ps_recorder ps) sdb) as [rec' sdb2] eqn:Em. intros [= <- <- <-].
  pose proof (release_all_claims_spec w (se_utcnow env) (se_others env BeforeRelease db1)) as (Hrd & _ & Hrc). fold rel in Hrd, Hrc.
  assert (dispatches db2 = dispatches (se_others env BeforeRelease db1) ∧ (ok = true → db2 = rel)) as [Hd2 Hok].
  { unfold sel in Esel. destruct (se_release_fault env); by injection Esel as <- <-. }
  split.
  - pose proof (Hord BeforeResolve db) as Hev1.
    pose proof (drained_shutdown_evolves _ _ _ _ _ _ _ (ev_wf _ _ Hev1 Hwf) Ed) as Hres.
    exists db1, db2. split_and!; [exact Hres|done|done| |].
    + etrans; [exact Hev1|]. etrans; [exact (proj1 Hres)|]. etrans; [exact (Hord BeforeRelease db1)|].
      etrans; [by apply evolves_same|]. apply Hord.
    + intros Hne. apply mark_if_ready_changed in Em as [[Hready ->]%andb_prop ->]; [|done]. specialize (Hok eq_refl). subst db2.
      destruct (drained_shutdown_ready _ _ _ _ _ _ _ _ Ho Ed Hready) as (-> & Hq & -> & _).
      split_and!; [|done|done|exact Hrc|]; [|intros c _ Hc Hin; by apply (Hrc c)].
      split_and!; [done|done|]. intros rt. by apply at_rest_threads.
  - intros rc Hb Hs Hdf Hr Hm Hdr Hrec. destruct (drained_shutdown_clean env (ps_scheduler ps) db Hb Hs Hdf Hdr) as (s1 & d1 & rep & E & Hrep).
    rewrite Ed in E. injection E as -> -> -> ->. assert (ok = true) as ->.
    { unfold sel in Esel. rewrite Hr in Esel. by injection Esel as _ <-. }
    unfold mark_if_ready in Em. rewrite Hrep, Hrec, Hm in Em. cbn in Em. injection Em as _ <-. apply mark_stopped_rows.
Qed.

(** *** Witnesses *)

Definition running : Process := mkProcess new_runtime (Some (scheduler_jobs live_settings)) (Some sample_recorder) true.
Definition shutdown_env : ShutdownEnv :=
  mkShutdownEnv false false None [(request_shutdown new_runtime, 25000000)] (request_shutdown new_runtime)
    (λ _, CCommitted) CCommitted false 300 (λ _ db, db).

Lemma prepare_schema_safe_witness :
  prepare_schema live_settings true None [("campaigns", ["id"])]
    = (create_all [("campaigns", ["id"])], Ok ()) ∧
  assoc "campaigns" (create_all [("campaigns", ["id"])]) = Some ["id"].
Proof.
  assert (prepare_schema live_settings true None [("campaigns", ["id"])]
    = (create_all [("campaigns", ["id"])], Ok ())) as E by reflexivity.
  split; [exact E|]. apply (proj1 (prepare_schema_safe _ _ _ _ _ _ E)). reflexivity.
Defined.

Lemma stopped_worker_has_nothing_in_flight_witness :
  ∃ ps' db' sdb', graceful_shutdown shutdown_env "w1" running sending_db beaten = Some (ps', db', sdb') ∧
    sdb' ≠ beaten ∧ quiesced ps'.
Proof.
  destruct (graceful_shutdown shutdown_env "w1" running sending_db beaten) as [[[ps' db'] sdb']|] eqn:E; [|vm_compute in E; discriminate].
  assert (sdb' ≠ beaten) as Hne by (vm_compute in E; injection E as _ _ <-; vm_compute; discriminate).
  destruct (stopped_worker_has_nothing_in_flight shutdown_env "w1" running sending_db beaten ps' db' sdb'
    (wf_dispatches _ sending_db_wf)) as ((drained & released & _ & _ & _ & _ & H) & _);
    [intros ??; reflexivity|split; apply rtc_refl|exact E|].
  destruct (H Hne) as (Hq & _). exists ps', db', sdb'. auto.
Defined.

(** The stop marker says nothing of native jobs: an outreach job that was
    running when the scheduler was shut down claims a contact after the release,
    and the worker is reported as stopped all the same. *)
Definition job_still_running : ShutdownEnv :=
  mkShutdownEnv false false None [(request_shutdown new_runtime, 25000000)] (request_shutdown new_runtime)
    (λ _, CCommitted) CCommitted false 300
    (λ p db, match p with
             | BeforeMark => fst (claim_due_contacts sqlite_session live_settings default_claim_lease_seconds "w1" CS_NEW None 300 db)
             | _ => db
             end).

Example stop_recorded_while_a_job_claims :
  ∃ ps' db' sdb', graceful_shutdown job_still_running "w1" running new_contacts_db beaten = Some (ps', db', sdb') ∧
    sdb' ≠ beaten ∧ existsb (λ c, ct_claimed_by c == Some "w1") (rows (contacts db')) = true.
Proof. eexists _, _, _. split; [vm_compute; reflexivity|]. split; [discriminate|vm_compute; reflexivity]. Qed.
