(* ===== verification/Ddl.v ===== *)
(** * Catalogs and connections of PostgreSQL

    What the migrations use of the database: tables with their rows, indexes
    with their predicates, foreign keys, the statements that change them, and
    a connection with its transaction.  A statement that fails aborts the
    transaction: every later one is refused until it ends, and a COMMIT then
    rolls back without an error, as PostgreSQL documents.  The server may also
    refuse any statement (a lock timeout, a cancelled query) and any commit may
    fail; both are given by the interface [Server]. *)

From S2P Require Import Prelude Auth.

#[local] Open Scope bool_scope.

(** ** Catalogs *)

Inductive sqlval := VNull | VInt (n : Z) | VStr (s : string).
#[global] Instance sqlval_eq_dec : EqDecision sqlval.
Proof. solve_decision. Defined.

(** A row is a list of cells; a cell that is absent is NULL. *)
Definition SqlRow : Type := list (string * sqlval).
Definition cell (c : string) (r : SqlRow) : sqlval := default VNull (assoc c r).

Record Column := mkColumn { col_name : string; col_nullable : bool }.
Record SqlTable := mkSqlTable { st_columns : list Column; st_rows : list SqlRow }.

(** The conditions of partial indexes. *)
Inductive Pred := PTrue | PNull (c : string) | PNotNull (c : string) | PIs (c v : string) | PAnd (p q : Pred).
Fixpoint holds (p : Pred) (r : SqlRow) : bool :=
  match p with
  | PTrue => true
  | PNull c => cell c r == VNull
  | PNotNull c => cell c r != VNull
  | PIs c v => cell c r == VStr v
  | PAnd p q => holds p r && holds q r
  end.
Fixpoint pred_columns (p : Pred) : list string :=
  match p with PTrue => [] | PNull c | PNotNull c | PIs c _ => [c] | PAnd p q => pred_columns p ++ pred_columns q end.

Record Index := mkIndex {
  ix_name : string;
  ix_table : string;
  ix_columns : list string;
  ix_unique : bool;
  ix_where : Pred;
  ix_constraint : bool;
  ix_valid : bool
}.

(** The keys of a unique index: a key with a NULL in it never collides. *)
Definition key (cols : list string) (r : SqlRow) : option (list sqlval) :=
  let k := map (λ c, cell c r) cols in if in_list VNull k then None else Some k.
Definition keys (ix : Index) (rows : list SqlRow) : list (list sqlval) :=
  omap (key (ix_columns ix)) (List.filter (holds (ix_where ix)) rows).
Definition unique_holds (rows : list SqlRow) (ix : Index) : bool :=
  negb (ix_unique ix) || bool_decide (NoDup (keys ix rows)).

Record ForeignKey := mkForeignKey { fk_name : string; fk_table : string; fk_column : string; fk_target : string; fk_cascade : bool }.

Record Catalog := mkCatalog { cat_tables : list (string * SqlTable); cat_indexes : list Index; cat_fks : list ForeignKey }.

Definition get_table (t : string) (c : Catalog) : option SqlTable := assoc t (cat_tables c).
Definition put_table (t : string) (m : SqlTable) (c : Catalog) : Catalog :=
  mkCatalog (dict_put t m (cat_tables c)) (cat_indexes c) (cat_fks c).
Definition set_indexes (l : list Index) (c : Catalog) : Catalog := mkCatalog (cat_tables c) l (cat_fks c).
Definition set_fks (l : list ForeignKey) (c : Catalog) : Catalog := mkCatalog (cat_tables c) (cat_indexes c) l.

Definition table_columns (m : SqlTable) : list string := map col_name (st_columns m).
Definition has_column (t col : string) (c : Catalog) : bool :=
  match get_table t c with Some m => in_list col (table_columns m) | None => false end.
Definition find_index (name : string) (c : Catalog) : option Index := find (λ ix, ix_name ix == name) (cat_indexes c).
Definition table_indexes (t : string) (c : Catalog) : list Index := List.filter (λ ix, ix_table ix == t) (cat_indexes c).

(** ** Errors *)

Inductive refusal := LockNotAvailable | QueryCanceled.
Inductive sql_error :=
  | UndefinedTable (t : string)
  | UndefinedColumn (col : string)
  | UndefinedObject (name : string)
  | DuplicateColumn (col t : string)
  | DuplicateRelation (name : string)
  | UniqueBuildViolation (name : string)
  | UniqueKeyViolation (name : string)
  | ForeignKeyViolation (name : string)
  | NotNullViolation (col t : string)
  | DependentObjects (name : string)
  | InFailedTransaction
  | ServerRefused (r : refusal)
  | CommitFailed.

Definition dq : string := String "034"%char "".
Definition in_quotes (s : string) : string := dq +:+ s +:+ dq.

(** The text of the server's message.  SQLAlchemy adds the class of the error
    and the statement; of the words the scripts look for, these hold none that
    the message does not. *)
Definition sql_text (e : sql_error) : string :=
  match e with
  | UndefinedTable t => "relation " +:+ in_quotes t +:+ " does not exist"
  | UndefinedColumn c => "column " +:+ in_quotes c +:+ " does not exist"
  | UndefinedObject n => "index " +:+ in_quotes n +:+ " does not exist"
  | DuplicateColumn c t => "column " +:+ in_quotes c +:+ " of relation " +:+ in_quotes t +:+ " already exists"
  | DuplicateRelation n => "relation " +:+ in_quotes n +:+ " already exists"
  | UniqueBuildViolation n => "could not create unique index " +:+ in_quotes n +:+ " DETAIL: Key is duplicated."
  | UniqueKeyViolation n => "duplicate key value violates unique constraint " +:+ in_quotes n
  | ForeignKeyViolation n => "insert or update violates foreign key constraint " +:+ in_quotes n
  | NotNullViolation c t => "column " +:+ in_quotes c +:+ " of relation " +:+ in_quotes t +:+ " contains null values"
  | DependentObjects n => "cannot drop " +:+ n +:+ " because other objects depend on it"
  | InFailedTransaction => "current transaction is aborted, commands ignored until end of transaction block"
  | ServerRefused LockNotAvailable => "canceling statement due to lock timeout"
  | ServerRefused QueryCanceled => "canceling statement due to statement timeout"
  | CommitFailed => "server closed the connection unexpectedly"
  end.

(** ** Statements *)

Definition stmt (A : Type) : Type := Catalog → result sql_error (Catalog * A).

(** [SELECT cols FROM t LIMIT n] *)
Definition select_columns (cols : list string) (t : string) : stmt unit := λ c,
  match get_table t c with
  | None => Err (UndefinedTable t)
  | Some m => match find (λ col, negb (in_list col (table_columns m))) cols with
              | Some col => Err (UndefinedColumn col)
              | None => Ok (c, ())
              end
  end.

(** A query whose answer is computed from the catalog. *)
Definition ask {A} (f : Catalog → A) : stmt A := λ c, Ok (c, f c).

(** A query on the rows of a table, over given columns. *)
Definition ask_rows {A} (t : string) (cols : list string) (f : list SqlRow → A) : stmt A := λ c,
  '(_, _) ← select_columns cols t c;
  Ok (c, f (default [] (st_rows <$> get_table t c))).

(** [ALTER TABLE t ADD COLUMN col ... [DEFAULT v] [REFERENCES ...]] *)
Definition add_column (t col : string) (dflt : sqlval) (ref : option ForeignKey) : stmt unit := λ c,
  match get_table t c with
  | None => Err (UndefinedTable t)
  | Some m =>
      if in_list col (table_columns m) then Err (DuplicateColumn col t)
      else match ref with
           | Some fk => if is_none (get_table (fk_target fk) c) then Err (UndefinedTable (fk_target fk)) else Ok ()
           | None => Ok ()
           end ≫= λ _,
           Ok (set_fks (cat_fks c ++ option_list ref)
                 (put_table t (mkSqlTable (st_columns m ++ [mkColumn col true]) (map (dict_put col dflt) (st_rows m))) c), ())
  end.

(** [ALTER TABLE t DROP COLUMN col]: what is built on the column goes with it. *)
Definition drop_column (t col : string) : stmt unit := λ c,
  match get_table t c with
  | None => Err (UndefinedTable t)
  | Some m =>
      if negb (in_list col (table_columns m)) then Err (UndefinedColumn col)
      else
        let uses ix := (ix_table ix == t) && (in_list col (ix_columns ix) || in_list col (pred_columns (ix_where ix))) in
        Ok (mkCatalog
              (dict_put t (mkSqlTable (List.filter (λ x, col_name x != col) (st_columns m))
                             (map (List.filter (λ x : string * sqlval, fst x != col)) (st_rows m))) (cat_tables c))
              (List.filter (λ ix, negb (uses ix)) (cat_indexes c))
              (List.filter (λ fk, negb ((fk_table fk == t) && (fk_column fk == col))) (cat_fks c)), ())
  end.

(** [CREATE [UNIQUE] INDEX [IF NOT EXISTS]] and [ADD CONSTRAINT ... UNIQUE]. *)
Definition create_index (if_not_exists : bool) (ix : Index) : stmt unit := λ c,
  match get_table (ix_table ix) c with
  | None => Err (UndefinedTable (ix_table ix))
  | Some m =>
      match find (λ col, negb (in_list col (table_columns m))) (ix_columns ix ++ pred_columns (ix_where ix)) with
      | Some col => Err (UndefinedColumn col)
      | None =>
          match find_index (ix_name ix) c with
          | Some _ => if if_not_exists then Ok (c, ()) else Err (DuplicateRelation (ix_name ix))
          | None =>
              if unique_holds (st_rows m) ix then Ok (set_indexes (cat_indexes c ++ [ix]) c, ())
              else Err (UniqueBuildViolation (ix_name ix))
          end
      end
  end.

Definition without_index (name : string) (c : Catalog) : Catalog :=
  set_indexes (List.filter (λ ix, ix_name ix != name) (cat_indexes c)) c.

(** [DROP INDEX [IF EXISTS] name]: the index of a constraint is not dropped so. *)
Definition drop_index (if_exists : bool) (name : string) : stmt unit := λ c,
  match find_index name c with
  | None => if if_exists then Ok (c, ()) else Err (UndefinedObject name)
  | Some ix => if ix_constraint ix then Err (DependentObjects name) else Ok (without_index name c, ())
  end.

(** [ALTER TABLE t DROP CONSTRAINT name] of a unique constraint. *)
Definition drop_unique (t name : string) : stmt unit := λ c,
  match find_index name c with
  | Some ix => if (ix_table ix == t) && ix_constraint ix then Ok (without_index name c, ()) else Err (UndefinedObject name)
  | None => Err (UndefinedObject name)
  end.

(** [ALTER TABLE t DROP CONSTRAINT IF EXISTS name] of a foreign key. *)
Definition drop_fk (t name : string) : stmt unit := λ c,
  match get_table t c with
  | None => Err (UndefinedTable t)
  | Some _ => Ok (set_fks (List.filter (λ fk, negb ((fk_table fk == t) && (fk_name fk == name))) (cat_fks c)) c, ())
  end.

(** [ALTER TABLE t ADD CONSTRAINT ... FOREIGN KEY]: every row refers to one. *)
Definition add_fk (fk : ForeignKey) : stmt unit := λ c,
  match get_table (fk_table fk) c, get_table (fk_target fk) c with
  | Some m, Some tm =>
      if existsb (λ f, (fk_table f == fk_table fk) && (fk_name f == fk_name fk)) (cat_fks c)
      then Err (DuplicateRelation (fk_name fk))
      else if forallb (λ r, (cell (fk_column fk) r == VNull)
                            || existsb (λ r', cell "id" r' == cell (fk_column fk) r) (st_rows tm)) (st_rows m)
      then Ok (set_fks (cat_fks c ++ [fk]) c, ())
      else Err (ForeignKeyViolation (fk_name fk))
  | None, _ => Err (UndefinedTable (fk_table fk))
  | _, None => Err (UndefinedTable (fk_target fk))
  end.

(** [UPDATE t SET col = v WHERE p AND col IS NULL]; [v] is given per row. *)
Definition fill_nulls (t col : string) (v : SqlRow → option sqlval) : stmt nat := λ c,
  '(_, _) ← select_columns [col] t c;
  match get_table t c with
  | None => Err (UndefinedTable t)
  | Some m =>
      let fill r := if cell col r == VNull then match v r with Some x => dict_put col x r | None => r end else r in
      let rows := map fill (st_rows m) in
      match find (λ ix, negb (unique_holds rows ix)) (table_indexes t c) with
      | Some ix => Err (UniqueKeyViolation (ix_name ix))
      | None => Ok (put_table t (mkSqlTable (st_columns m) rows) c,
                    length (List.filter (λ r, (cell col r == VNull) && is_not_none (v r)) (st_rows m)))
      end
  end.

(** [INSERT] of one row. *)
Definition insert_into (t : string) (r : SqlRow) : stmt unit := λ c,
  match get_table t c with
  | None => Err (UndefinedTable t)
  | Some m =>
      let rows := st_rows m ++ [r] in
      match find (λ ix, negb (unique_holds rows ix)) (table_indexes t c) with
      | Some ix => Err (UniqueKeyViolation (ix_name ix))
      | None => Ok (put_table t (mkSqlTable (st_columns m) rows) c, ())
      end
  end.

(** [ALTER COLUMN col DROP NOT NULL] and [SET NOT NULL] *)
Definition set_nullable (t col : string) (nullable : bool) : stmt unit := λ c,
  '(_, _) ← select_columns [col] t c;
  match get_table t c with
  | None => Err (UndefinedTable t)
  | Some m =>
      if negb nullable && existsb (λ r, cell col r == VNull) (st_rows m) then Err (NotNullViolation col t)
      else Ok (put_table t (mkSqlTable (map (λ x, if col_name x == col then mkColumn col nullable else x) (st_columns m))
                              (st_rows m)) c, ())
  end.

(** A table of the models: columns, indexes and foreign keys. *)
Record TableSpec := mkTableSpec { ts_columns : list Column; ts_indexes : list Index; ts_fks : list ForeignKey }.

(** [Table.create(checkfirst=True)] *)
Definition create_table (t : string) (spec : TableSpec) : stmt unit := λ c,
  match get_table t c with
  | Some _ => Ok (c, ())
  | None =>
      match find (λ fk, is_none (get_table (fk_target fk) c)) (ts_fks spec),
            find (λ ix, is_not_none (find_index (ix_name ix) c)) (ts_indexes spec) with
      | Some fk, _ => Err (UndefinedTable (fk_target fk))
      | None, Some ix => Err (DuplicateRelation (ix_name ix))
      | None, None => Ok (mkCatalog (cat_tables c ++ [(t, mkSqlTable (ts_columns spec) [])])
                            (cat_indexes c ++ ts_indexes spec) (cat_fks c ++ ts_fks spec), ())
      end
  end.

(** [DROP TABLE t]: refused while another table refers to it. *)
Definition drop_table (t : string) : stmt unit := λ c,
  match get_table t c with
  | None => Err (UndefinedTable t)
  | Some _ =>
      if existsb (λ fk, (fk_target fk == t) && (fk_table fk != t)) (cat_fks c) then Err (DependentObjects t)
      else Ok (mkCatalog (List.filter (λ x : string * SqlTable, fst x != t) (cat_tables c))
                 (List.filter (λ ix, ix_table ix != t) (cat_indexes c))
                 (List.filter (λ fk, fk_table fk != t) (cat_fks c)), ())
  end.

(** ** Connections *)

(** What a script may see raised: an error of the server, an inspector that
    finds no such table, or its own refusal. *)
Inductive mig_error := Sql (e : sql_error) | NoSuchTable (t : string) | Raised (m : string).
Definition error_text (e : mig_error) : string :=
  match e with Sql e => sql_text e | NoSuchTable t => t | Raised m => m end.
(** [w in str(e).lower()] *)
Definition mentions (w : string) (e : mig_error) : bool := Str.contains w (Str.lower (error_text e)).

(** What the surroundings decide: which statement is refused, and which commit
    fails, with the changes durable or not; both by their number. *)
Class Server := { server_refuses : nat → option refusal; commit_fault : nat → option bool }.

Record Conn := mkConn { cn_committed : Catalog; cn_working : Catalog; cn_aborted : bool; cn_count : nat }.
Definition Mig (A : Type) : Type := Conn → result mig_error A * Conn.

#[global] Instance Mig_ret : MRet Mig := λ A a s, (Ok a, s).
#[global] Instance Mig_bind : MBind Mig :=
  λ A B k m s, match m s with (Ok a, s') => k a s' | (Err e, s') => (Err e, s') end.
Definition mig_raise {A} (e : mig_error) : Mig A := λ s, (Err e, s).
(** [try: m except Exception as e: h e] *)
Definition catch {A} (m : Mig A) (h : mig_error → Mig A) : Mig A := λ s,
  match m s with (Ok a, s') => (Ok a, s') | (Err e, s') => h e s' end.
Definition mig_when (b : bool) (m : Mig unit) : Mig unit := if b then m else mret ().
Fixpoint mig_each {A} (f : A → Mig unit) (l : list A) : Mig unit :=
  match l with [] => mret () | x :: r => _ ← f x; mig_each f r end.

Section Connection.
Context `{Server}.

Definition sql {A} (q : stmt A) : Mig A := λ s,
  let failed e := (Err (Sql e), mkConn (cn_committed s) (cn_working s) true (S (cn_count s))) in
  if cn_aborted s then failed InFailedTransaction
  else match server_refuses (cn_count s) with
       | Some r => failed (ServerRefused r)
       | None => match q (cn_working s) with
                 | Ok (c, a) => (Ok a, mkConn (cn_committed s) c false (S (cn_count s)))
                 | Err e => failed e
                 end
       end.

(** A question to SQLAlchemy's inspector about a table. *)
Definition inspect_table {A} (t : string) (f : Catalog → SqlTable → A) : Mig A :=
  r ← sql (ask (λ c, f c <$> get_table t c));
  match r with Some a => mret a | None => mig_raise (NoSuchTable t) end.

Definition commit : Mig unit := λ s,
  let target := if cn_aborted s then cn_committed s else cn_working s in
  let at_ c := mkConn c c false (S (cn_count s)) in
  match commit_fault (cn_count s) with
  | None => (Ok (), at_ target)
  | Some durable => (Err (Sql CommitFailed), at_ (if durable then target else cn_committed s))
  end.

Definition rollback : Mig unit := λ s,
  (Ok (), mkConn (cn_committed s) (cn_committed s) false (cn_count s)).

(** One process: a connection of its own, [session_scope] around the body, and
    exit status 0 exactly when the body returned true.  A handler that rolls
    back and raises again leaves what [session_scope] would leave. *)
Definition run_script (body : Mig bool) (c : Catalog) (n : nat) : bool * Catalog * nat :=
  match (ok ← body; _ ← commit; mret ok) (mkConn c c false n) with
  | (Ok ok, s) => (ok, cn_committed s, cn_count s)
  | (Err _, s) => (false, cn_committed s, cn_count s)
  end.
End Connection.

(** ** Facts *)

Lemma mig_bind_inv {A B} (m : Mig A) (k : A → Mig B) s r s' :
  (m ≫= k) s = (r, s') →
  (∃ a s1, m s = (Ok a, s1) ∧ k a s1 = (r, s')) ∨ (∃ e, m s = (Err e, s') ∧ r = Err e).
Proof.
  unfold mbind, Mig_bind. destruct (m s) as [[a|e] s1]; intros E; [left; eauto|].
  right. exists e. by injection E as <- <-.
Qed.

Lemma mig_bind_Ok {A B} (m : Mig A) (k : A → Mig B) s b s' :
  (m ≫= k) s = (Ok b, s') → ∃ a s1, m s = (Ok a, s1) ∧ k a s1 = (Ok b, s').
Proof. intros [H|(e & _ & [=])]%mig_bind_inv. done. Qed.

(** *** What a change keeps *)

(** The cells that hold a value keep it. *)
Definition row_kept (cols : list string) (r r' : SqlRow) : Prop :=
  ∀ col, col ∈ cols → cell col r ≠ VNull → cell col r' = cell col r.
Definition table_kept (m m' : SqlTable) : Prop :=
  table_columns m ⊆ table_columns m' ∧
  (∀ col, mkColumn col true ∈ st_columns m → mkColumn col true ∈ st_columns m') ∧
  Forall2 (row_kept (table_columns m)) (st_rows m) (st_rows m').
Definition data_kept (c c' : Catalog) : Prop :=
  ∀ t m, get_table t c = Some m → ∃ m', get_table t c' = Some m' ∧ table_kept m m'.

Lemma table_kept_refl m : table_kept m m.
Proof. split_and!; [done|done|]. apply Forall_Forall2_diag, Forall_true. by intros r col. Qed.
Lemma table_kept_trans m1 m2 m3 : table_kept m1 m2 → table_kept m2 m3 → table_kept m1 m3.
Proof.
  intros (Hc & Hn & Hr) (Hc' & Hn' & Hr'). split_and!; [by etrans|auto|].
  clear Hn Hn' Hc'. revert Hr'. generalize (st_rows m3). induction Hr as [|r r1 l l1 Hk _ IH]; intros l3 H3; inversion H3 as [|? r3 ? ? Hk' H3']; subst.
  - constructor.
  - constructor; [|by apply IH]. intros col Hcol Hne. rewrite <- (Hk col) by done. apply Hk'; [by apply Hc|].
    by rewrite (Hk col).
Qed.

#[global] Instance data_kept_preorder : PreOrder data_kept.
Proof.
  split.
  - intros c t m E. exists m. split; [done|apply table_kept_refl].
  - intros c1 c2 c3 H12 H23 t m E. apply H12 in E as (m2 & E2 & K2). apply H23 in E2 as (m3 & E3 & K3).
    exists m3. split; [done|]. by eapply table_kept_trans.
Qed.

Lemma get_put t t' m c : get_table t (put_table t' m c) = if t == t' then Some m else get_table t c.
Proof. apply assoc_put. Qed.

Lemma data_kept_put t m m' c : get_table t c = Some m → table_kept m m' → data_kept c (put_table t m' c).
Proof.
  intros E K t' x Ex. rewrite get_put. case_bool_decide as Ht; [|exists x; split; [done|apply table_kept_refl]].
  subst. replace x with m by congruence. by exists m'.
Qed.

(** The same tables: nothing is lost. *)
Lemma data_kept_tables c c' : cat_tables c = cat_tables c' → data_kept c c'.
Proof. unfold data_kept, get_table. intros ->. intros t m E. exists m. split; [done|apply table_kept_refl]. Qed.

Lemma cell_put col col' v r : cell col (dict_put col' v r) = if col == col' then v else cell col r.
Proof. unfold cell. rewrite assoc_put. by case_bool_decide. Qed.

Lemma rows_kept_map cols f rows : (∀ r, row_kept cols r (f r)) → Forall2 (row_kept cols) rows (map f rows).
Proof. intros Hf. induction rows; cbn; constructor; auto. Qed.
