(* ===== verification/Migrations.v ===== *)
(** * Migrations ([src/migrations], [src/migrate_db.py], [src/scripts/migrate_release.sh])

    The numbered scripts in the order in which a release runs them, each as it
    runs on PostgreSQL (the release refuses any other database): its guards,
    the errors it swallows, its commits and its verification; the downgrades;
    and the release, which stops at the first script that fails.  The tables
    of the models with their indexes and foreign keys are those of
    [src/mailer_agent/models.py]. *)

From S2P Require Import Prelude Sql Models Config Samples Auth SemanticModels StateMachine Sender Regex Threading Grounding ExactMessage WorkClaiming Lifecycle Llm LlmSchemas Memory Classifier SemanticParsing Guardrails Scheduling FollowUp Inbound InboundSafety ExternalDispatchWorker GenerationWorker WorkerStatus OperatorMetrics CanonicalJson Integrations MailboxPolling SchedulerJobs Process MigrationGate Ddl.

#[local] Open Scope bool_scope.

(** ** The tables of the models *)

Definition plain (name t : string) (cols : list string) : Index := mkIndex name t cols false PTrue false true.
Definition unique_on (name t : string) (cols : list string) (p : Pred) : Index := mkIndex name t cols true p false true.
Definition constraint_on (name t : string) (cols : list string) : Index := mkIndex name t cols true PTrue true true.
(** [index=True] *)
Definition indexed (t col : string) : Index := plain ("ix_" +:+ t +:+ "_" +:+ col) t [col].
Definition refers (t col target : string) (cascade : bool) : ForeignKey :=
  mkForeignKey (t +:+ "_" +:+ col +:+ "_fkey") t col target cascade.

(** The columns with [nullable=False], and the primary key. *)
Definition REQUIRED : list (string * list string) :=
  [("campaigns", ["id"; "name"; "sender_name"; "sender_org"; "sender_email"; "value_prop"]);
   ("mailboxes", ["id"; "public_reference"; "organization_id"; "email_address"; "smtp_host"; "smtp_port";
      "smtp_use_tls"; "smtp_username"; "smtp_password_enc"; "status"]);
   ("suppression_list", ["id"; "email"]);
   ("worker_cycle_status", ["id"; "instance_id"; "kind"; "last_cycle_at"; "last_outcome";
      "consecutive_unhealthy_cycles"; "cycles_recorded"]);
   ("worker_runtime_status", ["id"; "instance_id"; "role"; "started_at"; "heartbeat_at"]);
   ("contacts", ["id"; "campaign_id"; "email"]);
   ("unmatched_inbound_messages", ["id"; "mailbox_id"; "organization_id"; "message_id_header"; "reason"; "body"]);
   ("messages", ["id"; "contact_id"; "direction"; "body"]);
   ("external_dispatches", ["id"; "organization_id"; "idempotency_key"; "campaign_id"; "contact_id";
      "request_fingerprint"; "public_reference"; "state"])].

Definition MODEL_INDEXES : list Index :=
  [unique_on "uq_campaigns_org_integration_source" "campaigns" ["organization_id"; "integration_source"] PTrue;
   indexed "campaigns" "id"; indexed "campaigns" "organization_id";
   constraint_on "uq_mailboxes_public_reference" "mailboxes" ["public_reference"];
   constraint_on "uq_mailboxes_org_email" "mailboxes" ["organization_id"; "email_address"];
   constraint_on "uq_suppression_email_org" "suppression_list" ["email"; "organization_id"];
   indexed "suppression_list" "id"; indexed "suppression_list" "email"; indexed "suppression_list" "organization_id";
   constraint_on "uq_worker_cycle_status_instance_kind" "worker_cycle_status" ["instance_id"; "kind"];
   constraint_on "uq_worker_runtime_status_instance_id" "worker_runtime_status" ["instance_id"];
   plain "ix_worker_runtime_status_heartbeat_at" "worker_runtime_status" ["heartbeat_at"];
   constraint_on "uq_contacts_campaign_email" "contacts" ["campaign_id"; "email"];
   indexed "contacts" "id"; indexed "contacts" "email"; indexed "contacts" "claimed_by";
   constraint_on "uq_unmatched_inbound_mailbox_message_id" "unmatched_inbound_messages" ["mailbox_id"; "message_id_header"];
   unique_on "uq_messages_message_id_no_mailbox" "messages" ["message_id_header"] (PNull "mailbox_id");
   unique_on "uq_messages_mailbox_message_id" "messages" ["mailbox_id"; "message_id_header"] (PNotNull "mailbox_id");
   mkIndex "ix_messages_inbound_created_at" "messages" ["created_at"] false (PIs "direction" "inbound") false true;
   unique_on "uq_messages_reply_reference" "messages" ["reply_reference"] PTrue;
   indexed "messages" "id"; indexed "messages" "message_id_header"; indexed "messages" "in_reply_to_header";
   constraint_on "uq_external_dispatches_org_idempotency_key" "external_dispatches" ["organization_id"; "idempotency_key"];
   constraint_on "uq_external_dispatches_public_reference" "external_dispatches" ["public_reference"];
   plain "ix_external_dispatches_claimed_by" "external_dispatches" ["claimed_by"];
   plain "ix_external_dispatches_state_claimed_at" "external_dispatches" ["state"; "claimed_at"];
   indexed "external_dispatches" "id"; indexed "external_dispatches" "organization_id"].

Definition MODEL_FKS : list ForeignKey :=
  [refers "contacts" "campaign_id" "campaigns" true; refers "messages" "contact_id" "contacts" true;
   refers "messages" "mailbox_id" "mailboxes" false; refers "unmatched_inbound_messages" "mailbox_id" "mailboxes" false;
   refers "external_dispatches" "campaign_id" "campaigns" false;
   refers "external_dispatches" "contact_id" "contacts" false;
   refers "external_dispatches" "message_id" "messages" false;
   refers "external_dispatches" "mailbox_id" "mailboxes" false].

Definition model_columns (t : string) : list string := default [] (assoc t METADATA).
Definition model_table (t : string) : TableSpec :=
  mkTableSpec (map (λ c, mkColumn c (negb (in_list c (default [] (assoc t REQUIRED))))) (model_columns t))
    (List.filter (λ ix, ix_table ix == t) MODEL_INDEXES) (List.filter (λ fk, fk_table fk == t) MODEL_FKS).

Section Scripts.
Context `{Server}.

(** [try] the body; [except Exception]: the answer is no. *)
Definition succeeds {A} (m : Mig A) : Mig bool := catch (_ ← m; mret true) (λ _, mret false).

(** [init_db] up to its commit: one transaction behind an advisory lock. *)
Definition init_tables : Mig unit :=
  _ ← sql (ask (λ _, ())); _ ← sql (ask (λ _, ()));
  mig_each (λ t, sql (create_table (fst t) (model_table (fst t)))) METADATA.

(** ** 001 and the helpers that 002 and 004 share with it *)

Definition add_column_if_not_exists (t col : string) (dflt : sqlval) : Mig bool :=
  catch (found ← sql (ask (has_column t col));
         if found : bool then mret false else _ ← sql (add_column t col dflt None); mret true)
    (λ _, catch (_ ← sql (add_column t col dflt None); mret true)
            (λ e2, if mentions "duplicate column" e2 || mentions "already exists" e2 then mret false else mig_raise e2)).

Definition create_index_if_not_exists (ix : Index) : Mig bool :=
  catch (_ ← sql (create_index true ix); mret true)
    (λ e, if mentions "already exists" e || mentions "duplicate" e then mret false else mig_raise e).

Definition migrate_campaigns : Mig unit :=
  _ ← add_column_if_not_exists "campaigns" "organization_id" VNull;
  _ ← add_column_if_not_exists "campaigns" "timezone" (VStr "UTC");
  _ ← create_index_if_not_exists (plain "idx_campaigns_org_id" "campaigns" ["organization_id"]);
  mret ().

Definition migrate_contacts : Mig unit :=
  catch (_ ← create_index_if_not_exists (unique_on "idx_contacts_campaign_email" "contacts" ["campaign_id"; "email"] PTrue);
         mret ())
    (λ e, if mentions "unique constraint" e || mentions "duplicate" e then mret () else mig_raise e).

(** [WHERE direction = 'inbound' AND message_id_header IS NOT NULL] *)
Definition inbound_with_id : Pred := PAnd (PIs "direction" "inbound") (PNotNull "message_id_header").

Definition migrate_messages : Mig unit :=
  _ ← add_column_if_not_exists "messages" "send_attempt_count" (VInt 0);
  _ ← add_column_if_not_exists "messages" "last_send_attempt_at" VNull;
  _ ← catch (_ ← create_index_if_not_exists
                    (unique_on "idx_messages_inbound_message_id" "messages" ["message_id_header"] inbound_with_id);
             mret ())
        (λ e, if mentions "syntax" e then mret () else mig_raise e);
  _ ← create_index_if_not_exists (plain "idx_messages_message_id" "messages" ["message_id_header"]);
  mret ().

Definition suppression_email : Index := unique_on "idx_suppression_email" "suppression_list" ["email"] PTrue.
Definition migrate_suppression : Mig unit := _ ← create_index_if_not_exists suppression_email; mret ().

Definition verify_migration : Mig bool :=
  a ← succeeds (sql (select_columns ["organization_id"; "timezone"] "campaigns"));
  b ← succeeds (sql (select_columns ["send_attempt_count"] "messages"));
  mret (a && b).

Definition steps_001 : Mig unit :=
  _ ← migrate_campaigns; _ ← migrate_contacts; _ ← migrate_messages; migrate_suppression.
Definition run_001 : Mig bool := _ ← steps_001; _ ← commit; verify_migration.

(** ** 002: constraints and tenants *)

(** [SELECT version()] first: in an aborted transaction the answer is no. *)
Definition is_postgres : Mig bool := succeeds (sql (ask (λ _, ()))).
Definition column_exists (t col : string) : Mig bool := succeeds (sql (select_columns [col] t)).
Definition index_exists (name : string) : Mig bool :=
  catch (pg ← is_postgres;
         if pg : bool then sql (ask (λ c, is_not_none (find_index name c)))
         else _ ← sql (select_columns ["name"] "sqlite_master"); mret false)
    (λ _, mret false).

Definition add_column_safe (t col : string) (dflt : sqlval) : Mig bool :=
  found ← column_exists t col;
  if found : bool then mret false
  else catch (_ ← sql (add_column t col dflt None); mret true)
         (λ e, if mentions "duplicate column" e || mentions "already exists" e then mret false else mig_raise e).

Definition create_index_safe (ix : Index) : Mig bool :=
  found ← index_exists (ix_name ix);
  if found : bool then mret false
  else catch (_ ← sql (create_index true ix); mret true)
         (λ e, if mentions "already exists" e || mentions "duplicate" e then mret false else mig_raise e).

Definition step_campaigns_columns : Mig unit :=
  _ ← add_column_safe "campaigns" "organization_id" VNull;
  _ ← add_column_safe "campaigns" "timezone" (VStr "UTC");
  mret ().
Definition step_campaigns_backfill : Mig unit :=
  _ ← sql (fill_nulls "campaigns" "organization_id" (λ _, Some (VStr "default"))); mret ().
Definition create_all_safe (l : list Index) : Mig unit := mig_each (λ ix, _ ← create_index_safe ix; mret ()) l.
Definition step_campaigns_indexes : Mig unit :=
  create_all_safe [plain "idx_campaigns_org_id" "campaigns" ["organization_id"];
                   plain "idx_campaigns_is_active" "campaigns" ["is_active"];
                   plain "idx_campaigns_org_active" "campaigns" ["organization_id"; "is_active"]].

(** [GROUP BY cols HAVING COUNT( * ) > 1] has a row. *)
Definition repeated (cols : list string) (rows : list SqlRow) : bool :=
  negb (bool_decide (NoDup (map (λ r, map (λ c, cell c r) cols) rows))).

Definition step_contacts_unique : Mig unit :=
  dupes ← sql (ask_rows "contacts" ["campaign_id"; "email"] (repeated ["campaign_id"; "email"]));
  if dupes : bool then mret ()
  else _ ← create_index_safe (unique_on "uq_contacts_campaign_email" "contacts" ["campaign_id"; "email"] PTrue); mret ().
Definition step_contacts_indexes : Mig unit :=
  create_all_safe [plain "idx_contacts_status" "contacts" ["status"];
                   plain "idx_contacts_next_action_at" "contacts" ["next_action_at"];
                   plain "idx_contacts_scheduler_hot" "contacts" ["status"; "next_action_at"];
                   plain "idx_contacts_campaign_status" "contacts" ["campaign_id"; "status"]].

Definition inbound_unique : Index := unique_on "uq_messages_inbound_message_id" "messages" ["message_id_header"] inbound_with_id.
Definition step_messages_inbound_dedup : Mig unit :=
  pg ← is_postgres;
  _ ← create_index_safe (if pg : bool then inbound_unique
                         else plain "idx_messages_message_id_header" "messages" ["message_id_header"]);
  mret ().
Definition step_messages_indexes : Mig unit :=
  create_all_safe [plain "idx_messages_contact_id" "messages" ["contact_id"];
                   plain "idx_messages_in_reply_to" "messages" ["in_reply_to_header"];
                   plain "idx_messages_status" "messages" ["status"];
                   plain "idx_messages_direction_status" "messages" ["direction"; "status"]].

Definition drop_old_index (name : string) : Mig unit :=
  catch (found ← index_exists name; if found : bool then sql (drop_index true name) else mret ()) (λ _, mret ()).
Definition step_suppression_org_scope : Mig unit :=
  _ ← add_column_safe "suppression_list" "organization_id" VNull;
  _ ← sql (fill_nulls "suppression_list" "organization_id" (λ _, Some (VStr "default")));
  _ ← mig_each drop_old_index ["idx_suppression_email"; "uq_suppression_email"; "ix_suppression_list_email"];
  _ ← create_index_safe (unique_on "uq_suppression_email_org" "suppression_list" ["email"; "organization_id"] PTrue);
  mret ().

Definition cascade (fk : ForeignKey) : Mig unit :=
  catch (_ ← sql (drop_fk (fk_table fk) (fk_name fk)); sql (add_fk fk)) (λ _, mret ()).
Definition step_postgres_fk_cascades : Mig unit :=
  pg ← is_postgres;
  if negb pg then mret ()
  else mig_each cascade [refers "contacts" "campaign_id" "campaigns" true; refers "messages" "contact_id" "contacts" true].

Definition verify_002 : Mig bool :=
  a ← column_exists "campaigns" "organization_id";
  b ← column_exists "campaigns" "timezone";
  c ← column_exists "suppression_list" "organization_id";
  _ ← mig_each (λ i, _ ← index_exists i; mret ())
        ["idx_campaigns_org_id"; "idx_contacts_status"; "idx_contacts_next_action_at"; "idx_contacts_scheduler_hot";
         "uq_suppression_email_org"];
  mret (a && b && c).

Definition steps_002 : Mig unit :=
  _ ← step_campaigns_columns; _ ← step_campaigns_backfill; _ ← step_campaigns_indexes; _ ← step_contacts_unique;
  _ ← step_contacts_indexes; _ ← step_messages_inbound_dedup; _ ← step_messages_indexes;
  _ ← step_suppression_org_scope; step_postgres_fk_cascades.
Definition run_002 : Mig bool := _ ← steps_002; _ ← commit; verify_002.

(** ** 002: work claiming, and its deprecated twin *)

Definition create_index_if_missing (ix : Index) : Mig bool :=
  catch (_ ← sql (create_index true ix); mret true)
    (λ e, if mentions "already exists" e then mret false else mig_raise e).

Definition add_claiming_columns : Mig unit :=
  _ ← add_column_if_not_exists "contacts" "claimed_by" VNull;
  _ ← add_column_if_not_exists "contacts" "claimed_at" VNull;
  mret ().
Definition work_queue_index : Index := plain "idx_contacts_work_queue" "contacts" ["status"; "next_action_at"; "claimed_at"].
Definition add_claiming_indexes : Mig unit :=
  _ ← create_index_if_missing (plain "idx_contacts_claimed_by" "contacts" ["claimed_by"]);
  _ ← create_index_if_missing work_queue_index;
  mret ().
Definition steps_work_claiming : Mig unit := _ ← add_claiming_columns; add_claiming_indexes.
Definition run_002_work_claiming : Mig bool :=
  _ ← steps_work_claiming; _ ← commit;
  succeeds (sql (select_columns ["claimed_by"; "claimed_at"] "contacts")).

Definition run_002_add_work_claiming : Mig bool :=
  _ ← add_claiming_columns;
  _ ← create_index_if_not_exists (plain "idx_contacts_claimed_by" "contacts" ["claimed_by"]);
  _ ← commit; mret true.

(** ** migrate_db.py *)

Definition add_missing_column (t col : string) (dflt : sqlval) : Mig unit :=
  found ← sql (ask (has_column t col));
  if found : bool then mret () else sql (add_column t col dflt None).
(** 0.0 is the integer 0 here. *)
Definition migrate_database : Mig bool :=
  _ ← init_tables; _ ← commit;
  _ ← mig_each (λ x, add_missing_column "contacts" (fst x) (snd x))
        [("last_reply_at", VNull); ("last_outbound_at", VNull); ("buying_stage", VNull); ("engagement_score", VInt 0)];
  _ ← mig_each (λ col, add_missing_column "messages" col VNull)
        ["semantic_analysis"; "classification_success"; "classification_failure_reason"];
  mret true.

(** ** 003: one Message-ID, one message *)

Definition header_unique : Index := constraint_on "uq_messages_message_id_header" "messages" ["message_id_header"].
(** The non-NULL values that occur twice. *)
Definition repeated_ids (rows : list SqlRow) : bool := negb (bool_decide (NoDup (keys header_unique rows))).
Definition constraint_exists (t name : string) (c : Catalog) : bool :=
  existsb (λ ix, (ix_name ix == name) && (ix_table ix == t) && ix_constraint ix) (cat_indexes c).

Definition add_unique_constraint : Mig bool :=
  duplicates ← sql (ask_rows "messages" ["message_id_header"] repeated_ids);
  if duplicates : bool then mret false
  else catch (found ← sql (ask (constraint_exists "messages" "uq_messages_message_id_header"));
              if found : bool then mret true else _ ← sql (create_index false header_unique); mret true)
         (λ e, if mentions "already exists" e || mentions "duplicate" e then mret true else mig_raise e).
Definition run_003 : Mig bool :=
  ok ← add_unique_constraint;
  if negb ok then _ ← rollback; mret false
  else _ ← commit; succeeds (sql (select_columns ["message_id_header"] "messages")).

(** ** 004: integration campaigns and dispatches *)

Definition integration_source_unique : Index :=
  unique_on "uq_campaigns_org_integration_source" "campaigns" ["organization_id"; "integration_source"] PTrue.
Definition verify_004 : Mig bool :=
  a ← succeeds (sql (select_columns ["integration_source"] "campaigns"));
  b ← succeeds (sql (select_columns ["organization_id"; "idempotency_key"; "campaign_id"; "contact_id"; "message_id";
                                    "request_fingerprint"; "public_reference"; "state"] "external_dispatches"));
  mret (a && b).
Definition steps_004 : Mig unit :=
  _ ← add_column_if_not_exists "campaigns" "integration_source" VNull;
  _ ← create_index_if_missing integration_source_unique;
  sql (create_table "external_dispatches" (model_table "external_dispatches")).
Definition run_004 : Mig bool := _ ← steps_004; _ ← commit; verify_004.

(** ** 005, 007: columns of a dispatch *)

(** [any(c["name"] == col for c in inspect(...).get_columns(t))] *)
Definition inspect_column (t col : string) : Mig bool := inspect_table t (λ _ m, in_list col (table_columns m)).
Definition inspect_index (t name : string) : Mig bool :=
  inspect_table t (λ c _, existsb (λ ix, ix_name ix == name) (table_indexes t c)).

Definition add_column_checked (t col : string) (ref : option ForeignKey) : Mig bool :=
  found ← inspect_column t col;
  if found : bool then mret false else _ ← sql (add_column t col VNull ref); mret true.
Definition drop_column_checked (t col : string) : Mig bool :=
  found ← inspect_column t col;
  if negb found then mret false else _ ← sql (drop_column t col); mret true.

Definition run_005 : Mig bool :=
  _ ← add_column_checked "external_dispatches" "grounding_context" None; _ ← commit;
  succeeds (sql (select_columns ["grounding_context"] "external_dispatches")).
Definition downgrade_005 : Mig bool :=
  _ ← drop_column_checked "external_dispatches" "grounding_context"; _ ← commit; mret true.

Definition add_mailbox_id_column : Mig bool :=
  add_column_checked "external_dispatches" "mailbox_id" (Some (refers "external_dispatches" "mailbox_id" "mailboxes" false)).
Definition drop_mailbox_id_column : Mig bool := drop_column_checked "external_dispatches" "mailbox_id".
Definition run_007 : Mig bool :=
  _ ← add_mailbox_id_column; _ ← commit; succeeds (sql (select_columns ["mailbox_id"] "external_dispatches")).
Definition downgrade_007 : Mig bool := _ ← drop_mailbox_id_column; _ ← commit; mret true.

(** ** 006, 011: tables *)

Definition table_exists (t : string) : Mig bool := sql (ask (λ c, is_not_none (get_table t c))).
Definition create_model_table (t : string) : Mig bool :=
  found ← table_exists t;
  if found : bool then mret false else _ ← sql (create_table t (model_table t)); mret true.
(** The warning counts the rows first. *)
Definition drop_model_table (counts : nat) (t : string) : Mig bool :=
  found ← table_exists t;
  if negb found then mret false
  else _ ← mig_each (λ _, sql (select_columns [] t)) (seq 0 counts); _ ← sql (drop_table t); mret true.
(** The columns of the unique constraints and indexes of a table. *)
Definition uniques (t : string) (c : Catalog) : list (list string) := map ix_columns (List.filter ix_unique (table_indexes t c)).
Definition verify_table (t : string) (wanted : list (list string)) : Mig bool :=
  found ← table_exists t;
  if negb found then mret false
  else inspect_table t (λ c _, forallb (λ w, in_list w (uniques t c)) wanted).

Definition run_006 : Mig bool :=
  _ ← create_model_table "mailboxes"; _ ← commit;
  verify_table "mailboxes" [["organization_id"; "email_address"]; ["public_reference"]].
Definition downgrade_006 : Mig bool := _ ← drop_model_table 1 "mailboxes"; _ ← commit; mret true.

Definition create_unmatched_table : Mig bool := create_model_table "unmatched_inbound_messages".
Definition drop_unmatched_table : Mig bool := drop_model_table 2 "unmatched_inbound_messages".
Definition run_011 : Mig bool :=
  _ ← create_unmatched_table; _ ← commit;
  verify_table "unmatched_inbound_messages" [["mailbox_id"; "message_id_header"]].
Definition downgrade_011 : Mig bool := _ ← drop_unmatched_table; _ ← commit; mret true.

(** ** 008: a dispatch may wait for its message *)

(** [cols["message_id"]["nullable"]]; a missing column is a KeyError. *)
Definition message_id_nullable : Mig bool :=
  r ← inspect_table "external_dispatches" (λ _ m, find (λ x, col_name x == "message_id") (st_columns m));
  match r with Some x => mret (col_nullable x) | None => mig_raise (Raised "'message_id'") end.
Definition make_message_id_nullable : Mig bool :=
  nullable ← message_id_nullable;
  if nullable : bool then mret false else _ ← sql (set_nullable "external_dispatches" "message_id" true); mret true.
Definition pending_rows (rows : list SqlRow) : Z := tally (λ r, cell "message_id" r == VNull) rows.
Definition make_message_id_required : Mig bool :=
  nullable ← message_id_nullable;
  if negb nullable then mret false
  else
    pending ← sql (ask_rows "external_dispatches" ["message_id"] pending_rows);
    if pending != 0 then
      mig_raise (Raised (pretty pending +:+ " dispatch row(s) have message_id NULL (awaiting or failed before generation); "
                         +:+ "resolve them before downgrading"))
    else _ ← sql (set_nullable "external_dispatches" "message_id" false); mret true.
Definition run_008 : Mig bool := _ ← make_message_id_nullable; _ ← commit; mret true.
Definition downgrade_008 : Mig bool := _ ← make_message_id_required; _ ← commit; mret true.

(** ** 009: Message-IDs per mailbox *)

Definition no_mailbox_unique : Index :=
  unique_on "uq_messages_message_id_no_mailbox" "messages" ["message_id_header"] (PNull "mailbox_id").
Definition mailbox_unique : Index :=
  unique_on "uq_messages_mailbox_message_id" "messages" ["mailbox_id"; "message_id_header"] (PNotNull "mailbox_id").
Definition create_if_absent (ix : Index) : Mig unit :=
  found ← inspect_index (ix_table ix) (ix_name ix);
  if found : bool then mret () else sql (create_index false ix).

Definition upgrade_schema : Mig unit :=
  _ ← add_column_checked "messages" "mailbox_id" (Some (refers "messages" "mailbox_id" "mailboxes" false));
  _ ← create_if_absent no_mailbox_unique;
  _ ← create_if_absent mailbox_unique;
  old ← sql (ask (constraint_exists "messages" "uq_messages_message_id_header"));
  if old : bool then sql (drop_unique "messages" "uq_messages_message_id_header") else mret ().
Definition verify_009 : Mig bool :=
  catch (_ ← sql (select_columns ["mailbox_id"] "messages");
         a ← inspect_index "messages" "uq_messages_message_id_no_mailbox";
         if negb a then mret false else inspect_index "messages" "uq_messages_mailbox_message_id")
    (λ _, mret false).
Definition run_009 : Mig bool := _ ← upgrade_schema; _ ← commit; verify_009.

Definition drop_index_checked (t name : string) : Mig unit :=
  found ← inspect_index t name; if found : bool then sql (drop_index false name) else mret ().
Definition downgrade_schema : Mig bool :=
  found ← inspect_column "messages" "mailbox_id";
  dupes ← (if found : bool then sql (ask_rows "messages" ["message_id_header"] repeated_ids) else mret false);
  if dupes : bool then mret false
  else
    old ← sql (ask (constraint_exists "messages" "uq_messages_message_id_header"));
    _ ← (if old : bool then mret () else sql (create_index false header_unique));
    _ ← mig_each (drop_index_checked "messages") ["uq_messages_mailbox_message_id"; "uq_messages_message_id_no_mailbox"];
    found ← inspect_column "messages" "mailbox_id";
    _ ← (if found : bool then sql (drop_column "messages" "mailbox_id") else mret ());
    mret true.
Definition downgrade_009 : Mig bool :=
  ok ← downgrade_schema; if ok : bool then _ ← commit; mret true else _ ← rollback; mret false.

(** ** 010: worker status *)

(** [int(raw)], which may raise. *)
Variable int_of_string : string → option Z.

Definition env_ms (env : Environ) (name : string) (dflt lo hi : Z) : Z :=
  let raw := Str.strip (getenv name env) in
  let value := if raw == "" then dflt else default dflt (int_of_string raw) in
  Z.max lo (Z.min hi value).
Definition lock_ms (env : Environ) : Z := env_ms env "MIGRATION_010_LOCK_TIMEOUT_MS" 5000 100 300000.
Definition stmt_ms (env : Environ) : Z :=
  if Str.strip (getenv "MIGRATION_010_STATEMENT_TIMEOUT_MS" env) == "" then 0
  else env_ms env "MIGRATION_010_STATEMENT_TIMEOUT_MS" 0 1000 3600000.
Definition apply_timeouts (env : Environ) : Mig unit :=
  _ ← sql (ask (λ _, ())); mig_when (stmt_ms env != 0) (sql (ask (λ _, ()))).

Definition inbound_created_at : Index :=
  mkIndex "ix_messages_inbound_created_at" "messages" ["created_at"] false (PIs "direction" "inbound") false true.
Definition index_valid (name : string) (c : Catalog) : option bool := ix_valid <$> find_index name c.
Definition create_index_010 : Mig bool :=
  found ← inspect_index "messages" "ix_messages_inbound_created_at";
  if found : bool then
    valid ← sql (ask (index_valid "ix_messages_inbound_created_at"));
    if valid == Some false then
      mig_raise (Raised "index ix_messages_inbound_created_at exists but is INVALID")
    else mret false
  else _ ← sql (create_index false inbound_created_at); mret true.
Definition status_tables : list (string * list string) :=
  [("worker_runtime_status", ["instance_id"]); ("worker_cycle_status", ["instance_id"; "kind"])].
Definition verify_status_table (x : string * list string) : Mig bool :=
  found ← table_exists (fst x);
  if negb found then mret false
  else inspect_table (fst x) (λ c m, forallb (λ col, in_list col (table_columns m)) (model_columns (fst x))
                                     && in_list (snd x) (uniques (fst x) c)).
Definition verify_010 : Mig bool :=
  a ← verify_status_table ("worker_runtime_status", ["instance_id"]);
  b ← verify_status_table ("worker_cycle_status", ["instance_id"; "kind"]);
  found ← inspect_index "messages" "ix_messages_inbound_created_at";
  if negb found then mret false
  else valid ← sql (ask (index_valid "ix_messages_inbound_created_at")); mret (a && b && (valid != Some false)).
Definition create_status_tables : Mig unit := mig_each (λ x, _ ← create_model_table (fst x); mret ()) status_tables.
Definition steps_010 (env : Environ) : Mig unit :=
  _ ← apply_timeouts env; _ ← create_status_tables; _ ← create_index_010; mret ().
Definition run_010 (env : Environ) : Mig bool := _ ← steps_010 env; _ ← commit; verify_010.
Definition drop_all : Mig unit :=
  _ ← drop_index_checked "messages" "ix_messages_inbound_created_at";
  mig_each (λ x, _ ← drop_model_table 0 (fst x); mret ()) (rev status_tables).
Definition downgrade_010 : Mig bool := _ ← drop_all; _ ← commit; mret true.

(** ** 012: reply references *)

Definition BATCH_SIZE : nat := 1000.
(** The random tokens, in the order in which they are drawn. *)
Variable uuid4_hex : nat → string.

Definition reply_unique : Index := unique_on "uq_messages_reply_reference" "messages" ["reply_reference"] PTrue.
Definition id_le (a b : Z) : Prop := a ≤ b.
#[local] Instance id_le_dec : RelDecision id_le := Z_le_dec.
Definition row_key (r : SqlRow) : option Z := match cell "id" r with VInt n => Some n | _ => None end.
(** [SELECT id ... WHERE reply_reference IS NULL ORDER BY id LIMIT n] *)
Definition unfilled (rows : list SqlRow) : list Z :=
  take BATCH_SIZE (merge_sort id_le (omap row_key (List.filter (λ r, cell "reply_reference" r == VNull) rows))).
(** The token of the row, when its id is in the batch. *)
Definition token_for (base : nat) (ids : list Z) (r : SqlRow) : option sqlval :=
  match row_key r with
  | Some i => (λ k, VStr (uuid4_hex (base + fst k)%nat)) <$> list_find (λ j, j = i) ids
  | None => None
  end.
Fixpoint backfill (fuel total : nat) : Mig nat :=
  match fuel with
  | O => mig_raise (Raised "out of fuel")
  | S fuel =>
      ids ← sql (ask_rows "messages" ["id"; "reply_reference"] unfilled);
      match ids with
      | [] => mret total
      | _ => _ ← sql (fill_nulls "messages" "reply_reference" (token_for total ids));
             _ ← commit;
             backfill fuel (total + length ids)%nat
      end
  end.
(** A round fills at least one row. *)
Definition unfilled_count (c : Catalog) : nat :=
  length (List.filter (λ r, cell "reply_reference" r == VNull) (default [] (st_rows <$> get_table "messages" c))).
Definition backfill_all : Mig nat := λ s, backfill (S (unfilled_count (cn_working s))) 0 s.

Definition create_index_012 : Mig bool :=
  found ← inspect_index "messages" "uq_messages_reply_reference";
  if found : bool then mret false else _ ← sql (create_index false reply_unique); mret true.
Definition verify_012 : Mig bool :=
  found ← inspect_column "messages" "reply_reference";
  if negb found then mret false
  else
    idx ← inspect_table "messages" (λ c _, find (λ ix, ix_name ix == "uq_messages_reply_reference") (table_indexes "messages" c));
    match idx with
    | Some ix =>
        if negb (ix_unique ix) || (ix_columns ix != ["reply_reference"]) then mret false
        else
          valid ← sql (ask (index_valid "uq_messages_reply_reference"));
          if negb (default false valid) then mret false
          else nulls ← sql (ask_rows "messages" ["reply_reference"] (tally (λ r, cell "reply_reference" r == VNull)));
               mret (nulls == 0)
    | None => mret false
    end.
Definition add_reply_reference : Mig bool := add_column_checked "messages" "reply_reference" None.
Definition run_012 : Mig bool :=
  _ ← add_reply_reference; _ ← commit;
  _ ← backfill_all; _ ← create_index_012; _ ← commit; verify_012.
Definition downgrade_012 : Mig bool :=
  _ ← drop_index_checked "messages" "uq_messages_reply_reference";
  found ← inspect_column "messages" "reply_reference";
  _ ← (if found : bool then sql (drop_column "messages" "reply_reference") else mret ());
  _ ← commit; mret true.

(** ** The release *)

Definition STEPS (env : Environ) : list (Mig bool) :=
  [run_001; run_002; run_002_work_claiming; migrate_database; run_003; run_004; run_005; run_006; run_007; run_008;
   run_009; run_010 env; run_011; run_012].

Fixpoint run_steps (steps : list (Mig bool)) (c : Catalog) (n : nat) : bool * Catalog * nat :=
  match steps with
  | [] => (true, c, n)
  | step :: rest => match run_script step c n with
                    | (true, c, n) => run_steps rest c n
                    | failed => failed
                    end
  end.

(** The catalog as [migrate_preflight.py] sees it. *)
Definition states_of (c : Catalog) : list string :=
  omap (λ r, match cell "state" r with VStr s => Some s | _ => None end)
    (default [] (st_rows <$> get_table "external_dispatches" c)).
Definition live_of (connect : result string (string * string)) (c : Catalog) : Live :=
  mkLive connect (map (λ x, (fst x, table_columns (snd x))) (cat_tables c))
    (map (λ x, (fst x, map col_name (List.filter col_nullable (st_columns (snd x))))) (cat_tables c))
    (map (λ x, (fst x, map ix_name (table_indexes (fst x) c))) (cat_tables c))
    (map ix_name (List.filter ix_valid (cat_indexes c))) (states_of c).

(** [migrate_release.sh]: the gate, [init_db], then the steps; exit status 0.
    The status report at its end changes nothing. *)
Definition migrate_release `{MakeUrl} (env : Environ) (settings : Settings) (connect : result string (string * string))
    (c : Catalog) : bool * Catalog :=
  match main (CGate true) env settings (live_of connect c) with
  | (_, Ok code, _) =>
      if code =? EXIT_OK then
        match run_script (_ ← init_tables; mret true) c 0 with
        | (true, c, n) => fst (run_steps (STEPS env) c n)
        | (false, c, _) => (false, c)
        end
      else (false, c)
  | (_, Err _, _) => (false, c)
  end.
End Scripts.
