(* ===== verification/MigrationSafety.v ===== *)
(** * What a release does to a database

    The theorems about the scripts of [Migrations], whatever statements the
    server refuses and whatever commits fail: they only add ([extends]), what
    a successful release leaves behind, what blocks one, and what the indexes
    it builds mean for inbound mail. *)

From stdpp Require Import sets.
From S2P Require Import Prelude Sql Models Config Samples Auth SemanticModels StateMachine Sender Regex Threading Grounding ExactMessage WorkClaiming Lifecycle Llm LlmSchemas Memory Classifier SemanticParsing Guardrails Scheduling FollowUp Inbound InboundSafety ExternalDispatchWorker GenerationWorker WorkerStatus OperatorMetrics CanonicalJson Integrations MailboxPolling SchedulerJobs Process MigrationGate Ddl Migrations.

#[local] Open Scope bool_scope.

(** ** Additive changes *)

(** The indexes the scripts drop. *)
Definition EXPENDABLE : list string :=
  ["idx_suppression_email"; "uq_suppression_email"; "ix_suppression_list_email"; "uq_messages_message_id_header"].
(** Indexes that are created only if their name is free, with their tables. *)
Definition HOMES : list (string * string) :=
  [("idx_contacts_work_queue", "contacts"); ("uq_campaigns_org_integration_source", "campaigns")].
(** No foreign index bears one of their names, nor that of the inbound one. *)
Definition at_home (ix : Index) : Prop :=
  (∀ t, assoc (ix_name ix) HOMES = Some t → ix_table ix = t) ∧ (ix_name ix = ix_name inbound_unique → ix = inbound_unique).
Definition well_homed (c : Catalog) : Prop := ∀ ix, ix ∈ cat_indexes c → at_home ix.

Record extends (c c' : Catalog) : Prop := mkExtends {
  ex_data : data_kept c c';
  ex_indexes : ∀ ix, ix ∈ cat_indexes c → ix_name ix ∉ EXPENDABLE → ix ∈ cat_indexes c';
  ex_homes : well_homed c → well_homed c'
}.

#[global] Instance extends_preorder : PreOrder extends.
Proof.
  split.
  - intros c. by split.
  - intros c1 c2 c3 [d1 i1 h1] [d2 i2 h2]. split; [by etrans|auto|auto].
Qed.

Definition safe {A} (q : stmt A) : Prop := ∀ c c' a, q c = Ok (c', a) → extends c c'.

Lemma safe_same {A} (q : stmt A) : (∀ c c' a, q c = Ok (c', a) → c' = c) → safe q.
Proof. intros Hq c c' a E. by rewrite (Hq _ _ _ E). Qed.

(** New rows and columns in one table; the indexes stay. *)
Lemma extends_put t m m' c fks :
  get_table t c = Some m → table_kept m m' → extends c (set_fks fks (put_table t m' c)).
Proof. intros E K. split; [|done|done]. intros t' x Ex. by apply (data_kept_put t m m' c E K). Qed.

Lemma select_columns_inv cols t c c' u :
  select_columns cols t c = Ok (c', u) → c' = c ∧ ∃ m, get_table t c = Some m ∧ ∀ col, col ∈ cols → col ∈ table_columns m.
Proof.
  unfold select_columns. destruct (get_table t c) as [m|]; [|done]. destruct (find _ cols) as [col|] eqn:E; [done|].
  intros [= <- _]. split; [done|]. exists m. split; [done|]. intros col Hc. apply list_elem_of_In in Hc.
  pose proof (find_none _ _ E col Hc) as Hn. cbn in Hn. apply negb_false_iff in Hn. by apply bool_decide_eq_true in Hn.
Qed.

Lemma select_columns_safe cols t : safe (select_columns cols t).
Proof. apply safe_same. by intros c c' u [-> _]%select_columns_inv. Qed.
Lemma ask_safe {A} (f : Catalog → A) : safe (ask f).
Proof. apply safe_same. by intros c c' a [= <- _]. Qed.
Lemma ask_rows_safe {A} t cols (f : list SqlRow → A) : safe (ask_rows t cols f).
Proof.
  apply safe_same. unfold ask_rows. intros c c' a E. apply result_bind_Ok in E as ([c1 u] & _ & E). by injection E as <- _.
Qed.

Lemma add_column_safe_stmt t col dflt ref : safe (add_column t col dflt ref).
Proof.
  intros c c' a. unfold add_column. destruct (get_table t c) as [m|] eqn:E; [|done]. destruct (in_list col _) eqn:Ec; [done|].
  intros ([] & _ & E')%result_bind_Ok. injection E' as <- _. apply (extends_put t m); [done|].
  unfold in_list in Ec. bools. split_and!.
  - unfold table_columns. cbn. rewrite map_app. intros x. set_solver.
  - cbn. set_solver.
  - apply rows_kept_map. intros r x Hx _. rewrite cell_put. case_bool_decide; [|done]. by subst.
Qed.

Lemma create_index_safe_stmt b ix : at_home ix → safe (create_index b ix).
Proof.
  intros Hh c c' a. unfold create_index. destruct (get_table _ c); [|done]. destruct (find _ _); [done|].
  destruct (find_index _ c); [destruct b; [|done]; by intros [= <- _]|]. destruct (unique_holds _ _); [|done].
  intros [= <- _]. split; [by apply data_kept_tables| |].
  - cbn. set_solver.
  - intros Hw x [Hx|Hx]%elem_of_app; [by apply Hw|]. by apply list_elem_of_singleton in Hx as ->.
Qed.

Lemma without_index_extends name c : name ∈ EXPENDABLE → extends c (without_index name c).
Proof.
  intros Hn. split; [by apply data_kept_tables| |].
  - cbn. intros ix Hix Hne. apply list_elem_of_In, filter_In. split; [by apply list_elem_of_In|].
    apply negb_true_iff, bool_decide_eq_false. by intros <-.
  - intros Hw x. cbn. rewrite list_elem_of_In. intros [Hx _]%filter_In. apply Hw. by apply list_elem_of_In.
Qed.
Lemma drop_index_safe b name : name ∈ EXPENDABLE → safe (drop_index b name).
Proof.
  intros Hn c c' a. unfold drop_index. destruct (find_index name c) as [ix|]; [|destruct b; [|done]; by intros [= <- _]].
  destruct (ix_constraint ix); [done|]. intros [= <- _]. by apply without_index_extends.
Qed.
Lemma drop_unique_safe t name : name ∈ EXPENDABLE → safe (drop_unique t name).
Proof.
  intros Hn c c' a. unfold drop_unique. destruct (find_index name c) as [ix|]; [|done]. destruct (_ && _); [|done].
  intros [= <- _]. by apply without_index_extends.
Qed.

Lemma fks_extend fks c : extends c (set_fks fks c).
Proof. split; [by apply data_kept_tables|done|done]. Qed.
Lemma drop_fk_safe t name : safe (drop_fk t name).
Proof. intros c c' a. unfold drop_fk. destruct (get_table t c); [|done]. intros [= <- _]. apply fks_extend. Qed.
Lemma add_fk_safe fk : safe (add_fk fk).
Proof. intros c c' a. unfold add_fk. repeat case_match; try done. intros [= <- _]. apply fks_extend. Qed.

Lemma put_extends t m m' c : get_table t c = Some m → table_kept m m' → extends c (put_table t m' c).
Proof. apply (extends_put t m m' c (cat_fks c)). Qed.

Lemma fill_nulls_safe t col v : safe (fill_nulls t col v).
Proof.
  intros c c' a. unfold fill_nulls. intros ([c1 u] & _ & E)%result_bind_Ok. destruct (get_table t c) as [m|] eqn:Em; [|done].
  destruct (find _ _); [done|]. injection E as <- _. apply (put_extends t m); [done|]. split_and!; [done|done|].
  apply rows_kept_map. intros r x _ Hx. case_bool_decide as Hn; [|done]. destruct (v r); [|done]. rewrite cell_put.
  case_bool_decide; [|done]. by subst.
Qed.

Lemma set_nullable_safe t col : safe (set_nullable t col true).
Proof.
  intros c c' a. unfold set_nullable. intros ([c1 u] & _ & E)%result_bind_Ok. destruct (get_table t c) as [m|] eqn:Em; [|done].
  cbn [negb andb] in E. injection E as <- _. apply (put_extends t m); [done|]. split_and!.
  - unfold table_columns. cbn. rewrite map_map. intros y. rewrite !list_elem_of_In, !in_map_iff.
    intros (x & <- & Hx). exists x. split; [|done]. by case_bool_decide.
  - cbn. intros x Hx. apply list_elem_of_In, in_map_iff. apply list_elem_of_In in Hx.
    exists (mkColumn x true). split; [|done]. cbn. case_bool_decide; [|done]. by subst.
  - apply (table_kept_refl m).
Qed.

Lemma create_table_safe t spec : Forall at_home (ts_indexes spec) → safe (create_table t spec).
Proof.
  intros Hh c c' a. unfold create_table. destruct (get_table t c) as [m|] eqn:E; [by intros [= <- _]|].
  destruct (find _ (ts_fks spec)); [done|]. destruct (find _ (ts_indexes spec)); [done|]. intros [= <- _]. split.
  - intros t' m' E'. exists m'. split; [|apply table_kept_refl]. unfold get_table in *. cbn.
    revert E'. induction (cat_tables c) as [|[k x] l IH]; [done|]. cbn. case_bool_decide; [done|]. apply IH.
    unfold get_table in E. cbn in E. case_bool_decide; [done|]. exact E.
  - cbn. set_solver.
  - intros Hw x [Hx|Hx]%elem_of_app; [by apply Hw|]. by eapply Forall_forall in Hh.
Qed.

(** ** Scripts *)

(** A computation relates the connection before to the one after, however it
    ends.  The rules hold for any preorder. *)
Definition respects (R : relation Conn) {A} (m : Mig A) : Prop := ∀ s r s', m s = (r, s') → R s s'.

Section Respects.
Context (R : relation Conn) `{!PreOrder R}.

Lemma respects_ret {A} (a : A) : respects R (mret a).
Proof. by intros s r s' [= _ <-]. Qed.
Lemma respects_raise {A} e : respects R (mig_raise (A := A) e).
Proof. by intros s r s' [= _ <-]. Qed.
Lemma respects_bind {A B} (m : Mig A) (k : A → Mig B) : respects R m → (∀ a, respects R (k a)) → respects R (m ≫= k).
Proof.
  intros Hm Hk s r s' [(a & s1 & E1%Hm & E2%Hk)|(e & E & _)]%mig_bind_inv; [by etrans|by eapply Hm].
Qed.
Lemma respects_catch {A} (m : Mig A) h : respects R m → (∀ e, respects R (h e)) → respects R (catch m h).
Proof.
  intros Hm Hh s r s'. unfold catch. destruct (m s) as [[a|e] s1] eqn:E; apply Hm in E.
  - by intros [= _ <-].
  - intros E2%Hh. by etrans.
Qed.
Lemma respects_each {A} (f : A → Mig unit) l : (∀ x, x ∈ l → respects R (f x)) → respects R (mig_each f l).
Proof.
  induction l as [|x l IH]; intros Hf; [apply respects_ret|]. apply respects_bind; [apply Hf; by left|].
  intros _. apply IH. intros y Hy. apply Hf. by right.
Qed.
End Respects.

(** Apply a rule to a relation that is known to be a preorder. *)
Ltac rule lem := apply lem; [apply _|..].

(** Both the committed and the working catalog only grow. *)
Definition grown (s s' : Conn) : Prop :=
  extends (cn_committed s) (cn_working s) →
  extends (cn_committed s) (cn_committed s') ∧ extends (cn_committed s') (cn_working s').
#[local] Instance grown_preorder : PreOrder grown.
Proof.
  split; [by intros s|]. intros s1 s2 s3 H12 H23 H1. destruct (H12 H1) as [H H2]. destruct (H23 H2). split; [by etrans|done].
Qed.
#[local] Abbreviation tame := (respects grown).

(** Within a transaction: the working catalog grows and an abort stays. *)
Definition onward (s s' : Conn) : Prop :=
  extends (cn_working s) (cn_working s') ∧ (cn_aborted s = true → cn_aborted s' = true).
#[local] Instance onward_preorder : PreOrder onward.
Proof. split; [done|]. intros s1 s2 s3 [H1 H2] [H3 H4]. split; [by etrans|auto]. Qed.

Lemma onward_alive s s' : onward s s' → cn_aborted s' = false → cn_aborted s = false.
Proof. intros [_ H] Hs. destruct (cn_aborted s); [|done]. by rewrite H in Hs. Qed.

(** A preorder that every additive statement respects. *)
Class Additive `{Server} (R : relation Conn) : Prop := {
  additive_preorder :: PreOrder R;
  additive_sql {A} (q : stmt A) : safe q → respects R (sql q)
}.

Section Tame.
Context `{Server}.

#[global] Instance grown_additive : Additive grown.
Proof.
  split; [apply _|]. intros A q Hq s r s'. unfold sql. destruct (cn_aborted s); [by intros [= _ <-]|].
  destruct (server_refuses _); [by intros [= _ <-]|]. destruct (q (cn_working s)) as [[c a]|e] eqn:E; [|by intros [= _ <-]].
  intros [= _ <-] He. split; [done|]. cbn. etrans; [exact He|]. by eapply Hq.
Qed.
#[global] Instance onward_additive : Additive onward.
Proof.
  split; [apply _|]. intros A q Hq s r s'. unfold sql. destruct (cn_aborted s) eqn:Ea; [by intros [= _ <-]|].
  destruct (server_refuses _); [intros [= _ <-]; by split|].
  destruct (q (cn_working s)) as [[c a]|e] eqn:E; intros [= _ <-]; (split; [|by rewrite Ea]); [by eapply Hq|done].
Qed.
Lemma tame_commit : tame commit.
Proof.
  intros s r s'. unfold commit. destruct (commit_fault _) as [[]|]; intros [= _ <-] He; cbn; by destruct (cn_aborted s).
Qed.
Lemma tame_rollback : tame rollback.
Proof. by intros s r s' [= _ <-]. Qed.
Lemma inspect_additive R `{!Additive R} {A} t (f : Catalog → SqlTable → A) : respects R (inspect_table t f).
Proof.
  unfold inspect_table. rule respects_bind; [apply additive_sql, ask_safe|]. intros [a|]; [rule respects_ret|rule respects_raise].
Qed.

Lemma run_script_extends body c n ok c' n' : tame body → run_script body c n = (ok, c', n') → extends c c'.
Proof.
  intros Hb. unfold run_script.
  assert (tame (ok ← body; _ ← commit; mret ok)) as Ht.
  { rule respects_bind; [done|]. intros a. rule respects_bind; [apply tame_commit|]. intros _. rule respects_ret. }
  destruct ((ok ← body; _ ← commit; mret ok) (mkConn c c false n)) as [r s'] eqn:E. destruct (Ht _ _ _ E) as [He _]; [cbn; reflexivity|].
  destruct r; intros [= _ <- _]; exact He.
Qed.

Lemma run_steps_extends steps : Forall tame steps → ∀ c n ok c' n', run_steps steps c n = (ok, c', n') → extends c c'.
Proof.
  induction 1 as [|b steps Hb _ IH]; intros c n ok c' n'; cbn; [by intros [= _ <- _]|].
  destruct (run_script b c n) as [[[|] c1] n1] eqn:E; apply run_script_extends in E; try done.
  - intros E2%IH. by etrans.
  - by intros [= _ <- _].
Qed.
End Tame.

(** The rules above, applied to the body of a script. *)
Ltac home := split;
  [ let t := fresh in let E := fresh in intros t E; vm_compute in E;
    first [discriminate E | injection E as <-; reflexivity]
  | let E := fresh in intros E; first [reflexivity | vm_compute in E; discriminate E] ].
Ltac tame_step :=
  match goal with
  | |- respects _ (mret _) => rule respects_ret
  | |- respects _ (mig_raise _) => rule respects_raise
  | |- respects _ (_ ≫= _) => rule respects_bind; [|intros ?]
  | |- respects _ (catch _ _) => rule respects_catch; [|intros ?]
  | |- respects _ (mig_each _ _) => rule respects_each; intros ? ?
  | |- respects _ commit => apply tame_commit
  | |- respects _ rollback => apply tame_rollback
  | |- respects _ (inspect_table _ _) => apply inspect_additive; apply _
  | |- respects _ (sql _) => apply additive_sql
  | |- safe (ask _) => apply ask_safe
  | |- safe (ask_rows _ _ _) => apply ask_rows_safe
  | |- safe (select_columns _ _) => apply select_columns_safe
  | |- safe (add_column _ _ _ _) => apply add_column_safe_stmt
  | |- safe (fill_nulls _ _ _) => apply fill_nulls_safe
  | |- safe (set_nullable _ _ true) => apply set_nullable_safe
  | |- safe (drop_fk _ _) => apply drop_fk_safe
  | |- safe (add_fk _) => apply add_fk_safe
  | |- respects _ (if ?b then _ else _) => destruct b
  | |- respects _ (match ?x with _ => _ end) => destruct x
  end.
Ltac tames := repeat tame_step.

Lemma model_indexes_home : Forall at_home MODEL_INDEXES.
Proof. unfold MODEL_INDEXES. repeat (constructor; [home|]). constructor. Qed.
Lemma model_table_safe t : safe (create_table t (model_table t)).
Proof.
  apply create_table_safe. unfold model_table. cbn [ts_indexes]. apply Forall_forall. intros ix Hix. apply list_elem_of_In, filter_In in Hix as [Hix _].
  pose proof model_indexes_home as Hh. rewrite Forall_forall in Hh. apply Hh. by apply list_elem_of_In.
Qed.

Section Bodies.
Context `{Server} (R : relation Conn) `{!Additive R}.

Lemma tame_add_column_if_not_exists t col d : respects R (add_column_if_not_exists t col d).
Proof. unfold add_column_if_not_exists. tames. Qed.
Lemma tame_create_index_if_not_exists ix : at_home ix → respects R (create_index_if_not_exists ix).
Proof. intros Hh. unfold create_index_if_not_exists. tames. by apply create_index_safe_stmt. Qed.
Lemma tame_create_index_if_missing ix : at_home ix → respects R (create_index_if_missing ix).
Proof. intros Hh. unfold create_index_if_missing. tames. by apply create_index_safe_stmt. Qed.
Lemma tame_index_exists name : respects R (index_exists name).
Proof. unfold index_exists, is_postgres, succeeds. tames. Qed.
Lemma tame_column_exists t col : respects R (column_exists t col).
Proof. unfold column_exists, succeeds. tames. Qed.
Lemma tame_create_index_safe ix : at_home ix → respects R (create_index_safe ix).
Proof. intros Hh. unfold create_index_safe. rule respects_bind; [apply tame_index_exists|]. intros a. tames. by apply create_index_safe_stmt. Qed.
Lemma tame_create_all_safe l : Forall at_home l → respects R (create_all_safe l).
Proof.
  intros Hl. unfold create_all_safe. rule respects_each. intros ix Hix. rewrite Forall_forall in Hl.
  rule respects_bind; [by apply tame_create_index_safe, Hl|]. intros _. tames.
Qed.
Lemma tame_add_column_safe t col d : respects R (add_column_safe t col d).
Proof. unfold add_column_safe. rule respects_bind; [apply tame_column_exists|]. intros a. tames. Qed.
Lemma tame_init_tables : respects R init_tables.
Proof. unfold init_tables. tames. apply model_table_safe. Qed.
Lemma tame_create_model_table t : respects R (create_model_table t).
Proof. unfold create_model_table, table_exists. tames. apply model_table_safe. Qed.
Lemma tame_add_column_checked t col ref : respects R (add_column_checked t col ref).
Proof. unfold add_column_checked, inspect_column. tames. Qed.
Lemma tame_create_if_absent ix : at_home ix → respects R (create_if_absent ix).
Proof. intros Hh. unfold create_if_absent, inspect_index. tames. by apply create_index_safe_stmt. Qed.
Lemma tame_verify_table t w : respects R (verify_table t w).
Proof. unfold verify_table, table_exists. tames. Qed.
End Bodies.

#[export] Hint Resolve tame_add_column_if_not_exists tame_create_index_if_not_exists tame_create_index_if_missing
  tame_index_exists tame_column_exists tame_create_index_safe tame_create_all_safe tame_add_column_safe tame_init_tables
  tame_create_model_table tame_add_column_checked tame_create_if_absent tame_verify_table model_table_safe : mail.
#[export] Hint Extern 1 (at_home _) => home : mail.
#[export] Hint Extern 0 (Additive _) => apply _ : mail.
#[export] Hint Extern 1 (Forall at_home _) => repeat (constructor; [home|]); constructor : mail.

(** A script is tame: by the helpers where there is one, else by the rules. *)
Ltac tame_script := repeat first [solve [auto with mail] | tame_step].

Section Scripts.
Context `{Server} (int_of_string : string → option Z) (uuid4_hex : nat → string).

Lemma tame_001 : tame run_001.
Proof.
  unfold run_001, steps_001, migrate_campaigns, migrate_contacts, migrate_messages, migrate_suppression, verify_migration, succeeds.
  tame_script.
Qed.
Lemma steps_002_additive R `{!Additive R} : respects R steps_002.
Proof.
  unfold steps_002, step_campaigns_columns, step_campaigns_backfill, step_campaigns_indexes, step_contacts_unique,
    step_contacts_indexes, step_messages_inbound_dedup, step_messages_indexes, step_suppression_org_scope,
    step_postgres_fk_cascades, is_postgres, succeeds, cascade, drop_old_index. tame_script.
  - match goal with |- context [if ?b then inbound_unique else _] => destruct b end; auto with mail.
  - apply drop_index_safe. unfold EXPENDABLE. set_solver.
Qed.
Lemma tame_002 : tame run_002.
Proof. unfold run_002. rule respects_bind; [apply steps_002_additive, _|]. intros _. unfold verify_002. tame_script. Qed.
Lemma tame_002_work_claiming : tame run_002_work_claiming.
Proof. unfold run_002_work_claiming, steps_work_claiming, add_claiming_columns, add_claiming_indexes, succeeds. tame_script. Qed.
Lemma tame_002_add_work_claiming : tame run_002_add_work_claiming.
Proof. unfold run_002_add_work_claiming, add_claiming_columns. tame_script. Qed.
Lemma tame_migrate_database : tame migrate_database.
Proof. unfold migrate_database, add_missing_column. tame_script. Qed.
Lemma tame_003 : tame run_003.
Proof. unfold run_003, add_unique_constraint, succeeds. tame_script. apply create_index_safe_stmt. home. Qed.
Lemma tame_004 : tame run_004.
Proof. unfold run_004, steps_004, verify_004, succeeds. tame_script. Qed.
Lemma tame_005 : tame run_005.
Proof. unfold run_005, succeeds. tame_script. Qed.
Lemma tame_006 : tame run_006.
Proof. unfold run_006. tame_script. Qed.
Lemma tame_007 : tame run_007.
Proof. unfold run_007, add_mailbox_id_column, succeeds. tame_script. Qed.
Lemma tame_008 : tame run_008.
Proof. unfold run_008, make_message_id_nullable, message_id_nullable. tame_script. Qed.
Lemma tame_009 : tame run_009.
Proof.
  unfold run_009, upgrade_schema, verify_009, inspect_index. tame_script.
  apply drop_unique_safe. unfold EXPENDABLE. set_solver.
Qed.
Lemma tame_010 env : tame (run_010 int_of_string env).
Proof.
  unfold run_010, steps_010, create_status_tables, apply_timeouts, mig_when, create_index_010, verify_010, verify_status_table, inspect_index, table_exists.
  tame_script. apply create_index_safe_stmt. home.
Qed.
Lemma tame_011 : tame run_011.
Proof. unfold run_011, create_unmatched_table. tame_script. Qed.
Lemma tame_backfill fuel : ∀ total, tame (backfill uuid4_hex fuel total).
Proof. induction fuel as [|fuel IH]; intros total; cbn [backfill]; tame_script. Qed.
Lemma tame_012 : tame (run_012 uuid4_hex).
Proof.
  unfold run_012, add_reply_reference, create_index_012, verify_012, inspect_index, inspect_column. tame_script.
  - intros s. apply tame_backfill.
  - apply create_index_safe_stmt. home.
Qed.

Lemma tame_steps env : Forall tame (STEPS int_of_string uuid4_hex env).
Proof.
  unfold STEPS.
  apply Forall_cons_2; [exact tame_001|]. apply Forall_cons_2; [exact tame_002|]. apply Forall_cons_2; [exact tame_002_work_claiming|]. apply Forall_cons_2; [exact tame_migrate_database|].
  apply Forall_cons_2; [exact tame_003|]. apply Forall_cons_2; [exact tame_004|]. apply Forall_cons_2; [exact tame_005|]. apply Forall_cons_2; [exact tame_006|].
  apply Forall_cons_2; [exact tame_007|]. apply Forall_cons_2; [exact tame_008|]. apply Forall_cons_2; [exact tame_009|]. apply Forall_cons_2; [exact (tame_010 env)|].
  apply Forall_cons_2; [exact tame_011|]. apply Forall_cons_2; [exact tame_012|].
  apply Forall_nil_2.
Qed.

(** C15: a release loses no data.  Whatever statements the server refuses and
    whatever commits fail, and whether the run succeeds or stops at some step,
    every table is still there afterwards with all its columns and rows, every
    cell that held a value holds the same value (only NULLs are filled), and
    every index is still there except the four the scripts name to be
    dropped. *)
Theorem release_loses_no_data `{MakeUrl} env settings connect c ok c' :
  migrate_release int_of_string uuid4_hex env settings connect c = (ok, c') →
  (∀ t m, get_table t c = Some m → ∃ m', get_table t c' = Some m' ∧ table_columns m ⊆ table_columns m' ∧
     Forall2 (λ r r', ∀ col, col ∈ table_columns m → cell col r ≠ VNull → cell col r' = cell col r) (st_rows m) (st_rows m')) ∧
  (∀ ix, ix ∈ cat_indexes c → ix_name ix ∉ EXPENDABLE → ix ∈ cat_indexes c').
Proof.
  intros E. assert (extends c c') as [Hd Hi _].
  { revert E. unfold migrate_release. destruct (main _ _ _ _) as [[said r] sch]. destruct r as [code|e]; [|by intros [= _ <-]].
    destruct (code =? EXIT_OK); [|by intros [= _ <-]].
    destruct (run_script _ c 0) as [[ok1 c1] n1] eqn:E1. apply run_script_extends in E1; [|tame_script].
    destruct ok1; [|by intros [= _ <-]]. destruct (run_steps _ c1 n1) as [[ok2 c2] n2] eqn:E2.
    apply run_steps_extends in E2; [|apply tame_steps]. intros [= _ <-]. by etrans. }
  split; [|done]. intros t m Em. apply Hd in Em as (m' & Em' & Hc & _ & Hr). by exists m'.
Qed.
End Scripts.

(** ** What a successful script leaves behind *)

(** Facts about a catalog that later additive changes keep. *)
Definition table_there (t : string) (c : Catalog) : Prop := is_Some (get_table t c).
Definition column_there (t col : string) (c : Catalog) : Prop := ∃ m, get_table t c = Some m ∧ col ∈ table_columns m.
Definition nullable_there (t col : string) (c : Catalog) : Prop :=
  ∃ m, get_table t c = Some m ∧ mkColumn col true ∈ st_columns m.
Definition index_there (t name : string) (c : Catalog) : Prop :=
  table_there t c ∧ ∃ ix, ix ∈ cat_indexes c ∧ ix_name ix = name ∧ ix_table ix = t.
Definition valid_there (name : string) (c : Catalog) : Prop := ∃ ix, ix ∈ cat_indexes c ∧ ix_name ix = name ∧ ix_valid ix = true.

Lemma table_stays t c c' : extends c c' → table_there t c → table_there t c'.
Proof. intros [Hd _ _] [m Em]. apply Hd in Em as (m' & Em' & _). by exists m'. Qed.
Lemma column_stays t col c c' : extends c c' → column_there t col c → column_there t col c'.
Proof. intros [Hd _ _] (m & Em & Hc). apply Hd in Em as (m' & Em' & Hk & _). exists m'. auto. Qed.
Lemma nullable_stays t col c c' : extends c c' → nullable_there t col c → nullable_there t col c'.
Proof. intros [Hd _ _] (m & Em & Hc). apply Hd in Em as (m' & Em' & _ & Hk & _). exists m'. auto. Qed.
Lemma index_stays t name c c' : extends c c' → name ∉ EXPENDABLE → index_there t name c → index_there t name c'.
Proof.
  intros He Hn (Ht & ix & Hi & <- & <-). split; [by eapply table_stays|]. exists ix. split; [|done].
  by apply (ex_indexes _ _ He).
Qed.
Lemma valid_stays name c c' : extends c c' → name ∉ EXPENDABLE → valid_there name c → valid_there name c'.
Proof. intros He Hn (ix & Hi & <- & Hv). exists ix. split; [|done]. by apply (ex_indexes _ _ He). Qed.

(** The connection is as before, but for the count and the abort. *)
Definition unchanged (s s' : Conn) : Prop := cn_committed s' = cn_committed s ∧ cn_working s' = cn_working s.
#[local] Instance unchanged_preorder : PreOrder unchanged.
Proof. split; [done|]. intros s1 s2 s3 [H1 H2] [H3 H4]. split; congruence. Qed.
#[local] Abbreviation readonly := (respects unchanged).

Definition reads {A} (q : stmt A) : Prop := ∀ c c' a, q c = Ok (c', a) → c' = c.
Lemma ask_reads {A} (f : Catalog → A) : reads (ask f).
Proof. by intros c c' a [= <- _]. Qed.
Lemma select_columns_reads cols t : reads (select_columns cols t).
Proof. by intros c c' a [-> _]%select_columns_inv. Qed.
Lemma ask_rows_reads {A} t cols (f : list SqlRow → A) : reads (ask_rows t cols f).
Proof. unfold ask_rows. intros c c' a E. apply result_bind_Ok in E as ([c1 u] & _ & E). by injection E as <- _. Qed.

Section Outcome.
Context `{Server}.

Lemma readonly_sql {A} (q : stmt A) : reads q → readonly (sql q).
Proof.
  intros Hq s r s'. unfold sql. destruct (cn_aborted s); [by intros [= _ <-]|].
  destruct (server_refuses _); [by intros [= _ <-]|]. destruct (q (cn_working s)) as [[c a]|e] eqn:E; [|by intros [= _ <-]].
  intros [= _ <-]. split; [done|]. cbn. by eapply Hq.
Qed.

Lemma sql_Ok {A} (q : stmt A) s a s' : sql q s = (Ok a, s') →
  cn_aborted s = false ∧ cn_aborted s' = false ∧ cn_committed s' = cn_committed s ∧ q (cn_working s) = Ok (cn_working s', a).
Proof.
  unfold sql. destruct (cn_aborted s); [done|]. destruct (server_refuses _); [done|].
  destruct (q (cn_working s)) as [[c x]|e]; [|done]. by intros [= -> <-].
Qed.

Lemma commit_Ok s u s' : commit s = (Ok u, s') →
  let c := if cn_aborted s then cn_committed s else cn_working s in cn_committed s' = c ∧ cn_working s' = c.
Proof. unfold commit. destruct (commit_fault _); [done|]. by intros [= _ <-]. Qed.

(** The end of a script that exits with 0. *)
Lemma run_script_true body c n c' n' : run_script body c n = (true, c', n') →
  ∃ s, body (mkConn c c false n) = (Ok true, s) ∧ c' = if cn_aborted s then cn_committed s else cn_working s.
Proof.
  unfold run_script. destruct ((ok ← body; _ ← commit; mret ok) _) as [[ok|e] s2] eqn:E; [|done]. intros [= -> <- _].
  apply mig_bind_Ok in E as (ok & s & E & E2). apply mig_bind_Ok in E2 as (u & s3 & E2 & [= -> <-]).
  exists s. split; [done|]. by apply commit_Ok in E2 as [-> _].
Qed.

(** A script that ends with its own verification. *)
Lemma script_verified {A} (steps : Mig A) verify c n c' n' : readonly verify →
  run_script (_ ← steps; _ ← commit; verify) c n = (true, c', n') →
  ∃ a s s1 s2, steps (mkConn c c false n) = (Ok a, s) ∧ c' = (if cn_aborted s then cn_committed s else cn_working s) ∧
    cn_working s1 = c' ∧ verify s1 = (Ok true, s2).
Proof.
  intros Hv (s2 & E & Hc)%run_script_true. apply mig_bind_Ok in E as (a & s & E & E2).
  apply mig_bind_Ok in E2 as (u & s1 & [H1 H2]%commit_Ok & E3). destruct (Hv _ _ _ E3) as [H3 H4].
  exists a, s, s1, s2. split_and!; try done; destruct (cn_aborted s2); congruence.
Qed.

Lemma succeeds_inv {A} (m : Mig A) s s' : succeeds m s = (Ok true, s') → ∃ a, m s = (Ok a, s').
Proof.
  unfold succeeds, catch, mbind, Mig_bind. destruct (m s) as [[a|e] s1]; cbn; [|done]. intros [= <-]. by exists a.
Qed.
Lemma select_there cols t s s' col :
  succeeds (sql (select_columns cols t)) s = (Ok true, s') → col ∈ cols → column_there t col (cn_working s).
Proof.
  intros (u & E)%succeeds_inv Hc. apply sql_Ok in E as (_ & _ & _ & E). apply select_columns_inv in E as (_ & m & Em & Hm).
  exists m. auto.
Qed.
Lemma inspect_Ok {A} t (f : Catalog → SqlTable → A) s a s' : inspect_table t f s = (Ok a, s') →
  cn_aborted s' = false ∧ cn_committed s' = cn_committed s ∧ cn_working s' = cn_working s ∧
  ∃ m, get_table t (cn_working s) = Some m ∧ a = f (cn_working s) m.
Proof.
  unfold inspect_table. intros (r & s1 & E & E2)%mig_bind_Ok. apply sql_Ok in E as (_ & H1 & H2 & [= H3 <-]).
  destruct (get_table t (cn_working s)) as [m|]; [|done]. injection E2 as <- <-. split_and!; try done. by exists m.
Qed.
Lemma inspect_index_there t name s s' : inspect_index t name s = (Ok true, s') → index_there t name (cn_working s).
Proof.
  intros (_ & _ & _ & m & Em & Hx)%inspect_Ok. split; [by exists m|]. symmetry in Hx. apply existsb_exists in Hx as (ix & Hi & Hn).
  unfold table_indexes in Hi. apply filter_In in Hi as [Hi Ht]. bools. exists ix. split_and!; [by apply list_elem_of_In|done|done].
Qed.
Lemma inspect_column_there t col s s' : inspect_column t col s = (Ok true, s') → column_there t col (cn_working s).
Proof. intros (_ & _ & _ & m & Em & Hx)%inspect_Ok. exists m. split; [done|]. symmetry in Hx. unfold in_list in Hx. by bools. Qed.
Lemma verify_table_there t w s s' : verify_table t w s = (Ok true, s') → table_there t (cn_working s).
Proof.
  unfold verify_table, table_exists. intros (b & s1 & E & E2)%mig_bind_Ok. apply sql_Ok in E as (_ & _ & _ & [= _ <-]).
  unfold table_there. destruct (get_table t (cn_working s)); [done|]. done.
Qed.
End Outcome.

Ltac readonly_step :=
  match goal with
  | |- respects _ (mret _) => rule respects_ret
  | |- respects _ (mig_raise _) => rule respects_raise
  | |- respects _ (_ ≫= _) => rule respects_bind; [|intros ?]
  | |- respects _ (catch _ _) => rule respects_catch; [|intros ?]
  | |- respects _ (mig_each _ _) => rule respects_each; intros ? ?
  | |- respects _ (sql _) => apply readonly_sql
  | |- reads (ask _) => apply ask_reads
  | |- reads (ask_rows _ _ _) => apply ask_rows_reads
  | |- reads (select_columns _ _) => apply select_columns_reads
  | |- respects _ (if ?b then _ else _) => destruct b
  | |- respects _ (match ?x with _ => _ end) => destruct x
  end.
Ltac readonlys := unfold succeeds, inspect_index, inspect_column, inspect_table, table_exists; repeat readonly_step.

Section Established.
Context `{Server}.

Lemma done_001 c n c' n' : run_script run_001 c n = (true, c', n') → column_there "messages" "send_attempt_count" c'.
Proof.
  intros (_ & s & s1 & s2 & _ & _ & <- & E)%script_verified; [|unfold verify_migration; readonlys].
  unfold verify_migration in E. apply mig_bind_Ok in E as (a & s3 & E3 & E). apply mig_bind_Ok in E as (b & s4 & E4 & [= Hab _]).
  bools. subst. assert (readonly (succeeds (sql (select_columns ["organization_id"; "timezone"] "campaigns")))) as Hr by readonlys.
  destruct (Hr _ _ _ E3) as [_ <-]. apply (select_there _ _ _ _ "send_attempt_count" E4). set_solver.
Qed.

(** The errors of creating an index are not swallowed for their text. *)
Definition outspoken (ix : Index) : Prop := ∀ c e, create_index true ix c = Err e → mentions "already exists" (Sql e) = false.

Lemma create_index_there b ix c c' u : create_index b ix c = Ok (c', u) →
  table_there (ix_table ix) c' ∧ ∃ x, x ∈ cat_indexes c' ∧ ix_name x = ix_name ix.
Proof.
  unfold create_index. destruct (get_table (ix_table ix) c) as [m|] eqn:Em; [|done]. destruct (find _ _); [done|].
  destruct (find_index (ix_name ix) c) as [x|] eqn:Ex.
  - destruct b; [|done]. intros [= <- _]. split; [by exists m|]. apply find_some in Ex as [Hx Hn]. bools.
    exists x. split; [by apply list_elem_of_In|done].
  - destruct (unique_holds _ _); [|done]. intros [= <- _]. split; [by exists m|]. exists ix. cbn. set_solver.
Qed.

(** The index is there once the helper returns, and the transaction lives. *)
Lemma create_if_missing_there ix t s b s' : outspoken ix → at_home ix → assoc (ix_name ix) HOMES = Some t →
  well_homed (cn_working s) → create_index_if_missing ix s = (Ok b, s') →
  cn_aborted s' = false ∧ cn_committed s' = cn_committed s ∧ extends (cn_working s) (cn_working s') ∧
  index_there t (ix_name ix) (cn_working s').
Proof.
  intros Ho Hh Ht Hw. unfold create_index_if_missing, catch, mbind, Mig_bind.
  destruct (sql (create_index true ix) s) as [[u|e] s1] eqn:E; cbn.
  - intros [= _ <-]. apply sql_Ok in E as (_ & H1 & H2 & E). pose proof (create_index_safe_stmt _ _ Hh _ _ _ E) as He.
    apply create_index_there in E as (Hx & x & Hi & Hn). split_and!; try done. rewrite (proj1 Hh t Ht) in Hx. split; [done|].
    exists x. split_and!; [done|done|]. apply (proj1 (ex_homes _ _ He Hw x Hi)). by rewrite Hn.
  - assert (mentions "already exists" e = false) as ->; [|done]. revert E. unfold sql.
    destruct (cn_aborted s); [by intros [= <- _]|]. destruct (server_refuses _) as [[]|]; [by intros [= <- _]|by intros [= <- _]|].
    destruct (create_index true ix (cn_working s)) as [[]|e'] eqn:E; [done|]. intros [= <- _]. by eapply Ho.
Qed.

Lemma outspoken_of ix :
  (∀ col, In col (ix_columns ix ++ pred_columns (ix_where ix)) → mentions "already exists" (Sql (UndefinedColumn col)) = false) →
  mentions "already exists" (Sql (UndefinedTable (ix_table ix))) = false →
  mentions "already exists" (Sql (UniqueBuildViolation (ix_name ix))) = false → outspoken ix.
Proof.
  intros Hc Ht Hu c e. unfold create_index. destruct (get_table _ c) as [m|]; [|by intros [= <-]].
  destruct (find _ _) as [col|] eqn:Ef; [apply find_some in Ef as [Hin _]; intros [= <-]; by apply Hc|].
  destruct (find_index _ c); [done|]. destruct (unique_holds _ _); [done|]. by intros [= <-].
Qed.
Lemma outspoken_work_queue : outspoken work_queue_index.
Proof. apply outspoken_of; [|done|done]. intros col Hin. cbn in Hin. by repeat destruct Hin as [<-|Hin]. Qed.
Lemma outspoken_integration_source : outspoken integration_source_unique.
Proof. apply outspoken_of; [|done|done]. intros col Hin. cbn in Hin. by repeat destruct Hin as [<-|Hin]. Qed.

(** What a script has made so far extends what it found. *)
Lemma tame_working {A} (m : Mig A) c n r s : tame m → m (mkConn c c false n) = (r, s) → extends c (cn_working s).
Proof. intros Hm E. destruct (Hm _ _ _ E) as [H1 H2]; [cbn; reflexivity|]. by etrans. Qed.

Lemma done_work_claiming c n c' n' : well_homed c → run_script run_002_work_claiming c n = (true, c', n') →
  index_there "contacts" "idx_contacts_work_queue" c'.
Proof.
  intros Hw (u & s & s1 & s2 & E & -> & _)%script_verified; [|readonlys].
  unfold steps_work_claiming in E. apply mig_bind_Ok in E as (u1 & s3 & E1 & E). unfold add_claiming_indexes in E.
  apply mig_bind_Ok in E as (b1 & s4 & E2 & E). apply mig_bind_Ok in E as (b2 & s5 & E3 & [= _ <-]).
  assert (tame (_ ← add_claiming_columns; create_index_if_missing (plain "idx_contacts_claimed_by" "contacts" ["claimed_by"]))) as Ht
    by (unfold add_claiming_columns; tame_script).
  assert (well_homed (cn_working s4)) as Hw4.
  { apply (ex_homes c); [|done]. eapply (tame_working _ c n _ s4 Ht). unfold mbind, Mig_bind. by rewrite E1. }
  assert (at_home work_queue_index) as Hh by home.
  destruct (create_if_missing_there _ "contacts" _ _ _ outspoken_work_queue Hh eq_refl Hw4 E3) as (-> & _ & _ & Hi). exact Hi.
Qed.
Lemma add_column_there t col d ref c c' u : add_column t col d ref c = Ok (c', u) → column_there t col c'.
Proof.
  unfold add_column. destruct (get_table t c) as [m|] eqn:Em; [|done]. destruct (in_list col _); [done|].
  intros ([] & _ & E)%result_bind_Ok. injection E as <- _. eexists. split.
  - unfold get_table. cbn. rewrite assoc_put. by rewrite bool_decide_eq_true_2.
  - unfold table_columns. cbn. rewrite map_app. set_solver.
Qed.

Lemma has_column_there t col c : has_column t col c = true → column_there t col c.
Proof. unfold has_column. destruct (get_table t c) as [m|] eqn:Em; [|done]. intros Hc. unfold in_list in Hc. bools. by exists m. Qed.

Lemma add_missing_there t col d s u s' : add_missing_column t col d s = (Ok u, s') →
  cn_aborted s' = false ∧ cn_committed s' = cn_committed s ∧ extends (cn_working s) (cn_working s') ∧
  column_there t col (cn_working s').
Proof.
  unfold add_missing_column. intros (b & s1 & E & E2)%mig_bind_Ok. apply sql_Ok in E as (_ & H1 & H2 & [= H3 <-]).
  destruct (has_column t col (cn_working s)) eqn:Eh.
  - injection E2 as _ <-. rewrite <- H3. split_and!; try done. by apply has_column_there.
  - apply sql_Ok in E2 as (_ & H4 & H5 & E2). rewrite <- H3 in E2. split_and!; [done|congruence| |by eapply add_column_there].
    by eapply add_column_safe_stmt.
Qed.

Lemma add_each_there {A} t (f : A → string) (g : A → sqlval) l : ∀ s u s',
  mig_each (λ x, add_missing_column t (f x) (g x)) l s = (Ok u, s') → l ≠ [] →
  cn_aborted s' = false ∧ extends (cn_working s) (cn_working s') ∧ ∀ x, x ∈ l → column_there t (f x) (cn_working s').
Proof.
  induction l as [|x l IH]; intros s u s' E Hne; [done|]. cbn in E. apply mig_bind_Ok in E as (u1 & s1 & E1 & E).
  apply add_missing_there in E1 as (H1 & H2 & H3 & H4). destruct l as [|y l].
  - injection E as _ <-. split_and!; try done. by intros z ->%list_elem_of_singleton.
  - apply IH in E as (H5 & H6 & H7); [|done]. split_and!; [done|by etrans|].
    intros z [->|Hz]%elem_of_cons; [by eapply column_stays|by apply H7].
Qed.

Lemma done_migrate_database c n c' n' : run_script migrate_database c n = (true, c', n') →
  column_there "contacts" "buying_stage" c'.
Proof.
  intros (s & E & ->)%run_script_true. unfold migrate_database in E. apply mig_bind_Ok in E as (u1 & s1 & _ & E).
  apply mig_bind_Ok in E as (u2 & s2 & _ & E). apply mig_bind_Ok in E as (u3 & s3 & E3 & E).
  apply mig_bind_Ok in E as (u4 & s4 & E4 & [= <-]).
  apply (add_each_there "contacts" fst snd) in E3 as (_ & _ & H3); [|done].
  apply (add_each_there "messages" (λ x, x) (λ _, VNull)) in E4 as (-> & H4 & _); [|done].
  eapply column_stays; [exact H4|]. apply (H3 ("buying_stage", VNull)). set_solver.
Qed.

Lemma done_004 c n c' n' : well_homed c → run_script run_004 c n = (true, c', n') →
  index_there "campaigns" "uq_campaigns_org_integration_source" c' ∧ table_there "external_dispatches" c'.
Proof.
  intros Hw (u & s & s1 & s2 & E & -> & Hs1 & Ev)%script_verified; [|unfold verify_004; readonlys].
  unfold steps_004 in E. apply mig_bind_Ok in E as (b1 & s3 & E1 & E). apply mig_bind_Ok in E as (b2 & s4 & E2 & E).
  apply tame_working in E1 as He3; [|auto with mail].
  assert (at_home integration_source_unique) as Hh by home.
  destruct (create_if_missing_there _ "campaigns" _ _ _ outspoken_integration_source Hh eq_refl
    (ex_homes _ _ He3 Hw) E2) as (_ & _ & _ & Hi).
  apply sql_Ok in E as (_ & Ha & _ & E). rewrite Ha in *. apply model_table_safe in E as He. split.
  - eapply index_stays; [exact He|unfold EXPENDABLE; set_solver|exact Hi].
  - unfold verify_004 in Ev. apply mig_bind_Ok in Ev as (a & s5 & Ea & Ev). apply mig_bind_Ok in Ev as (b & s6 & Eb & [= Hab _]).
    bools. subst. assert (readonly (succeeds (sql (select_columns ["integration_source"] "campaigns")))) as Hr by readonlys.
    destruct (Hr _ _ _ Ea) as [_ Hu]. destruct (select_there _ _ _ _ "state" Eb) as (m & Em & _); [set_solver|].
    rewrite <- Hs1, <- Hu. by exists m.
Qed.

Lemma done_005 c n c' n' : run_script run_005 c n = (true, c', n') → column_there "external_dispatches" "grounding_context" c'.
Proof.
  intros (u & s & s1 & s2 & _ & _ & <- & E)%script_verified; [|readonlys]. apply (select_there _ _ _ _ _ E). set_solver.
Qed.
Lemma done_006 c n c' n' : run_script run_006 c n = (true, c', n') → table_there "mailboxes" c'.
Proof.
  intros (u & s & s1 & s2 & _ & _ & <- & E)%script_verified; [|unfold verify_table; readonlys]. by apply verify_table_there in E.
Qed.
Lemma done_007 c n c' n' : run_script run_007 c n = (true, c', n') → column_there "external_dispatches" "mailbox_id" c'.
Proof.
  intros (u & s & s1 & s2 & _ & _ & <- & E)%script_verified; [|readonlys]. apply (select_there _ _ _ _ _ E). set_solver.
Qed.
Lemma done_011 c n c' n' : run_script run_011 c n = (true, c', n') → table_there "unmatched_inbound_messages" c'.
Proof.
  intros (u & s & s1 & s2 & _ & _ & <- & E)%script_verified; [|unfold verify_table; readonlys]. by apply verify_table_there in E.
Qed.

Lemma done_009 c n c' n' : run_script run_009 c n = (true, c', n') →
  column_there "messages" "mailbox_id" c' ∧ index_there "messages" "uq_messages_message_id_no_mailbox" c' ∧
  index_there "messages" "uq_messages_mailbox_message_id" c'.
Proof.
  intros (u & s & s1 & s2 & _ & _ & <- & E)%script_verified; [|unfold verify_009; readonlys].
  revert E. unfold verify_009, catch. set (m := _ ≫= _). destruct (m s1) as [[b|e] s3] eqn:Em; [|done]. intros [= -> _].
  unfold m in Em. apply mig_bind_Ok in Em as (u1 & s4 & E1 & Em). apply mig_bind_Ok in Em as (a & s5 & E2 & Em).
  apply sql_Ok in E1 as (_ & _ & _ & E1). apply select_columns_inv in E1 as (H1 & x & Ex & Hx).
  destruct a; cbn [negb] in Em; [|done]. apply inspect_Ok in E2 as H2. destruct H2 as (_ & _ & H2 & _).
  apply inspect_index_there in E2, Em. rewrite H2 in Em. rewrite H1 in *. split_and!; [|done|done]. exists x. split; [done|].
  apply Hx. set_solver.
Qed.
Lemma find_column col cols x : find (λ y, col_name y == col) cols = Some x → col_nullable x = true → mkColumn col true ∈ cols.
Proof.
  intros [Hin Hn]%find_some Hx. bools. apply list_elem_of_In. destruct x as [nm b]. cbn in *. by subst.
Qed.

Lemma nullable_inspected s b s' : message_id_nullable s = (Ok b, s') →
  cn_aborted s' = false ∧ cn_working s' = cn_working s ∧ (b = true → nullable_there "external_dispatches" "message_id" (cn_working s)).
Proof.
  unfold message_id_nullable. intros (r & s1 & E & E2)%mig_bind_Ok. apply inspect_Ok in E as (Ha & _ & Hs & m & Em & ->).
  destruct (find _ (st_columns m)) as [x|] eqn:Ef; [|done]. injection E2 as <- <-. split_and!; [done|done|].
  intros Hx. exists m. split; [done|]. by eapply find_column.
Qed.

Lemma set_nullable_there t col c c' u : set_nullable t col true c = Ok (c', u) → nullable_there t col c'.
Proof.
  unfold set_nullable. intros ([c1 v] & E1 & E)%result_bind_Ok. apply select_columns_inv in E1 as (_ & m & Em & Hm).
  rewrite Em in E. cbn [negb andb] in E. injection E as <- _. eexists. split.
  - rewrite get_put, bool_decide_eq_true_2 by done. reflexivity.
  - cbn. specialize (Hm col ltac:(set_solver)). unfold table_columns in Hm. apply list_elem_of_In, in_map_iff in Hm as (x & Hx & Hin).
    apply list_elem_of_In, in_map_iff. exists x. split; [|done]. by rewrite Hx, bool_decide_eq_true_2.
Qed.

Lemma done_008 c n c' n' : run_script run_008 c n = (true, c', n') → nullable_there "external_dispatches" "message_id" c'.
Proof.
  intros (b & s & s1 & s2 & E & -> & _)%script_verified; [|readonlys]. unfold make_message_id_nullable in E.
  apply mig_bind_Ok in E as (nl & s3 & E1 & E). apply nullable_inspected in E1 as (Ha & Hs & Hn). destruct nl.
  - injection E as _ <-. rewrite Ha, Hs. auto.
  - apply mig_bind_Ok in E as (u & s4 & E2 & [= _ <-]). apply sql_Ok in E2 as (_ & -> & _ & E2). by eapply set_nullable_there.
Qed.

Lemma status_table_there x s b s' : verify_status_table x s = (Ok b, s') →
  cn_working s' = cn_working s ∧ (b = true → table_there (fst x) (cn_working s)).
Proof.
  intros E. assert (readonly (verify_status_table x)) as Hr by (unfold verify_status_table; readonlys).
  split; [by apply Hr in E as [_ ?]|]. intros ->. unfold verify_status_table, table_exists in E.
  apply mig_bind_Ok in E as (f & s1 & E1 & E). apply sql_Ok in E1 as (_ & _ & _ & [= _ <-]).
  unfold table_there. by destruct (get_table (fst x) (cn_working s)).
Qed.

Lemma index_valid_there name s v s' : sql (ask (index_valid name)) s = (Ok v, s') →
  (v ≠ Some false → index_there "messages" name (cn_working s) → valid_there name (cn_working s)).
Proof.
  intros E Hv (_ & ix & Hi & Hn & _). apply sql_Ok in E as (_ & _ & _ & [= _ <-]). unfold index_valid in Hv.
  destruct (find_index name (cn_working s)) as [x|] eqn:Ex.
  - apply find_some in Ex as [Hx Hxn]. bools. exists x. split_and!; [by apply list_elem_of_In|done|].
    cbn in Hv. by destruct (ix_valid x).
  - apply (find_none _ _) with (x := ix) in Ex; [|by apply list_elem_of_In]. bools. congruence.
Qed.

Lemma done_010 int_of_string env c n c' n' : run_script (run_010 int_of_string env) c n = (true, c', n') →
  table_there "worker_runtime_status" c' ∧ table_there "worker_cycle_status" c' ∧
  index_there "messages" "ix_messages_inbound_created_at" c' ∧ valid_there "ix_messages_inbound_created_at" c'.
Proof.
  intros (u & s & s1 & s2 & _ & _ & <- & E)%script_verified; [|unfold verify_010, verify_status_table; readonlys].
  unfold verify_010 in E. apply mig_bind_Ok in E as (a & s3 & Ea & E). apply mig_bind_Ok in E as (b & s4 & Eb & E).
  apply status_table_there in Ea as [Ha Hta], Eb as [Hb Htb]. rewrite Ha in Htb, Hb.
  apply mig_bind_Ok in E as (f & s5 & Ef & E). destruct f; cbn [negb] in E; [|done].
  apply mig_bind_Ok in E as (v & s6 & Ev & [= Hv _]). bools. subst.
  apply inspect_Ok in Ef as Hf. destruct Hf as (_ & _ & Hf & _). apply inspect_index_there in Ef. rewrite Hb in Ef, Hf.
  split_and!; [by apply Hta|by apply Htb|done|]. apply index_valid_there in Ev; rewrite ?Hf in *; auto.
Qed.

Lemma done_012 uuid4_hex c n c' n' : run_script (run_012 uuid4_hex) c n = (true, c', n') →
  column_there "messages" "reply_reference" c' ∧ index_there "messages" "uq_messages_reply_reference" c' ∧
  valid_there "uq_messages_reply_reference" c'.
Proof.
  intros (s & E & ->)%run_script_true. unfold run_012 in E. do 4 (apply mig_bind_Ok in E as (? & ? & _ & E)).
  apply mig_bind_Ok in E as (u & s1 & Hc & E). apply commit_Ok in Hc as [Hc1 Hc2].
  assert (readonly verify_012) as Hr by (unfold verify_012; readonlys). destruct (Hr _ _ _ E) as [H1 H2].
  assert ((if cn_aborted s then cn_committed s else cn_working s) = cn_working s1) as -> by (destruct (cn_aborted s); congruence).
  unfold verify_012 in E. apply mig_bind_Ok in E as (f & s3 & Ef & E). destruct f; cbn [negb] in E; [|done].
  apply inspect_Ok in Ef as Hf. destruct Hf as (_ & _ & Hf & _). apply inspect_column_there in Ef.
  apply mig_bind_Ok in E as (idx & s4 & Ei & E). apply inspect_Ok in Ei as (_ & _ & Hi & m & Em & ->).
  destruct (find _ _) as [ix|] eqn:Ex; [|done]. destruct (_ || _); [done|]. apply mig_bind_Ok in E as (v & s5 & Ev & E).
  rewrite Hf in *. apply find_some in Ex as [Hin Hn]. unfold table_indexes in Hin. apply filter_In in Hin as [Hin Ht]. bools.
  assert (index_there "messages" "uq_messages_reply_reference" (cn_working s1)) as Hix.
  { split; [by exists m|]. exists ix. split_and!; [by apply list_elem_of_In|done|done]. }
  split_and!; [done|done|]. rewrite <- Hi. apply index_valid_there in Ev; rewrite ?Hi in *; auto.
  intros ->. done.
Qed.
End Established.

(** *** The markers of the preflight *)

Lemma assoc_map_values {A B} (g : string → A → B) t (l : list (string * A)) :
  assoc t (map (λ x, (fst x, g (fst x) (snd x))) l) = g t <$> assoc t l.
Proof. induction l as [|[k v] l IH]; [done|]. cbn. case_bool_decide; [by subst|done]. Qed.

Lemma live_table connect t c : table_there t c → is_not_none (assoc t (lv_schema (live_of connect c))) = true.
Proof. intros [m Em]. unfold live_of. cbn. rewrite (assoc_map_values (λ _ m, table_columns m)). unfold get_table in Em. by rewrite Em. Qed.
Lemma live_column connect t col c : column_there t col c →
  match assoc t (lv_schema (live_of connect c)) with Some xs => in_list col xs | None => false end = true.
Proof.
  intros (m & Em & Hc). unfold live_of. cbn. rewrite (assoc_map_values (λ _ m, table_columns m)). unfold get_table in Em.
  rewrite Em. cbn. by apply bool_decide_eq_true.
Qed.
Lemma live_nullable connect t col c : nullable_there t col c →
  match assoc t (lv_nullable (live_of connect c)) with Some xs => in_list col xs | None => false end = true.
Proof.
  intros (m & Em & Hc). unfold live_of. cbn. rewrite (assoc_map_values (λ _ m, map col_name (List.filter col_nullable (st_columns m)))).
  unfold get_table in Em. rewrite Em. cbn. apply bool_decide_eq_true, list_elem_of_In, in_map_iff. exists (mkColumn col true).
  split; [done|]. apply filter_In. split; [by apply list_elem_of_In|done].
Qed.
Lemma live_index connect t name c : index_there t name c →
  is_not_none (assoc t (lv_schema (live_of connect c)))
  && match assoc t (lv_indexes (live_of connect c)) with Some xs => in_list name xs | None => false end = true.
Proof.
  intros (Ht & ix & Hi & Hn & Hx). rewrite live_table by done. destruct Ht as [m Em]. unfold live_of. cbn.
  rewrite (assoc_map_values (λ t _, map ix_name (table_indexes t c))). unfold get_table in Em. rewrite Em. cbn.
  apply bool_decide_eq_true, list_elem_of_In, in_map_iff. exists ix. split; [done|]. unfold table_indexes. apply filter_In.
  split; [by apply list_elem_of_In|]. by apply bool_decide_eq_true.
Qed.
Lemma live_valid connect name c : valid_there name c → in_list name (lv_valid (live_of connect c)) = true.
Proof.
  intros (ix & Hi & Hn & Hv). apply bool_decide_eq_true, list_elem_of_In. cbn. apply in_map_iff. exists ix. split; [done|].
  apply filter_In. split; [by apply list_elem_of_In|done].
Qed.

Lemma Forall_tail {A} (P : A → Prop) x l : Forall P (x :: l) → Forall P l.
Proof. by inversion 1. Qed.

Section Release.
Context `{Server} (int_of_string : string → option Z) (uuid4_hex : nat → string).

Lemma run_steps_cons b rest c n c' n' : Forall tame (b :: rest) → run_steps (b :: rest) c n = (true, c', n') →
  ∃ c1 n1, run_script b c n = (true, c1, n1) ∧ run_steps rest c1 n1 = (true, c', n') ∧ extends c c1 ∧ extends c1 c'.
Proof.
  intros Ht. cbn. destruct (run_script b c n) as [[[|] c1] n1] eqn:E; [|done]. intros E2. exists c1, n1. split_and!; try done.
  - eapply run_script_extends; [|exact E]. by inversion Ht.
  - eapply run_steps_extends; [|exact E2]. by inversion Ht.
Qed.

(** All that the markers look at, but for the second step's index. *)
Record released (c : Catalog) : Prop := mkReleased {
  rl_send_attempt_count : column_there "messages" "send_attempt_count" c;
  rl_work_queue : index_there "contacts" "idx_contacts_work_queue" c;
  rl_buying_stage : column_there "contacts" "buying_stage" c;
  rl_integration_source : index_there "campaigns" "uq_campaigns_org_integration_source" c;
  rl_external_dispatches : table_there "external_dispatches" c;
  rl_grounding_context : column_there "external_dispatches" "grounding_context" c;
  rl_mailboxes : table_there "mailboxes" c;
  rl_dispatch_mailbox : column_there "external_dispatches" "mailbox_id" c;
  rl_deferred : nullable_there "external_dispatches" "message_id" c;
  rl_mailbox : column_there "messages" "mailbox_id" c;
  rl_no_mailbox_unique : index_there "messages" "uq_messages_message_id_no_mailbox" c;
  rl_mailbox_unique : index_there "messages" "uq_messages_mailbox_message_id" c;
  rl_runtime : table_there "worker_runtime_status" c;
  rl_cycle : table_there "worker_cycle_status" c;
  rl_inbound_created : index_there "messages" "ix_messages_inbound_created_at" c;
  rl_inbound_created_valid : valid_there "ix_messages_inbound_created_at" c;
  rl_unmatched : table_there "unmatched_inbound_messages" c;
  rl_reference : column_there "messages" "reply_reference" c;
  rl_reference_unique : index_there "messages" "uq_messages_reply_reference" c;
  rl_reference_valid : valid_there "uq_messages_reply_reference" c
}.

Ltac stays := first [done | eapply table_stays; [|eassumption]; eassumption | eapply column_stays; [|eassumption]; eassumption
  | eapply nullable_stays; [|eassumption]; eassumption
  | eapply index_stays; [|unfold EXPENDABLE; set_solver|eassumption]; eassumption
  | eapply valid_stays; [|unfold EXPENDABLE; set_solver|eassumption]; eassumption].

Lemma steps_release env c n c' n' : well_homed c →
  run_steps (STEPS int_of_string uuid4_hex env) c n = (true, c', n') → released c'.
Proof.
  intros Hw E. pose proof (tame_steps int_of_string uuid4_hex env) as Ht. unfold STEPS in *.
  destruct (run_steps_cons _ _ _ _ _ _ Ht E) as (c1 & n1 & E1%done_001 & E' & H01 & X1); clear E; rename E' into E; apply Forall_tail in Ht.
  destruct (run_steps_cons _ _ _ _ _ _ Ht E) as (c2 & n2 & _ & E' & H12 & _); clear E; rename E' into E; apply Forall_tail in Ht.
  pose proof (ex_homes _ _ H12 (ex_homes _ _ H01 Hw)) as Hw2.
  destruct (run_steps_cons _ _ _ _ _ _ Ht E) as (c3 & n3 & E3%(done_work_claiming _ _ _ _ Hw2) & E' & H23 & X3); clear E; rename E' into E; apply Forall_tail in Ht.
  destruct (run_steps_cons _ _ _ _ _ _ Ht E) as (c4 & n4 & E4%done_migrate_database & E' & H34 & X4); clear E; rename E' into E; apply Forall_tail in Ht.
  destruct (run_steps_cons _ _ _ _ _ _ Ht E) as (c5 & n5 & _ & E' & H45 & _); clear E; rename E' into E; apply Forall_tail in Ht.
  pose proof (ex_homes _ _ H45 (ex_homes _ _ H34 (ex_homes _ _ H23 Hw2))) as Hw5.
  destruct (run_steps_cons _ _ _ _ _ _ Ht E) as (c6 & n6 & [E6 E6']%(done_004 _ _ _ _ Hw5) & E' & _ & X6); clear E; rename E' into E; apply Forall_tail in Ht.
  destruct (run_steps_cons _ _ _ _ _ _ Ht E) as (c7 & n7 & E7%done_005 & E' & _ & X7); clear E; rename E' into E; apply Forall_tail in Ht.
  destruct (run_steps_cons _ _ _ _ _ _ Ht E) as (c8 & n8 & E8%done_006 & E' & _ & X8); clear E; rename E' into E; apply Forall_tail in Ht.
  destruct (run_steps_cons _ _ _ _ _ _ Ht E) as (c9 & n9 & E9%done_007 & E' & _ & X9); clear E; rename E' into E; apply Forall_tail in Ht.
  destruct (run_steps_cons _ _ _ _ _ _ Ht E) as (c10 & n10 & E10%done_008 & E' & _ & X10); clear E; rename E' into E; apply Forall_tail in Ht.
  destruct (run_steps_cons _ _ _ _ _ _ Ht E) as (c11 & n11 & (E11 & E11a & E11b)%done_009 & E' & _ & X11); clear E; rename E' into E; apply Forall_tail in Ht.
  destruct (run_steps_cons _ _ _ _ _ _ Ht E) as (c12 & n12 & (E12 & E12a & E12b & E12c)%done_010 & E' & _ & X12); clear E; rename E' into E; apply Forall_tail in Ht.
  destruct (run_steps_cons _ _ _ _ _ _ Ht E) as (c13 & n13 & E13%done_011 & E' & _ & X13); clear E; rename E' into E; apply Forall_tail in Ht.
  destruct (run_steps_cons _ _ _ _ _ _ Ht E) as (c14 & n14 & (E14 & E14a & E14b)%done_012 & E' & _ & _); clear E; rename E' into E; apply Forall_tail in Ht.
  injection E as <- _.
  split; stays.
Qed.

Lemma released_markers connect c label :
  released c → In (label, false) (markers (live_of connect c)) → label = "002  uq_messages_inbound_message_id".
Proof.
  intros [] Hin. unfold markers in Hin. cbv zeta in Hin.
  repeat match goal with
  | Hi : index_there _ _ _ |- _ => apply (live_index connect) in Hi; rewrite Hi in Hin; clear Hi
  | Hi : column_there _ _ _ |- _ => apply (live_column connect) in Hi; rewrite Hi in Hin; clear Hi
  | Hi : nullable_there _ _ _ |- _ => apply (live_nullable connect) in Hi; rewrite ?Hi in Hin; clear Hi
  | Hi : valid_there _ _ |- _ => apply (live_valid connect) in Hi; rewrite Hi in Hin; clear Hi
  | Hi : table_there _ _ |- _ => apply (live_table connect) in Hi; rewrite ?Hi in Hin; clear Hi
  end.
  cbn [orb andb In] in Hin. rewrite ?orb_true_r in Hin.
  repeat destruct Hin as [[= <-]|Hin]; done.
Qed.
(** C16: a release that reports success left at most one gap.  Whatever the
    server refused along the way, when the last step is done every marker that
    the preflight looks for is present, with one possible exception: the
    unique index of the second script, which swallows errors that abort its
    transaction and then reports success although nothing was committed.  (No
    index of the database bears a foreign name at the start.) *)
Theorem release_success_leaves_one_gap `{MakeUrl} env settings connect c c' connect' label :
  well_homed c → migrate_release int_of_string uuid4_hex env settings connect c = (true, c') →
  In (label, false) (markers (live_of connect' c')) → label = "002  uq_messages_inbound_message_id".
Proof.
  intros Hw E. apply released_markers. revert E. unfold migrate_release.
  destruct (main _ _ _ _) as [[said r] sch]. destruct r as [code|e]; [|done]. destruct (code =? EXIT_OK); [|done].
  destruct (run_script _ c 0) as [[ok1 c1] n1] eqn:E1. apply run_script_extends in E1; [|tame_script]. destruct ok1; [|done].
  destruct (run_steps _ c1 n1) as [[ok2 c2] n2] eqn:E2. intros [= -> <-].
  eapply steps_release; [|exact E2]. by apply (ex_homes _ _ E1).
Qed.

End Release.

(** *** What the index of the second script means *)

Section SecondScript.
Context `{Server}.

Lemma sql_Err {A} (q : stmt A) s e s' : sql q s = (Err e, s') → cn_aborted s' = true.
Proof.
  unfold sql. destruct (cn_aborted s); [by intros [= _ <-]|]. destruct (server_refuses _); [by intros [= _ <-]|].
  destruct (q (cn_working s)) as [[]|]; [done|]. by intros [= _ <-].
Qed.

Lemma is_postgres_inv s b s' : is_postgres s = (Ok b, s') → cn_aborted s' = false → b = true.
Proof.
  unfold is_postgres, succeeds, catch, mbind, Mig_bind. destruct (sql _ s) as [[u|e] s1] eqn:E; cbn; intros [= <- <-]; [done|].
  apply sql_Err in E. congruence.
Qed.

Lemma index_exists_true name s s' : index_exists name s = (Ok true, s') → ∃ x, x ∈ cat_indexes (cn_working s') ∧ ix_name x = name.
Proof.
  unfold index_exists, catch. set (m := _ ≫= _). destruct (m s) as [[b|e] s1] eqn:Em; [|done]. intros [= -> <-].
  unfold m in Em. apply mig_bind_Ok in Em as (pg & s2 & _ & Em). destruct pg.
  - apply sql_Ok in Em as (_ & _ & _ & [= <- Hx]). bools.
    match goal with Hf : find_index name _ = Some ?x |- _ => apply find_some in Hf as [Hin Hn]; bools; exists x; split end;
      [by apply list_elem_of_In|done].
  - by apply mig_bind_Ok in Em as (u & s3 & _ & [=]).
Qed.

Lemma create_index_safe_there ix s b s' : create_index_safe ix s = (Ok b, s') → cn_aborted s' = false →
  ∃ x, x ∈ cat_indexes (cn_working s') ∧ ix_name x = ix_name ix.
Proof.
  unfold create_index_safe. intros (f & s1 & E1 & E)%mig_bind_Ok Ha. destruct f.
  - injection E as _ <-. by apply index_exists_true in E1.
  - revert E. unfold catch, mbind, Mig_bind. destruct (sql _ s1) as [[u|e] s2] eqn:E2; cbn.
    + intros [= _ <-]. apply sql_Ok in E2 as (_ & _ & _ & E2). by apply create_index_there in E2 as [_ ?].
    + apply sql_Err in E2. destruct (_ || _); [|done]. intros [= _ <-]. congruence.
Qed.

(** The second script, when its transaction lives to the end. *)
Lemma steps_002_inbound_unique c n u s : well_homed c → steps_002 (mkConn c c false n) = (Ok u, s) → cn_aborted s = false →
  inbound_unique ∈ cat_indexes (cn_working s).
Proof.
  intros Hw E Ha. unfold steps_002 in E.
  assert (respects onward (_ ← step_campaigns_columns; _ ← step_campaigns_backfill; _ ← step_campaigns_indexes;
    _ ← step_contacts_unique; _ ← step_contacts_indexes; is_postgres)) as Hpre.
  { unfold step_campaigns_columns, step_campaigns_backfill, step_campaigns_indexes, step_contacts_unique, step_contacts_indexes,
      is_postgres, succeeds. tame_script. }
  assert (respects onward (_ ← step_messages_indexes; _ ← step_suppression_org_scope; step_postgres_fk_cascades)) as Hpost.
  { unfold step_messages_indexes, step_suppression_org_scope, step_postgres_fk_cascades, is_postgres, succeeds, cascade, drop_old_index.
    tame_script. apply drop_index_safe. unfold EXPENDABLE. set_solver. }
  apply mig_bind_Ok in E as (u1 & s1 & E1 & E). apply mig_bind_Ok in E as (u2 & s2 & E2 & E).
  apply mig_bind_Ok in E as (u3 & s3 & E3 & E). apply mig_bind_Ok in E as (u4 & s4 & E4 & E).
  apply mig_bind_Ok in E as (u5 & s5 & E5 & E). apply mig_bind_Ok in E as (u6 & s6 & E6 & E).
  pose proof (onward_alive _ _ (Hpost _ _ _ E) Ha) as Hn6. destruct (Hpost _ _ _ E) as [Hx6 _].
  unfold step_messages_inbound_dedup in E6. apply mig_bind_Ok in E6 as (pg & s7 & E7 & E6).
  apply mig_bind_Ok in E6 as (b & s8 & E8 & [= _ ->]).
  assert (extends c (cn_working s7)) as Hx7.
  { eapply (Hpre (mkConn c c false n) (Ok pg)). unfold mbind, Mig_bind. by rewrite E1, E2, E3, E4, E5. }
  assert (respects onward (create_index_safe (if pg then inbound_unique
    else plain "idx_messages_message_id_header" "messages" ["message_id_header"]))) as Hc by (destruct pg; auto with mail).
  pose proof (onward_alive _ _ (Hc _ _ _ E8) Hn6) as Hn7. destruct (Hc _ _ _ E8) as [Hx8 _].
  rewrite (is_postgres_inv _ _ _ E7 Hn7) in *. destruct (create_index_safe_there _ _ _ _ E8 Hn6) as (x & Hi & Hn).
  apply (ex_indexes _ _ Hx6); [|unfold EXPENDABLE; set_solver].
  by rewrite <- (proj2 (ex_homes _ _ Hx8 (ex_homes _ _ Hx7 Hw) x Hi) Hn).
Qed.
End SecondScript.

(** An inbound row with a Message-ID. *)
Definition inbound_with (id : string) (r : SqlRow) : Prop :=
  cell "direction" r = VStr "inbound" ∧ cell "message_id_header" r = VStr id.

Lemma inbound_row_key id r : inbound_with id r →
  holds inbound_with_id r = true ∧ key ["message_id_header"] r = Some [VStr id].
Proof.
  intros [Hd Hi]. unfold key, inbound_with_id. cbn [holds map]. rewrite Hd, Hi. split; [done|].
  unfold in_list. rewrite bool_decide_eq_false_2; [done|]. by intros [=]%list_elem_of_singleton.
Qed.

Lemma inbound_keys_collide id rows r0 r : r0 ∈ rows → inbound_with id r0 → inbound_with id r →
  unique_holds (rows ++ [r]) inbound_unique = false.
Proof.
  intros Hin H0%inbound_row_key H1%inbound_row_key. destruct H0 as [Hh0 Hk0], H1 as [Hh1 Hk1].
  unfold unique_holds. cbn [inbound_unique unique_on ix_unique negb orb]. apply bool_decide_eq_false.
  unfold keys. cbn [inbound_unique unique_on ix_columns ix_where]. rewrite List.filter_app, omap_app. cbn [List.filter].
  rewrite Hh1. cbn. rewrite Hk1. intros (_ & Hd & _)%NoDup_app. apply (Hd [VStr id]); [|by left].
  apply list_elem_of_omap. exists r0. split; [|done]. apply list_elem_of_In, filter_In. split; [by apply list_elem_of_In|done].
Qed.

Section Inbound.
Context `{Server}.

(** C34: a migrated database stores an inbound Message-ID once.  Once the second
    script has run to its end, no later additive change helps: an inbound
    message whose Message-ID an inbound message already has is refused,
    whatever mailboxes the two belong to.  The index that migration 009
    replaces is not the only one on Message-IDs: the one of the second script
    stays, and it does not look at the mailbox, so two tenants cannot both
    store a message sent to both of them. *)
Theorem migrated_inbound_ids_are_global c n u s c' m r0 r id :
  well_homed c → steps_002 (mkConn c c false n) = (Ok u, s) → cn_aborted s = false → extends (cn_working s) c' →
  get_table "messages" c' = Some m → r0 ∈ st_rows m → inbound_with id r0 → inbound_with id r →
  ∃ name, insert_into "messages" r c' = Err (UniqueKeyViolation name).
Proof.
  intros Hw E Ha Hx Em Hin H0 H1. pose proof (steps_002_inbound_unique _ _ _ _ Hw E Ha) as Hi.
  apply (ex_indexes _ _ Hx) in Hi; [|unfold EXPENDABLE; set_solver].
  unfold insert_into. rewrite Em. destruct (find _ (table_indexes "messages" c')) as [x|] eqn:Ef; [by eexists|].
  apply (find_none _ _) with (x := inbound_unique) in Ef.
  - by rewrite (inbound_keys_collide id _ r0) in Ef.
  - unfold table_indexes. apply filter_In. split; [by apply list_elem_of_In|]. by apply bool_decide_eq_true.
Qed.
End Inbound.

(** ** The backfill of 012 *)

Lemma filter_length_lt {A} (p q : A → bool) l x :
  (∀ y, q y = true → p y = true) → In x l → p x = true → q x = false →
  (length (List.filter q l) < length (List.filter p l))%nat.
Proof.
  intros Hqp. induction l as [|y l IH]; intros Hin Hp Hq; [done|]. cbn.
  assert (length (List.filter q l) ≤ length (List.filter p l))%nat as Hle.
  { clear -Hqp. induction l as [|z l IH]; [done|]. cbn. destruct (q z) eqn:E; [rewrite (Hqp z E); cbn; lia|]. destruct (p z); cbn; lia. }
  destruct Hin as [<-|Hin].
  - rewrite Hp, Hq. cbn. lia.
  - specialize (IH Hin Hp Hq). destruct (q y) eqn:E; [rewrite (Hqp y E); cbn; lia|]. destruct (p y); cbn; lia.
Qed.

Definition no_token (r : SqlRow) : bool := cell "reply_reference" r == VNull.
(** Every row has its primary key. *)
Definition keyed (c : Catalog) : Prop := ∀ m r, get_table "messages" c = Some m → r ∈ st_rows m → is_Some (row_key r).

Section Backfill.
Context `{Server} (uuid4_hex : nat → string).

Lemma unfilled_In i rows : i ∈ unfilled rows → ∃ r, In r rows ∧ no_token r = true ∧ row_key r = Some i.
Proof.
  unfold unfilled. intros Hi%elem_of_take. destruct Hi as (k & Hi & _). apply list_elem_of_lookup_2 in Hi.
  rewrite merge_sort_Permutation in Hi. apply list_elem_of_omap in Hi as (r & Hr & Hk).
  apply list_elem_of_In, filter_In in Hr as [Hr Hn]. by exists r.
Qed.

(** One round leaves fewer rows without a token. *)
Lemma fill_decreases c c' k total ids i rest :
  ids = i :: rest → (∃ m, get_table "messages" c = Some m ∧ ids = unfilled (st_rows m)) →
  fill_nulls "messages" "reply_reference" (token_for uuid4_hex total ids) c = Ok (c', k) →
  (unfilled_count c' < unfilled_count c)%nat ∧ (keyed c → keyed c').
Proof.
  intros Hids (m & Em & Hu) E. unfold fill_nulls in E. apply result_bind_Ok in E as ([c1 u] & _ & E). rewrite Em in E.
  set (fill := λ r, if cell "reply_reference" r == VNull
                    then match token_for uuid4_hex total ids r with Some x => dict_put "reply_reference" x r | None => r end
                    else r) in E. destruct (find _ _); [done|]. injection E as <- _.
  assert (∀ r, row_key (fill r) = row_key r) as Hkey.
  { intros r. unfold fill. case_bool_decide; [|done]. destruct (token_for _ _ _ r); [|done]. unfold row_key. by rewrite cell_put. }
  split.
  - unfold unfilled_count. rewrite get_put, Em. rewrite bool_decide_eq_true_2 by done. cbn [fmap option_fmap option_map default st_rows].
    destruct (unfilled_In i (st_rows m)) as (r & Hr & Hn & Hk); [rewrite <- Hu, Hids; by left|].
    replace (length (List.filter (λ r, cell "reply_reference" r == VNull) (map fill (st_rows m))))
      with (length (List.filter (λ r, no_token (fill r)) (st_rows m))).
    2:{ clear. induction (st_rows m) as [|x l IH]; [done|]. cbn. unfold no_token at 1. destruct (_ == _); cbn; by rewrite IH. }
    apply (filter_length_lt _ _ _ r); [|done|done|].
    + intros y Hy. unfold no_token, fill in Hy. destruct (cell "reply_reference" y == VNull) eqn:Hc; [done|congruence].
    + unfold fill. unfold no_token in Hn. rewrite Hn. unfold token_for. rewrite Hk, Hids. cbn.
      rewrite decide_True by done. cbn. unfold no_token. apply bool_decide_eq_false. by rewrite cell_put, bool_decide_eq_true_2 by done.
  - intros Hkd m' r Em' Hr. rewrite get_put, bool_decide_eq_true_2 in Em' by done. injection Em' as <-. cbn in Hr.
    apply list_elem_of_In, in_map_iff in Hr as (r1 & <- & Hr1). rewrite Hkey. apply (Hkd m); [done|by apply list_elem_of_In].
Qed.
Lemma unfilled_nil c m : keyed c → get_table "messages" c = Some m → unfilled (st_rows m) = [] → unfilled_count c = 0%nat.
Proof.
  intros Hk Em Hu. assert (List.filter (λ r, cell "reply_reference" r == VNull) (st_rows m) = []) as Hf;
    [|unfold unfilled_count; rewrite Em; cbn -[cell]; by rewrite Hf].
  unfold unfilled in Hu. destruct (List.filter _ (st_rows m)) as [|r l] eqn:Ef; [done|]. exfalso.
  assert (In r (st_rows m)) as Hr by (eapply (proj1 (filter_In _ r _)); rewrite Ef; by left).
  destruct (Hk m r Em) as [i Hi]; [by apply list_elem_of_In|]. cbn -[merge_sort take BATCH_SIZE] in Hu. rewrite Hi in Hu.
  apply (f_equal length) in Hu. rewrite length_take, merge_sort_Permutation in Hu. cbn in Hu. lia.
Qed.

Lemma sql_raises {A} (q : stmt A) s e s' : sql q s = (Err e, s') → ∃ x, e = Sql x.
Proof.
  unfold sql. destruct (cn_aborted s); [intros [= <- _]; by eexists|]. destruct (server_refuses _); [intros [= <- _]; by eexists|].
  destruct (q (cn_working s)) as [[]|]; [done|]. intros [= <- _]. by eexists.
Qed.

Lemma backfill_spec fuel : ∀ total s r s',
  keyed (cn_working s) → (unfilled_count (cn_working s) < fuel)%nat → backfill uuid4_hex fuel total s = (r, s') →
  r ≠ Err (Raised "out of fuel") ∧
  ∀ k, r = Ok k → unfilled_count (cn_working s') = 0%nat ∧ extends (cn_working s) (cn_working s').
Proof.
  induction fuel as [|fuel IH]; intros total s r s' Hk Hf E; [lia|]. cbn [backfill] in E.
  apply mig_bind_inv in E as [(ids & s1 & E1 & E)|(e & E & ->)].
  2:{ apply sql_raises in E as [x ->]. by split. }
  apply sql_Ok in E1 as (_ & Ha1 & _ & E1). unfold ask_rows in E1. apply result_bind_Ok in E1 as ([c1 u] & Es & [= Hw Eu]).
  apply select_columns_inv in Es as (_ & m & Em & _). rewrite Em in Eu. change (unfilled (st_rows m) = ids) in Eu.
  destruct ids as [|i rest].
  { injection E as <- <-. split; [done|]. intros k _. rewrite <- Hw. split; [by eapply unfilled_nil|done]. }
  apply mig_bind_inv in E as [(k1 & s2 & E2 & E)|(e & E & ->)].
  2:{ apply sql_raises in E as [x ->]. by split. }
  apply sql_Ok in E2 as (_ & Ha2 & _ & E2). rewrite <- Hw in E2.
  pose proof (fill_nulls_safe _ _ _ _ _ _ E2) as Hx.
  apply (fill_decreases _ _ _ total (i :: rest) i rest) in E2 as [Hlt Hk2]; [|done|exists m; by rewrite Eu].
  apply mig_bind_inv in E as [(u3 & s3 & E3 & E)|(e & E & ->)].
  2:{ unfold commit in E. destruct (commit_fault _); [|done]. injection E as <- _. by split. }
  apply commit_Ok in E3 as [_ E3]. rewrite Ha2 in E3.
  apply IH in E as [H1 H2]; rewrite E3 in *; [|by apply Hk2|lia]. split; [done|].
  intros k Hr. destruct (H2 k Hr) as [H3 H4]. split; [done|]. by etrans.
Qed.

(** C40: the backfill of reply references ends and is complete.  Its loop has no
    bound of its own; with one round for every row without a reference it
    never runs out, whatever the server refuses.  When it returns, every
    message has a reference, and none that had one got another: references
    that were handed out stay valid. *)
Theorem backfill_terminates s r s' :
  keyed (cn_working s) → backfill_all uuid4_hex s = (r, s') →
  r ≠ Err (Raised "out of fuel") ∧
  ∀ k, r = Ok k →
    unfilled_count (cn_working s') = 0%nat ∧
    ∀ m, get_table "messages" (cn_working s) = Some m →
      ∃ m', get_table "messages" (cn_working s') = Some m' ∧ table_kept m m' ∧
        ∀ x, In x (st_rows m') → cell "reply_reference" x ≠ VNull.
Proof.
  intros Hk E. unfold backfill_all in E. apply backfill_spec in E as [H1 H2]; [|done|lia]. split; [done|].
  intros k Hr. destruct (H2 k Hr) as [H3 H4]. split; [done|]. intros m Em. apply (ex_data _ _ H4) in Em as (m' & Em' & Hm).
  exists m'. split_and!; [done|done|]. intros x Hx Hn. unfold unfilled_count in H3. rewrite Em' in H3.
  change (length (List.filter (λ r, cell "reply_reference" r == VNull) (st_rows m')) = 0%nat) in H3. apply nil_length_inv in H3.
  assert (In x (List.filter (λ r, cell "reply_reference" r == VNull) (st_rows m'))) as Hin
    by (apply filter_In; split; [done|by apply bool_decide_eq_true]).
  by rewrite H3 in Hin.
Qed.
End Backfill.

(** ** Witnesses *)

(** A database without a foreign index is well homed. *)
Definition no_foreign_index (c : Catalog) : bool :=
  forallb (λ ix, match assoc (ix_name ix) HOMES with Some t => ix_table ix == t | None => true end
                 && (ix_name ix != ix_name inbound_unique)) (cat_indexes c).
Lemma no_foreign_index_homed c : no_foreign_index c = true → well_homed c.
Proof.
  unfold no_foreign_index. rewrite forallb_forall. intros Hf ix Hix. apply list_elem_of_In, Hf in Hix.
  apply andb_true_iff in Hix as [Ht Hn]. bools. split; [|done]. intros t E. rewrite E in Ht. by bools.
Qed.

Definition keyedb (c : Catalog) : bool := forallb (λ r, is_not_none (row_key r)) (default [] (st_rows <$> get_table "messages" c)).
Lemma keyedb_keyed c : keyedb c = true → keyed c.
Proof.
  unfold keyedb. intros Hf m r Em Hr. rewrite Em in Hf. apply list_elem_of_In in Hr.
  eapply forallb_forall in Hf; [|exact Hr]. destruct (row_key r); [by eexists|done].
Qed.

(** A server that refuses nothing; one that refuses statement [k]. *)
Definition calm : Server := {| server_refuses := λ _, None; commit_fault := λ _, None |}.
Definition refusing (k : nat) : Server :=
  {| server_refuses := λ n, if (n =? k)%nat then Some LockNotAvailable else None; commit_fault := λ _, None |}.
Definition no_int : string → option Z := λ _, None.
Definition tok (n : nat) : string := pretty (Z.of_nat n).
Definition target : result string (string * string) := Ok ("mailer", "16.1").

Definition insert_all (l : list (string * SqlRow)) (c : Catalog) : Catalog :=
  fold_left (λ c x, match insert_into (fst x) (snd x) c with Ok (c', _) => c' | Err _ => c end) l c.
(** The tables as [init_db] creates them, and with a campaign's first mails. *)
Definition created : Catalog := snd (fst (run_script (H := calm) (_ ← init_tables (H := calm); mret true) (mkCatalog [] [] []) 0)).
Definition mail (id : Z) (direction header : string) (mailbox : sqlval) : string * SqlRow :=
  ("messages", [("id", VInt id); ("contact_id", VInt 1); ("direction", VStr direction); ("body", VStr "Hello");
                ("message_id_header", VStr header); ("mailbox_id", mailbox)]).
Definition suppressed (id : Z) (org : string) : string * SqlRow :=
  ("suppression_list", [("id", VInt id); ("email", VStr "ada@example.org"); ("organization_id", VStr org)]).
Definition populated : Catalog :=
  insert_all [("campaigns", [("id", VInt 1); ("name", VStr "Spring")]);
              ("contacts", [("id", VInt 1); ("campaign_id", VInt 1); ("email", VStr "ada@example.org")]);
              mail 1 "outbound" "<a@x>" VNull; mail 2 "inbound" "<b@x>" VNull] created.

#[local] Abbreviation release_of sv c := (migrate_release (H := sv) (H0 := sample_urls) no_int tok operator_env production target c).
Definition migrated : Catalog := snd (release_of calm populated).
Definition sent_mails : list SqlRow := default [] (st_rows <$> get_table "messages" populated).

(** The release of the sample database succeeds, and its two mails keep every
    value they had. *)
Lemma release_loses_no_data_witness :
  fst (release_of calm populated) = true ∧ length sent_mails = 2%nat ∧
  ∃ m', get_table "messages" migrated = Some m' ∧
    Forall2 (λ r r', ∀ col, col ∈ model_columns "messages" → cell col r ≠ VNull → cell col r' = cell col r) sent_mails (st_rows m').
Proof.
  split; [vm_compute; done|]. split; [vm_compute; done|].
  destruct (get_table "messages" populated) as [m|] eqn:Em; [|vm_compute in Em; done].
  destruct (proj1 (release_loses_no_data (H := calm) (H0 := sample_urls) no_int tok operator_env production target populated
    (fst (release_of calm populated)) migrated (surjective_pairing _)) "messages" m Em) as (m' & Em' & _ & Hr).
  exists m'. split; [exact Em'|]. unfold sent_mails. rewrite Em.
  assert (table_columns m = model_columns "messages") as <-; [|exact Hr].
  assert (Some m = get_table "messages" populated) as E by done. vm_compute in E. injection E as ->. by vm_compute.
Defined.

(** With one lock timeout in the second script, statement 84, the release still
    reports success, and the marker of the script is absent. *)
Lemma release_success_leaves_one_gap_witness :
  ∃ label c', release_of (refusing 84) populated = (true, c') ∧ In (label, false) (markers (live_of target c')) ∧
    label = "002  uq_messages_inbound_message_id".
Proof.
  pose proof (surjective_pairing (release_of (refusing 84) populated)) as E.
  replace (fst (release_of (refusing 84) populated)) with true in E by (vm_compute; reflexivity).
  assert (In ("002  uq_messages_inbound_message_id", false) (markers (live_of target (snd (release_of (refusing 84) populated))))) as Hin
    by (vm_compute; tauto).
  revert E Hin. generalize (snd (release_of (refusing 84) populated)). intros c' E Hin.
  exists "002  uq_messages_inbound_message_id", c'. split; [exact E|]. split; [exact Hin|].
  exact (release_success_leaves_one_gap (H := refusing 84) (H0 := sample_urls) no_int tok operator_env production target
    populated c' target _ (no_foreign_index_homed populated ltac:(vm_compute; reflexivity)) E Hin).
Defined.

(** The second script on the sample database, then a reply that another
    mailbox also received. *)
Lemma migrated_inbound_ids_are_global_witness :
  ∃ s name, steps_002 (H := calm) (mkConn populated populated false 0) = (Ok (), s) ∧
    insert_into "messages" (snd (mail 7 "inbound" "<b@x>" (VInt 2))) (cn_working s) = Err (UniqueKeyViolation name).
Proof.
  destruct (steps_002 (H := calm) (mkConn populated populated false 0)) as [r s] eqn:E.
  assert (r = Ok () ∧ cn_aborted s = false ∧ ∃ m, get_table "messages" (cn_working s) = Some m ∧
            ∃ r0, r0 ∈ st_rows m ∧ inbound_with "<b@x>" r0) as (-> & Ha & m & Em & r0 & Hr & H0).
  { vm_compute in E. injection E as <- <-. split_and!; [done|done|]. eexists. split; [vm_compute; done|].
    eexists. split; [right; left|]. by vm_compute. }
  assert (well_homed populated) as Hw by (apply no_foreign_index_homed; vm_compute; reflexivity).
  assert (inbound_with "<b@x>" (snd (mail 7 "inbound" "<b@x>" (VInt 2)))) as H1 by (split; reflexivity).
  destruct (migrated_inbound_ids_are_global (H := calm) populated 0 () s (cn_working s) m r0 _ "<b@x>" Hw E Ha
    (reflexivity (R := extends) _) Em Hr H0 H1) as [name Hn].
  exists s, name. split; [reflexivity|exact Hn].
Defined.

(** Two mails without a reference. *)
Lemma backfill_terminates_witness :
  ∃ s', backfill_all (H := calm) tok (mkConn populated populated false 0) = (Ok 2%nat, s') ∧ unfilled_count (cn_working s') = 0%nat.
Proof.
  pose proof (surjective_pairing (backfill_all (H := calm) tok (mkConn populated populated false 0))) as E.
  replace (fst (backfill_all (H := calm) tok (mkConn populated populated false 0))) with (@Ok mig_error nat 2%nat) in E
    by (vm_compute; reflexivity).
  revert E. generalize (snd (backfill_all (H := calm) tok (mkConn populated populated false 0))). intros s' E.
  exists s'. split; [exact E|].
  refine (proj1 (proj2 (backfill_terminates (H := calm) tok _ _ _ _ E) 2%nat eq_refl)). apply keyedb_keyed. vm_compute. reflexivity.
Defined.

(** *** What blocks a release *)

Definition exits_zero (body : Mig bool) (c : Catalog) : bool := fst (fst (run_script (H := calm) body c 0)).

(** Two tenants that suppressed one address: on the tables of [init_db] the
    global index of 001 cannot be built, and the script fails. *)
Example two_tenants_block_001 :
  let c := insert_all [suppressed 1 "a"; suppressed 2 "b"] created in
  exits_zero (run_001 (H := calm)) c = false ∧ fst (release_of calm c) = false.
Proof. vm_compute. done. Qed.

(** A list of suppressed addresses without its tenant column: the probe of 002
    aborts the transaction, so the column is never added. *)
Example missing_column_blocks_002 :
  ∃ c, drop_column "suppression_list" "organization_id" created = Ok (c, ()) ∧
    exits_zero (run_002 (H := calm)) c = false ∧ fst (release_of calm c) = false.
Proof. eexists. split; [vm_compute; done|]. vm_compute. done. Qed.

(** A release of the migrated database succeeds again, until a mail that was
    sent comes back in a mailbox: its Message-ID is then stored twice, as 009
    allows, and 003 refuses. *)
Example mailed_copy_blocks_003 :
  let c := insert_all [mail 3 "outbound" "<c@x>" VNull; mail 4 "inbound" "<c@x>" (VInt 1)] migrated in
  fst (release_of calm migrated) = true ∧ length (default [] (st_rows <$> get_table "messages" c)) = 4%nat ∧
  exits_zero (run_003 (H := calm)) c = false ∧ fst (release_of calm c) = false.
Proof. vm_compute. done. Qed.

(** 001 alone on the migrated database brings the global index back. *)
Example rerun_001_restores_global_index :
  find_index "idx_suppression_email" migrated = None ∧
  find_index "idx_suppression_email" (snd (fst (run_script (H := calm) (run_001 (H := calm)) migrated 0))) = Some suppression_email.
Proof. vm_compute. done. Qed.

(** One reply in two mailboxes: the tables of the models take both copies, the
    migrated database only the first. *)
Example second_mailbox_copy :
  let copies := [mail 5 "inbound" "<d@x>" (VInt 1); mail 6 "inbound" "<d@x>" (VInt 2)] in
  length (default [] (st_rows <$> get_table "messages" (insert_all copies created))) = 2%nat ∧
  length (default [] (st_rows <$> get_table "messages" (insert_all copies migrated))) = 3%nat.
Proof. vm_compute. done. Qed.
