(* ===== verification/MigrationReverts.v ===== *)
(** * Undoing a migration

    The downgrades of [Migrations] on a server that refuses nothing: what a
    downgrade restores after its upgrade, and when it refuses. *)

From S2P Require Import Prelude Sql Models Config Samples Auth SemanticModels StateMachine Sender Regex Threading Grounding ExactMessage WorkClaiming Lifecycle Llm LlmSchemas Memory Classifier SemanticParsing Guardrails Scheduling FollowUp Inbound InboundSafety ExternalDispatchWorker GenerationWorker WorkerStatus OperatorMetrics CanonicalJson Integrations MailboxPolling SchedulerJobs Process MigrationGate Ddl Migrations MigrationSafety.

#[local] Open Scope bool_scope.

(** ** Columns *)

(** Nothing of the catalog has to do with the column. *)
Record fresh_column (t col : string) (m : SqlTable) (c : Catalog) : Prop := {
  fresh_table : get_table t c = Some m;
  fresh_name : col ∉ table_columns m;
  fresh_rows : ∀ r, r ∈ st_rows m → col ∉ map fst r;
  fresh_indexes : ∀ ix, ix ∈ cat_indexes c → ix_table ix = t → col ∉ ix_columns ix ++ pred_columns (ix_where ix);
  fresh_fks : ∀ fk, fk ∈ cat_fks c → fk_table fk = t → fk_column fk ≠ col
}.

Lemma dict_put_put {A} k (v w : A) d : dict_put k w (dict_put k v d) = dict_put k w d.
Proof.
  induction d as [|[k' v'] d IH]; cbn; [by rewrite bool_decide_eq_true_2|].
  case_bool_decide as E; cbn; [by rewrite bool_decide_eq_true_2|]. by rewrite (bool_decide_eq_false_2 _ E), IH.
Qed.
Lemma dict_put_same {A} k (v : A) d : assoc k d = Some v → dict_put k v d = d.
Proof.
  induction d as [|[k' v'] d IH]; cbn; [done|]. case_bool_decide as E; intros Ha.
  - subst. injection Ha as ->. by rewrite bool_decide_eq_true_2.
  - rewrite bool_decide_eq_false_2 by congruence. f_equal. auto.
Qed.
Lemma filter_put_fresh {A} col (v : A) (r : list (string * A)) : col ∉ map fst r →
  List.filter (λ x, fst x != col) (dict_put col v r) = r.
Proof.
  induction r as [|[k x] r IH]; cbn; intros Hn; [by rewrite bool_decide_eq_true_2|]. apply not_elem_of_cons in Hn as [Hk Hn].
  rewrite (bool_decide_eq_false_2 (k = col)) by congruence. cbn. rewrite (bool_decide_eq_false_2 (k = col)) by congruence. cbn.
  f_equal. auto.
Qed.
Lemma filter_kept {A} (p : A → bool) l : (∀ x, x ∈ l → p x = true) → List.filter p l = l.
Proof.
  induction l as [|x l IH]; intros Hp; [done|]. cbn. rewrite Hp by constructor. f_equal. apply IH. intros y Hy. apply Hp. by constructor.
Qed.

(** The catalog with the column. *)
Definition column_added (t col : string) (ref : option ForeignKey) (m : SqlTable) (c : Catalog) : Catalog :=
  set_fks (cat_fks c ++ option_list ref)
    (put_table t (mkSqlTable (st_columns m ++ [mkColumn col true]) (map (dict_put col VNull) (st_rows m))) c).

Lemma add_fresh_column t col ref m c : fresh_column t col m c → (∀ fk, ref = Some fk → is_Some (get_table (fk_target fk) c)) →
  add_column t col VNull ref c = Ok (column_added t col ref m c, ()).
Proof.
  intros [Ht Hn _ _ _] Hr. unfold add_column. rewrite Ht. unfold in_list. rewrite bool_decide_eq_false_2 by done.
  destruct ref as [fk|]; [|done]. destruct (Hr fk eq_refl) as [x Hx]. by rewrite Hx.
Qed.

Lemma column_added_columns t col ref m c :
  get_table t (column_added t col ref m c) = Some (mkSqlTable (st_columns m ++ [mkColumn col true]) (map (dict_put col VNull) (st_rows m))).
Proof. unfold column_added, set_fks, get_table, put_table. cbn. by rewrite assoc_put, bool_decide_eq_true_2. Qed.

Lemma column_added_has col m :
  in_list col (table_columns (mkSqlTable (st_columns m ++ [mkColumn col true]) (map (dict_put col VNull) (st_rows m)))) = true.
Proof. unfold in_list, table_columns. cbn. apply bool_decide_eq_true. rewrite map_app. apply elem_of_app. right. by constructor. Qed.

(** Dropping a column that was just added restores the catalog. *)
Lemma drop_added_column t col ref m c : fresh_column t col m c →
  (∀ fk, ref = Some fk → fk_table fk = t ∧ fk_column fk = col) →
  drop_column t col (column_added t col ref m c) = Ok (c, ()).
Proof.
  intros [Ht Hn Hr Hi Hf] Href. unfold drop_column. rewrite column_added_columns, column_added_has. cbn [negb].
  do 2 f_equal. destruct c as [tabs ixs fks]. cbn in *. f_equal.
  - rewrite dict_put_put. rewrite List.filter_app. cbn [List.filter col_name]. rewrite bool_decide_eq_true_2 by done. cbn [negb].
    rewrite app_nil_r, map_map. rewrite filter_kept.
    + rewrite (map_ext_in _ (λ r, r)), map_id; [by apply dict_put_same; destruct m|].
      intros r Hin. apply filter_put_fresh, Hr. by apply list_elem_of_In.
    + intros x Hx. apply negb_true_iff, bool_decide_eq_false. intros <-. apply Hn. unfold table_columns. apply list_elem_of_In, in_map.
      by apply list_elem_of_In.
  - apply filter_kept. intros ix Hx. case_bool_decide as Et; [|done]. specialize (Hi ix Hx Et). unfold in_list.
    rewrite elem_of_app in Hi. rewrite !bool_decide_eq_false_2 by tauto. done.
  - rewrite List.filter_app. rewrite filter_kept.
    + destruct ref as [fk|]; [|by rewrite app_nil_r]. destruct (Href fk eq_refl) as [Hft Hfc]. cbn.
      rewrite !bool_decide_eq_true_2 by done. by rewrite app_nil_r.
    + intros fk Hx. case_bool_decide as Et; [|done]. by rewrite bool_decide_eq_false_2 by auto.
Qed.

(** *** On a server that refuses nothing *)

Lemma sql_calm {A} (q : stmt A) b c n c' a : q c = Ok (c', a) →
  sql (H := calm) q (mkConn b c false n) = (Ok a, mkConn b c' false (S n)).
Proof. intros E. unfold sql. cbn. by rewrite E. Qed.
Lemma commit_calm b c n : commit (H := calm) (mkConn b c false n) = (Ok (), mkConn c c false (S n)).
Proof. done. Qed.
Lemma inspect_calm {A} t (f : Catalog → SqlTable → A) b c n m : get_table t c = Some m →
  inspect_table (H := calm) t f (mkConn b c false n) = (Ok (f c m), mkConn b c false (S n)).
Proof. intros E. unfold inspect_table, mbind, Mig_bind. erewrite sql_calm; [|done]. by rewrite E. Qed.

Lemma add_column_calm t col ref b c n m c' :
  get_table t c = Some m → in_list col (table_columns m) = false → add_column t col VNull ref c = Ok (c', ()) →
  add_column_checked (H := calm) t col ref (mkConn b c false n) = (Ok true, mkConn b c' false (S (S n))).
Proof.
  intros Ht Hn Ha. unfold add_column_checked, inspect_column, mbind, Mig_bind. erewrite inspect_calm by done. rewrite Hn. cbn [negb].
  cbv beta iota. by erewrite sql_calm.
Qed.
Lemma drop_column_calm t col b c n m c' :
  get_table t c = Some m → in_list col (table_columns m) = true → drop_column t col c = Ok (c', ()) →
  drop_column_checked (H := calm) t col (mkConn b c false n) = (Ok true, mkConn b c' false (S (S n))).
Proof.
  intros Ht Hn Ha. unfold drop_column_checked, inspect_column, mbind, Mig_bind. erewrite inspect_calm by done. rewrite Hn. cbn [negb].
  cbv beta iota. by erewrite sql_calm.
Qed.

Lemma select_column_Ok t col c m : get_table t c = Some m → in_list col (table_columns m) = true → select_columns [col] t c = Ok (c, ()).
Proof. intros Ht Hc. unfold select_columns. rewrite Ht. cbn. by rewrite Hc. Qed.

(** An upgrade that adds a column, and the downgrade that drops it. *)
Definition column_up (t col : string) (ref : option ForeignKey) : Mig bool :=
  _ ← add_column_checked (H := calm) t col ref; _ ← commit (H := calm);
  succeeds (sql (H := calm) (select_columns [col] t)).
Definition column_down (t col : string) : Mig bool :=
  _ ← drop_column_checked (H := calm) t col; _ ← commit (H := calm); mret true.

Lemma column_up_down t col ref c n m :
  fresh_column t col m c →
  (∀ fk, ref = Some fk → fk_table fk = t ∧ fk_column fk = col ∧ is_Some (get_table (fk_target fk) c)) →
  ∃ c1 n1 n2, run_script (H := calm) (column_up t col ref) c n = (true, c1, n1) ∧ has_column t col c1 = true ∧
    run_script (H := calm) (column_down t col) c1 n1 = (true, c, n2).
Proof.
  intros Hf Href. pose proof (add_fresh_column _ _ ref _ _ Hf (λ fk E, proj2 (proj2 (Href fk E)))) as Ha.
  pose proof (drop_added_column _ _ ref _ _ Hf (λ fk E, conj (proj1 (Href fk E)) (proj1 (proj2 (Href fk E))))) as Hd.
  pose proof (column_added_columns t col ref m c) as Hg. pose proof (column_added_has col m) as Hh. destruct Hf as [Ht Hn _ _ _].
  set (c1 := column_added t col ref m c) in *. clearbody c1.
  eexists c1, _, _. unfold has_column. rewrite Hg, Hh. split_and!; [|done|].
  - unfold run_script, column_up, succeeds, catch, mbind, Mig_bind.
    erewrite add_column_calm; [|exact Ht|by apply bool_decide_eq_false|exact Ha]. rewrite commit_calm.
    erewrite sql_calm by (by eapply select_column_Ok). cbn. reflexivity.
  - unfold run_script, column_down, mbind, Mig_bind. erewrite drop_column_calm; [|exact Hg|exact Hh|exact Hd]. rewrite commit_calm.
    cbn. reflexivity.
Qed.

(** A column script is reverted by its downgrade.  On a server that refuses
    nothing, if nothing of the database has to do with the column yet, the
    upgrade of 005 and of 007 succeeds and adds it, and the downgrade then
    restores exactly the catalog there was: every row, index and foreign key. *)
Theorem column_migrations_revert c n m :
  is_Some (get_table "mailboxes" c) →
  (fresh_column "external_dispatches" "grounding_context" m c →
     ∃ c1 n1 n2, run_script (H := calm) (run_005 (H := calm)) c n = (true, c1, n1) ∧
       has_column "external_dispatches" "grounding_context" c1 = true ∧
       run_script (H := calm) (downgrade_005 (H := calm)) c1 n1 = (true, c, n2)) ∧
  (fresh_column "external_dispatches" "mailbox_id" m c →
     ∃ c1 n1 n2, run_script (H := calm) (run_007 (H := calm)) c n = (true, c1, n1) ∧
       has_column "external_dispatches" "mailbox_id" c1 = true ∧
       run_script (H := calm) (downgrade_007 (H := calm)) c1 n1 = (true, c, n2)).
Proof.
  intros Hmb. split; intros Hf.
  - by apply (column_up_down "external_dispatches" "grounding_context" None c n m).
  - apply (column_up_down "external_dispatches" "mailbox_id" (Some (refers "external_dispatches" "mailbox_id" "mailboxes" false)) c n m);
      [done|]. by intros fk [= <-].
Qed.

(** ** Refusals *)

Section Refusals.
Context `{Server}.

Lemma sql_cases {A} (q : stmt A) b c n c' a : q c = Ok (c', a) →
  (∃ e s', sql q (mkConn b c false n) = (Err e, s') ∧ cn_committed s' = b) ∨
  sql q (mkConn b c false n) = (Ok a, mkConn b c' false (S n)).
Proof.
  intros E. unfold sql. cbn. destruct (server_refuses n); [left; by do 2 eexists|]. rewrite E. by right.
Qed.

Lemma inspect_cases {A} t (f : Catalog → SqlTable → A) b c n m : get_table t c = Some m →
  (∃ e s', inspect_table t f (mkConn b c false n) = (Err e, s') ∧ cn_committed s' = b) ∨
  inspect_table t f (mkConn b c false n) = (Ok (f c m), mkConn b c false (S n)).
Proof.
  intros E. unfold inspect_table, mbind, Mig_bind.
  destruct (sql_cases (ask (λ c, f c <$> get_table t c)) b c n _ _ eq_refl) as [(e & s' & -> & Hs)| ->]; [left; by do 2 eexists|].
  rewrite E. by right.
Qed.

(** A body that raises before its first commit, or rolls back and answers no,
    leaves the database alone. *)
Lemma run_script_failed (body : Mig bool) c n :
  (∃ e s', body (mkConn c c false n) = (Err e, s') ∧ cn_committed s' = c) ∨
  (∃ k, body (mkConn c c false n) = (Ok false, mkConn c c false k)) →
  ∃ n', run_script body c n = (false, c, n').
Proof.
  unfold run_script, mbind, Mig_bind. intros [(e & s' & -> & <-)|[k ->]]; [by eexists|].
  unfold commit. cbn. destruct (commit_fault k) as [[]|]; cbn; by eexists.
Qed.

Lemma pending_positive rows : (∃ r, In r rows ∧ cell "message_id" r = VNull) → pending_rows rows ≠ 0.
Proof.
  intros (r & Hin & Hn). unfold pending_rows, tally. assert (In r (List.filter (λ r, cell "message_id" r == VNull) rows)) as Hf
    by (apply filter_In; split; [done|by apply bool_decide_eq_true]).
  destruct (List.filter _ rows); [done|]. cbn. lia.
Qed.

(** A downgrade refuses rather than lose data.  Whatever the server does,
    while some Message-ID is stored twice the downgrade of 009 fails and changes
    nothing, and so does that of 008 while a dispatch waits for its message. *)
Theorem downgrade_refuses_to_lose c n m :
  (get_table "messages" c = Some m → in_list "mailbox_id" (table_columns m) = true →
     in_list "message_id_header" (table_columns m) = true → repeated_ids (st_rows m) = true →
     ∃ n', run_script downgrade_009 c n = (false, c, n')) ∧
  (get_table "external_dispatches" c = Some m → find (λ x, col_name x == "message_id") (st_columns m) = Some (mkColumn "message_id" true) →
     (∃ r, In r (st_rows m) ∧ cell "message_id" r = VNull) →
     ∃ n', run_script downgrade_008 c n = (false, c, n')).
Proof.
  split.
  - intros Ht Hc Hm Hr. apply run_script_failed. unfold downgrade_009, downgrade_schema, inspect_column, mbind, Mig_bind.
    destruct (inspect_cases "messages" (λ _ m, in_list "mailbox_id" (table_columns m)) c c n m Ht) as [(e & s' & -> & Hs)| ->];
      [left; by do 2 eexists|]. rewrite Hc. cbv beta iota.
    assert (ask_rows "messages" ["message_id_header"] repeated_ids c = Ok (c, true)) as Hq.
    { unfold ask_rows. rewrite (select_column_Ok _ _ _ _ Ht Hm), Ht. cbn. by rewrite Hr. }
    destruct (sql_cases _ c c (S n) _ _ Hq) as [(e & s' & -> & Hs)| ->]; [left; by do 2 eexists|]. right. by eexists.
  - intros Ht Hc (r & Hr & Hn). apply run_script_failed. left.
    unfold downgrade_008, make_message_id_required, message_id_nullable, mbind, Mig_bind.
    destruct (inspect_cases "external_dispatches" (λ _ m, find (λ x, col_name x == "message_id") (st_columns m)) c c n m Ht)
      as [(e & s' & -> & Hs)| ->]; [by do 2 eexists|]. rewrite Hc. cbn [mret Mig_ret col_nullable negb].
    assert (ask_rows "external_dispatches" ["message_id"] pending_rows c = Ok (c, pending_rows (st_rows m))) as Hq.
    { unfold ask_rows. rewrite (select_column_Ok _ _ _ _ Ht), Ht; [done|]. apply bool_decide_eq_true.
      apply find_some in Hc as [Hc _]. apply list_elem_of_In. unfold table_columns. by apply (in_map col_name) in Hc. }
    destruct (sql_cases _ c c (S n) _ _ Hq) as [(e & s' & -> & Hs)| ->]; [by do 2 eexists|]. cbv beta iota.
    rewrite bool_decide_eq_false_2 by (apply pending_positive; by exists r). cbn. by do 2 eexists.
Qed.
End Refusals.

(** *** Witnesses *)

Definition freshb (t col : string) (m : SqlTable) (c : Catalog) : bool :=
  negb (in_list col (table_columns m)) && forallb (λ r, negb (in_list col (map fst r))) (st_rows m)
  && forallb (λ ix, (ix_table ix != t) || negb (in_list col (ix_columns ix ++ pred_columns (ix_where ix)))) (cat_indexes c)
  && forallb (λ fk, (fk_table fk != t) || (fk_column fk != col)) (cat_fks c).
Lemma freshb_fresh t col m c : get_table t c = Some m → freshb t col m c = true → fresh_column t col m c.
Proof.
  intros Ht Hb. unfold freshb, in_list in Hb. rewrite !andb_true_iff, !forallb_forall in Hb. destruct Hb as [[[Hn Hr] Hi] Hf].
  split; [done|by bools|..].
  - intros r Hin. apply list_elem_of_In, Hr in Hin. by bools.
  - intros ix Hin Et. apply list_elem_of_In, Hi in Hin. rewrite (bool_decide_eq_true_2 _ Et) in Hin. by apply negb_true_iff, bool_decide_eq_false in Hin.
  - intros fk Hin Et. apply list_elem_of_In, Hf in Hin. rewrite (bool_decide_eq_true_2 _ Et) in Hin. by apply negb_true_iff, bool_decide_eq_false in Hin.
Qed.

(** The populated tables with a dispatch, before 007. *)
Definition before_007 : Catalog :=
  match drop_column "external_dispatches" "mailbox_id"
          (insert_all [("external_dispatches", [("id", VInt 1); ("state", VStr "sent"); ("message_id", VNull)])] populated) with
  | Ok (c, _) => c
  | Err _ => populated
  end.
Definition dispatches_before : SqlTable := default (mkSqlTable [] []) (get_table "external_dispatches" before_007).

Lemma column_migrations_revert_witness :
  length (st_rows dispatches_before) = 1%nat ∧
  ∃ c1 n1 n2, run_script (H := calm) (run_007 (H := calm)) before_007 0 = (true, c1, n1) ∧
    run_script (H := calm) (downgrade_007 (H := calm)) c1 n1 = (true, before_007, n2).
Proof.
  split; [vm_compute; reflexivity|].
  assert (is_Some (get_table "mailboxes" before_007)) as Hmb by (eexists; vm_compute; reflexivity).
  assert (fresh_column "external_dispatches" "mailbox_id" dispatches_before before_007) as Hf
    by (apply freshb_fresh; vm_compute; reflexivity).
  destruct (proj2 (column_migrations_revert before_007 0 dispatches_before Hmb) Hf) as (c1 & n1 & n2 & H1 & _ & H2).
  exists c1, n1, n2. split; [exact H1|exact H2].
Defined.

(** The same dispatch waits for its message: 008 is not undone. *)
Lemma downgrade_refuses_to_lose_witness :
  ∃ n', run_script (H := calm) (downgrade_008 (H := calm)) before_007 0 = (false, before_007, n').
Proof.
  apply (proj2 (downgrade_refuses_to_lose (H := calm) before_007 0 dispatches_before)).
  - vm_compute. reflexivity.
  - vm_compute. reflexivity.
  - eexists. split; [vm_compute; left; reflexivity|reflexivity].
Defined.
