(* ===== verification/IntegrationsGenerated.v ===== *)
(** * Generated-outreach intake ([src/mailer_agent/api/integrations_generated.py])

    Accepts an authorized action whose message the generation worker will
    draft: the request fingerprint, the tenant-scoped reply parent and its
    threading snapshot, and the one commit of a dispatch that carries the
    immutable generation context.  Uses the intake monad and the get-or-create
    steps of the exact-message route. *)

From S2P Require Import Prelude Sql Models Config WorkClaiming Lifecycle Sender Regex Threading Grounding ExactMessage ExternalDispatchWorker GenerationWorker CanonicalJson Integrations Samples.

(** ** The request *)

Record LeadBoostOutreachRequestIn := mkOutreachRequestIn {
  or_external_action_id : string;
  or_idempotency_key : string;
  or_correlation_id : option string;
  or_email : string;
  or_name : option string;
  or_title : option string;
  or_company : option string;
  or_value_proposition : string;
  or_recipient_facts : list string;
  or_in_reply_to : option string    (** the parent's [message_reference] *)
}.

(** [Field(min_length=lo, max_length=hi)], on a value and on an optional one. *)
Definition length_in (lo hi : nat) (s : string) : bool := (lo <=? Str.len s)%nat && (Str.len s <=? hi)%nat.
Definition opt_length_in (lo hi : nat) (o : option string) : bool :=
  match o with None => true | Some s => length_in lo hi s end.

(** The pattern [^[0-9a-f]{32}$]. *)
Definition is_reference (s : string) : bool :=
  (Str.len s =? 32)%nat
  && negb (Str.any_char (λ c, negb (Str.isdigit c
       || ((97 <=? nat_of_ascii c)%nat && (nat_of_ascii c <=? 102)%nat))) s).

(** The length and shape constraints of the request schema.  The address syntax
    ([EmailStr]) belongs to the validation library. *)
Definition request_valid (payload : LeadBoostOutreachRequestIn) : bool :=
  length_in 1 255 (or_external_action_id payload)
  && length_in 1 255 (or_idempotency_key payload)
  && opt_length_in 0 255 (or_correlation_id payload)
  && opt_length_in 1 200 (or_name payload)
  && opt_length_in 1 200 (or_title payload)
  && opt_length_in 1 200 (or_company payload)
  && length_in 1 2000 (or_value_proposition payload)
  && (length (or_recipient_facts payload) <=? 8)%nat
  && forallb (length_in 1 500) (or_recipient_facts payload)
  && match or_in_reply_to payload with None => true | Some r => is_reference r end.

Lemma request_valid_offer payload : request_valid payload = true → or_value_proposition payload ≠ "".
Proof.
  unfold request_valid. intros Hv. repeat (apply andb_prop in Hv as [Hv ?]).
  intros He. by rewrite He in *.
Qed.

(** ** Fingerprint *)

Definition canonical_generated (external_action_id recipient_email : string)
    (reply_to_message_reference : option string) : string :=
  json_object
    ([("external_action_id", json_string external_action_id);
      ("kind", json_string "leadboost.generated_outreach.v1");
      ("recipient_email", json_string recipient_email)]
     ++ match reply_to_message_reference with
        | None => []
        | Some r => [("reply_to_message_reference", json_string r)]
        end).

Definition compute_generated_request_fingerprint `{Sha256} (external_action_id recipient_email : string)
    (reply_to_message_reference : option string) : string :=
  sha256_hex (canonical_generated external_action_id recipient_email reply_to_message_reference).

Definition generated_conflict_detail : string :=
  "idempotency_key has already been used with a different request. Use a new idempotency_key for a genuinely new action.".

Definition format_recipient_facts (facts : list string) : option string :=
  match facts with
  | [] => None
  | _ => Some (Str.join newline (map (λ fact, "- " +:+ fact) facts))
  end.

(** ** Reply parent *)

(** One row of the join of the message with its contact, campaign and mailbox. *)
Definition parent_row (db : Db) (org_id message_reference : string) (m : Message)
    : option (Message * Contact * Campaign) :=
  if (msg_reply_reference m == Some message_reference) && (msg_direction m == INBOUND) then
    contact ← get (msg_contact_id m) (contacts db);
    campaign ← get (ct_campaign_id contact) (campaigns db);
    mailbox_id ← msg_mailbox_id m;
    mailbox ← get mailbox_id (mailboxes db);
    if (cp_organization_id campaign == Some org_id) && (mb_organization_id mailbox == org_id)
    then Some (m, contact, campaign) else None
  else None.

Definition find_parent (org_id message_reference : string) (db : Db)
    : option (Message * Contact * Campaign) :=
  head (omap (parent_row db org_id message_reference) (rows (messages db))).

Definition resolve_reply_parent (org_id message_reference recipient_email : string)
    : M (Message * Contact * Campaign) :=
  row ← query (find_parent org_id message_reference);
  match row with
  | None => raise (HTTPException 404 "Reply parent message not found.")
  | Some (parent, contact, campaign) =>
      if negb (campaign_is_integration_managed (Some campaign)) then
        raise (HTTPException 409 "The parent message does not belong to a LeadBoost-managed contact.")
      else if Str.lower (Str.strip (ct_email contact)) != Str.lower (Str.strip recipient_email) then
        raise (HTTPException 409 "recipient does not match the sender of the parent message.")
      else
        _ ← reject_if_contact_has_active_followup contact;
        mret (parent, contact, campaign)
  end.

Definition no_thread_detail : string :=
  "The parent message has no usable Message-ID to thread a reply to.".

Definition reply_parent_snapshot (parent : Message) : result string json :=
  let parent_mid := real_message_id (msg_message_id_header parent) in
  let parent_irt := real_message_id (msg_in_reply_to_header parent) in
  match (if truthy parent_mid then parent_mid else parent_irt) with
  | None => Err no_thread_detail
  | Some thread_to =>
      let chain := List.filter (λ m, is_not_none (real_message_id (Some m)))
                     (Str.split_ws (default "" (msg_references_header parent))) in
      Ok (JObj [("message_id", JInt (msg_id parent));
                ("subject", JStr (as_reply_subject (msg_subject parent)));
                ("in_reply_to_header", JStr thread_to);
                ("references_header", jopt (build_references_header chain parent_irt parent_mid))])
  end.

(** ** POST /integrations/leadboost/outreach-requests *)

Definition GROUNDING_CONTEXT_VERSION : Z := 2.

Definition recipient_snapshot (payload : LeadBoostOutreachRequestIn) : list (string * json) :=
  [("name", jopt (or_name payload)); ("title", jopt (or_title payload));
   ("company", jopt (or_company payload))].

Definition context_fields (payload : LeadBoostOutreachRequestIn) (transcript : string)
    (reply_parent : option json) : list (string * json) :=
  [("version", JInt GROUNDING_CONTEXT_VERSION);
   ("value_prop", JStr (or_value_proposition payload));
   ("context_notes", jopt (format_recipient_facts (or_recipient_facts payload)));
   ("conversation_transcript", JStr transcript);
   ("recipient", JObj (recipient_snapshot payload))]
  ++ match reply_parent with None => [] | Some j => [("reply_parent", j)] end.

Definition generation_context (payload : LeadBoostOutreachRequestIn) (transcript : string)
    (reply_parent : option json) : json :=
  JObj (context_fields payload transcript reply_parent).

(** The parent of a reply with its snapshot, before any row is written. *)
Definition reply_context (org_id : string) (payload : LeadBoostOutreachRequestIn)
    : M (option (Contact * Campaign * json)) :=
  match or_in_reply_to payload with
  | None => mret None
  | Some reference =>
      '(parent, contact, campaign) ← resolve_reply_parent org_id reference (or_email payload);
      match reply_parent_snapshot parent with
      | Err detail => raise (HTTPException 409 detail)
      | Ok snapshot => mret (Some (contact, campaign, snapshot))
      end
  end.

(** The rows the dispatch hangs on: the parent's own, or the integration's. *)
Definition target_rows (settings : Settings) (env : Interference) (org_id : string)
    (payload : LeadBoostOutreachRequestIn) (reply : option (Contact * Campaign * json))
    : M (Contact * Campaign) :=
  match reply with
  | Some (contact, campaign, _) => mret (contact, campaign)
  | None =>
      campaign ← get_or_create_integration_campaign settings env org_id;
      contact ← get_or_create_integration_contact env (cp_id campaign) (or_email payload) (or_name payload);
      mret (contact, campaign)
  end.

Definition commit_dispatch (dispatch : Z → ExternalDispatch) (db : Db)
    : result db_error (Db * ExternalDispatch) :=
  match insert_unique dispatch_clash "uq_external_dispatches" dispatch (dispatches db) with
  | Err e => Err e
  | Ok (d, t) => Ok (set_dispatches t db, d)
  end.

Definition create_leadboost_generated_outreach `{Sha256} (settings : Settings) (env : Interference)
    (org_id : string) (payload : LeadBoostOutreachRequestIn) : M Accepted :=
  let key := or_idempotency_key payload in
  let fingerprint :=
    compute_generated_request_fingerprint (or_external_action_id payload) (or_email payload)
      (or_in_reply_to payload) in
  existing ← query (find_dispatch org_id key);
  match existing with
  | Some d => replay_or_conflict generated_conflict_detail fingerprint d
  | None =>
      reply ← reply_context org_id payload;
      mailbox_id ← resolve_sole_active_mailbox org_id;
      '(contact, campaign) ← target_rows settings env org_id payload reply;
      transcript ← query (λ db, build_conversation_context db contact);
      let grounding := generation_context payload transcript (snd <$> reply) in
      _ ← others (if_dispatch env);
      committed ← try_commit (commit_dispatch
        (new_dispatch org_id key (Some (or_external_action_id payload)) (or_correlation_id payload)
           (cp_id campaign) (ct_id contact) None mailbox_id fingerprint (Some grounding)
           (if_public_reference env) (if_utcnow env)));
      match committed with
      | Ok d => mret (accepted_response d)
      | Err e => converge generated_conflict_detail fingerprint org_id key e
      end
  end.

(** ** Facts: the reply parent *)

Record is_parent (db : Db) (org reference : string) (m : Message) (ct : Contact) (cp : Campaign)
    : Prop := {
  ip_message : In m (rows (messages db)) ∧ msg_reply_reference m = Some reference ∧
               msg_direction m = INBOUND;
  ip_contact : get (msg_contact_id m) (contacts db) = Some ct;
  ip_campaign : get (ct_campaign_id ct) (campaigns db) = Some cp ∧ cp_organization_id cp = Some org;
  ip_mailbox : ∃ i mb, msg_mailbox_id m = Some i ∧ get i (mailboxes db) = Some mb ∧
               mb_organization_id mb = org
}.

Lemma parent_row_Some db org reference m x ct cp :
  In m (rows (messages db)) → parent_row db org reference m = Some (x, ct, cp) →
  x = m ∧ is_parent db org reference m ct cp.
Proof.
  intros Hin. unfold parent_row. destruct (_ && _) eqn:E; [|done]. bools.
  destruct (get (msg_contact_id m) (contacts db)) as [c|] eqn:Ec; [|done]. cbn.
  destruct (get (ct_campaign_id c) (campaigns db)) as [p|] eqn:Ep; [|done]. cbn.
  destruct (msg_mailbox_id m) as [i|] eqn:Ei; [|done]. cbn.
  destruct (get i (mailboxes db)) as [mb|] eqn:Eb; [|done]. cbn.
  destruct (_ && _) eqn:Eo; [|done]. bools. intros [= <- <- <-]. split; [done|].
  split; [done|done|done|by eauto].
Qed.

Lemma find_parent_Some org reference db m ct cp :
  find_parent org reference db = Some (m, ct, cp) → is_parent db org reference m ct cp.
Proof.
  unfold find_parent. intros H%head_Some_elem_of.
  apply list_elem_of_omap in H as (m0 & Hin%list_elem_of_In & Hr).
  by apply parent_row_Some in Hr as [-> ?].
Qed.

Lemma resolve_reply_parent_inv org reference email db db' r :
  resolve_reply_parent org reference email db = (db', r) →
  db' = db ∧ ∀ m ct cp, r = Ok (m, ct, cp) → is_parent db org reference m ct cp ∧
    Str.lower (Str.strip (ct_email ct)) = Str.lower (Str.strip email) ∧
    campaign_is_integration_managed (Some cp) = true.
Proof.
  unfold resolve_reply_parent. rewrite query_bind.
  destruct (find_parent org reference db) as [[[m ct] cp]|] eqn:E; [|by intros [= <- <-]].
  destruct (negb _) eqn:Em; [by intros [= <- <-]|].
  destruct (negb (bool_decide _)) eqn:Ee; [by intros [= <- <-]|]. bools.
  intros [(e & Hr & ->)|(db1 & [] & Hr & [= <- <-])]%M_bind_inv;
    apply reject_followup_db in Hr as ->; split; try done.
  intros ? ? ? [= <- <- <-]. split; [by apply find_parent_Some|done].
Qed.

Lemma reply_context_inv org payload db db' r :
  reply_context org payload db = (db', r) →
  db' = db ∧ ∀ reply, r = Ok reply →
    match or_in_reply_to payload with
    | None => reply = None
    | Some reference => ∃ m ct cp j, reply = Some (ct, cp, j) ∧ reply_parent_snapshot m = Ok j ∧
        is_parent db org reference m ct cp ∧
        Str.lower (Str.strip (ct_email ct)) = Str.lower (Str.strip (or_email payload))
    end.
Proof.
  unfold reply_context. destruct (or_in_reply_to payload) as [reference|];
    [|intros [= <- <-]; split; [done|by intros ? [= <-]]].
  intros [(e & Hr & ->)|(db1 & [[m ct] cp] & Hr & Hs)]%M_bind_inv.
  { apply resolve_reply_parent_inv in Hr as [-> _]. done. }
  apply resolve_reply_parent_inv in Hr as [-> Hp].
  destruct (Hp m ct cp eq_refl) as (Hip & He & _).
  destruct (reply_parent_snapshot m) as [j|detail] eqn:Ej; injection Hs as <- <-;
    (split; [done|]); [|done].
  intros reply [= <-]. by exists m, ct, cp, j.
Qed.

(** ** Facts: the route as a whole *)

Definition generated_fingerprint `{Sha256} (payload : LeadBoostOutreachRequestIn) : string :=
  compute_generated_request_fingerprint (or_external_action_id payload) (or_email payload)
    (or_in_reply_to payload).

(** What a fresh acceptance leaves: a queued dispatch without a message, wired
    inside the organization, carrying the generation context. *)
Record generated_effect `{Sha256} (org : string) (payload : LeadBoostOutreachRequestIn) (db db' : Db)
    (d : ExternalDispatch) (ct : Contact) (cp : Campaign) (transcript : string) (snap : option json)
    : Prop := {
  gn_dispatch : get (ed_id d) (dispatches db') = Some d;
  gn_identity : ed_organization_id d = org ∧ ed_idempotency_key d = or_idempotency_key payload ∧
                ed_request_fingerprint d = generated_fingerprint payload ∧ ed_state d = QUEUED ∧
                ed_message_id d = None;
  gn_context : ed_grounding_context d = Some (generation_context payload transcript snap);
  gn_contact : get (ct_id ct) (contacts db') = Some ct ∧ ed_contact_id d = ct_id ct ∧
               ct_campaign_id ct = cp_id cp ∧
               Str.lower (Str.strip (ct_email ct)) = Str.lower (Str.strip (or_email payload));
  gn_campaign : get (cp_id cp) (campaigns db') = Some cp ∧ ed_campaign_id d = cp_id cp ∧
                cp_organization_id cp = Some org;
  gn_reply : match or_in_reply_to payload with
             | None => snap = None
             | Some reference => ∃ m ct0 j, snap = Some j ∧ reply_parent_snapshot m = Ok j ∧
                 is_parent db org reference m ct0 cp ∧ ct_id ct0 = ct_id ct
             end
}.

Lemma commit_dispatch_inv mk db db' d :
  (∀ i, row_id (mk i) = i) → (∀ i, initial_dispatch (mk i)) →
  commit_dispatch mk db = Ok (db', d) →
  d = mk (next_id (dispatches db)) ∧ In d (rows (dispatches db')) ∧
  campaigns db' = campaigns db ∧ contacts db' = contacts db ∧ messages db' = messages db ∧
  grows db db'.
Proof.
  intros Hid Hini. unfold commit_dispatch.
  destruct (insert_unique _ _ _ _) as [[d0 t]|] eqn:E; [|done]. intros [= <- <-].
  pose proof E as E'. apply insert_unique_Ok in E as [_ E].
  assert (t = snd (insert_row mk (dispatches db))) as Ht by by rewrite <- E.
  assert (d0 = mk (next_id (dispatches db))) as Hd
    by (change d0 with (fst (d0, t)); by rewrite E).
  split_and!; try done.
  - cbn. rewrite Ht. apply insert_row_In. by right.
  - intros Hwf. destruct Hwf. split.
    + split; cbn; try done; [rewrite Ht; by apply insert_row_wf|by eapply unique_dispatches_insert].
    + split; cbn; [by apply (insert_dispatch_evolves mk)|done|by eauto|by eauto].
Qed.

(** The rows of a request, once chosen: in the database, in the organization. *)
Lemma target_rows_inv settings env org payload reply db db' r :
  benign env → db_wf db →
  match or_in_reply_to payload with
  | None => reply = None
  | Some reference => ∃ m ct cp j, reply = Some (ct, cp, j) ∧ reply_parent_snapshot m = Ok j ∧
      is_parent db org reference m ct cp ∧
      Str.lower (Str.strip (ct_email ct)) = Str.lower (Str.strip (or_email payload))
  end →
  target_rows settings env org payload reply db = (db', r) →
  grows db db' ∧ ∀ ct cp, r = Ok (ct, cp) →
    get (ct_id ct) (contacts db') = Some ct ∧ ct_campaign_id ct = cp_id cp ∧
    Str.lower (Str.strip (ct_email ct)) = Str.lower (Str.strip (or_email payload)) ∧
    get (cp_id cp) (campaigns db') = Some cp ∧ cp_organization_id cp = Some org ∧
    match reply with
    | None => True
    | Some (ct0, cp0, _) => ct0 = ct ∧ cp0 = cp
    end.
Proof.
  intros Hb Hwf Hreply. unfold target_rows.
  destruct (or_in_reply_to payload) as [reference|].
  - destruct Hreply as (m & ct & cp & j & -> & _ & [_ Hct [Hcp Ho] _] & He).
    intros [= <- <-]. split; [done|]. intros ? ? [= <- <-].
    pose proof (proj2 (get_Some _ _ _ Hct)) as Hci. pose proof (proj2 (get_Some _ _ _ Hcp)) as Hpi.
    change (row_id ct) with (ct_id ct) in Hci. change (row_id cp) with (cp_id cp) in Hpi.
    rewrite Hci, Hpi. done.
  - subst reply. intros [(e & Hc & ->)|(db1 & cp & Hc & Hr)]%M_bind_inv.
    { split; [by eapply get_or_create_campaign_grows|done]. }
    pose proof (get_or_create_campaign_grows _ _ _ _ _ _ Hb Hc) as G1. destruct (G1 Hwf) as [Hwf1 R1].
    destruct (get_or_create_campaign_Ok _ _ _ _ _ _ Hb Hwf Hc) as (Hcp & Hcpo & _).
    apply M_bind_inv in Hr as [(e & Ht & ->)|(db2 & ct & Ht & Hr)].
    { split; [|done]. etrans; [exact G1|by eapply get_or_create_contact_grows]. }
    injection Hr as <- <-. pose proof (get_or_create_contact_grows _ _ _ _ _ _ _ Hb Ht) as G2.
    destruct (get_or_create_contact_Ok _ _ _ _ _ _ _ Hb Hwf1 Ht) as (Hct & Hctc & Hcte & _).
    split; [by etrans|]. intros ? ? [= <- <-]. destruct (G2 Hwf1) as [_ R2].
    split_and!; try done; [by rewrite Hcte|by apply (gr_campaigns _ _ R2)].
Qed.

Lemma target_rows_mail settings env org payload reply db db' r :
  quiet env → target_rows settings env org payload reply db = (db', r) → same_mail db db'.
Proof.
  intros Hq. unfold target_rows. destruct reply as [[[ct cp] j]|]; [by intros [= <- <-]|].
  intros [(e & Hc & ->)|(db1 & cp & Hc & Hr)]%M_bind_inv; [by eapply get_or_create_campaign_mail|].
  etrans; [by eapply get_or_create_campaign_mail|].
  apply M_bind_inv in Hr as [(e & Ht & ->)|(db2 & ct & Ht & Hr)];
    [by eapply get_or_create_contact_mail|]. injection Hr as <- <-.
  by eapply get_or_create_contact_mail.
Qed.

Lemma generated_inv `{Sha256} settings env org payload db db' r :
  benign env → db_wf db →
  create_leadboost_generated_outreach settings env org payload db = (db', r) →
  (∃ d, find_dispatch org (or_idempotency_key payload) db = Some d ∧ db' = db ∧
        r = if ed_request_fingerprint d == generated_fingerprint payload
            then Ok (accepted_response d) else Err (HTTPException 409 generated_conflict_detail)) ∨
  (find_dispatch org (or_idempotency_key payload) db = None ∧ grows db db' ∧
   ((∃ e, r = Err e) ∨
    (∃ d, find_dispatch org (or_idempotency_key payload) db' = Some d ∧
          ed_request_fingerprint d = generated_fingerprint payload ∧ r = Ok (accepted_response d) ∧
          ~ quiet env) ∨
    (∃ d ct cp transcript snap, generated_effect org payload db db' d ct cp transcript snap ∧
       r = Ok (accepted_response d)))).
Proof.
  intros Hb Hwf. unfold create_leadboost_generated_outreach. rewrite query_bind.
  fold (generated_fingerprint payload).
  destruct (find_dispatch org (or_idempotency_key payload) db) as [d|] eqn:Ef.
  { unfold replay_or_conflict. intros Hr. left. exists d. split; [done|].
    destruct (bool_decide _); by injection Hr as <- <-. }
  intros Hr. right. split; [done|].
  apply M_bind_inv in Hr as [(e & Hp & ->)|(dbr & reply & Hp & Hr)];
    apply reply_context_inv in Hp as [-> Hrep]; [split; [done|by eauto]|].
  specialize (Hrep reply eq_refl).
  apply M_bind_inv in Hr as [(e & Hm & ->)|(db0 & mid & Hm & Hr)];
    apply resolve_mailbox_inv in Hm as [-> _]; [split; [done|by eauto]|].
  apply M_bind_inv in Hr as [(e & Ht & ->)|(db1 & [ct cp] & Ht & Hr)];
    destruct (target_rows_inv _ _ _ _ _ _ _ _ Hb Hwf Hrep Ht) as [G1 Hrows]; [split; [done|by eauto]|].
  destruct (Hrows ct cp eq_refl) as (Hct & Hctc & Hcte & Hcp & Hcpo & Hsame).
  rewrite query_bind, others_bind, try_commit_bind in Hr.
  destruct (G1 Hwf) as [Hwf1 R1]. pose proof (bn_dispatch _ Hb db1) as G3.
  destruct (G3 Hwf1) as [Hwf3 R3]. set (db3 := if_dispatch env db1) in *.
  assert (grows db db3) as G by (by etrans).
  destruct (commit_dispatch _ db3) as [[db4 d]|e] eqn:Ec.
  - injection Hr as <- <-.
    apply commit_dispatch_inv in Ec as (Hd & Hin & Hca & Hco & _ & G4); [|done..].
    destruct (G4 Hwf3) as [Hwf4 _]. split; [by etrans|]. right; right.
    destruct (gr_contacts _ _ R3 _ _ Hct) as (ct' & Hct' & Hcc & Hce).
    assert (ct_id ct' = ct_id ct) as Hcid by (by apply get_Some in Hct' as [_ ?]).
    exists d, ct', cp, (build_conversation_context db1 ct), (snd <$> reply). split; [|done]. split.
    + apply (get_complete _ d); [by destruct Hwf4|done].
    + by rewrite Hd.
    + by rewrite Hd.
    + rewrite Hco, Hcid, Hce. split_and!; [done|by rewrite Hd|congruence|done].
    + rewrite Hca. split_and!; [by apply (gr_campaigns _ _ R3)|by rewrite Hd|done].
    + destruct (or_in_reply_to payload) as [reference|]; [|by subst reply].
      destruct Hrep as (m & ct0 & cp0 & j & -> & Hj & Hip & _). destruct Hsame as [-> ->].
      exists m, ct, j. done.
  - apply converge_inv in Hr as [-> Ha]. split; [done|].
    destruct r as [a|x]; [|left; by exists x]. destruct (Ha a eq_refl) as (d & Hfd & ? & ->).
    right; left. exists d. split_and!; try done. intros Hq. revert Hfd. unfold db3.
    destruct (Hq db1) as (_ & _ & ->).
    by rewrite (find_dispatch_same_mail _ _ _ _ (target_rows_mail _ _ _ _ _ _ _ _ Hq Ht)), Ef.
Qed.

Lemma generated_effect_found `{Sha256} org payload db db' d ct cp tr sn :
  db_wf db' → generated_effect org payload db db' d ct cp tr sn →
  find_dispatch org (or_idempotency_key payload) db' = Some d.
Proof.
  intros Hwf [Hg (Ho & Hk & _) _ _ _ _]. apply get_Some in Hg as [Hin _].
  rewrite <- Ho, <- Hk. by apply find_dispatch_complete; destruct Hwf.
Qed.

(** ** Facts: what the snapshot holds *)

(** A header value a mail client can use: a well-formed identity that is not
    one of Mailer's own storage keys. *)
Definition real (s : string) : Prop := real_message_id (Some s) = Some s.

(** The threading facts of a reply to [m]. *)
Record threads_to (m : Message) (rp : ReplyParent) : Prop := {
  tt_subject : rp_subject rp = as_reply_subject (msg_subject m);
  tt_in_reply_to : real (rp_in_reply_to_header rp);
  tt_references : ∃ l, rp_references_header rp = JStr (Str.join " " l) ∧ NoDup l ∧
    (∀ x, x ∈ l → is_Some (real_message_id (Some x))) ∧ rp_in_reply_to_header rp ∈ l
}.

Lemma snapshot_valid m j :
  reply_parent_snapshot m = Ok j → ∃ rp, valid_reply_parent j = Ok (Some rp) ∧ threads_to m rp.
Proof.
  unfold reply_parent_snapshot.
  set (mid := real_message_id (msg_message_id_header m)).
  set (irt := real_message_id (msg_in_reply_to_header m)).
  destruct (if truthy mid then mid else irt) as [h|] eqn:Eh; [|done]. intros [= <-].
  assert (∀ v, mid = Some v ∨ irt = Some v → real v ∧ v ≠ "") as Hreal.
  { intros v [Hv|Hv]; (split; [by eapply real_message_id_idemp|by apply real_message_id_spec in Hv as [? _]]). }
  assert (mid = Some h ∨ irt = Some h) as Hh by (destruct (truthy mid); auto).
  destruct (Hreal h Hh) as [Hrh Hneh].
  set (chain := List.filter _ _).
  set (cands := map Some chain ++ [irt; mid]).
  assert (h ∈ dedupe [] cands) as Hin.
  { apply dedupe_complete; [|done|apply not_elem_of_nil]. apply elem_of_app. right.
    destruct Hh as [->| ->]; [by right; left|by left]. }
  pose proof (dedupe_NoDup cands []) as [Hnd Hmem].
  assert (build_references_header chain irt mid = Some (Str.join " " (dedupe [] cands))) as Href.
  { unfold build_references_header. fold cands. destruct (dedupe [] cands); [|done].
    by apply not_elem_of_nil in Hin. }
  exists (mkReplyParent (as_reply_subject (msg_subject m)) h (JStr (Str.join " " (dedupe [] cands)))).
  rewrite Href. pose proof (as_reply_subject_nonempty (msg_subject m)) as Hsub. split.
  - cbn. destruct (as_reply_subject (msg_subject m)); [done|]. by destruct h.
  - split; [done|done|]. exists (dedupe [] cands). split_and!; try done.
    intros x Hx. destruct (Hmem x Hx) as (_ & _ & Hc). apply elem_of_app in Hc as [Hc|Hc].
    + apply list_elem_of_fmap in Hc as (y & [= <-] & Hy). apply list_elem_of_In, filter_In in Hy as [_ Hy].
      by apply is_not_none_true in Hy.
    + apply elem_of_cons in Hc as [Hc|Hc]; [exists x; by apply Hreal; right|].
      apply elem_of_cons in Hc as [Hc|Hc]; [exists x; by apply Hreal; left|by apply not_elem_of_nil in Hc].
Qed.

Lemma context_fields_get payload tr snap :
  let f := context_fields payload tr snap in
  jget "value_prop" f = JStr (or_value_proposition payload) ∧
  jget "context_notes" f = jopt (format_recipient_facts (or_recipient_facts payload)) ∧
  jget "conversation_transcript" f = JStr tr ∧
  recipient_fields f = Ok (recipient_snapshot payload) ∧
  jget "reply_parent" f = default JNull snap.
Proof. split_and!; try reflexivity. by destruct snap. Qed.

(** The worker reads back from the snapshot what the request put in it, in any
    later database. *)
Lemma generated_effect_prepares `{Sha256} org payload db db' d ct cp tr snap db2 d2 claim :
  generated_effect org payload db db' d ct cp tr snap → request_valid payload = true →
  db_wf db' → grows db' db2 → same_identity d d2 →
  ∃ p, prepare db2 claim d2 = Ok p ∧
    gp_value_prop p = or_value_proposition payload ∧ gp_contact_id p = ct_id ct ∧
    gp_email p = ct_email ct ∧
    gp_context_notes p = jopt (format_recipient_facts (or_recipient_facts payload)) ∧
    gp_transcript p = JStr tr ∧ gp_recipient_name p = jopt (or_name payload) ∧
    match or_in_reply_to payload with
    | None => gp_reply_parent p = None
    | Some reference => ∃ m rp, msg_reply_reference m = Some reference ∧
        msg_contact_id m = ct_id ct ∧ gp_reply_parent p = Some rp ∧ threads_to m rp
    end.
Proof.
  intros [_ (Ho & _) Hctx (Hct & Hcid & Hcc & _) (Hcp & Hcpi & Hcpo) Hrep] Hv Hwf G Hid.
  destruct (G Hwf) as [Hwf2 R]. destruct Hid as (_ & Ho' & _ & _ & _ & Hcp' & Hct' & _ & _ & Hg' & _).
  destruct (gr_contacts _ _ R _ _ Hct) as (ct2 & Hct2 & Hcc2 & Hce2).
  pose proof (proj2 (get_Some _ _ _ Hct2)) as Hi2. change (row_id ct2) with (ct_id ct2) in Hi2.
  apply (gr_campaigns _ _ R) in Hcp.
  unfold prepare. rewrite Hg', Hctx, Hcp', Hct', Ho', Ho, Hcpi, Hcid.
  apply request_valid_offer in Hv.
  rewrite (select_first_pk _ (campaigns db2) (cp_id cp) cp);
    [|by destruct Hwf2|done|by rewrite !bool_decide_eq_true_2|by intros x Hx; bools].
  assert (select_first (λ c, (ct_id c == ct_id ct) && (ct_campaign_id c == cp_id cp)) (contacts db2)
          = Some ct2) as Hsel.
  { apply (select_first_pk _ (contacts db2) (ct_id ct) ct2);
      [by destruct Hwf2|done| |by intros x Hx; bools].
    rewrite !bool_decide_eq_true_2; [done|congruence|done]. }
  destruct (context_fields_get payload tr snap) as (Ev & En & Et & Er & Ep).
  unfold generation_context. rewrite Ev.
  destruct (or_value_proposition payload) as [|c0 v0]; [done|]. cbn [mbind result_bind].
  rewrite Er. cbn [mbind result_bind]. rewrite Hsel. cbn [mbind result_bind]. rewrite En, Et, Ep.
  destruct (or_in_reply_to payload) as [reference|].
  - destruct Hrep as (m & ct0 & j & -> & Hj & Hip & Hc0).
    destruct (snapshot_valid m j Hj) as (rp & Hvp & Htt). change (default JNull (Some j)) with j. rewrite Hvp.
    eexists. split; [done|]. cbn. split_and!; try done.
    exists m, rp. destruct Hip as [(_ & ? & _) Hc _ _]. apply get_Some in Hc as [_ Hc].
    change (row_id ct0) with (ct_id ct0) in Hc. split_and!; [done|congruence|done|done].
  - subst snap. by eexists.
Qed.

(** The canonical text of the generated route, as a chain of members. *)
Lemma canonical_generated_eq a e r :
  canonical_generated a e r =
  "{" +:+ json_string "external_action_id" +:+ ":" +:+ json_string a
  +:+ "," +:+ json_string "kind" +:+ ":" +:+ json_string "leadboost.generated_outreach.v1"
  +:+ "," +:+ json_string "recipient_email" +:+ ":" +:+ json_string e
  +:+ match r with
      | None => "}"
      | Some x => "," +:+ json_string "reply_to_message_reference" +:+ ":" +:+ json_string x +:+ "}"
      end.
Proof.
  unfold canonical_generated, json_object. destruct r; cbn [map Str.join app];
    by rewrite !string_app_assoc.
Qed.

(** ** Theorems *)

(** The generated route's fingerprint text binds the action, the recipient
    and whether and to what it replies, and is never the text of an
    exact-message request, so a key used on one route cannot be replayed on
    the other. *)
Theorem canonical_generated_injective a e r a' e' r' :
  (canonical_generated a e r = canonical_generated a' e' r' ↔ a = a' ∧ e = e' ∧ r = r') ∧
  (∀ x y z s b, canonical_generated a e r ≠ canonical_request x y z s b).
Proof.
  split; [split; [|by intros (-> & -> & ->)]|].
  - rewrite !canonical_generated_eq. intros H. peel.
    destruct r as [x|], r' as [x'|]; try done. peel. by subst.
  - intros x y z s b. by rewrite canonical_generated_eq, canonical_request_eq.
Qed.

Lemma generated_preserves_wf `{Sha256} settings env org payload db db' r :
  benign env → db_wf db →
  create_leadboost_generated_outreach settings env org payload db = (db', r) →
  db_wf db' ∧ evolves db db'.
Proof.
  intros Hb Hwf [(d & _ & -> & _)|(_ & G & _)]%generated_inv; [done| |done..].
  destruct (G Hwf) as [? []]. done.
Qed.

(** The generated route is idempotent like the exact one: once a key was
    accepted, repeating the operation at any later time returns the same
    reference and changes nothing, and another operation under the key is
    refused with 409 and changes nothing. *)
Theorem generated_request_is_idempotent `{Sha256} settings env settings' env' org payload payload'
    db db1 db2 a :
  benign env → db_wf db →
  create_leadboost_generated_outreach settings env org payload db = (db1, Ok a) →
  db_wf db2 → evolves db1 db2 →
  or_idempotency_key payload' = or_idempotency_key payload →
  create_leadboost_generated_outreach settings' env' org payload' db2 =
    (db2, if generated_fingerprint payload == generated_fingerprint payload'
          then Ok a else Err (HTTPException 409 generated_conflict_detail)).
Proof.
  intros Hb Hwf Hc Hwf2 Hev Hk.
  assert (db_wf db1 ∧ ∃ d, find_dispatch org (or_idempotency_key payload) db1 = Some d ∧
    ed_request_fingerprint d = generated_fingerprint payload ∧ a = accepted_response d)
    as (Hwf1 & d & Hf & Hfp & ->).
  { apply generated_inv in Hc as [(d & Hf & -> & Hr)|(_ & G & Hr)]; [| |done..].
    - destruct (bool_decide _) eqn:E; [|done]. injection Hr as ->. bools. eauto.
    - destruct (G Hwf) as [Hwf1 _]. split; [done|].
      destruct Hr as [(e & ?)|[(d & ? & ? & [= ->] & _)|(d & ct & cp & tr & sn & He & [= ->])]];
        [done|by eauto|].
      exists d. split_and!; [by eapply generated_effect_found| |done].
      by destruct He as [_ (_ & _ & ? & _) _ _ _ _]. }
  destruct (find_dispatch_evolves _ _ _ _ _ Hwf1 Hwf2 Hev Hf) as (d' & Hf' & Hid).
  unfold create_leadboost_generated_outreach. rewrite query_bind, Hk, Hf'.
  fold (generated_fingerprint payload'). unfold replay_or_conflict, accepted_response.
  destruct Hid as (_ & _ & _ & _ & _ & _ & _ & _ & -> & _ & -> & _). rewrite Hfp.
  by destruct (bool_decide _).
Qed.

(** What the generated intake accepts, the generation worker can draft.
    After a fresh acceptance without a race, whatever further growth of the
    database and lifecycle of the dispatch follow, the worker's [prepare]
    succeeds on it and yields the request's own offer, recipient facts, name
    and address; for a reply, the threading facts of a stored inbound message
    of the same contact, with a usable non-synthetic In-Reply-To that is also
    in a duplicate-free References chain of usable identities. *)
Theorem accepted_generation_is_preparable `{Sha256} settings u rref pref org payload db db1 db2 a :
  db_wf db → request_valid payload = true →
  find_dispatch org (or_idempotency_key payload) db = None →
  create_leadboost_generated_outreach settings (alone u rref pref) org payload db = (db1, Ok a) →
  grows db1 db2 →
  ∃ d ct tr, find_dispatch org (or_idempotency_key payload) db1 = Some d ∧
    ac_mailing_agent_reference a = ed_public_reference d ∧ ed_message_id d = None ∧
    Str.lower (Str.strip (ct_email ct)) = Str.lower (Str.strip (or_email payload)) ∧
    ∀ claim d2, same_identity d d2 →
    ∃ p, prepare db2 claim d2 = Ok p ∧
      gp_value_prop p = or_value_proposition payload ∧ gp_contact_id p = ct_id ct ∧
      gp_email p = ct_email ct ∧
      gp_context_notes p = jopt (format_recipient_facts (or_recipient_facts payload)) ∧
      gp_transcript p = JStr tr ∧ gp_recipient_name p = jopt (or_name payload) ∧
      match or_in_reply_to payload with
      | None => gp_reply_parent p = None
      | Some reference => ∃ m rp, msg_reply_reference m = Some reference ∧
          msg_contact_id m = ct_id ct ∧ gp_reply_parent p = Some rp ∧ threads_to m rp
      end.
Proof.
  intros Hwf Hv Hn Hc G. assert (quiet (alone u rref pref)) as Hq by done.
  apply generated_inv in Hc as [(d & Hf & _)|(_ & G1 & Hr)];
    [by rewrite Hf in Hn| |apply alone_benign|done].
  destruct (G1 Hwf) as [Hwf1 _].
  destruct Hr as [(e & ?)|[(d & _ & _ & _ & Hnq)|(d & ct & cp & tr & sn & He & [= ->])]]; [done..|].
  exists d, ct, tr. split_and!; [by eapply generated_effect_found|done| | |].
  - by destruct He as [_ (_ & _ & _ & _ & ?) _ _ _ _].
  - by destruct He as [_ _ _ (_ & _ & _ & ?) _ _].
  - intros claim d2 Hid. by eapply generated_effect_prepares.
Qed.

(** *** Witnesses *)

Section GeneratedWitnesses.
#[local] Existing Instance sample_sha.

(** A reply to the stored inbound message. *)
Definition sample_generated : LeadBoostOutreachRequestIn :=
  mkOutreachRequestIn "act-7" "key-7" None "Bob@corp.io" (Some "Bob") None None "We help teams."
    ["Bob leads sales"] (Some "0123456789abcdef0123456789abcdef").

Lemma generated_request_is_idempotent_witness :
  ∃ db1 a, create_leadboost_generated_outreach live_settings sample_interference "acme" sample_generated sample_db
      = (db1, Ok a) ∧
    create_leadboost_generated_outreach live_settings sample_interference "acme" sample_generated db1 = (db1, Ok a).
Proof.
  destruct (create_leadboost_generated_outreach live_settings sample_interference "acme" sample_generated
    sample_db) as [db1 [a|e]] eqn:E; [|exfalso; vm_compute in E; discriminate E].
  exists db1, a. split; [reflexivity|].
  destruct (generated_preserves_wf _ _ _ _ _ _ _ (alone_benign _ _ _) sample_db_wf E) as [Hwf1 _].
  rewrite (generated_request_is_idempotent _ _ live_settings sample_interference _ _ sample_generated _ _ db1 _
    (alone_benign _ _ _) sample_db_wf E Hwf1 ltac:(reflexivity) eq_refl).
  by rewrite bool_decide_eq_true_2.
Defined.

Lemma accepted_generation_is_preparable_witness :
  ∃ db1 a d p rp m, create_leadboost_generated_outreach live_settings sample_interference "acme"
      sample_generated sample_db = (db1, Ok a) ∧
    prepare db1 sample_claim d = Ok p ∧ gp_reply_parent p = Some rp ∧ threads_to m rp.
Proof.
  destruct (create_leadboost_generated_outreach live_settings sample_interference "acme" sample_generated
    sample_db) as [db1 [a|e]] eqn:E; [|exfalso; vm_compute in E; discriminate E].
  destruct (accepted_generation_is_preparable live_settings 400 "r9" "ref-9" "acme" sample_generated sample_db
    db1 db1 a sample_db_wf eq_refl ltac:(vm_compute; reflexivity) E ltac:(reflexivity))
    as (d & ct & tr & _ & _ & _ & _ & Hp).
  destruct (Hp sample_claim d ltac:(reflexivity)) as (p & Hprep & _ & _ & _ & _ & _ & _ & m & rp & _ & _ & Hrp & Ht).
  exists db1, a, d, p, rp, m. split_and!; [reflexivity|exact Hprep|exact Hrp|exact Ht].
Defined.

End GeneratedWitnesses.
