(* ===== verification/Conversation.v ===== *)
(** * Conversation read ([src/mailer_agent/api/integrations_conversation.py])

    [GET .../outreach-actions/{key}/conversation]: the dispatch of a tenant's
    key, and the most recent messages of its contact.  The handler runs
    SELECTs only, so it is a function of the database; authentication and the
    snapshot isolation are outside it. *)

From S2P Require Import Prelude Sql Models Config Samples SemanticModels StateMachine Sender Regex Threading Grounding ExactMessage WorkClaiming Lifecycle Llm Memory Classifier Guardrails Scheduling FollowUp Inbound CanonicalJson Integrations IntegrationsGenerated.

#[local] Open Scope bool_scope.

(** ** Data *)

Definition DEFAULT_LIMIT : Z := 20.
Definition MAX_LIMIT : Z := 50.
Definition BODY_CAP_CHARS : nat := Z.to_nat 20000.

Record LeadBoostConversationAction := mkConvAction {
  ca_state : string;
  ca_mailing_agent_reference : string;
  ca_created_at : Z;
  ca_updated_at : Z;
  ca_mailbox_reference : option string
}.

Record LeadBoostConversationMessage := mkConvMessage {
  cm_direction : string;
  cm_message_type : option string;
  cm_subject : option string;
  cm_body : string;
  cm_body_truncated : bool;
  cm_created_at : Z;
  cm_delivery_state : option string;
  cm_mailing_agent_reference : option string;
  cm_mailbox_reference : option string;
  cm_message_reference : option string
}.

Record LeadBoostConversation := mkConversation {
  cv_action : LeadBoostConversationAction;
  cv_messages : list LeadBoostConversationMessage;
  cv_has_more : bool
}.

(** ** Queries *)

(** The mailbox of an optional key, if the organization owns it. *)
Definition owned_mailbox (db : Db) (org_id : string) (mailbox_id : option Z) : option Mailbox :=
  select_first (λ m, (Some (mb_id m) == mailbox_id) && (mb_organization_id m == org_id)) (mailboxes db).

(** The dispatch whose contact exists in a campaign of the organization. *)
Definition root_dispatch (db : Db) (org_id key : string) : option ExternalDispatch :=
  select_first (λ d, (ed_organization_id d == org_id) && (ed_idempotency_key d == key)
                     && match get (ed_contact_id d) (contacts db) with
                        | Some c => contact_org db c == Some org_id
                        | None => false
                        end) (dispatches db).

Record ConvRow := mkConvRow { cw_message : Message; cw_dispatch : option ExternalDispatch }.

(** A message joined with the dispatches of this organization and contact that
    produced it; an outer join, so a message without one gives one row. *)
Definition message_rows (db : Db) (org_id : string) (contact_id : Z) (m : Message) : list ConvRow :=
  match select (λ d, (ed_message_id d == Some (msg_id m)) && (ed_organization_id d == org_id)
                     && (ed_contact_id d == contact_id)) (dispatches db) with
  | [] => [mkConvRow m None]
  | ds => map (λ d, mkConvRow m (Some d)) ds
  end.

Definition visible (db : Db) (org_id : string) (r : ConvRow) : bool :=
  match msg_direction (cw_message r) with
  | OUTBOUND => is_not_none (cw_dispatch r)
  | INBOUND => is_not_none (msg_mailbox_id (cw_message r))
               && is_not_none (owned_mailbox db org_id (msg_mailbox_id (cw_message r)))
  end.

Definition conversation_rows (db : Db) (org_id : string) (contact_id : Z) : list ConvRow :=
  List.filter (visible db org_id)
    (flat_map (message_rows db org_id contact_id) (select (λ m, msg_contact_id m == contact_id) (messages db))).

(** ORDER BY created_at DESC, id DESC. *)
Definition newer (a b : ConvRow) : Prop :=
  msg_created_at (cw_message b) < msg_created_at (cw_message a) ∨
  (msg_created_at (cw_message a) = msg_created_at (cw_message b) ∧ msg_id (cw_message b) ≤ msg_id (cw_message a)).
#[global] Instance newer_dec : RelDecision newer.
Proof. intros a b. unfold newer. apply _. Defined.

(** ** The handler *)

Definition conv_message (db : Db) (org_id : string) (r : ConvRow) : result api_error LeadBoostConversationMessage :=
  let m := cw_message r in
  let body := String.substring 0 (BODY_CAP_CHARS + 1) (msg_body m) in
  let mk state reference mailbox message_reference :=
    mkConvMessage (MessageDirection_value (msg_direction m)) (MessageType_value <$> msg_message_type m)
      (msg_subject m) (String.substring 0 BODY_CAP_CHARS body) (BODY_CAP_CHARS <? Str.len body)%nat
      (msg_created_at m) state reference (mb_public_reference <$> mailbox) message_reference in
  match msg_direction m with
  | OUTBOUND =>
      match cw_dispatch r with
      | Some d => Ok (mk (Some (ExternalDispatchState_value (public_state (ed_state d)))) (Some (ed_public_reference d))
                        (owned_mailbox db org_id (ed_mailbox_id d)) None)
      | None => Err (HTTPException 404 "Outreach action not found")
      end
  | INBOUND =>
      (* the response model refuses a reference that does not have its shape *)
      if match msg_reply_reference m with Some s => is_reference s | None => true end
      then Ok (mk None None (owned_mailbox db org_id (msg_mailbox_id m)) (msg_reply_reference m))
      else Err (HTTPException 500 "Internal Server Error")
  end.

Fixpoint conv_messages (db : Db) (org_id : string) (rs : list ConvRow)
    : result api_error (list LeadBoostConversationMessage) :=
  match rs with
  | [] => Ok []
  | r :: rest => x ← conv_message db org_id r; l ← conv_messages db org_id rest; mret (x :: l)
  end.

Definition get_leadboost_outreach_conversation (org_id key : string) (limit : Z) (db : Db)
    : result api_error LeadBoostConversation :=
  if negb ((1 <=? limit) && (limit <=? MAX_LIMIT)) then Err (HTTPException 422 "limit")
  else match root_dispatch db org_id key with
  | None => Err (HTTPException 404 "Outreach action not found")
  | Some root =>
      let rs := take (Z.to_nat limit + 1) (merge_sort newer (conversation_rows db org_id (ed_contact_id root))) in
      messages ← conv_messages db org_id (rev (take (Z.to_nat limit) rs));
      mret (mkConversation
              (mkConvAction (ExternalDispatchState_value (public_state (ed_state root))) (ed_public_reference root) (ed_created_at root)
                 (ed_updated_at root) (mb_public_reference <$> owned_mailbox db org_id (ed_mailbox_id root)))
              messages (Z.to_nat limit <? length rs)%nat)
  end.

#[local] Opaque BODY_CAP_CHARS.

(** ** Facts *)

Lemma find_filter {A} (p q : A → bool) l : List.find (λ x, p x && q x) l = List.find p (List.filter q l).
Proof.
  induction l as [|x l IH]; [done|]. cbn. destruct (q x); cbn; [|by rewrite andb_false_r].
  rewrite andb_true_r. by destruct (p x).
Qed.

Lemma filter_and {A} (p q : A → bool) l : List.filter (λ x, p x && q x) l = List.filter p (List.filter q l).
Proof.
  induction l as [|x l IH]; [done|]. cbn. destruct (q x); cbn; [|by rewrite andb_false_r].
  rewrite andb_true_r. by destruct (p x); rewrite IH.
Qed.

(** What a tenant owns, directly or through campaign and contact. *)
Definition own_contacts (o : string) (db : Db) : list Contact :=
  select (λ c, contact_org db c == Some o) (contacts db).
Definition own_messages (o : string) (db : Db) : list Message :=
  select (λ m, message_org db m == Some o) (messages db).
Definition own_dispatches (o : string) (db : Db) : list ExternalDispatch :=
  select (λ d, ed_organization_id d == o) (dispatches db).
Definition own_mailboxes (o : string) (db : Db) : list Mailbox :=
  select (λ m, mb_organization_id m == o) (mailboxes db).

Record same_tenant_view (o : string) (db db' : Db) : Prop := {
  tv_contacts : own_contacts o db' = own_contacts o db;
  tv_messages : own_messages o db' = own_messages o db;
  tv_dispatches : own_dispatches o db' = own_dispatches o db;
  tv_mailboxes : own_mailboxes o db' = own_mailboxes o db
}.

(** The queries on what the tenant owns. *)
Lemma owned_mailbox_view db o i :
  owned_mailbox db o i = List.find (λ m, Some (mb_id m) == i) (own_mailboxes o db).
Proof. apply find_filter. Qed.

Definition own_contact_id (o : string) (db : Db) (i : Z) : bool := existsb (λ c, ct_id c =? i) (own_contacts o db).

Lemma own_contact_view db o i :
  table_wf (contacts db) →
  match get i (contacts db) with Some c => contact_org db c == Some o | None => false end = own_contact_id o db i.
Proof.
  intros Hwf. apply eq_true_iff_eq. unfold own_contact_id, own_contacts. rewrite existsb_exists. split.
  - destruct (get i (contacts db)) as [c|] eqn:E; [|done]. intros Ho. exists c. rewrite select_In.
    apply get_Some in E as [Hin Hid]. change (ct_id c = i) in Hid. by rewrite Hid, Z.eqb_refl.
  - intros (c & [Hin Ho]%select_In & Hid). bools. subst i.
    rewrite (get_complete (contacts db) c Hwf Hin : get (ct_id c) (contacts db) = Some c).
    by apply bool_decide_eq_true_2.
Qed.

Lemma root_dispatch_view db o key :
  table_wf (contacts db) →
  root_dispatch db o key =
    List.find (λ d, (ed_idempotency_key d == key) && own_contact_id o db (ed_contact_id d)) (own_dispatches o db).
Proof.
  intros Hwf. unfold root_dispatch, select_first, own_dispatches, select. rewrite <- find_filter.
  apply find_ext_in. intros d _. rewrite (own_contact_view db o _ Hwf).
  rewrite <- (andb_assoc (ed_organization_id d == o)). apply andb_comm.
Qed.

Lemma message_rows_view db o cid m :
  message_rows db o cid m =
    match List.filter (λ d, (ed_message_id d == Some (msg_id m)) && (ed_contact_id d == cid)) (own_dispatches o db) with
    | [] => [mkConvRow m None]
    | ds => map (λ d, mkConvRow m (Some d)) ds
    end.
Proof.
  unfold message_rows, own_dispatches, select. rewrite <- filter_and.
  erewrite (filter_ext (λ d, _ && _ && _)); [reflexivity|]. intros d. cbn beta.
  rewrite <- !andb_assoc. f_equal. apply andb_comm.
Qed.

Lemma contact_messages_view db o cid :
  own_contact_id o db cid = true → table_wf (contacts db) →
  select (λ m, msg_contact_id m == cid) (messages db) = List.filter (λ m, msg_contact_id m == cid) (own_messages o db).
Proof.
  intros Hc Hwf. unfold own_messages, select. rewrite <- filter_and. apply filter_ext. intros m.
  case_bool_decide as E; [|done]. cbn. symmetry. apply bool_decide_eq_true_2. unfold message_org, message_contact.
  rewrite E. rewrite <- own_contact_view in Hc by done. destruct (get cid (contacts db)); [by bools|done].
Qed.

(** C18: the conversation read shows a tenant nothing but his own.  Whatever
    else is in the database (other tenants' dispatches, contacts, messages and
    mailboxes, also under the same keys, addresses and Message-IDs), the
    answer is determined by the rows the organization owns: two databases
    that agree on them give the same answer to the same request, errors
    included, so that another organization's key is indistinguishable from an
    unknown one. *)
Theorem conversation_noninterference o key limit db db' :
  table_wf (contacts db) → table_wf (contacts db') → same_tenant_view o db db' →
  get_leadboost_outreach_conversation o key limit db' = get_leadboost_outreach_conversation o key limit db.
Proof.
  intros Hwf Hwf' [Hc Hm Hd Hb].
  assert (∀ i, own_contact_id o db' i = own_contact_id o db i) as Hci by (intros i; unfold own_contact_id; by rewrite Hc).
  assert (∀ i, owned_mailbox db' o i = owned_mailbox db o i) as Hmb by (intros i; by rewrite !owned_mailbox_view, Hb).
  assert (root_dispatch db' o key = root_dispatch db o key) as Hroot.
  { rewrite !root_dispatch_view, Hd by done. apply find_ext_in. intros d _. by rewrite Hci. }
  assert (∀ rs, conv_messages db' o rs = conv_messages db o rs) as Hconv.
  { induction rs as [|r rs IH]; [done|]. cbn [conv_messages]. rewrite IH.
    assert (conv_message db' o r = conv_message db o r) as ->; [|done].
    unfold conv_message. by rewrite !Hmb; destruct (cw_dispatch r); rewrite ?Hmb. }
  unfold get_leadboost_outreach_conversation. rewrite Hroot. destruct (negb _); [done|].
  destruct (root_dispatch db o key) as [root|] eqn:Er; [|done].
  assert (own_contact_id o db (ed_contact_id root) = true) as Hown.
  { rewrite root_dispatch_view in Er by done. apply find_some in Er as [_ Hp]. by bools. }
  assert (conversation_rows db' o (ed_contact_id root) = conversation_rows db o (ed_contact_id root)) as ->.
  { unfold conversation_rows. rewrite !(contact_messages_view _ o), Hm by (rewrite ?Hci; done).
    rewrite (flat_map_ext _ (message_rows db o (ed_contact_id root))).
    - apply filter_ext. intros r. unfold visible. by rewrite Hmb.
    - intros m. by rewrite !message_rows_view, Hd. }
  by rewrite Hconv, Hmb.
Qed.

#[local] Instance newer_total : Total newer.
Proof. intros a b. unfold newer. lia. Qed.
#[local] Instance newer_trans : Transitive newer.
Proof. intros a b c. unfold newer. lia. Qed.

Lemma substring_le n s : (Str.len (String.substring 0 n s) ≤ n)%nat.
Proof.
  unfold Str.len. revert s. induction n as [|n IH]; intros [|a s]; cbn; [lia..|]. specialize (IH s). lia.
Qed.

Lemma conv_messages_Ok db o rs l :
  conv_messages db o rs = Ok l → Forall2 (λ r x, conv_message db o r = Ok x) rs l.
Proof.
  revert l. induction rs as [|r rs IH]; intros l; cbn [conv_messages]; [intros [= <-]; constructor|].
  intros E. apply result_bind_Ok in E as (x & Ex & E). apply result_bind_Ok in E as (l' & El & [= <-]).
  constructor; auto.
Qed.

Lemma conv_message_Ok db o r x :
  conv_message db o r = Ok x →
  cm_created_at x = msg_created_at (cw_message r) ∧ (Str.len (cm_body x) ≤ BODY_CAP_CHARS)%nat.
Proof.
  unfold conv_message. cbv zeta.
  destruct (msg_direction (cw_message r)); [destruct (cw_dispatch r); [|done]|case_match; [|done]];
    intros [= <-]; cbn [cm_created_at cm_body]; (split; [done|apply substring_le]).
Qed.

Lemma sorted_rev_created rs l db o :
  StronglySorted newer rs → Forall2 (λ r x, conv_message db o r = Ok x) (rev rs) l →
  StronglySorted Z.le (map cm_created_at l).
Proof.
  revert l. induction rs as [|r rs IH]; intros l Hs Hf; cbn [rev] in Hf.
  { inversion Hf; subst. constructor. }
  apply StronglySorted_inv in Hs as [Hs Hall]. apply Forall2_app_inv_l in Hf as (l1 & l2 & H1 & H2 & ->).
  inversion H2 as [|? x ? ? Hx Hnil]; subst. inversion Hnil; subst.
  specialize (IH l1 Hs H1). rewrite map_app. cbn [map].
  apply conv_message_Ok in Hx as [Hx _]. rewrite Hx.
  assert (Forall (λ y, cm_created_at y ≤ msg_created_at (cw_message r)) l1) as Hle.
  { rewrite Forall_forall. intros y Hy. apply list_elem_of_lookup in Hy as [n Hy].
    destruct (Forall2_lookup_r _ _ _ _ _ H1 Hy) as (r' & Hr' & Hc). apply conv_message_Ok in Hc as [-> _].
    apply list_elem_of_lookup_2, list_elem_of_In, in_rev in Hr'.
    rewrite Forall_forall in Hall. specialize (Hall r' (proj2 (list_elem_of_In _ _) Hr')). unfold newer in Hall. lia. }
  clear -IH Hle. induction l1 as [|y l1 IHl]; cbn; [repeat constructor|].
  apply StronglySorted_inv in IH as [IH Hy]. inversion Hle; subst. constructor; [by apply IHl|].
  apply Forall_app. split; [done|]. by constructor.
Qed.

(** The window of a conversation.  A successful answer has exactly the most
    recent messages of the conversation, at most the requested number (itself
    between 1 and 50), oldest first; it says that there are more exactly when
    some were left out; and no body is longer than the cap. *)
Theorem conversation_window o key limit db conv :
  get_leadboost_outreach_conversation o key limit db = Ok conv →
  1 ≤ limit ≤ MAX_LIMIT ∧
  ∃ root older shown,
    root_dispatch db o key = Some root ∧
    rev (merge_sort newer (conversation_rows db o (ed_contact_id root))) = older ++ shown ∧
    Forall2 (λ r x, conv_message db o r = Ok x) shown (cv_messages conv) ∧
    length shown = Nat.min (Z.to_nat limit) (length (conversation_rows db o (ed_contact_id root))) ∧
    (cv_has_more conv = true ↔ older ≠ []) ∧
    StronglySorted Z.le (map cm_created_at (cv_messages conv)) ∧
    Forall (λ x, Str.len (cm_body x) ≤ BODY_CAP_CHARS)%nat (cv_messages conv).
Proof.
  unfold get_leadboost_outreach_conversation. destruct (negb _) eqn:El; [done|].
  apply negb_false_iff, andb_prop in El as [L1 L2]. bools.
  destruct (root_dispatch db o key) as [root|] eqn:Er; [|done].
  set (rs := merge_sort newer (conversation_rows db o (ed_contact_id root))). cbv zeta.
  rewrite take_take, Nat.min_l by lia. intros E. apply result_bind_Ok in E as (l & El & [= <-]).
  apply conv_messages_Ok in El. cbn [cv_messages cv_has_more].
  assert (length rs = length (conversation_rows db o (ed_contact_id root))) as Hlen.
  { apply Permutation_length. unfold rs. by rewrite merge_sort_Permutation. }
  assert (StronglySorted newer rs) as Hs.
  { apply StronglySorted_merge_sort; [apply _|apply _]. }
  split; [lia|]. exists root, (rev (drop (Z.to_nat limit) rs)), (rev (take (Z.to_nat limit) rs)). split_and!.
  - done.
  - by rewrite <- rev_app_distr, take_drop.
  - done.
  - rewrite length_rev, length_take, Hlen. done.
  - rewrite length_take. rewrite Nat.ltb_lt. split.
    + intros Hlt Hnil. apply (f_equal (@length _)) in Hnil. rewrite length_rev, length_drop in Hnil. cbn in Hnil. lia.
    + intros Hne. destruct (decide (Z.to_nat limit < length rs)%nat); [lia|].
      exfalso. apply Hne. by rewrite drop_ge by lia.
  - eapply sorted_rev_created; [|exact El].
    rewrite <- (take_drop (Z.to_nat limit) rs) in Hs. by apply StronglySorted_app in Hs as (_ & ? & _).
  - rewrite Forall_forall. intros x Hx. apply list_elem_of_lookup in Hx as [n Hx].
    destruct (Forall2_lookup_r _ _ _ _ _ El Hx) as (r & _ & Hc). by apply conv_message_Ok in Hc as [_ ?].
Qed.

(** *** Witnesses *)

(** The sample database once dispatch 1 has been sent, and the same with
    another tenant's mailbox beside it. *)
Definition conv_db : Db :=
  set_messages (Table [set_msg_status MS_SENT sample_message; sample_inbound] 3)
    (set_dispatches (Table [mkExternalDispatch 1 "acme" "key-1" None None 1 1 (Some 1) (Some 1) "fp" None "ref-1" SENT
                              None None None 0 3] 2) sample_db).
Definition shared_db : Db :=
  set_mailboxes (Table [sample_mailbox; mkMailbox 2 "mb2" "globex" "x@globex.io" "smtp" 25 true "x" "T" None None None
                          None MB_ACTIVE 0 0] 3) conv_db.

Example sample_conversation :
  match get_leadboost_outreach_conversation "acme" "key-1" 1 conv_db with
  | Ok c => map cm_subject (cv_messages c) = [Some "Question"] ∧ cv_has_more c = true ∧ ca_state (cv_action c) = "sent"
  | Err _ => False
  end ∧ get_leadboost_outreach_conversation "globex" "key-1" 1 conv_db
        = Err (HTTPException 404 "Outreach action not found").
Proof. vm_compute. done. Qed.

Lemma conversation_noninterference_witness :
  get_leadboost_outreach_conversation "acme" "key-1" 20 shared_db
  = get_leadboost_outreach_conversation "acme" "key-1" 20 conv_db.
Proof.
  assert (same_tenant_view "acme" conv_db shared_db) as Hv by (split; reflexivity).
  exact (conversation_noninterference "acme" "key-1" 20 conv_db shared_db (wf_contacts _ sample_db_wf)
    (wf_contacts _ sample_db_wf) Hv).
Defined.

Lemma conversation_window_witness :
  ∃ conv, get_leadboost_outreach_conversation "acme" "key-1" 20 conv_db = Ok conv ∧
    StronglySorted Z.le (map cm_created_at (cv_messages conv)).
Proof.
  destruct (get_leadboost_outreach_conversation "acme" "key-1" 20 conv_db) as [conv|e] eqn:E;
    [|vm_compute in E; discriminate E].
  exists conv. split; [reflexivity|].
  destruct (conversation_window _ _ _ _ _ E) as (_ & _ & _ & _ & _ & _ & _ & _ & _ & Hs & _). exact Hs.
Defined.
