(* ===== verification/SystemApi.v ===== *)
(** * Diagnostics routes ([src/mailer_agent/api/system.py], [src/mailer_agent/integration.py])

    The tenant routes ([/system/health], [/system/metrics/classification],
    [/system/metrics/states]), which aggregate over the rows of the calling
    organization, and the operator routes, which report on the deployment.
    Each route is the composition of its router's dependency with its handler.
    The routes only read, so a response is a function of the database.  Rates
    and percentages are the exact quotients, before Python rounds them to
    floats. *)

From S2P Require Import Prelude Sql Models Config Samples Auth SemanticModels StateMachine Sender Regex Threading Grounding ExactMessage WorkClaiming Lifecycle Llm LlmSchemas LlmRouting Memory Classifier Guardrails Scheduling FollowUp Inbound ExternalDispatchWorker GenerationWorker WorkerStatus OperatorMetrics CanonicalJson Integrations IntegrationsGenerated Conversation.

#[local] Open Scope bool_scope.

(** ** Tenant handlers *)

Definition ALL_STATUSES : list ContactStatus :=
  [CS_NEW; CS_ACTIVE; CS_REPLIED; CS_ENGAGED; CS_QUALIFYING; CS_EVALUATING; CS_MEETING_REQUESTED; CS_MEETING_SCHEDULED;
   CS_NEGOTIATING; CS_NURTURE; CS_SEQUENCE_COMPLETE; CS_CLOSED_WON; CS_CLOSED_LOST; CS_SUPPRESSED; CS_PAUSED;
   CS_NEEDS_REVIEW].

(** The joins over contact and campaign with the organization's filter. *)
Definition tenant_contacts (org_id : string) (db : Db) : list Contact :=
  select (λ c, match get (ct_campaign_id c) (campaigns db) with
               | Some cp => cp_organization_id cp == Some org_id
               | None => false
               end) (contacts db).
Definition tenant_messages (org_id : string) (db : Db) : list Message :=
  select (λ m, match get (msg_contact_id m) (contacts db) with
               | Some c => match get (ct_campaign_id c) (campaigns db) with
                           | Some cp => cp_organization_id cp == Some org_id
                           | None => false
                           end
               | None => false
               end) (messages db).
Definition tenant_inbound (org_id : string) (db : Db) : list Message :=
  List.filter (λ m, msg_direction m == INBOUND) (tenant_messages org_id db).

(** [a / b if b else 0] *)
Definition rate (a b : Z) : Q := if b =? 0 then 0 else inject_Z a / inject_Z b.

(** The grouped counts, put into a dict that starts with every status at 0. *)
Definition state_counts (org_id : string) (db : Db) : Counts :=
  fold_left (λ d g, dict_put (fst g) (snd g) d)
    (group_count (map (λ c, ContactStatus_value (ct_status c)) (tenant_contacts org_id db)))
    (map (λ s, (ContactStatus_value s, 0)) ALL_STATUSES).

Record SystemHealth := mkSystemHealth {
  sh_organization_id : string;
  sh_contact_states : Counts;
  sh_messages_total : Z;
  sh_messages_sent : Z;
  sh_messages_failed : Z;
  sh_messages_unknown : Z;
  sh_messages_success_rate : Q;
  sh_classification_success : Z;
  sh_classification_total : Z;
  sh_classification_success_rate : Q
}.

Definition get_system_health (org_id : string) (db : Db) : SystemHealth :=
  let ms := tenant_messages org_id db in
  let total := Z.of_nat (length ms) in
  let sent := int_or_0 (sum_case (λ m, msg_status m == MS_SENT) ms) in
  let inbound := tenant_inbound org_id db in
  let classified := int_or_0 (sum_case (λ m, msg_classification_success m == Some true) inbound) in
  mkSystemHealth org_id (state_counts org_id db) total sent
    (int_or_0 (sum_case (λ m, msg_status m == MS_FAILED) ms))
    (int_or_0 (sum_case (λ m, msg_status m == MS_UNKNOWN) ms)) (rate sent total)
    classified (Z.of_nat (length inbound)) (rate classified (Z.of_nat (length inbound))).

(** [failed] is absent from the answer for no messages. *)
Record ClassificationMetrics := mkClassificationMetrics {
  km_total : Z;
  km_success : Z;
  km_success_rate : Q;
  km_failed : option Z;
  km_failure_reasons : list (string * Z)
}.

Definition get_classification_metrics (org_id : string) (db : Db) : ClassificationMetrics :=
  let inbound := tenant_inbound org_id db in
  let total := Z.of_nat (length inbound) in
  let success := int_or_0 (sum_case (λ m, msg_classification_success m == Some true) inbound) in
  if total =? 0 then mkClassificationMetrics 0 0 0 None []
  else
    mkClassificationMetrics total success (inject_Z success / inject_Z total) (Some (total - success))
      (group_count (omap msg_classification_failure_reason
         (List.filter (λ m, msg_classification_success m == Some false) inbound))).

Record StateDistribution := mkStateDistribution {
  sd_distribution : Counts;
  sd_total : Z;
  sd_percentages : list (string * Q)
}.
Definition get_state_distribution (org_id : string) (db : Db) : StateDistribution :=
  let distribution := state_counts org_id db in
  let total := sum_counts distribution in
  mkStateDistribution distribution total
    (map (λ x, (fst x, if 0 <? total then inject_Z (snd x) / inject_Z total * 100 else 0)%Q) distribution).

(** ** Operator handlers *)

Record SystemConfig := mkSystemConfig {
  cf_live_sending_enabled : bool;
  cf_auto_reply_enabled : bool;
  cf_llm_model : string;
  cf_llm_temperature : Q;
  cf_llm_max_tokens : Z;
  cf_max_sends_per_cycle : Z;
  cf_send_delay_seconds : Q;
  cf_imap_poll_seconds : Z;
  cf_followup_poll_seconds : Z;
  cf_run_scheduler_in_process : bool;
  cf_database_type : string
}.
Definition get_system_config (settings : Settings) : SystemConfig :=
  mkSystemConfig (live_sending_enabled settings) (auto_reply_enabled settings) (llm_model settings)
    (llm_temperature settings) (llm_max_tokens settings) (max_sends_per_cycle settings) (send_delay_seconds settings)
    (imap_poll_seconds settings) (followup_poll_seconds settings) (run_scheduler_in_process settings)
    (if Str.contains "postgresql" (database_url settings) then "postgresql" else "sqlite").

Definition get_dispatch_metrics (settings : Settings) (utcnow : Z) (db : Db) : DispatchMetrics :=
  dispatch_metrics utcnow (external_dispatch_lease_seconds settings) db.
Definition get_worker_metrics (settings : Settings) (utcnow : Z) (status : StatusDb) : WorkerMetrics :=
  worker_metrics utcnow (worker_stale_after_seconds settings) (worker_heartbeat_interval_seconds settings)
    (worker_runtime_retention_hours settings) status.
Definition get_inbound_metrics (settings : Settings) (window_hours : option Z) (utcnow : Z) (db : Db) (status : StatusDb)
    : result http_error InboundMetrics :=
  match window_hours with
  | Some w => if (1 <=? w) && (w <=? 168) then Ok (inbound_metrics utcnow w (worker_stale_after_seconds settings) db status)
              else Err (HttpError 422 "window_hours")
  | None => Ok (inbound_metrics utcnow (operator_inbound_window_hours settings) (worker_stale_after_seconds settings) db status)
  end.

(** What the self check finds: the texts of the exceptions it catches.  The
    import of the policy engine names a class that its module does not
    define, so that there is always one. *)
Record Deployment := mkDeployment {
  dp_semantic_models_error : option string;
  dp_state_machine_error : option string;
  dp_policy_import_error : string;
  dp_database_error : option string
}.

(** [checks[name] = True], or False with the error beside it. *)
Definition checked (name error_name : string) (e : option string) (checks : list (string * json)) : list (string * json) :=
  match e with
  | None => dict_put name (JBool true) checks
  | Some m => dict_put error_name (JStr m) (dict_put name (JBool false) checks)
  end.
Definition is_true (k : string) (checks : list (string * json)) : bool :=
  negb (json_falsy (default (JBool false) (assoc k checks))).

Definition validate_integration (settings : Settings) (dp : Deployment) : list (string * json) :=
  let set s := negb (s == "") in
  let checks := [("llm_available", JBool (set (groq_api_key settings)));
                 ("groq_api_key_set", JBool (set (groq_api_key settings)));
                 ("smtp_configured", JBool (set (smtp_username settings) && set (smtp_password settings)));
                 ("imap_configured", JBool (set (imap_username settings) && set (imap_password settings)))] in
  let checks := checked "semantic_models_imported" "semantic_models_error" (dp_semantic_models_error dp) checks in
  let checks := checked "state_machine_imported" "state_machine_error" (dp_state_machine_error dp) checks in
  let checks := checked "policy_engine_imported" "policy_engine_error" (Some (dp_policy_import_error dp)) checks in
  let checks := checked "database_connected" "database_error" (dp_database_error dp) checks in
  dict_put "integration_valid"
    (JBool (forallb (λ k, is_true k checks)
      ["llm_available"; "semantic_models_imported"; "state_machine_imported"; "policy_engine_imported"; "database_connected"]))
    checks.

(** [LLMMetrics.get_stats]. *)
Record LLMStats := mkLLMStats {
  ls_total_calls : Z;
  ls_successful_calls : Z;
  ls_failed_calls : Z;
  ls_success_rate : Q;
  ls_rate_limits : Z;
  ls_timeouts : Z;
  ls_malformed_outputs : Z
}.
Definition get_llm_metrics (x : LLMMetrics) : LLMStats :=
  mkLLMStats (total_calls x) (successful_calls x) (failed_calls x) (success_rate x) (rate_limits x) (timeouts x)
    (malformed_outputs x).

(** ** Routes *)

(** A tenant route: the router's dependency, then the organization of the key. *)
Definition tenant_route {A} (settings : Settings) (cfg : AuthConfig) (x_api_key : option string)
    (handler : string → A) : result http_error A :=
  _ ← require_api_key settings cfg x_api_key;
  org_id ← get_current_org_id settings cfg x_api_key;
  mret (handler org_id).

Definition operator_route {A} (settings : Settings) (cfg : AuthConfig) (x_system_operator_key : option string)
    (handler : result http_error A) : result http_error A :=
  _ ← require_system_operator settings cfg x_system_operator_key;
  handler.

(** The state of a running deployment, and the inventory of its routes. *)
Record World := mkWorld { w_db : Db; w_status : StatusDb; w_llm : LLMMetrics; w_deployment : Deployment; w_utcnow : Z }.

Inductive SystemRoute := Health | Classification | States | Integration | Llm | Config | Dispatch | Worker | InboundRoute (window_hours : option Z).
Inductive SystemResponse :=
  | RHealth (r : SystemHealth)
  | RClassification (r : ClassificationMetrics)
  | RStates (r : StateDistribution)
  | RIntegration (r : list (string * json))
  | RLlm (r : LLMStats)
  | RConfig (r : SystemConfig)
  | RDispatch (r : DispatchMetrics)
  | RWorker (r : WorkerMetrics)
  | RInbound (r : InboundMetrics).

(** Both headers of a request; a route reads the one its router names. *)
Definition system_route (settings : Settings) (cfg : AuthConfig) (x_api_key x_system_operator_key : option string)
    (w : World) (route : SystemRoute) : result http_error SystemResponse :=
  let tenant handler := tenant_route settings cfg x_api_key (λ org_id, handler org_id (w_db w)) in
  let operator r := operator_route settings cfg x_system_operator_key r in
  match route with
  | Health => tenant (λ o db, RHealth (get_system_health o db))
  | Classification => tenant (λ o db, RClassification (get_classification_metrics o db))
  | States => tenant (λ o db, RStates (get_state_distribution o db))
  | Integration => operator (Ok (RIntegration (validate_integration settings (w_deployment w))))
  | Llm => operator (Ok (RLlm (get_llm_metrics (w_llm w))))
  | Config => operator (Ok (RConfig (get_system_config settings)))
  | Dispatch => operator (Ok (RDispatch (get_dispatch_metrics settings (w_utcnow w) (w_db w))))
  | Worker => operator (Ok (RWorker (get_worker_metrics settings (w_utcnow w) (w_status w))))
  | InboundRoute h => operator (r ← get_inbound_metrics settings h (w_utcnow w) (w_db w) (w_status w); mret (RInbound r))
  end.

(** ** Facts *)

(** The queries see what the tenant owns. *)
Lemma tenant_contacts_own o db : tenant_contacts o db = own_contacts o db.
Proof.
  unfold tenant_contacts, own_contacts, select. apply filter_ext. intros c. unfold contact_org, contact_campaign.
  destruct (get (ct_campaign_id c) (campaigns db)) as [cp|]; [done|]. symmetry. by apply bool_decide_eq_false_2.
Qed.
Lemma tenant_messages_own o db : tenant_messages o db = own_messages o db.
Proof.
  unfold tenant_messages, own_messages, select. apply filter_ext. intros m. unfold message_org, message_contact.
  destruct (get (msg_contact_id m) (contacts db)) as [c|]; [|symmetry; by apply bool_decide_eq_false_2].
  unfold contact_org, contact_campaign.
  destruct (get (ct_campaign_id c) (campaigns db)) as [cp|]; [done|]. symmetry. by apply bool_decide_eq_false_2.
Qed.

Lemma fold_put_counts gs : ∀ d : Counts,
  NoDup (map fst d) → NoDup (map fst gs) → (∀ k, k ∈ map fst gs → k ∈ map fst d) →
  fold_left (λ d g, dict_put (fst g) (snd g) d) gs d = map (λ x, (fst x, default (snd x) (assoc (fst x) gs))) d.
Proof.
  intros d Hd Hg Hin. transitivity (fst (fold_left count_state gs (d, 0))).
  - clear Hg. revert d Hd Hin. induction gs as [|[k n] gs IH]; intros d Hd Hin; [done|]. cbn [fold_left].
    assert (is_Some (assoc k d)) as [v Hv] by (apply assoc_dom, Hin; by left).
    unfold count_state at 2. cbn [fst snd]. rewrite Hv.
    assert (map fst (dict_put k n d) = map fst d) as Hk.
    { rewrite dict_put_present by (done || by eexists). rewrite map_map. apply map_ext. intros x. by case_match. }
    apply IH; rewrite Hk; [done|]. intros x Hx. apply Hin. by right.
  - rewrite fold_count_state; [done|done|done|]. intros k Hk. by apply assoc_dom, Hin.
Qed.

Definition in_status (s : ContactStatus) (c : Contact) : bool := ct_status c == s.

Lemma ALL_STATUSES_complete s : In s ALL_STATUSES.
Proof. destruct s; cbn; tauto. Qed.

(** Every contact of the tenant is counted under its status. *)
Lemma state_counts_exact o db :
  state_counts o db = map (λ s, (ContactStatus_value s, tally (in_status s) (own_contacts o db))) ALL_STATUSES.
Proof.
  unfold state_counts. rewrite tenant_contacts_own. set (cs := own_contacts o db). rewrite fold_put_counts.
  - rewrite map_map. apply map_ext. intros s. cbn [fst snd]. f_equal. rewrite group_count_assoc, tally_map.
    rewrite (tally_ext_in _ (in_status s)) by (intros c _; unfold in_status; by destruct (ct_status c), s).
    case_bool_decide as E; [done|]. cbn [default from_option id]. unfold tally. rewrite filter_false_nil; [done|].
    intros c Hc. apply not_true_is_false. intros Hs. unfold in_status in Hs. bools.
    apply E, list_elem_of_In, in_map_iff. exists c. by subst.
  - rewrite map_map. cbn [fst]. compute_done.
  - rewrite group_count_keys. apply NoDup_remove_dups.
  - intros k. rewrite group_count_keys, elem_of_remove_dups, map_map. cbn [fst].
    rewrite !list_elem_of_In, !in_map_iff. intros (c & <- & _). exists (ct_status c). split; [done|apply ALL_STATUSES_complete].
Qed.

Lemma sum_statuses cs : sum_counts (map (λ s, (ContactStatus_value s, tally (in_status s) cs)) ALL_STATUSES) = Z.of_nat (length cs).
Proof.
  induction cs as [|c cs IH]; [done|]. cbn [length]. rewrite Nat2Z.inj_succ, <- IH. clear IH.
  unfold ALL_STATUSES, sum_counts. cbn [map fold_right snd]. rewrite !tally_cons.
  repeat match goal with |- context [in_status ?s c] => change (in_status s c) with (ct_status c == s) end.
  destruct (ct_status c); repeat (case_bool_decide; try congruence); lia.
Qed.

Definition for_tenants (route : SystemRoute) : bool :=
  match route with Health | Classification | States => true | _ => false end.

(** C36: the diagnostics routes keep to their scope.  What a tenant route
    answers is determined by the contacts and messages of the organization
    that the presented key belongs to: two deployments that agree on these,
    however much other tenants' data, worker state, model statistics and clock
    differ, give the same answer, whatever operator key is sent along.  An
    operator route answers only to the configured operator key, which is not
    empty and no tenant's key: a tenant's key, in either header, opens none of
    them. *)
Theorem system_routes_keep_their_scope settings cfg api_key op_key :
  (∀ route w w' op_key', for_tenants route = true →
     (∀ o, get_current_org_id settings cfg api_key = Ok o →
        own_contacts o (w_db w) = own_contacts o (w_db w') ∧ own_messages o (w_db w) = own_messages o (w_db w')) →
     system_route settings cfg api_key op_key w route = system_route settings cfg api_key op_key' w' route) ∧
  (∀ route w r, for_tenants route = false → system_route settings cfg api_key op_key w route = Ok r →
     op_key = Some (operator_key settings) ∧ operator_key settings ≠ "" ∧
     matches_tenant_key (operator_key settings) cfg = false) ∧
  (∀ route w k, for_tenants route = false → op_key = Some k → matches_tenant_key k cfg = true →
     ∃ e, system_route settings cfg api_key op_key w route = Err e).
Proof.
  assert (∀ route w r, for_tenants route = false → system_route settings cfg api_key op_key w route = Ok r →
     op_key = Some (operator_key settings) ∧ operator_key settings ≠ "" ∧
     matches_tenant_key (operator_key settings) cfg = false) as Hop.
  { intros route w r Hr E.
    assert (require_system_operator settings cfg op_key = Ok ()) as Ha.
    { destruct route; try done; unfold system_route, operator_route in E; cbn beta zeta iota in E;
        apply result_bind_Ok in E as ([] & -> & _); done. }
    unfold require_system_operator in Ha. destruct (truthy (ac_error cfg)); [done|].
    destruct (operator_key settings == "") eqn:E1; [done|]. destruct (matches_tenant_key _ cfg) eqn:E2; [done|].
    cbn in Ha. destruct (truthy op_key) eqn:Et; [|done]. apply truthy_Some in Et as (s & -> & _). cbn in Ha.
    destruct (s == operator_key settings) eqn:E3; [|done]. bools. by subst. }
  split_and!; [|done|].
  - intros route w w' op_key' Hr Hsame.
    assert (∀ (A : Type) (h : string → Db → A), (∀ o, get_current_org_id settings cfg api_key = Ok o →
      h o (w_db w) = h o (w_db w')) → tenant_route settings cfg api_key (λ o, h o (w_db w))
      = tenant_route settings cfg api_key (λ o, h o (w_db w'))) as Hroute.
    { intros A h Hh. unfold tenant_route. destruct (require_api_key settings cfg api_key); [|done]. cbn.
      destruct (get_current_org_id settings cfg api_key) as [o|] eqn:Eo; [|done]. cbn. by rewrite Hh. }
    destruct route; try done.
    + apply (Hroute _ (λ o db, RHealth (get_system_health o db))). intros o [Hc Hm]%Hsame. f_equal.
      unfold get_system_health, tenant_inbound. by rewrite !state_counts_exact, !tenant_messages_own, Hc, Hm.
    + apply (Hroute _ (λ o db, RClassification (get_classification_metrics o db))). intros o [Hc Hm]%Hsame. f_equal.
      unfold get_classification_metrics, tenant_inbound. by rewrite !tenant_messages_own, Hm.
    + apply (Hroute _ (λ o db, RStates (get_state_distribution o db))). intros o [Hc Hm]%Hsame. f_equal.
      unfold get_state_distribution. by rewrite !state_counts_exact, Hc.
  - intros route w k Hr -> Hk. destruct (system_route _ _ _ _ _ _) as [r|e] eqn:E; [|by eexists].
    apply Hop in E as ([= ->] & _ & Hn); [congruence|done].
Qed.

Lemma percentages_sum (l : Counts) t :
  (0 < t)%Z → Qeq (fold_right (λ x n, inject_Z (snd x) / inject_Z t * 100 + n)%Q 0%Q l)
                (inject_Z (sum_counts l) / inject_Z t * 100)%Q.
Proof.
  intros Ht. assert (¬ inject_Z t == 0)%Q as Hne by (unfold Qeq; cbn; lia).
  induction l as [|x l IH]; cbn [fold_right sum_counts]; [by field|].
  rewrite IH. change (fold_right _ 0 l) with (sum_counts l). rewrite inject_Z_plus. field. done.
Qed.

Lemma classification_numbers o db :
  let k := get_classification_metrics o db in
  km_total k = Z.of_nat (length (tenant_inbound o db)) ∧
  km_success k = tally (λ m, msg_classification_success m == Some true) (tenant_inbound o db) ∧
  km_success k + default 0 (km_failed k) = km_total k ∧ 0 ≤ default 0 (km_failed k) ∧
  (∀ reason n, assoc reason (km_failure_reasons k) = Some n → 0 < n ≤ default 0 (km_failed k)).
Proof.
  cbv zeta. unfold get_classification_metrics. rewrite int_sum_case. set (ms := tenant_inbound o db).
  destruct (Z.of_nat (length ms) =? 0) eqn:E; bools.
  { destruct ms; [done|cbn in E; lia]. }
  cbn [km_total km_success km_failed km_failure_reasons default from_option id].
  set (ok := tally (λ m, msg_classification_success m == Some true) ms).
  set (bad := List.filter (λ m, msg_classification_success m == Some false) ms).
  assert (ok + Z.of_nat (length bad) ≤ Z.of_nat (length ms)) as Hle.
  { unfold ok, bad. clear. induction ms as [|m l IH]; [done|]. rewrite tally_cons. cbn [List.filter length].
    destruct (msg_classification_success m) as [[]|]; repeat (case_bool_decide; try congruence); cbn [length]; lia. }
  split_and!; [done|done|lia|lia|].
  intros reason n. rewrite group_count_assoc. case_bool_decide as Hin; [|done]. intros [= <-].
  set (reasons := omap msg_classification_failure_reason bad) in *.
  assert (tally (λ x, x == reason) reasons ≠ 0).
  { apply tally_pos. exists reason. split; [by apply list_elem_of_In|by apply bool_decide_eq_true_2]. }
  pose proof (tally_ge_0 (λ x, x == reason) reasons).
  assert (tally (λ x, x == reason) reasons ≤ Z.of_nat (length reasons)) by (rewrite <- tally_true; by apply tally_le).
  assert (length reasons ≤ length bad)%nat; [|lia].
  unfold reasons. clear. induction bad as [|m l IH]; cbn; [lia|]. destruct (msg_classification_failure_reason m); cbn; lia.
Qed.

(** A tenant's numbers add up.  The contact states are all sixteen, each with
    the number of the tenant's contacts in it, and add up to his contacts, and
    the percentages to a hundred; sent, failed and unknown messages are no
    more than his messages; and classified and failed replies are his inbound
    messages, with no more named failure reasons than failures. *)
Theorem tenant_numbers_add_up o db :
  let h := get_system_health o db in
  let k := get_classification_metrics o db in
  let s := get_state_distribution o db in
  sh_contact_states h = map (λ s, (ContactStatus_value s, tally (in_status s) (own_contacts o db))) ALL_STATUSES ∧
  sd_distribution s = sh_contact_states h ∧ sd_total s = Z.of_nat (length (own_contacts o db)) ∧
  (0 < sd_total s → Qeq (fold_right (λ x n, snd x + n)%Q 0%Q (sd_percentages s)) 100) ∧
  sh_messages_total h = Z.of_nat (length (own_messages o db)) ∧
  sh_messages_sent h + sh_messages_failed h + sh_messages_unknown h ≤ sh_messages_total h ∧
  km_total k = sh_classification_total h ∧ km_success k = sh_classification_success h ∧
  km_success k + default 0 (km_failed k) = km_total k ∧ 0 ≤ default 0 (km_failed k) ∧
  (∀ reason n, assoc reason (km_failure_reasons k) = Some n → 0 < n ≤ default 0 (km_failed k)).
Proof.
  cbv zeta. assert (sd_total (get_state_distribution o db) = Z.of_nat (length (own_contacts o db))) as Htot.
  { unfold get_state_distribution. cbn [sd_total]. by rewrite state_counts_exact, sum_statuses. }
  assert (sh_contact_states (get_system_health o db) = state_counts o db) as Hst by done.
  split_and!.
  - by rewrite Hst, state_counts_exact.
  - done.
  - done.
  - unfold get_state_distribution. cbn [sd_total sd_percentages]. intros Ht. apply Z.ltb_lt in Ht as Ht'. rewrite Ht'.
    set (l := state_counts o db) in *.
    assert (∀ d : Counts, fold_right (λ x n, snd x + n)%Q 0%Q
      (map (λ x, (fst x, inject_Z (snd x) / inject_Z (sum_counts l) * 100)%Q) d)
      = fold_right (λ x n, inject_Z (snd x) / inject_Z (sum_counts l) * 100 + n)%Q 0%Q d) as Hmap.
    { induction d as [|x d IH]; [done|]. cbn [map fold_right snd]. by rewrite IH. }
    rewrite Hmap, percentages_sum by done. field. unfold Qeq; cbn; lia.
  - unfold get_system_health. cbn [sh_messages_total]. by rewrite tenant_messages_own.
  - unfold get_system_health. cbn [sh_messages_sent sh_messages_failed sh_messages_unknown sh_messages_total].
    rewrite !int_sum_case. induction (tenant_messages o db) as [|m l IH]; [done|]. rewrite !tally_cons. cbn [length].
    destruct (msg_status m); repeat (case_bool_decide; try congruence); lia.
  - apply classification_numbers.
  - by rewrite (proj1 (proj2 (classification_numbers o db))), <- int_sum_case.
  - apply classification_numbers.
  - apply classification_numbers.
  - apply classification_numbers.
Qed.

(** The self check of the deployment can never pass: it imports a name that
    the policy module does not define. *)
Theorem integration_check_never_passes settings dp :
  assoc "policy_engine_imported" (validate_integration settings dp) = Some (JBool false) ∧
  assoc "integration_valid" (validate_integration settings dp) = Some (JBool false).
Proof.
  unfold validate_integration. cbv beta zeta.
  generalize (smtp_username settings == "") (smtp_password settings == "") (imap_username settings == "")
    (imap_password settings == ""). intros b1 b2 b3 b4.
  destruct (groq_api_key settings == ""), dp as [[] [] e []]; done.
Qed.
