(* ===== verification/MessagesApi.v ===== *)
(** * Approval and suppression routes ([src/mailer_agent/api/messages.py])

    The human-in-the-loop send of a held draft, with its final gates, and the
    organization's suppression list.  Each route is one transaction: the
    approval takes a row lock on its message, so two approvals of one message
    run one after the other. *)

From S2P Require Import Prelude Sql Models Config WorkClaiming Lifecycle Sender StateMachine SemanticModels Regex Threading Grounding ExactMessage Llm Scheduling FollowUp Inbound Integrations Samples.

(** ** Approval *)

Definition ACTIVE_DISPATCH_STATES : list ExternalDispatchState := [QUEUED; SENDING].

Definition owned_by_active_external_dispatch (db : Db) (message_id : Z) : bool :=
  is_not_none (select_first (λ d, (ed_message_id d == Some message_id)
                                  && in_list (ed_state d) ACTIVE_DISPATCH_STATES) (dispatches db)).

Definition get_message_or_404 (db : Db) (message_id : Z) (org_id : string) : result api_error Message :=
  match select_first (λ m, (msg_id m == message_id) && (message_org db m == Some org_id)) (messages db) with
  | Some m => Ok m
  | None => Err (HTTPException 404 "Message not found")
  end.

Definition integration_owned_detail : string :=
  "This message belongs to an external integration (LeadBoost) and "
  +:+ "cannot be approved or sent through the native approval path.".
Definition dispatch_owned_detail : string :=
  "This message is owned by an external dispatch workflow "
  +:+ "(LeadBoost) and cannot be approved manually while that "
  +:+ "dispatch is queued or sending.".
Definition live_sending_detail : string :=
  "Live sending is disabled (LIVE_SENDING_ENABLED=false) -- "
  +:+ "draft was not sent. Enable LIVE_SENDING_ENABLED and retry "
  +:+ "approval to actually send.".
Definition grounding_detail (g : GroundingValidation) : string :=
  "Draft failed final grounding recheck and cannot be sent: "
  +:+ validation_notes g +:+ ". Unsupported/fabricated claims: "
  +:+ Str.repr_list (unsupported_claims g) +:+ ". Edit the draft or the "
  +:+ "campaign/contact data, then try approval again.".

(** [contact.messages[0].subject] of a thread in order. *)
Definition approval_subject (db : Db) (msg : Message) (contact : Contact) (campaign : Campaign) : string :=
  py_or (msg_subject msg)
    match contact_messages db contact with
    | first :: _ => if truthy (msg_subject first) then "Re: " +:+ Str.of_opt (msg_subject first)
                    else cp_sender_org campaign
    | [] => cp_sender_org campaign
    end.

(** The checks before the send, in the order of the route, and its arguments. *)
Definition approval_gates (settings : Settings) (message_id : Z) (org_id : string) (db : Db)
    : result api_error (Message * SendArgs) :=
  msg ← get_message_or_404 db message_id org_id;
  _ ← raise_if (contact_is_integration_managed db (message_contact db msg))
        (HTTPException 409 integration_owned_detail);
  _ ← raise_if (owned_by_active_external_dispatch db (msg_id msg)) (HTTPException 409 dispatch_owned_detail);
  _ ← raise_if (msg_status msg != MS_DRAFT)
        (HTTPException 400 ("Message is not a draft (status=" +:+ MessageStatus_value (msg_status msg) +:+ ")"));
  match message_contact db msg with
  | None => Err (Crashed (attribute_error "NoneType" "campaign"))
  | Some contact =>
  match contact_campaign db contact with
  | None => Err (Crashed (attribute_error "NoneType" "proof_points"))
  | Some campaign =>
      _ ← raise_if (is_suppressed db (ct_email contact) None)
            (HTTPException 400 "This contact is on the suppression list — cannot send");
      let grounding :=
        validate_grounding (msg_body msg) (cp_proof_points campaign) (ct_context_notes contact)
          (Some (build_conversation_context db contact)) (Some (cp_value_prop campaign)) in
      _ ← raise_if (hard_block grounding) (HTTPException 409 (grounding_detail grounding));
      let subject := approval_subject db msg contact campaign in
      _ ← raise_if (negb (live_sending_enabled settings)) (HTTPException 409 live_sending_detail);
      mret (msg, mkSendArgs (ct_email contact) (cp_sender_email campaign) (cp_sender_name campaign) subject
                   (msg_body msg) (cp_reply_to_email campaign) (msg_in_reply_to_header msg)
                   (msg_references_header msg) None None)
  end
  end.

(** The row after a send: the status mirrors the outcome. *)
Definition approved_row (msg : Message) (subject : string) (r : SendResult) : Message :=
  set_msg_error_message (sr_error r)
    (set_msg_subject (Some subject)
       (set_msg_message_id_header (sr_message_id r)
          (set_msg_status (message_status_of_outcome (sr_outcome r)) msg))).

(** [db.commit()] of a changed message: the unique indexes are checked against
    the other rows. *)
Definition commit_message_row (m : Message) (db : Db) : result api_error Db :=
  if existsb (λ r, (msg_id r != msg_id m) && message_clash m r) (rows (messages db))
  then Err (Unhandled (IntegrityError "messages")) else Ok (write_message m db).

Definition approve_and_send_draft (env : SendEnv) (message_id : Z) (org_id : string) (db : Db)
    : Db * result api_error Message * list smtp_event :=
  match approval_gates (se_settings env) message_id org_id db with
  | Err e => (db, Err e, [])
  | Ok (msg, args) =>
      match send_email (se_settings env) (se_smtp env) (se_seed env) args with
      | (Err e, trace) => (db, Err (Crashed e), trace)
      | (Ok r, trace) =>
          let m := approved_row msg (sa_subject args) r in
          match commit_message_row m db with
          | Err e => (db, Err e, trace)
          | Ok db' => (db', Ok m, trace)
          end
      end
  end.

(** ** Suppression list *)

Record SuppressRequest := mkSuppressRequest { sq_email : string; sq_reason : option string }.

Definition suppressed_by (db : Db) (email org_id : string) : bool :=
  is_not_none (select_first (λ s, (sup_email s == email) && (sup_organization_id s == Some org_id))
                 (suppressions db)).

Definition suppress_email (payload : SuppressRequest) (org_id : string) (utcnow : Z) : M unit :=
  found ← query (λ db, suppressed_by db (sq_email payload) org_id);
  match found with
  | true => mret ()
  | false =>
      committed ← try_commit (λ db,
        match insert_unique suppression_clash "uq_suppression_email_org"
                (λ i, mkSuppressionEntry i (sq_email payload) (Some org_id) (sq_reason payload) utcnow)
                (suppressions db) with
        | Ok (_, t) => Ok (set_suppressions t db, ())
        | Err e => Err e
        end);
      match committed with Ok _ => mret () | Err e => raise (Unhandled e) end
  end.

Definition check_suppressed (email org_id : string) : M bool :=
  query (λ db, suppressed_by db email org_id).

(** ** Facts *)

(** What has to hold for a draft to leave the building by approval. *)
Record approvable (settings : Settings) (db : Db) (org : string) (msg : Message) (contact : Contact)
    (campaign : Campaign) : Prop := {
  av_stored : In msg (rows (messages db));
  av_draft : msg_status msg = MS_DRAFT;
  av_contact : message_contact db msg = Some contact;
  av_campaign : contact_campaign db contact = Some campaign;
  av_tenant : cp_organization_id campaign = Some org;
  av_native : cp_integration_source campaign = None;
  av_free : ∀ d, In d (rows (dispatches db)) → ed_message_id d = Some (msg_id msg) →
    ed_state d ≠ QUEUED ∧ ed_state d ≠ SENDING;
  av_unsuppressed : ∀ s, In s (rows (suppressions db)) → sup_email s ≠ ct_email contact;
  av_grounded : hard_block (validate_grounding (msg_body msg) (cp_proof_points campaign) (ct_context_notes contact)
    (Some (build_conversation_context db contact)) (Some (cp_value_prop campaign))) = false;
  av_live : live_sending_enabled settings = true
}.

Lemma dispatch_free_spec db mid :
  owned_by_active_external_dispatch db mid = false ↔
  ∀ d, In d (rows (dispatches db)) → ed_message_id d = Some mid → ed_state d ≠ QUEUED ∧ ed_state d ≠ SENDING.
Proof.
  unfold owned_by_active_external_dispatch. destruct (select_first _ _) as [d|] eqn:E.
  - split; [done|]. intros Hall. apply select_first_Some in E as [Hin Hp]. unfold in_list in Hp. bools.
    destruct (Hall d Hin) as [H1 H2]; [done|]. unfold ACTIVE_DISPATCH_STATES in *.
    rewrite !elem_of_cons, elem_of_nil in *. naive_solver.
  - split; [|done]. intros _ d Hin Hm.
    pose proof (proj1 (select_first_None _ _) E d Hin) as Hp. unfold in_list in Hp.
    rewrite Hm, bool_decide_true in Hp by done. cbn in Hp. apply bool_decide_eq_false in Hp.
    unfold ACTIVE_DISPATCH_STATES in Hp. rewrite !elem_of_cons, elem_of_nil in Hp. naive_solver.
Qed.

Lemma message_org_Some db m org :
  message_org db m = Some org ↔
  ∃ contact campaign, message_contact db m = Some contact ∧ contact_campaign db contact = Some campaign ∧
    cp_organization_id campaign = Some org.
Proof.
  unfold message_org, contact_org. destruct (message_contact db m) as [c|]; [|naive_solver].
  destruct (contact_campaign db c) as [cm|] eqn:E; [|naive_solver].
  split; [intros; by exists c, cm|]. intros (? & ? & [= <-] & Hc & ?). congruence.
Qed.

Lemma get_message_Ok db mid org msg :
  table_wf (messages db) →
  get_message_or_404 db mid org = Ok msg ↔
  In msg (rows (messages db)) ∧ msg_id msg = mid ∧ message_org db msg = Some org.
Proof.
  intros Hwf. unfold get_message_or_404. destruct (select_first _ _) as [m|] eqn:E.
  - apply select_first_Some in E as [Hin Hp]. bools. split; [by intros [= <-]|].
    intros (Hin' & Hid & _). f_equal. eapply table_wf_inj; eauto. change (msg_id m = msg_id msg). congruence.
  - split; [done|]. intros (Hin & Hid & Ho).
    pose proof (proj1 (select_first_None _ _) E msg Hin) as Hp. cbv beta in Hp. by rewrite Hid, Ho, !bool_decide_true in Hp.
Qed.

Lemma managed_source db contact campaign :
  contact_campaign db contact = Some campaign →
  contact_is_integration_managed db (Some contact) = false ↔ cp_integration_source campaign = None.
Proof. intros Hc. cbn. rewrite Hc. cbn. unfold is_not_none. destruct (cp_integration_source campaign); naive_solver. Qed.

Lemma approval_gates_Ok settings mid org db msg args :
  table_wf (messages db) →
  approval_gates settings mid org db = Ok (msg, args) ↔
  ∃ contact campaign, approvable settings db org msg contact campaign ∧ msg_id msg = mid ∧
    args = mkSendArgs (ct_email contact) (cp_sender_email campaign) (cp_sender_name campaign)
             (approval_subject db msg contact campaign) (msg_body msg) (cp_reply_to_email campaign)
             (msg_in_reply_to_header msg) (msg_references_header msg) None None.
Proof.
  intros Hwf. split.
  - unfold approval_gates. intros E. inv_result.
    match goal with H : get_message_or_404 _ _ _ = _ |- _ =>
      apply get_message_Ok in H as (Hin & Hid & Ho); [|done] end.
    apply message_org_Some in Ho as (contact & campaign & Hc & Hcm & Horg). rewrite Hc, Hcm in *. inv_result.
    bools. exists contact, campaign. split; [|by split]. constructor; try done.
    + by apply (managed_source db contact).
    + by apply dispatch_free_spec.
    + by apply not_suppressed_spec.
  - intros (contact & campaign & [Hin Hd Hc Hcm Horg Hn Hf Hs Hg Hl] & Hid & ->).
    unfold approval_gates. rewrite (proj2 (get_message_Ok db mid org msg Hwf)).
    2:{ split_and!; [done|done|]. apply message_org_Some. by exists contact, campaign. }
    cbn [mbind result_bind]. rewrite Hc, Hcm, (proj2 (managed_source _ _ _ Hcm) Hn), (proj2 (dispatch_free_spec _ _) Hf),
      Hd, (proj2 (not_suppressed_spec _ _) Hs), Hg, Hl. done.
Qed.

Lemma message_status_not_draft o : message_status_of_outcome o ≠ MS_DRAFT.
Proof. by destruct o. Qed.

Lemma commit_message_row_Ok m db db' :
  commit_message_row m db = Ok db' → db' = write_message m db.
Proof. unfold commit_message_row. case_match; by intros [= <-]. Qed.

Lemma approved_row_id msg subject r : msg_id (approved_row msg subject r) = msg_id msg.
Proof. done. Qed.

Lemma approval_transmissions env mid org db db' r trace :
  table_wf (messages db) →
  approve_and_send_draft env mid org db = (db', r, trace) →
  (sendmails trace ≤ 1)%nat ∧
  (∀ f t m res, In (EvSendmail f t m res) trace →
     ∃ msg contact campaign, approvable (se_settings env) db org msg contact campaign ∧ msg_id msg = mid ∧
       f = cp_sender_email campaign ∧ t = ct_email contact ∧ mime_text m = msg_body msg) ∧
  (∀ e, r = Err e → db' = db).
Proof.
  intros Hwf. unfold approve_and_send_draft.
  destruct (approval_gates _ _ _ _) as [[msg args]|e] eqn:Eg; [|intros [= <- <- <-]; split_and!; [cbn; lia|done|done]].
  apply approval_gates_Ok in Eg as (contact & campaign & Ha & Hid & ->); [|done].
  destruct (send_email _ _ _ _) as [[sr|e] tr] eqn:Es.
  all: match type of Es with send_email ?s ?e ?d ?a = _ =>
         pose proof (send_email_sendmails s e d a) as Hn; pose proof (send_email_payload s e d a) as Hp end.
  all: rewrite Es in Hn, Hp; cbn [snd] in Hn, Hp.
  all: assert (∀ f t m res, In (EvSendmail f t m res) tr →
         ∃ msg contact campaign, approvable (se_settings env) db org msg contact campaign ∧ msg_id msg = mid ∧
           f = cp_sender_email campaign ∧ t = ct_email contact ∧ mime_text m = msg_body msg) as Hm
    by (intros f t m res (-> & -> & h & -> & _)%Hp; by exists msg, contact, campaign).
  - destruct (commit_message_row _ _); intros [= <- <- <-]; by split_and!.
  - intros [= <- <- <-]. by split_and!.
Qed.

(** C23: approval passes every gate again.  A mail the approval route transmits
    carries the stored body of the named message, unchanged, to its contact and
    from its own native campaign of the calling tenant; at that moment the
    message is a DRAFT that no queued or sending dispatch owns, the address is
    on no suppression list, live sending is on and no claim of the body is
    unsupported by the current approved content.  At most one mail leaves per
    call, and a refused approval changes nothing. *)
Theorem approval_passes_every_gate env mid org db db' r trace :
  table_wf (messages db) →
  approve_and_send_draft env mid org db = (db', r, trace) →
  (sendmails trace ≤ 1)%nat ∧
  (∀ f t m res, In (EvSendmail f t m res) trace →
     ∃ msg contact campaign, approvable (se_settings env) db org msg contact campaign ∧ msg_id msg = mid ∧
       f = cp_sender_email campaign ∧ t = ct_email contact ∧ mime_text m = msg_body msg) ∧
  (∀ e, r = Err e → db' = db).
Proof. apply approval_transmissions. Qed.

(** An approved draft is settled.  A successful approval stores, under the
    same id, the status that mirrors the outcome SMTP reported, with the same
    recipient and body, and touches no other row; approving it again, by
    anyone in the tenant, is refused with 400 and transmits nothing. *)
Theorem approval_settles_draft env mid org db db' m trace :
  table_wf (messages db) →
  approve_and_send_draft env mid org db = (db', Ok m, trace) →
  (∃ msg args sr, get mid (messages db) = Some msg ∧ msg_status msg = MS_DRAFT ∧
     send_email (se_settings env) (se_smtp env) (se_seed env) args = (Ok sr, trace) ∧
     get mid (messages db') = Some m ∧ msg_status m = message_status_of_outcome (sr_outcome sr) ∧
     msg_message_id_header m = sr_message_id sr ∧ msg_body m = msg_body msg ∧
     msg_contact_id m = msg_contact_id msg) ∧
  (∀ j, j ≠ mid → get j (messages db') = get j (messages db)) ∧
  contacts db' = contacts db ∧ dispatches db' = dispatches db ∧ suppressions db' = suppressions db ∧
  ∀ env', ∃ detail, approve_and_send_draft env' mid org db' = (db', Err (HTTPException 400 detail), []).
Proof.
  intros Hwf. unfold approve_and_send_draft at 1.
  destruct (approval_gates _ _ _ _) as [[msg args]|e] eqn:Eg; [|done].
  apply approval_gates_Ok in Eg as (contact & campaign & Ha & Hid & Hargs); [|done]. subst mid.
  destruct (send_email _ _ _ _) as [[sr|e] tr] eqn:Es; [|done].
  destruct (commit_message_row _ _) as [db1|e] eqn:Ec; [|done]. intros [= <- <- <-].
  apply commit_message_row_Ok in Ec as ->. set (m := approved_row msg (sa_subject args) sr).
  assert (get (msg_id msg) (messages db) = Some msg) as Hg by (apply (get_complete (messages db)); [done|apply Ha]).
  pose proof (λ j, update_pk_put m (messages db) j) as Hput.
  assert (get (msg_id msg) (messages (write_message m db)) = Some m) as Hg'.
  { etrans; [apply (Hput (msg_id msg))|]. change (row_id m) with (msg_id msg). by rewrite Z.eqb_refl, Hg. }
  split_and!; [| |done..|].
  - exists msg, args, sr. split_and!; [done|apply Ha|done|done|done..].
  - intros j Hj. etrans; [apply (Hput j)|]. change (row_id m) with (msg_id msg).
    by rewrite (proj2 (Z.eqb_neq j (msg_id msg)) Hj).
  - intros env'. unfold approve_and_send_draft, approval_gates.
    assert (table_wf (messages (write_message m db))) as Hwf'.
    { apply (update_pk_wf_at (msg_id m)); [by intros|done]. }
    rewrite (proj2 (get_message_Ok (write_message m db) (msg_id msg) org m Hwf')).
    2:{ split_and!; [by apply get_Some in Hg' as [? _]|done|]. apply message_org_Some.
        exists contact, campaign. split_and!; apply Ha. }
    cbn [mbind result_bind].
    rewrite (av_contact _ _ _ _ _ _ Ha : message_contact (write_message m db) m = Some contact).
    rewrite (proj2 (managed_source (write_message m db) _ _ (av_campaign _ _ _ _ _ _ Ha)) (av_native _ _ _ _ _ _ Ha)).
    rewrite (proj2 (dispatch_free_spec (write_message m db) (msg_id m)) (av_free _ _ _ _ _ _ Ha)).
    cbn [raise_if mbind result_bind]. rewrite bool_decide_false by apply message_status_not_draft.
    by eexists.
Qed.

Lemma suppressed_by_spec db email org :
  suppressed_by db email org = true ↔
  ∃ s, In s (rows (suppressions db)) ∧ sup_email s = email ∧ sup_organization_id s = Some org.
Proof.
  unfold suppressed_by. destruct (select_first _ _) as [s|] eqn:E.
  - split; [|done]. intros _. apply select_first_Some in E as [Hin Hp]. bools. by exists s.
  - split; [done|]. intros (s & Hin & He & Ho).
    pose proof (proj1 (select_first_None _ _) E s Hin) as Hp. cbv beta in Hp. by rewrite He, Ho, !bool_decide_true in Hp.
Qed.

Lemma suppress_email_Ok payload org u db :
  ∃ db', suppress_email payload org u db = (db', Ok ()) ∧
    suppressed_by db' (sq_email payload) org = true ∧ messages db' = messages db ∧
    contacts db' = contacts db ∧ dispatches db' = dispatches db ∧
    ∀ s, In s (rows (suppressions db)) → In s (rows (suppressions db')).
Proof.
  unfold suppress_email. rewrite query_bind. destruct (suppressed_by db _ org) eqn:E; [by exists db|].
  rewrite try_commit_bind. unfold insert_unique.
  destruct (existsb _ _) eqn:Ex.
  - apply existsb_exists in Ex as (s & Hin & Hc). unfold suppression_clash, same_some in Hc. cbn in Hc. bools.
    exfalso. apply not_true_iff_false in E. apply E, suppressed_by_spec. exists s.
    destruct (sup_organization_id s) as [o|]; [|done]. bools. naive_solver.
  - cbn. eexists. split; [done|]. split_and!; [|done..|].
    + apply suppressed_by_spec. eexists. split; [apply in_app_iff; right; by left|done].
    + intros s Hs. apply in_app_iff. by left.
Qed.

(** An address that an operator suppresses is mailed no more.  The route
    always succeeds, deletes nothing, and afterwards the first outreach, the
    follow-up and the approval of a draft of any tenant hand nothing to SMTP
    for that address, and the check that Transaction B of the dispatch worker
    makes is positive. *)
Theorem suppression_stops_sending `{LlmProvider} `{FromIsoformat} payload org u db :
  table_wf (messages db) →
  ∃ db', suppress_email payload org u db = (db', Ok ()) ∧
    check_suppressed (sq_email payload) org db' = (db', Ok true) ∧
    is_email_suppressed db' (sq_email payload) None = true ∧
    ∀ env contact times mid org', ct_email contact = sq_email payload →
      sendmails (st_trace (send_initial_outreach env db' contact)) = 0%nat ∧
      sendmails (st_trace (send_followup_if_due env db' contact times)) = 0%nat ∧
      (message_contact db' <$> get mid (messages db') = Some (Some contact) →
       sendmails (snd (approve_and_send_draft env mid org' db')) = 0%nat).
Proof.
  intros Hwf. destruct (suppress_email_Ok payload org u db) as (db' & Hs & Hsup & Hm & _). exists db'.
  assert (is_email_suppressed db' (sq_email payload) None = true) as Hn.
  { apply suppressed_spec. apply suppressed_by_spec in Hsup as (s & Hin & He & _). by exists s. }
  split_and!; [done|unfold check_suppressed, query; by rewrite Hsup|done|].
  intros env contact times mid org' He.
  assert (∀ tr, (∀ f t m res, In (EvSendmail f t m res) tr → False) → sendmails tr = 0%nat) as Hnil.
  { intros tr Htr. unfold sendmails. rewrite filter_false_nil; [done|].
    intros [] Hin; try done. exfalso. eauto. }
  assert (is_suppressed db' (ct_email contact) None = true) as Hc by (by rewrite is_suppressed_parity, He).
  split_and!.
  - apply Hnil. intros f t m res Hin.
    destruct (shape_gated _ _ _ _ _ (send_initial_shape env db' contact)) as [_ G].
    destruct (G _ _ _ _ Hin) as (? & (_ & _ & ? & _) & _). congruence.
  - apply Hnil. intros f t m res Hin.
    destruct (shape_gated _ _ _ _ _ (followup_shape env db' contact times)) as [_ G].
    destruct (G _ _ _ _ Hin) as (? & (_ & _ & ? & _) & _). congruence.
  - intros Hmc. apply Hnil. intros f t m res Hin.
    destruct (approve_and_send_draft env mid org' db') as [[db2 r] tr] eqn:Ea. cbn [snd] in Hin.
    apply approval_transmissions in Ea as (_ & G & _); [|by rewrite Hm].
    destruct (G _ _ _ _ Hin) as (msg & c' & cm & Ha & Hid & _).
    assert (get mid (messages db') = Some msg) as Hg.
    { rewrite <- Hid. apply (get_complete (messages db')); [by rewrite Hm|apply Ha]. }
    rewrite Hg in Hmc. cbn in Hmc. injection Hmc as Hmc. rewrite (av_contact _ _ _ _ _ _ Ha) in Hmc.
    injection Hmc as ->.
    pose proof (proj2 (not_suppressed_spec db' (ct_email contact)) (av_unsuppressed _ _ _ _ _ _ Ha)). congruence.
Qed.

(** *** Witnesses *)

(** A held draft for the native contact, with nothing unsupported in it. *)
Definition held_draft : Message :=
  mkMessage 9 2 OUTBOUND (Some MT_REPLY) (Some "Re: Hello") "Happy to tell you more." MS_DRAFT None None None
    None None None None None None None 5 (Some "ref-9").
Definition approval_db : Db :=
  set_messages (Table (rows (messages sample_db) ++ [held_draft]) 10) sample_db.

Lemma approval_db_messages : table_wf (messages approval_db).
Proof. split; cbn; repeat (constructor || lia). Qed.

Lemma approval_passes_every_gate_witness :
  ∃ db' r trace, approve_and_send_draft (sample_env 9) 9 "acme" approval_db = (db', r, trace) ∧
    ∃ f m res, In (EvSendmail f "eve@corp.io" m res) trace ∧
      ∃ msg contact campaign, approvable live_settings approval_db "acme" msg contact campaign.
Proof.
  destruct (approve_and_send_draft (sample_env 9) 9 "acme" approval_db) as [[db' r] trace] eqn:E.
  exists db', r, trace. split; [reflexivity|].
  destruct (approval_passes_every_gate _ _ _ _ _ _ _ approval_db_messages E) as (_ & G & _).
  vm_compute in E. injection E as _ _ Et. 
  assert (∃ f m res, In (EvSendmail f "eve@corp.io" m res) trace) as (f & m & res & Hin)
    by (rewrite <- Et; eexists _, _, _; do 3 right; left; reflexivity).
  exists f, m, res. split; [exact Hin|].
  destruct (G _ _ _ _ Hin) as (msg & contact & campaign & Ha & _).
  exists msg, contact, campaign. exact Ha.
Defined.

Lemma approval_settles_draft_witness :
  ∃ db' m trace, approve_and_send_draft (sample_env 9) 9 "acme" approval_db = (db', Ok m, trace) ∧
    ∃ detail, approve_and_send_draft (sample_env 10) 9 "acme" db' = (db', Err (HTTPException 400 detail), []).
Proof.
  destruct (approve_and_send_draft (sample_env 9) 9 "acme" approval_db) as [[db' [m|e]] trace] eqn:E;
    [|vm_compute in E; discriminate E].
  exists db', m, trace. split; [reflexivity|].
  destruct (approval_settles_draft _ _ _ _ _ _ _ approval_db_messages E) as (_ & _ & _ & _ & _ & G).
  exact (G (sample_env 10)).
Defined.

Lemma suppression_stops_sending_witness :
  ∃ db', suppress_email (mkSuppressRequest "eve@corp.io" (Some "manual")) "acme" 7 approval_db = (db', Ok ()) ∧
    sendmails (snd (approve_and_send_draft (sample_env 9) 9 "beta" db')) = 0%nat.
Proof.
  destruct (suppression_stops_sending (H:=sample_llm) (H0:=no_iso) (mkSuppressRequest "eve@corp.io" (Some "manual"))
    "acme" 7 approval_db approval_db_messages) as (db' & Hs & _ & _ & G).
  exists db'. split; [exact Hs|]. vm_compute in Hs. injection Hs as <-.
  apply (G (sample_env 9) native_contact (loaded native_contact) 9 "beta"); reflexivity.
Defined.
