(* ===== verification/ContactsApi.v ===== *)
(** * Contact routes ([src/mailer_agent/api/contacts.py])

    Reads of a contact and its thread, and the operator's lifecycle actions.
    A route runs in the request monad [M] of [Integrations]; the forced
    follow-up also transmits, so it returns the SMTP trace. *)

From S2P Require Import Prelude Sql Models Config WorkClaiming Lifecycle Sender StateMachine SemanticModels Regex Threading Grounding ExactMessage Llm Scheduling FollowUp Inbound Integrations Samples.

(** ** Helpers *)

Definition find_owned_contact (contact_id : Z) (org_id : string) (db : Db) : option Contact :=
  select_first (λ c, (ct_id c == contact_id) && (contact_org db c == Some org_id)) (contacts db).

Definition get_contact_or_404 (contact_id : Z) (org_id : string) : M Contact :=
  found ← query (find_owned_contact contact_id org_id);
  match found with
  | Some c => mret c
  | None => raise (HTTPException 404 "Contact not found")
  end.

(** [db.commit(); db.refresh(contact)]: the changed object is written, and read
    back from its row. *)
Definition commit_contact (utcnow : Z) (c : Contact) : M Contact :=
  λ db, let db' := write_contact utcnow c db in
        match get (ct_id c) (contacts db') with
        | Some r => (db', Ok r)
        | None => (db', Err (Crashed (mkExn (C_Other "InvalidRequestError") "Could not refresh instance")))
        end.

(** ** Reads *)

Definition get_contact (contact_id : Z) (org_id : string) : M Contact :=
  get_contact_or_404 contact_id org_id.

Definition get_thread (contact_id : Z) (org_id : string) : M (Contact * list Message) :=
  contact ← get_contact_or_404 contact_id org_id;
  messages ← query (λ db, contact_messages db contact);
  mret (contact, messages).

(** ** Lifecycle actions *)

Definition pause_contact (contact_id : Z) (org_id : string) (utcnow : Z) : M Contact :=
  contact ← get_contact_or_404 contact_id org_id;
  match transition_contact_state contact EV_MANUAL_PAUSE utcnow with
  | (_, false) =>
      raise (HTTPException 400 ("Cannot pause contact in state " +:+ ContactStatus_value (ct_status contact) +:+ ". "
                                +:+ "Only NEW or ACTIVE contacts can be paused."))
  | (c, true) => commit_contact utcnow (set_ct_next_action_at None c)
  end.

Definition resume_contact (contact_id : Z) (org_id : string) (utcnow : Z) : M Contact :=
  contact ← get_contact_or_404 contact_id org_id;
  match transition_contact_state contact EV_MANUAL_RESUME utcnow with
  | (_, false) =>
      raise (HTTPException 400 ("Cannot resume contact in state " +:+ ContactStatus_value (ct_status contact) +:+ ". "
                                +:+ "Only PAUSED, NEEDS_REVIEW, or SEQUENCE_COMPLETE contacts can be resumed."))
  | (c, true) => commit_contact utcnow c
  end.

Definition mark_won (contact_id : Z) (org_id : string) (utcnow : Z) : M Contact :=
  contact ← get_contact_or_404 contact_id org_id;
  match transition_contact_state contact EV_MANUAL_WON utcnow with
  | (_, false) =>
      raise (HTTPException 400 ("Cannot mark contact as won from state " +:+ ContactStatus_value (ct_status contact)
                                +:+ ". " +:+ "Contact must be in an active sales state."))
  | (c, true) => commit_contact utcnow (set_ct_next_action_at None c)
  end.

Definition forced_managed_detail : string :=
  "This contact is managed by an external integration; follow-ups "
  +:+ "cannot be forced through the native API.".
Definition forced_state_detail (s : ContactStatus) : string :=
  "Cannot force follow-up for contact in state " +:+ ContactStatus_value s +:+ ". "
  +:+ "Contact must be ACTIVE to send follow-ups.".

(** The two commits of the route: [next_action_at] is stored before the engine
    is called, and the commit expires the object, so the engine reads the row. *)
Definition force_followup `{LlmProvider} `{FromIsoformat} (env : SendEnv) (contact_id : Z) (org_id : string) (db : Db)
    : Db * result api_error (option EngineResult) * list smtp_event :=
  match get_contact_or_404 contact_id org_id db with
  | (_, Err e) => (db, Err e, [])
  | (_, Ok contact) =>
      if contact_is_integration_managed db (Some contact) then (db, Err (HTTPException 409 forced_managed_detail), [])
      else match can_send_followup (ct_status contact) (next_action_at (loaded contact)) (se_utcnow env) with
      | None =>
          (db, Err (Crashed (mkExn (C_Other "TypeError") "can't compare offset-naive and offset-aware datetimes")), [])
      | Some false => (db, Err (HTTPException 400 (forced_state_detail (ct_status contact))), [])
      | Some true =>
          match commit_contact (se_utcnow env) (set_ct_next_action_at (Some (se_utcnow env)) contact) db with
          | (db1, Err e) => (db1, Err e, [])
          | (db1, Ok contact) =>
              let s := send_followup_if_due env db1 contact (loaded contact) in
              match st_result s, flush (se_utcnow env) s db1 with
              | Err e, _ | _, Err e => (db1, Err (Crashed e), st_trace s)
              | Ok r, Ok db2 => (db2, Ok r, st_trace s)
              end
          end
      end
  end.

(** ** Facts *)

Lemma find_owned_contact_Some contact_id org db c :
  find_owned_contact contact_id org db = Some c →
  In c (rows (contacts db)) ∧ ct_id c = contact_id ∧ contact_org db c = Some org.
Proof. intros [Hin Hp]%select_first_Some. bools. done. Qed.

Lemma commit_contact_Ok u c db db' r :
  commit_contact u c db = (db', Ok r) →
  db' = write_contact u c db ∧ get (ct_id c) (contacts db') = Some r ∧
  ∃ t, r = set_ct_updated_at t c.
Proof.
  unfold commit_contact. destruct (get _ _) as [x|] eqn:E; [|done]. intros [= <- <-].
  split_and!; [done|done|]. rewrite write_contact_get, Z.eqb_refl in E.
  destruct (get (ct_id c) (contacts db)) as [old|]; [|done]. cbn in E. injection E as <-.
  destruct (bool_decide (old = c)) eqn:Eo; [|by exists u]. bools. subst. exists (ct_updated_at c). by destruct c.
Qed.

Lemma get_contact_bind {B} contact_id org (k : Contact → M B) db :
  (get_contact_or_404 contact_id org ≫= k) db =
    match find_owned_contact contact_id org db with
    | Some c => k c db
    | None => (db, Err (HTTPException 404 "Contact not found"))
    end.
Proof.
  unfold get_contact_or_404, mbind, M_bind, query. by destruct (find_owned_contact contact_id org db).
Qed.

(** The three lifecycle actions are one shape: an owned contact takes a legal
    edge, and only its row is written. *)
Lemma lifecycle_action ev contact_id org u (fin : Contact → Contact) detail db db' r :
  (∀ c, ct_id (fin c) = ct_id c) →
  (contact ← get_contact_or_404 contact_id org;
   match transition_contact_state contact ev u with
   | (_, false) => raise (HTTPException 400 (detail contact))
   | (c, true) => commit_contact u (fin c)
   end) db = (db', r) →
  match r with
  | Ok c' => ∃ c s t, find_owned_contact contact_id org db = Some c ∧ next_state (ct_status c) ev = Some s ∧
      get contact_id (contacts db') = Some c' ∧
      c' = set_ct_updated_at t (fin (set_ct_updated_at u (set_ct_status s c))) ∧
      db' = write_contact u (fin (set_ct_updated_at u (set_ct_status s c))) db
  | Err (HTTPException code _) => db' = db ∧ (code = 404 ↔ find_owned_contact contact_id org db = None)
  | Err _ => True
  end.
Proof.
  intros Hfin. rewrite get_contact_bind.
  destruct (find_owned_contact contact_id org db) as [c|] eqn:Ef; [|intros [= <- <-]; done].
  unfold transition_contact_state. destruct (next_state _ _) as [s|] eqn:En.
  - intros E. destruct r as [c'|e].
    + apply commit_contact_Ok in E as (-> & Hg & t & ->). exists c, s, t. split_and!; try done.
      rewrite Hfin in Hg. apply find_owned_contact_Some in Ef as (_ & <- & _). exact Hg.
    + unfold commit_contact in E. destruct (get _ _); [done|]. by injection E as <- <-.
  - cbn. intros [= <- <-]. done.
Qed.

(** A forced follow-up is never sent.  Whatever the contact, the clock, the
    model and the mail server are, the route answers with an error, changes
    nothing and transmits nothing: a contact that may get a follow-up at all
    is one with a scheduled time, and comparing that time, which was loaded
    without a zone, raises before the schedule is bypassed. *)
Theorem force_followup_never_sends `{LlmProvider} `{FromIsoformat} env contact_id org db :
  ∃ e, force_followup env contact_id org db = (db, Err e, []) ∧
    ∀ c t, find_owned_contact contact_id org db = Some c →
      contact_is_integration_managed db (Some c) = false →
      ct_status c = CS_ACTIVE → ct_next_action_at c = Some t →
      e = Crashed (mkExn (C_Other "TypeError") "can't compare offset-naive and offset-aware datetimes").
Proof.
  unfold force_followup, get_contact_or_404, mbind, M_bind, query.
  destruct (find_owned_contact contact_id org db) as [c|] eqn:Ef; [|by eexists].
  cbn [mret M_ret]. destruct (contact_is_integration_managed db (Some c)) eqn:Em.
  { eexists. split; [done|]. intros ? ? [= <-]. congruence. }
  unfold can_send_followup. destruct (bool_decide (ct_status c = CS_ACTIVE)) eqn:Es; cbn [negb]; bools.
  - unfold loaded. cbn [next_action_at]. destruct (ct_next_action_at c) as [t|] eqn:En; cbn.
    + by eexists.
    + eexists. split; [done|]. intros ? ? [= <-]. congruence.
  - eexists. split; [done|]. intros ? ? [= <-]. congruence.
Qed.

(** A row without a scheduled time is given to no worker. *)
Lemma unscheduled_not_claimed s settings lease w st limit u db i c :
  table_wf (contacts db) → get i (contacts db) = Some c → ct_next_action_at c = None →
  i ∉ map ct_id (snd (claim_due_contacts s settings lease w st limit u db)).
Proof.
  intros Hwf Hg Hn. destruct (claim_due_contacts s settings lease w st limit u db) as [db' cs] eqn:E.
  apply claim_due_contacts_spec in E as (_ & _ & Hcs); [|done]. cbn [snd].
  rewrite list_elem_of_In, in_map_iff. intros (c' & Hid & (c0 & Hin & ->)%Hcs).
  pose proof (due_contacts_In _ _ _ _ _ _ _ Hin) as (Hin0 & Hd & _).
  assert (c0 = c) as ->.
  { apply get_Some in Hg as [Hin' Hi]. apply (table_wf_inj (contacts db)); [done..|].
    change (ct_id c0 = row_id c). by rewrite Hi. }
  unfold contact_due in Hd. rewrite Hn in Hd. bools. done.
Qed.

Lemma write_contact_wf u c db : table_wf (contacts db) → table_wf (contacts (write_contact u c db)).
Proof. intros Hwf. by apply (update_pk_wf_at (ct_id c)). Qed.

(** Pausing works, and resuming does not.  A paused contact has no
    scheduled time and is given to no worker; after it is resumed it is ACTIVE
    again, but still without a scheduled time, so that no worker is ever given
    it either, at any later time and for any status asked for, and the
    sequence does not go on.  No other contact is touched by the two calls. *)
Theorem resumed_contact_never_due contact_id org u u' db db1 db2 c1 c2 :
  table_wf (contacts db) →
  pause_contact contact_id org u db = (db1, Ok c1) →
  resume_contact contact_id org u' db1 = (db2, Ok c2) →
  ct_status c1 = CS_PAUSED ∧ ct_status c2 = CS_ACTIVE ∧ ct_next_action_at c2 = None ∧
  get contact_id (contacts db2) = Some c2 ∧
  (∀ s settings lease w st limit now,
     (contact_id ∉ map ct_id (snd (claim_due_contacts s settings lease w st limit now db1))) ∧
     (contact_id ∉ map ct_id (snd (claim_due_contacts s settings lease w st limit now db2)))) ∧
  (∀ j, j ≠ contact_id → get j (contacts db2) = get j (contacts db)) ∧
  messages db2 = messages db ∧ campaigns db2 = campaigns db.
Proof.
  intros Hwf E1 E2.
  apply (lifecycle_action EV_MANUAL_PAUSE _ _ _ (set_ct_next_action_at None)
    (λ c, "Cannot pause contact in state " +:+ ContactStatus_value (ct_status c) +:+ ". "
          +:+ "Only NEW or ACTIVE contacts can be paused.")) in E1
    as (a & s1 & t1 & Ha & Hs1 & Hg1 & -> & ->); [|done].
  apply (lifecycle_action EV_MANUAL_RESUME _ _ _ id
    (λ c, "Cannot resume contact in state " +:+ ContactStatus_value (ct_status c) +:+ ". "
          +:+ "Only PAUSED, NEEDS_REVIEW, or SEQUENCE_COMPLETE contacts can be resumed.")) in E2
    as (b & s2 & t2 & Hb & Hs2 & Hg2 & -> & ->); [|done].
  apply find_owned_contact_Some in Ha as (_ & <- & _).
  apply find_owned_contact_Some in Hb as (Hinb & Hidb & _).
  pose proof (write_contact_wf u (set_ct_next_action_at None (set_ct_updated_at u (set_ct_status s1 a))) db Hwf) as Hwf1.
  assert (b = set_ct_updated_at t1 (set_ct_next_action_at None (set_ct_updated_at u (set_ct_status s1 a)))) as ->.
  { apply get_Some in Hg1 as [Hin _]. by apply (table_wf_inj _ _ _ Hwf1). }
  assert (s1 = CS_PAUSED) as -> by (destruct (ct_status a); vm_compute in Hs1; congruence).
  assert (s2 = CS_ACTIVE) as -> by (vm_compute in Hs2; congruence).
  split_and!; try done.
  - intros. split; [by apply (unscheduled_not_claimed _ _ _ _ _ _ _ _ _ _ Hwf1 Hg1)|].
    by apply (unscheduled_not_claimed _ _ _ _ _ _ _ _ _ _ (write_contact_wf _ _ _ Hwf1) Hg2).
  - intros j Hj. rewrite !write_contact_get. cbn. by rewrite (proj2 (Z.eqb_neq j (ct_id a)) Hj).
Qed.

(** *** Witnesses *)

Lemma resumed_contact_never_due_witness :
  ∃ db1 db2 c1 c2, pause_contact 2 "acme" 30 sample_db = (db1, Ok c1) ∧
    resume_contact 2 "acme" 40 db1 = (db2, Ok c2) ∧ ct_status c2 = CS_ACTIVE ∧
    2 ∉ map ct_id (snd (claim_due_contacts sqlite_session default_settings 300 "w1" CS_ACTIVE None 1000000 db2)).
Proof.
  destruct (pause_contact 2 "acme" 30 sample_db) as [db1 [c1|e]] eqn:E1; [|vm_compute in E1; discriminate E1].
  destruct (resume_contact 2 "acme" 40 db1) as [db2 [c2|e]] eqn:E2;
    [|vm_compute in E1; injection E1 as <- <-; vm_compute in E2; discriminate E2].
  exists db1, db2, c1, c2.
  destruct (resumed_contact_never_due _ _ _ _ _ _ _ _ _ (wf_contacts _ sample_db_wf) E1 E2)
    as (_ & Ha & _ & _ & Hn & _).
  split; [reflexivity|]. split; [exact E2|]. split; [exact Ha|].
  exact (proj2 (Hn sqlite_session default_settings 300 "w1" CS_ACTIVE None 1000000)).
Defined.
