(* ===== verification/CampaignsApi.v ===== *)
(** * Campaign routes and lead ingestion ([src/mailer_agent/api/campaigns.py],
    [src/mailer_agent/lead_ingestion.py])

    Creating and reading campaigns, adding contacts (all or nothing), ingesting
    leads of any shape (one by one) and starting a campaign.  Sessions do not
    flush by themselves, so a query sees only what was flushed; what other
    requests commit before a flush is an argument. *)

From S2P Require Import Prelude Sql Models Config WorkClaiming Lifecycle Sender StateMachine SemanticModels Regex Threading Grounding ExactMessage Llm Memory Scheduling FollowUp Inbound InboundSafety Integrations Samples.

(** ** Lead ingestion *)

Definition EMAIL_ALIASES : list string := ["email"; "contact_email"; "lead_email"; "to_email"].
Definition NAME_ALIASES : list string := ["contact_name"; "name"; "full_name"; "lead_name"].
Definition TITLE_ALIASES : list string := ["contact_title"; "title"; "job_title"; "role"; "position"].
Definition COMPANY_ALIASES : list string := ["company_name"; "company"; "organization_name"; "org_name"; "org"].

Definition CONTEXT_FIELD_ALIASES : list (string * list string) :=
  [("Industry", ["industry"]);
   ("Company size", ["employees"; "employee_count"; "headcount"]);
   ("Revenue band", ["revenue_band"; "revenue"]);
   ("Founded", ["founded_year"]);
   ("Website", ["website"; "domain"]);
   ("About", ["about_text"; "description"; "company_description"]);
   ("LinkedIn", ["linkedin_url"]);
   ("Lead qualification", ["qualification_label"]);
   ("Lead score", ["score"; "overall_score"])].

(** [v in (None, "")] *)
Definition blank (v : json) : bool := match v with JNull | JStr "" => true | _ => false end.

Fixpoint first_present (payload : list (string * json)) (keys : list string) : option json :=
  match keys with
  | [] => None
  | k :: r => let v := jget k payload in if negb (blank v) then Some v else first_present payload r
  end.

Record NormalizedLead := mkLead {
  nl_email : string;
  nl_name : option string;
  nl_title : option string;
  nl_company : option string;
  nl_context_notes : option string
}.

Definition known_keys : list string :=
  EMAIL_ALIASES ++ NAME_ALIASES ++ TITLE_ALIASES ++ COMPANY_ALIASES ++ flat_map snd CONTEXT_FIELD_ALIASES.

Section Ingestion.
Context `{FloatRepr}.

(** [str(v).strip() if v else None] *)
Definition stripped (v : option json) : option string :=
  match v with
  | Some v => if json_falsy v then None else Some (Str.strip (py_str v))
  | None => None
  end.

Definition context_lines (raw : list (string * json)) : list string :=
  omap (λ x, match first_present raw (snd x) with
             | Some v => Some (fst x +:+ ": " +:+ py_str v)
             | None => None
             end) CONTEXT_FIELD_ALIASES
  ++ match List.filter (λ x, negb (in_list (fst x) known_keys) && negb (blank (snd x))) raw with
     | [] => []
     | extra => ["Other supplied fields: " +:+ py_repr (JObj extra)]
     end.

Definition normalize_lead_payload (raw : list (string * json)) : result string NormalizedLead :=
  match first_present raw EMAIL_ALIASES with
  | Some email =>
      if json_falsy email then
        Err ("Could not find an email field. Looked for: " +:+ Str.repr_list EMAIL_ALIASES +:+ ". "
             +:+ "Payload keys received: " +:+ Str.repr_list (map fst raw))
      else
        Ok (mkLead (Str.lower (Str.strip (py_str email))) (stripped (first_present raw NAME_ALIASES))
              (stripped (first_present raw TITLE_ALIASES)) (stripped (first_present raw COMPANY_ALIASES))
              match context_lines raw with [] => None | l => Some (Str.join newline l) end)
  | None =>
      Err ("Could not find an email field. Looked for: " +:+ Str.repr_list EMAIL_ALIASES +:+ ". "
           +:+ "Payload keys received: " +:+ Str.repr_list (map fst raw))
  end.

End Ingestion.

(** ** Campaigns *)

Record CampaignCreate := mkCampaignCreate {
  cc_name : string;
  cc_sender_name : string;
  cc_sender_org : string;
  cc_sender_email : string;
  cc_reply_to_email : option string;
  cc_sender_title : option string;
  cc_sender_signature_extra : option string;
  cc_value_prop : string;
  cc_proof_points : option string;
  cc_tone : string;
  cc_follow_up_days : list Z;
  cc_timezone : string
}.

Definition new_campaign (payload : CampaignCreate) (org_id : string) (utcnow id : Z) : Campaign :=
  mkCampaign id (cc_name payload) (Some org_id) None (cc_sender_name payload) (cc_sender_org payload)
    (cc_sender_email payload) (cc_reply_to_email payload) (cc_sender_title payload)
    (cc_sender_signature_extra payload) (cc_value_prop payload) (cc_proof_points payload) (cc_tone payload)
    (cc_follow_up_days payload) (Some (Z.of_nat (length (cc_follow_up_days payload)))) (cc_timezone payload)
    true utcnow.

Definition create_campaign (payload : CampaignCreate) (org_id : string) (utcnow : Z) : M Campaign :=
  committed ← try_commit (λ db,
    match insert_unique campaign_clash "campaigns" (new_campaign payload org_id utcnow) (campaigns db) with
    | Ok (c, t) => Ok (set_campaigns t db, c)
    | Err e => Err e
    end);
  match committed with Ok c => mret c | Err e => raise (Unhandled e) end.

Definition campaign_newer (a b : Campaign) : Prop := cp_created_at b ≤ cp_created_at a.
#[global] Instance campaign_newer_dec a b : Decision (campaign_newer a b) := Z_le_dec _ _.

Definition list_campaigns (org_id : string) : M (list Campaign) :=
  query (λ db, merge_sort campaign_newer (select (λ c, cp_organization_id c == Some org_id) (campaigns db))).

Definition find_owned_campaign (campaign_id : Z) (org_id : string) (db : Db) : option Campaign :=
  select_first (λ c, (cp_id c == campaign_id) && (cp_organization_id c == Some org_id)) (campaigns db).

Definition get_campaign_or_404 (campaign_id : Z) (org_id : string) : M Campaign :=
  found ← query (find_owned_campaign campaign_id org_id);
  match found with
  | Some c => mret c
  | None => raise (HTTPException 404 "Campaign not found")
  end.

Definition get_campaign (campaign_id : Z) (org_id : string) : M Campaign := get_campaign_or_404 campaign_id org_id.

(** ** Contacts of a campaign *)

Record ContactCreate := mkContactCreate {
  cr_name : option string;
  cr_email : string;
  cr_title : option string;
  cr_company : option string;
  cr_context_notes : option string
}.

Definition new_contact (campaign_id : Z) (c : ContactCreate) (utcnow id : Z) : Contact :=
  mkContact id campaign_id (cr_name c) (cr_email c) (cr_title c) (cr_company c) (cr_context_notes c) CS_NEW 0
    None None None None 0%Q None None None utcnow utcnow.

Definition insert_contact (campaign_id : Z) (c : ContactCreate) (utcnow : Z) (db : Db) : result db_error (Contact * Db) :=
  match insert_unique contact_clash "uq_contacts_campaign_email" (new_contact campaign_id c utcnow) (contacts db) with
  | Ok (r, t) => Ok (r, set_contacts t db)
  | Err e => Err e
  end.

(** Which contacts of a bulk request are new: neither suppressed nor stored. *)
Definition addable (db : Db) (campaign_id : Z) (c : ContactCreate) : bool :=
  negb (is_suppressed db (cr_email c) None) && is_none (find_contact campaign_id (cr_email c) db).

Fixpoint insert_contacts (campaign_id : Z) (cs : list ContactCreate) (utcnow : Z) (db : Db)
    : result db_error (Db * list Contact) :=
  match cs with
  | [] => Ok (db, [])
  | c :: r =>
      x ← insert_contact campaign_id c utcnow db;
      y ← insert_contacts campaign_id r utcnow (snd x);
      mret (fst y, fst x :: snd y)
  end.

Definition duplicate_contacts_detail : string :=
  "One or more contacts already exist in this campaign "
  +:+ "(duplicate detected at database level). "
  +:+ "Re-POST the list without the duplicates, or use the leads/ingest "
  +:+ "endpoint which handles duplicates per-item.".

Definition add_contacts (race : Db → Db) (campaign_id : Z) (payload : list ContactCreate) (org_id : string) (utcnow : Z)
    : M (list Contact) :=
  _ ← get_campaign_or_404 campaign_id org_id;
  fresh ← query (λ db, List.filter (addable db campaign_id) payload);
  _ ← others race;
  committed ← try_commit (insert_contacts campaign_id fresh utcnow);
  match committed with
  | Ok created => mret created
  | Err _ => raise (HTTPException 409 duplicate_contacts_detail)
  end.

Definition list_contacts (campaign_id : Z) (org_id : string) : M (list Contact) :=
  _ ← get_campaign_or_404 campaign_id org_id;
  query (λ db, select (λ c, ct_campaign_id c == campaign_id) (contacts db)).

(** ** Ingestion, lead by lead *)

Inductive SkippedLead :=
  | SkipInvalid (reason : string) (raw : list (string * json))
  | SkipSuppressed (email : string)
  | SkipExists (email : string) (contact_id : Z)
  | SkipDuplicate (email : string).

(** The session of one request: the rows it sees, and which of them it has
    flushed but not committed. *)
Record Ingest := mkIngest {
  ig_db : Db;
  ig_own : list Z;
  ig_created : list (Z * string);
  ig_skipped : list SkippedLead
}.

(** [db.rollback()]: everything flushed so far is gone; used ids stay used. *)
Definition rollback_contacts (own : list Z) (db : Db) : Db :=
  set_contacts (Table (List.filter (λ c, negb (in_list (ct_id c) own)) (rows (contacts db))) (next_id (contacts db))) db.

Definition skip_lead (s : SkippedLead) (g : Ingest) : Ingest :=
  mkIngest (ig_db g) (ig_own g) (ig_created g) (ig_skipped g ++ [s]).

Definition lead_contact (n : NormalizedLead) : ContactCreate :=
  mkContactCreate (nl_name n) (nl_email n) (nl_title n) (nl_company n) (nl_context_notes n).

Definition ingest_lead `{FloatRepr} (race : Db → Db) (campaign_id utcnow : Z) (raw : list (string * json)) (g : Ingest)
    : Ingest :=
  match normalize_lead_payload raw with
  | Err reason => skip_lead (SkipInvalid reason raw) g
  | Ok n =>
      if is_suppressed (ig_db g) (nl_email n) None then skip_lead (SkipSuppressed (nl_email n)) g
      else match find_contact campaign_id (nl_email n) (ig_db g) with
      | Some existing => skip_lead (SkipExists (nl_email n) (ct_id existing)) g
      | None =>
          let db := race (ig_db g) in
          match insert_contact campaign_id (lead_contact n) utcnow db with
          | Err _ =>
              mkIngest (rollback_contacts (ig_own g) db) [] (ig_created g)
                (ig_skipped g ++ [SkipDuplicate (nl_email n)])
          | Ok (c, db') =>
              mkIngest db' (ig_own g ++ [ct_id c]) (ig_created g ++ [(ct_id c, ct_email c)]) (ig_skipped g)
          end
      end
  end.

Fixpoint ingest_loop `{FloatRepr} (races : list (Db → Db)) (campaign_id utcnow : Z) (leads : list (list (string * json)))
    (g : Ingest) : Ingest :=
  match leads with
  | [] => g
  | raw :: rest =>
      ingest_loop (tail races) campaign_id utcnow rest (ingest_lead (default id (head races)) campaign_id utcnow raw g)
  end.

(** The races are what other requests commit before the flush of each lead. *)
Definition ingest_leads `{FloatRepr} (races : list (Db → Db)) (campaign_id : Z) (leads : list (list (string * json)))
    (org_id : string) (utcnow : Z) : M (list (Z * string) * list SkippedLead) :=
  _ ← get_campaign_or_404 campaign_id org_id;
  modify (λ db, let g := ingest_loop races campaign_id utcnow leads (mkIngest db [] [] []) in
                (ig_db g, (ig_created g, ig_skipped g))).

(** ** Starting a campaign *)

Record Started := mkStarted { sd_campaign_id : Z; sd_queued : Z; sd_message : string }.

Definition managed_campaign_detail : string :=
  "This campaign is managed by an external integration and cannot "
  +:+ "be started through the native campaign API.".

Definition started_message `{FloatRepr} (settings : Settings) (campaign_id n : Z) : string :=
  "Queued " +:+ pretty n +:+ " contact(s) for sending. "
  +:+ "The scheduler will dispatch them with ~" +:+ float_repr (send_delay_seconds settings) +:+ "s staggering. "
  +:+ "Poll GET /campaigns/" +:+ pretty campaign_id +:+ "/contacts to track progress.".

Definition startable (campaign_id : Z) (c : Contact) : bool :=
  (ct_campaign_id c == campaign_id) && (ct_status c == CS_NEW).

(** [contact.next_action_at = now] on each object, flushed by the commit. *)
Definition scheduled_now (utcnow : Z) (c : Contact) : Contact :=
  set_ct_updated_at utcnow (set_ct_next_action_at (Some utcnow) c).

Definition start_campaign `{FloatRepr} (settings : Settings) (campaign_id : Z) (org_id : string) (utcnow : Z) : M Started :=
  campaign ← get_campaign_or_404 campaign_id org_id;
  match campaign_is_integration_managed (Some campaign) with
  | true => raise (HTTPException 409 managed_campaign_detail)
  | false =>
      n ← query (λ db, Z.of_nat (length (select (startable campaign_id) (contacts db))));
      match n with
      | 0 => mret (mkStarted campaign_id 0 "No new contacts to start")
      | _ =>
          modify (λ db,
            (set_contacts (fst (update_where (startable campaign_id) (scheduled_now utcnow) (contacts db))) db,
             mkStarted campaign_id n (started_message settings campaign_id n)))
      end
  end.

(** ** Facts *)

Lemma get_campaign_bind {B} campaign_id org (k : Campaign → M B) db :
  (get_campaign_or_404 campaign_id org ≫= k) db =
    match find_owned_campaign campaign_id org db with
    | Some c => k c db
    | None => (db, Err (HTTPException 404 "Campaign not found"))
    end.
Proof.
  unfold get_campaign_or_404, mbind, M_bind, query. by destruct (find_owned_campaign campaign_id org db).
Qed.

Lemma find_owned_campaign_Some campaign_id org db c :
  find_owned_campaign campaign_id org db = Some c →
  In c (rows (campaigns db)) ∧ cp_id c = campaign_id ∧ cp_organization_id c = Some org.
Proof. intros [Hin Hp]%select_first_Some. bools. done. Qed.

Lemma find_owned_campaign_get campaign_id org db :
  table_wf (campaigns db) →
  find_owned_campaign campaign_id org db =
    match get campaign_id (campaigns db) with
    | Some cm => if cp_organization_id cm == Some org then Some cm else None
    | None => None
    end.
Proof.
  intros Hwf. destruct (find_owned_campaign campaign_id org db) as [cm|] eqn:Ef.
  - apply find_owned_campaign_Some in Ef as (Hin & <- & Ho).
    change (cp_id cm) with (row_id cm). rewrite (get_complete _ cm Hwf Hin). by rewrite bool_decide_eq_true_2.
  - unfold find_owned_campaign in Ef. rewrite select_first_None in Ef.
    destruct (get campaign_id (campaigns db)) as [cm|] eqn:Eg; [|done]. apply get_Some in Eg as [Hin Hid].
    specialize (Ef cm Hin). change (cp_id cm = campaign_id) in Hid. rewrite Hid in Ef.
    rewrite bool_decide_eq_true_2 in Ef by done. cbn in Ef. by rewrite Ef.
Qed.

(** A contact that starting its native campaign scheduled is due for a worker
    that asks from then on. *)
Lemma scheduled_contact_due cm db db' c u now cutoff :
  table_wf (campaigns db) → get (cp_id cm) (campaigns db) = Some cm → cp_integration_source cm = None →
  campaigns db' = campaigns db → startable (cp_id cm) c = true → u ≤ now → unclaimed_or_expired cutoff c = true →
  contact_due db' CS_NEW now cutoff (scheduled_now u c) = true.
Proof.
  intros Hwf [Hin _]%get_Some Hn Hcm Hs Hu Hcl. unfold startable in Hs. bools. unfold contact_due. cbn.
  rewrite (bool_decide_true (ct_status c = CS_NEW)) by done.
  change (unclaimed_or_expired cutoff (scheduled_now u c)) with (unclaimed_or_expired cutoff c). rewrite Hcl.
  rewrite (proj2 (Z.leb_le u now) Hu), Hcm. cbn. apply negb_true_iff, not_true_iff_false.
  intros (cm' & Hin' & Hp)%existsb_exists. bools.
  assert (cm' = cm) as -> by (apply (table_wf_inj (campaigns db)); [done..|]; change (cp_id cm' = cp_id cm); congruence).
  congruence.
Qed.

(** What the route does, on every branch. *)
Lemma start_campaign_owned `{FloatRepr} settings campaign_id org u db :
  start_campaign settings campaign_id org u db =
    match find_owned_campaign campaign_id org db with
    | None => (db, Err (HTTPException 404 "Campaign not found"))
    | Some cm =>
        if is_not_none (cp_integration_source cm) then (db, Err (HTTPException 409 managed_campaign_detail))
        else
          let n := Z.of_nat (length (select (startable campaign_id) (contacts db))) in
          (set_contacts (fst (update_where (startable campaign_id) (scheduled_now u) (contacts db))) db,
           Ok (mkStarted campaign_id n
                 (if n =? 0 then "No new contacts to start" else started_message settings campaign_id n)))
    end.
Proof.
  unfold start_campaign. rewrite get_campaign_bind. destruct (find_owned_campaign campaign_id org db) as [cm|]; [|done].
  cbn [campaign_is_integration_managed]. destruct (is_not_none (cp_integration_source cm)); [done|].
  rewrite query_bind. destruct (select (startable campaign_id) (contacts db)) as [|x l] eqn:Es; [|done].
  rewrite update_where_none; [by destruct db|]. intros c Hc. destruct (startable campaign_id c) eqn:Ec; [|done].
  assert (In c (select (startable campaign_id) (contacts db))) as Hx by (by apply select_In). by rewrite Es in Hx.
Qed.

(** C30: starting a campaign makes exactly its new contacts due.  If the
    campaign is the tenant's and native, the route succeeds: every NEW contact
    of the campaign is scheduled for now, the reported number is theirs, every
    other row of the database is as it was, and from then on a worker that
    asks for NEW contacts is offered each of them whose claim is free or
    expired.  If it is the tenant's and an integration's, the answer is 409;
    if it does not exist or is another tenant's (native or not) the answer is
    404, so the two cannot be told apart; nothing changes then. *)
Theorem start_makes_contacts_due `{FloatRepr} settings campaign_id org u db db' r :
  table_wf (campaigns db) →
  start_campaign settings campaign_id org u db = (db', r) →
  match get campaign_id (campaigns db) with
  | None => db' = db ∧ r = Err (HTTPException 404 "Campaign not found")
  | Some cm =>
      if negb (cp_organization_id cm == Some org) then db' = db ∧ r = Err (HTTPException 404 "Campaign not found")
      else if is_not_none (cp_integration_source cm) then db' = db ∧ r = Err (HTTPException 409 managed_campaign_detail)
      else
        (∃ sd, r = Ok sd ∧ sd_campaign_id sd = campaign_id ∧
               sd_queued sd = Z.of_nat (length (select (startable campaign_id) (contacts db)))) ∧
        db' = set_contacts (contacts db') db ∧
        (∀ i, get i (contacts db') =
           option_map (λ c, if startable campaign_id c then scheduled_now u c else c) (get i (contacts db))) ∧
        (∀ i c now cutoff, get i (contacts db) = Some c → startable campaign_id c = true →
           u ≤ now → unclaimed_or_expired cutoff c = true →
           ∃ c', get i (contacts db') = Some c' ∧ contact_due db' CS_NEW now cutoff c' = true)
  end.
Proof.
  intros Hwf. rewrite start_campaign_owned, (find_owned_campaign_get _ _ _ Hwf).
  destruct (get campaign_id (campaigns db)) as [cm|] eqn:Hg; [|by intros [= <- <-]].
  assert (cp_id cm = campaign_id) as <- by (by apply get_Some in Hg as [_ ?]).
  destruct (cp_organization_id cm == Some org); cbn [negb]; [|by intros [= <- <-]].
  destruct (is_not_none (cp_integration_source cm)) eqn:Ei; [by intros [= <- <-]|]. intros [= <- <-].
  assert (cp_integration_source cm = None) as Hn by (unfold is_not_none in Ei; by destruct (cp_integration_source cm)).
  assert (∀ i, get i (fst (update_where (startable (cp_id cm)) (scheduled_now u) (contacts db))) =
    option_map (λ c, if startable (cp_id cm) c then scheduled_now u c else c) (get i (contacts db))) as Hget
    by (intros i; by apply get_update_where).
  split_and!; [by eexists|done|exact Hget|].
  intros i c now cutoff Hc Hs Hu Hcl. exists (scheduled_now u c). split.
  - etrans; [apply Hget|]. by rewrite Hc; cbn; rewrite Hs.
  - by eapply (scheduled_contact_due cm db).
Qed.

Lemma insert_contact_cases campaign_id c u db :
  (∃ r, r = new_contact campaign_id c u (next_id (contacts db)) ∧
     insert_contact campaign_id c u db = Ok (r, set_contacts (Table (rows (contacts db) ++ [r]) (next_id (contacts db) + 1)) db) ∧
     ∀ x, In x (rows (contacts db)) → ct_campaign_id x = campaign_id → ct_email x ≠ cr_email c) ∨
  (∃ e x, insert_contact campaign_id c u db = Err e ∧ In x (rows (contacts db)) ∧ ct_campaign_id x = campaign_id ∧
     ct_email x = cr_email c).
Proof.
  unfold insert_contact, insert_unique. destruct (existsb _ _) eqn:Ex.
  - right. apply existsb_exists in Ex as (x & Hin & Hc). unfold contact_clash in Hc. cbn in Hc. bools.
    by eexists _, x.
  - left. eexists. split_and!; [done|done|]. intros x Hin Hc He.
    assert (existsb (contact_clash (new_contact campaign_id c u (next_id (contacts db)))) (rows (contacts db)) = true) as Ht.
    { apply existsb_exists. exists x. split; [done|]. unfold contact_clash. cbn.
      by rewrite Hc, He, !bool_decide_true. }
    congruence.
Qed.

(** What a flush of new contacts does, in terms of the addresses alone. *)
Definition insertable (campaign_id : Z) (cs : list ContactCreate) (db : Db) : Prop :=
  NoDup (map cr_email cs) ∧
  ∀ x, In x (rows (contacts db)) → ct_campaign_id x = campaign_id → ct_email x ∉ map cr_email cs.

Lemma insert_contacts_spec campaign_id u cs : ∀ db,
  match insert_contacts campaign_id cs u db with
  | Ok (db', created) =>
      insertable campaign_id cs db ∧ db' = set_contacts (contacts db') db ∧
      rows (contacts db') = rows (contacts db) ++ created ∧
      Forall2 (λ c r, ∃ i, r = new_contact campaign_id c u i) cs created
  | Err _ => ¬ insertable campaign_id cs db
  end.
Proof.
  induction cs as [|c cs IH]; intros db; cbn [insert_contacts].
  { split_and!; [split; [constructor|intros; apply not_elem_of_nil]|by destruct db|by rewrite app_nil_r|constructor]. }
  destruct (insert_contact_cases campaign_id c u db) as [(r & Hr & -> & Hfree)|(e & x & -> & Hin & Hc & He)]; cbn [mbind result_bind].
  2:{ intros [_ Hall]. apply (Hall x Hin Hc). rewrite He. by left. }
  cbn [fst snd]. set (db1 := set_contacts _ db). specialize (IH db1).
  destruct (insert_contacts campaign_id cs u db1) as [[db2 created]|e]; cbn.
  - destruct IH as ([Hnd Hall] & Hdb & Hrows & Hf). split_and!.
    + split; cbn.
      * constructor; [|done]. replace (cr_email c) with (ct_email r) by (by rewrite Hr).
        apply (Hall r); [|by rewrite Hr]. apply in_app_iff. right. by left.
      * intros x Hin Hc. apply not_elem_of_cons. split; [by apply Hfree|].
        apply Hall; [|done]. apply in_app_iff. by left.
    + rewrite Hdb. by destruct db.
    + rewrite Hrows. cbn. by rewrite <- app_assoc.
    + constructor; [by eexists|done].
  - intros [Hnd Hall]. apply IH. cbn in Hnd. apply NoDup_cons in Hnd as [Hni Hnd]. split; [done|].
    intros x [Hin|[<-|[]]]%in_app_iff Hc.
    + intros Hx. apply (Hall x Hin Hc). by right.
    + by rewrite Hr.
Qed.

(** Contacts are added all or none.  If the request succeeds, the database
    has exactly the listed new contacts more (NEW, unscheduled, in this
    campaign of the tenant), in order: those of the list that were neither
    suppressed by anyone nor already in the campaign.  It fails with 409, and
    adds nobody, exactly when two of them have one address or another request
    has added one meanwhile. *)
Theorem add_contacts_all_or_nothing race campaign_id payload org u db db' r :
  add_contacts race campaign_id payload org u db = (db', r) →
  let fresh := List.filter (addable db campaign_id) payload in
  match r with
  | Ok created =>
      is_Some (find_owned_campaign campaign_id org db) ∧ insertable campaign_id fresh (race db) ∧
      db' = set_contacts (contacts db') (race db) ∧
      rows (contacts db') = rows (contacts (race db)) ++ created ∧
      Forall2 (λ c x, ∃ i, x = new_contact campaign_id c u i) fresh created ∧
      ∀ c s, In c fresh → In s (rows (suppressions db)) → sup_email s ≠ cr_email c
  | Err (HTTPException 409 _) => db' = race db ∧ ¬ insertable campaign_id fresh (race db)
  | Err _ => db' = db ∧ find_owned_campaign campaign_id org db = None
  end.
Proof.
  unfold add_contacts. rewrite get_campaign_bind. cbn zeta.
  destruct (find_owned_campaign campaign_id org db) as [cm|] eqn:Ef; [|intros [= <- <-]; done].
  rewrite query_bind, others_bind, try_commit_bind.
  set (fresh := List.filter (addable db campaign_id) payload).
  pose proof (insert_contacts_spec campaign_id u fresh (race db)) as Hs.
  destruct (insert_contacts campaign_id fresh u (race db)) as [[db1 created]|e]; cbn; intros [= <- <-]; [|done].
  destruct Hs as (Hi & Hdb & Hrows & Hf). split_and!; try done.
  intros c s [_ Ha]%filter_In Hin. unfold addable in Ha. bools. by apply (proj1 (not_suppressed_spec db (cr_email c))).
Qed.

(** Other requests delete no contact. *)
Definition keeps_contacts (f : Db → Db) : Prop :=
  ∀ db, table_wf (contacts db) →
    table_wf (contacts (f db)) ∧ ∀ i c, get i (contacts db) = Some c → get i (contacts (f db)) = Some c.

Definition no_conflict (l : list SkippedLead) : Prop := ∀ e, ¬ In (SkipDuplicate e) l.

(** Everything reported as created is stored, while no flush has failed. *)
Definition reported (campaign_id : Z) (g : Ingest) : Prop :=
  table_wf (contacts (ig_db g)) ∧
  (no_conflict (ig_skipped g) → ∀ i e, In (i, e) (ig_created g) →
     ∃ c, get i (contacts (ig_db g)) = Some c ∧ ct_email c = e ∧ ct_campaign_id c = campaign_id ∧
          ct_status c = CS_NEW ∧ ct_next_action_at c = None).

Lemma skip_reported campaign_id s g : reported campaign_id g → reported campaign_id (skip_lead s g).
Proof.
  intros [Hwf Hr]. split; [done|]. intros Hn. apply Hr. intros e He. apply (Hn e), in_app_iff. by left.
Qed.

Lemma ingest_lead_reported `{FloatRepr} race campaign_id u raw g :
  keeps_contacts race → reported campaign_id g → reported campaign_id (ingest_lead race campaign_id u raw g).
Proof.
  intros Hk Hg. unfold ingest_lead. destruct (normalize_lead_payload raw) as [n|reason]; [|by apply skip_reported].
  destruct (is_suppressed _ _ _); [by apply skip_reported|].
  destruct (find_contact _ _ _); [by apply skip_reported|]. destruct Hg as [Hwf Hr].
  destruct (Hk _ Hwf) as [Hwf' Hold].
  destruct (insert_contact_cases campaign_id (lead_contact n) u (race (ig_db g)))
    as [(c & Hc & -> & _)|(e & x & -> & _)].
  - split; cbn [ig_db ig_skipped ig_created contacts set_contacts].
    + rewrite Hc. by apply (insert_row_wf (new_contact campaign_id (lead_contact n) u)).
    + intros Hn i e [Hin|[[= <- <-]|[]]]%in_app_iff.
      * destruct (Hr Hn i e Hin) as (c0 & Hg & Hs). exists c0. split; [|done].
        rewrite Hc. etrans; [apply (insert_row_get_old (new_contact campaign_id (lead_contact n) u));
          [done|by eapply get_lt_next, Hold|done]|by apply Hold].
      * exists c. split; [|by rewrite Hc]. rewrite Hc.
        exact (insert_row_get_new (new_contact campaign_id (lead_contact n) u) _ Hwf' (λ _, eq_refl)).
  - split; cbn [ig_db ig_skipped ig_created].
    + by apply filter_wf.
    + intros Hn. destruct (Hn (nl_email n)). apply in_app_iff. right. by left.
Qed.

Lemma ingest_loop_reported `{FloatRepr} campaign_id u leads : ∀ races g,
  Forall keeps_contacts races → reported campaign_id g → reported campaign_id (ingest_loop races campaign_id u leads g).
Proof.
  induction leads as [|raw leads IH]; intros races g Hk Hg; cbn [ingest_loop]; [done|]. apply IH.
  - destruct Hk; [constructor|done].
  - apply ingest_lead_reported; [|done]. destruct Hk; [by intros db|done].
Qed.

(** The sample conflict: another request adds the second address just before
    its flush. *)
Definition lost_leads : list (list (string * json)) :=
  [[("email", JStr " Kim@New.io ")]; [("contact_email", JStr "lee@new.io")]].
Definition rival_contact (db : Db) : Db :=
  match insert_contact 2 (mkContactCreate None "lee@new.io" None None None) 6 db with
  | Ok (_, db') => db'
  | Err _ => db
  end.

(** Ingestion reports contacts it has lost.  As long as no flush fails,
    every contact the response lists as created is stored, as a NEW and
    unscheduled contact of the campaign.  When a flush fails, because another
    request has added the same address meanwhile, the rollback also undoes the
    leads of the batch that were flushed before, but the response still lists
    them as created: in the sample the first lead is reported with its id, and
    no such row exists. *)
Theorem ingest_reports_until_conflict `{FloatRepr} races campaign_id leads org u db db' created skipped :
  table_wf (contacts db) → Forall keeps_contacts races →
  ingest_leads races campaign_id leads org u db = (db', Ok (created, skipped)) →
  (no_conflict skipped →
   ∀ i e, In (i, e) created →
     ∃ c, get i (contacts db') = Some c ∧ ct_email c = e ∧ ct_campaign_id c = campaign_id ∧
          ct_status c = CS_NEW ∧ ct_next_action_at c = None) ∧
  ∃ lost, ingest_leads [id; rival_contact] 2 lost_leads "acme" 7 sample_db
          = (lost, Ok ([(3, "kim@new.io")], [SkipDuplicate "lee@new.io"])) ∧
    get 3 (contacts lost) = None ∧ find_contact 2 "kim@new.io" lost = None.
Proof.
  intros Hwf Hk E. split.
  - unfold ingest_leads in E. rewrite get_campaign_bind in E.
    destruct (find_owned_campaign campaign_id org db); [|done]. unfold modify in E. cbn in E. injection E as <- <- <-.
    apply (ingest_loop_reported campaign_id u leads races (mkIngest db [] [] []) Hk). by split.
  - eexists. split_and!; vm_compute; reflexivity.
Qed.

(** *** Witnesses *)

Lemma keeps_rival : keeps_contacts rival_contact.
Proof.
  intros db Hwf. unfold rival_contact.
  destruct (insert_contact_cases 2 (mkContactCreate None "lee@new.io" None None None) 6 db)
    as [(c & Hc & -> & _)|(e & x & -> & _)]; [|done]. rewrite Hc. cbn [contacts set_contacts]. split.
  - by apply (insert_row_wf (new_contact 2 _ 6)).
  - intros i c' Hg. etrans; [|exact Hg]. apply (insert_row_get_old (new_contact 2 _ 6)); [done| |done].
    by eapply get_lt_next.
Qed.

Lemma ingest_reports_until_conflict_witness :
  ∃ db', ingest_leads (H:=no_floats) [id; rival_contact] 2 lost_leads "acme" 7 sample_db
         = (db', Ok ([(3, "kim@new.io")], [SkipDuplicate "lee@new.io"])) ∧
    ∃ lost, get 3 (contacts lost) = None.
Proof.
  destruct (ingest_leads (H:=no_floats) [id; rival_contact] 2 lost_leads "acme" 7 sample_db) as [db' [[cr sk]|e]] eqn:E;
    [|vm_compute in E; discriminate E].
  assert (Forall keeps_contacts [id; rival_contact]) as Hk
    by (constructor; [by intros db Hwf|constructor; [exact keeps_rival|constructor]]).
  destruct (ingest_reports_until_conflict (H:=no_floats) _ _ _ _ _ _ _ _ _ (wf_contacts _ sample_db_wf) Hk E)
    as (_ & lost & _ & Hl & _).
  exists db'. split; [vm_compute in E; injection E as _ <- <-; reflexivity|]. exists lost. exact Hl.
Defined.

Lemma add_contacts_all_or_nothing_witness :
  ∃ db' created, add_contacts id 2 [mkContactCreate None "kim@new.io" None None None] "acme" 7 sample_db
                 = (db', Ok created) ∧ rows (contacts db') = rows (contacts sample_db) ++ created.
Proof.
  destruct (add_contacts id 2 [mkContactCreate None "kim@new.io" None None None] "acme" 7 sample_db)
    as [db' [created|e]] eqn:E; [|vm_compute in E; discriminate E].
  exists db', created. split; [reflexivity|].
  exact (proj1 (proj2 (proj2 (proj2 (add_contacts_all_or_nothing _ _ _ _ _ _ _ _ E))))).
Defined.

Lemma start_makes_contacts_due_witness :
  ∃ db' sd, start_campaign (H:=no_floats) default_settings 2 "acme" 50 new_contacts_db = (db', Ok sd) ∧
    ∃ c', get (ct_id eve) (contacts db') = Some c' ∧ contact_due db' CS_NEW 60 0 c' = true.
Proof.
  destruct (start_campaign (H:=no_floats) default_settings 2 "acme" 50 new_contacts_db) as [db' r] eqn:E.
  assert (table_wf (campaigns new_contacts_db)) as Hwf by (split; cbn; repeat (constructor || lia)).
  destruct (start_makes_contacts_due (H:=no_floats) _ _ _ _ _ _ _ Hwf E) as ((sd & -> & _) & _ & _ & Hd).
  exists db', sd. split; [reflexivity|]. apply (Hd (ct_id eve) eve 60 0); vm_compute; try reflexivity; discriminate.
Defined.

Lemma join_mentions sep x l : In x l → ∃ a b, Str.join sep l = a +:+ x +:+ b.
Proof.
  induction l as [|y l IH]; [done|]. intros [->|Hin].
  - destruct l as [|z l]; [by exists "", ""; rewrite string_app_nil_r|]. by exists "", (sep +:+ Str.join sep (z :: l)).
  - destruct (IH Hin) as (a & b & E). destruct l as [|z l]; [done|].
    exists (y +:+ sep +:+ a), b. change (Str.join sep (y :: z :: l)) with (y +:+ sep +:+ Str.join sep (z :: l)).
    rewrite E. by rewrite !string_app_assoc.
Qed.

(** A field the service does not recognize is not dropped: it is quoted in the
    notes, with its name.  (An address of blanks is accepted, though, and
    becomes the empty one.) *)
Theorem unrecognized_field_kept `{FloatRepr} raw n k v :
  normalize_lead_payload raw = Ok n → In (k, v) raw → k ∉ known_keys → blank v = false →
  ∃ a b, nl_context_notes n = Some (a +:+ (Str.repr k +:+ ": " +:+ py_repr v) +:+ b).
Proof.
  unfold normalize_lead_payload. intros E Hin Hk Hb.
  assert (∃ line a b, In line (context_lines raw) ∧ line = a +:+ (Str.repr k +:+ ": " +:+ py_repr v) +:+ b)
    as (line & a & b & Hl & ->).
  { unfold context_lines. set (extra := List.filter _ raw).
    assert (In (k, v) extra) as He.
    { apply filter_In. split; [done|]. cbn. unfold in_list. by rewrite bool_decide_false, Hb. }
    assert (In (Str.repr k +:+ ": " +:+ py_repr v)
              (map (λ x, Str.repr (fst x) +:+ ": " +:+ py_repr (snd x)) extra)) as Hm
      by (apply in_map_iff; by exists (k, v)).
    apply (join_mentions ", ") in Hm as (a & b & Hj).
    exists ("Other supplied fields: " +:+ py_repr (JObj extra)), ("Other supplied fields: {" +:+ a), (b +:+ "}"). split.
    - apply in_app_iff. right. destruct extra; [done|by left].
    - cbn [py_repr]. rewrite Hj. cbn. by rewrite !string_app_assoc. }
  pose proof Hl as (a' & b' & Hj)%(join_mentions newline).
  exists (a' +:+ a), (b +:+ b'). destruct (first_present raw EMAIL_ALIASES) as [email|]; [|done].
  destruct (json_falsy email); [done|]. injection E as <-. cbn [nl_context_notes].
  destruct (context_lines raw) as [|x l] eqn:Ec; [destruct Hl|].
  change (Some (Str.join newline (x :: l)) = Some ((a' +:+ a) +:+ (Str.repr k +:+ ": " +:+ py_repr v) +:+ b +:+ b')).
  by rewrite Hj, !string_app_assoc.
Qed.

Lemma unrecognized_field_kept_witness :
  ∃ n a b, normalize_lead_payload (H:=no_floats) [("email", JStr "k@x.io"); ("crm_owner", JStr "Zoe")] = Ok n ∧
    nl_context_notes n = Some (a +:+ (Str.repr "crm_owner" +:+ ": " +:+ py_repr (H:=no_floats) (JStr "Zoe")) +:+ b).
Proof.
  destruct (normalize_lead_payload (H:=no_floats) [("email", JStr "k@x.io"); ("crm_owner", JStr "Zoe")]) as [n|e] eqn:E;
    [|vm_compute in E; discriminate E].
  destruct (unrecognized_field_kept (H:=no_floats) _ n "crm_owner" (JStr "Zoe") E) as (a & b & Hn);
    [right; left; reflexivity|by vm_compute; intros Hin; repeat (apply elem_of_cons in Hin as [[=]|Hin]);
       apply elem_of_nil in Hin|reflexivity|].
  exists n, a, b. split; [reflexivity|exact Hn].
Defined.

(** A blank address passes the check for a usable one. *)
Example blank_address_accepted :
  nl_email <$> match normalize_lead_payload (H:=no_floats) [("email", JStr "  ")] with Ok n => Some n | Err _ => None end
  = Some "".
Proof. reflexivity. Qed.
