(* ===== verification/MailboxesApi.v ===== *)
(** * Mailbox routes ([src/mailer_agent/api/mailboxes.py])

    Creating, listing and updating the sending identities of an organization.
    Passwords are encrypted before anything is written.  The payloads are the
    validated models of [src/mailer_agent/schemas.py]; their constraints are
    [create_valid] and [update_valid]. *)

From S2P Require Import Prelude Sql Models Config WorkClaiming Lifecycle Sender Regex Grounding ExactMessage Integrations Samples.

#[global] Instance Mailbox_eq_dec : EqDecision Mailbox.
Proof. solve_decision. Defined.

(** ** Payloads *)

Record MailboxCreate := mkMailboxCreate {
  mk_email_address : string;
  mk_smtp_host : string;
  mk_smtp_port : Z;
  mk_smtp_use_tls : bool;
  mk_smtp_username : string;
  mk_smtp_password : string;
  mk_imap_host : option string;
  mk_imap_port : option Z;
  mk_imap_username : option string;
  mk_imap_password : option string
}.

Record MailboxUpdate := mkMailboxUpdate {
  up_status : option MailboxStatus;
  up_smtp_password : option string;
  up_imap_password : option string;
  up_imap_host : option string;
  up_imap_port : option Z;
  up_imap_username : option string;
  up_smtp_host : option string;
  up_smtp_port : option Z;
  up_smtp_use_tls : option bool;
  up_smtp_username : option string
}.

(** [_Text]: stripped, 1 to 255 characters; a port; [_Password]: 1 to 1024. *)
Definition text_ok (s : string) : bool := (Str.strip s == s) && (0 <? Str.len s)%nat && (Str.len s <=? 255)%nat.
Definition port_ok (n : Z) : bool := (1 <=? n) && (n <=? 65535).
Definition password_ok (s : string) : bool := (0 <? Str.len s)%nat && (Str.len s <=? 1024)%nat.
Definition opt_ok {A} (p : A → bool) (o : option A) : bool := match o with Some a => p a | None => true end.

(** [_imap_all_or_none].  The syntax of an address is checked by [EmailStr]; here it is only lower case. *)
Definition all_or_none (bs : list bool) : bool := forallb id bs || negb (existsb id bs).

Definition create_valid (p : MailboxCreate) : bool :=
  (Str.lower (mk_email_address p) == mk_email_address p)
  && text_ok (mk_smtp_host p) && port_ok (mk_smtp_port p) && text_ok (mk_smtp_username p)
  && password_ok (mk_smtp_password p) && opt_ok text_ok (mk_imap_host p) && opt_ok port_ok (mk_imap_port p)
  && opt_ok text_ok (mk_imap_username p) && opt_ok password_ok (mk_imap_password p)
  && all_or_none [is_not_none (mk_imap_host p); is_not_none (mk_imap_port p); is_not_none (mk_imap_username p);
                  is_not_none (mk_imap_password p)].

Definition update_valid (p : MailboxUpdate) : bool :=
  opt_ok password_ok (up_smtp_password p) && opt_ok password_ok (up_imap_password p)
  && opt_ok text_ok (up_imap_host p) && opt_ok port_ok (up_imap_port p) && opt_ok text_ok (up_imap_username p)
  && opt_ok text_ok (up_smtp_host p) && opt_ok port_ok (up_smtp_port p) && opt_ok text_ok (up_smtp_username p)
  && (negb (is_not_none (up_imap_host p) || is_not_none (up_imap_port p) || is_not_none (up_imap_username p))
      || (is_not_none (up_imap_host p) && is_not_none (up_imap_port p) && is_not_none (up_imap_username p)
          && is_not_none (up_imap_password p))).

(** ** Routes *)

Definition mailbox_clash (n r : Mailbox) : bool :=
  (mb_public_reference n == mb_public_reference r)
  || ((mb_organization_id n == mb_organization_id r) && (mb_email_address n == mb_email_address r)).

Definition DUPLICATE : string := "A mailbox with this email address already exists for this organization".
Definition encryption_unavailable : api_error :=
  HTTPException 503 "Mailbox credential encryption is not configured".

(** A secret error as the route sees it: only [MailboxEncryptionUnavailable] is caught. *)
Definition lift_secret {A} (r : result secret_error A) : result api_error A :=
  match r with
  | Ok a => Ok a
  | Err (MailboxEncryptionUnavailable _) => Err encryption_unavailable
  | Err (MailboxDecryptionError m) => Err (Crashed (mkExn (C_Other "MailboxDecryptionError") m))
  | Err (SecretOther e) => Err (Crashed e)
  end.

Definition of_result {A} (r : result api_error A) : M A := λ db, (db, r).

Definition find_owned_mailbox (org_id public_reference : string) (db : Db) : option Mailbox :=
  select_first (λ m, (mb_public_reference m == public_reference) && (mb_organization_id m == org_id)) (mailboxes db).

Definition get_owned (org_id public_reference : string) : M Mailbox :=
  found ← query (find_owned_mailbox org_id public_reference);
  match found with
  | Some m => mret m
  | None => raise (HTTPException 404 "Mailbox not found")
  end.

Section Routes.
Context `{Fernet}.

Definition encrypt_opt (settings : Settings) (nonce : string) (p : option string)
    : result secret_error (option string) :=
  match p with
  | Some s => t ← encrypt_secret settings nonce s; mret (Some t)
  | None => Ok None
  end.

Definition encrypt_both (settings : Settings) (nonce nonce' : string) (smtp imap : option string)
    : result secret_error (option string * option string) :=
  s ← encrypt_opt settings nonce smtp; i ← encrypt_opt settings nonce' imap; mret (s, i).

Definition new_mailbox (p : MailboxCreate) (org_id reference smtp_enc : string) (imap_enc : option string)
    (utcnow id : Z) : Mailbox :=
  mkMailbox id reference org_id (mk_email_address p) (mk_smtp_host p) (mk_smtp_port p) (mk_smtp_use_tls p)
    (mk_smtp_username p) smtp_enc (mk_imap_host p) (mk_imap_port p) (mk_imap_username p) imap_enc MB_ACTIVE
    utcnow utcnow.

(** The nonces and the random reference of the request are arguments, and so
    is what other requests commit before its own commit. *)
Definition create_mailbox (settings : Settings) (nonce nonce' reference : string) (race : Db → Db)
    (p : MailboxCreate) (org_id : string) (utcnow : Z) : M Mailbox :=
  encrypted ← of_result (lift_secret (encrypt_both settings nonce nonce' (Some (mk_smtp_password p)) (mk_imap_password p)));
  exists_ ← query (λ db, select_first (λ m, (mb_organization_id m == org_id)
                                            && (mb_email_address m == mk_email_address p)) (mailboxes db));
  match exists_ with
  | Some _ => raise (HTTPException 409 DUPLICATE)
  | None =>
      _ ← others race;
      committed ← try_commit (λ db,
        match insert_unique mailbox_clash "mailboxes"
                (new_mailbox p org_id reference (default "" (fst encrypted)) (snd encrypted) utcnow) (mailboxes db) with
        | Ok (m, t) => Ok (set_mailboxes t db, m)
        | Err e => Err e
        end);
      match committed with Ok m => mret m | Err _ => raise (HTTPException 409 DUPLICATE) end
  end.

Definition mailbox_older (a b : Mailbox) : Prop :=
  mb_created_at a < mb_created_at b ∨ (mb_created_at a = mb_created_at b ∧ mb_id a ≤ mb_id b).
#[global] Instance mailbox_older_dec a b : Decision (mailbox_older a b).
Proof. unfold mailbox_older. apply _. Defined.

Definition list_mailboxes (org_id : string) : M (list Mailbox) :=
  query (λ db, merge_sort mailbox_older (select (λ m, mb_organization_id m == org_id) (mailboxes db))).

Definition get_mailbox (public_reference org_id : string) : M Mailbox := get_owned org_id public_reference.

(** The assignments of the route, in order. *)
Definition updated_mailbox (p : MailboxUpdate) (smtp_enc imap_enc : option string) (m : Mailbox) : Mailbox :=
  let sets_imap_config := is_not_none (up_imap_host p) in
  mkMailbox (mb_id m) (mb_public_reference m) (mb_organization_id m) (mb_email_address m)
    (default (mb_smtp_host m) (up_smtp_host p)) (default (mb_smtp_port m) (up_smtp_port p))
    (default (mb_smtp_use_tls m) (up_smtp_use_tls p)) (default (mb_smtp_username m) (up_smtp_username p))
    (default (mb_smtp_password_enc m) smtp_enc)
    (if sets_imap_config then up_imap_host p else mb_imap_host m)
    (if sets_imap_config then up_imap_port p else mb_imap_port m)
    (if sets_imap_config then up_imap_username p else mb_imap_username m)
    (if is_not_none imap_enc then imap_enc else mb_imap_password_enc m)
    (default (mb_status m) (up_status p)) (mb_created_at m) (mb_updated_at m).

(** [onupdate=utcnow]: a changed row is stamped. *)
Definition touched (utcnow : Z) (old m : Mailbox) : Mailbox :=
  if bool_decide (m = old) then old
  else mkMailbox (mb_id m) (mb_public_reference m) (mb_organization_id m) (mb_email_address m) (mb_smtp_host m)
         (mb_smtp_port m) (mb_smtp_use_tls m) (mb_smtp_username m) (mb_smtp_password_enc m) (mb_imap_host m)
         (mb_imap_port m) (mb_imap_username m) (mb_imap_password_enc m) (mb_status m) (mb_created_at m) utcnow.

Definition write_mailbox (m : Mailbox) (db : Db) : Db :=
  set_mailboxes (fst (update_pk (mb_id m) (λ _, true) (λ _, m) (mailboxes db))) db.

Definition update_mailbox (settings : Settings) (nonce nonce' : string) (public_reference : string)
    (p : MailboxUpdate) (org_id : string) (utcnow : Z) : M Mailbox :=
  mailbox ← get_owned org_id public_reference;
  match is_not_none (up_imap_password p) && negb (is_not_none (up_imap_host p)) && is_none (mb_imap_host mailbox) with
  | true => raise (HTTPException 409 "Mailbox has no IMAP configuration")
  | false =>
      encrypted ← of_result (lift_secret (encrypt_both settings nonce nonce' (up_smtp_password p) (up_imap_password p)));
      modify (λ db, let m := touched utcnow mailbox (updated_mailbox p (fst encrypted) (snd encrypted) mailbox) in
                    (write_mailbox m db, m))
  end.

End Routes.

(** ** Facts *)

(** IMAP is configured as a whole or not at all. *)
Definition imap_complete (m : Mailbox) : Prop :=
  (is_Some (mb_imap_host m) ∧ is_Some (mb_imap_port m) ∧ is_Some (mb_imap_username m) ∧ is_Some (mb_imap_password_enc m)) ∨
  (mb_imap_host m = None ∧ mb_imap_port m = None ∧ mb_imap_username m = None ∧ mb_imap_password_enc m = None).

Record mailbox_schema (db : Db) : Prop := {
  ms_wf : table_wf (mailboxes db);
  ms_unique : ∀ r r', In r (rows (mailboxes db)) → In r' (rows (mailboxes db)) → mailbox_clash r r' = true → r = r';
  ms_imap : ∀ r, In r (rows (mailboxes db)) → imap_complete r
}.

Lemma mailbox_clash_sym n r : mailbox_clash n r = mailbox_clash r n.
Proof.
  unfold mailbox_clash. f_equal; [|f_equal]; apply bool_decide_ext; split; congruence.
Qed.

Lemma get_owned_bind {B} org reference (k : Mailbox → M B) db :
  (get_owned org reference ≫= k) db =
    match find_owned_mailbox org reference db with
    | Some m => k m db
    | None => (db, Err (HTTPException 404 "Mailbox not found"))
    end.
Proof. unfold get_owned, mbind, M_bind, query. by destruct (find_owned_mailbox org reference db). Qed.

Lemma of_result_bind {A B} (r : result api_error A) (k : A → M B) db :
  (of_result r ≫= k) db = match r with Ok a => k a db | Err e => (db, Err e) end.
Proof. by destruct r. Qed.

Lemma find_owned_mailbox_Some org reference db m :
  find_owned_mailbox org reference db = Some m →
  In m (rows (mailboxes db)) ∧ mb_public_reference m = reference ∧ mb_organization_id m = org.
Proof. intros [Hin Hp]%select_first_Some. bools. done. Qed.

Section Facts.
Context `{Fernet}.

Lemma lift_secret_Ok {A} (r : result secret_error A) a : lift_secret r = Ok a ↔ r = Ok a.
Proof. destruct r as [?|[]]; cbn; naive_solver. Qed.

(** What was encrypted is exactly what was given. *)
Lemma encrypt_both_Ok settings n n' smtp imap s i :
  encrypt_both settings n n' smtp imap = Ok (s, i) →
  encrypt_opt settings n smtp = Ok s ∧ encrypt_opt settings n' imap = Ok i ∧
  (is_Some s ↔ is_Some smtp) ∧ (is_Some i ↔ is_Some imap).
Proof.
  unfold encrypt_both. intros E. inv_result. split_and!; try done.
  - destruct smtp as [x|]; cbn in *; inv_result; naive_solver eauto.
  - destruct imap as [x|]; cbn in *; inv_result; naive_solver eauto.
Qed.

Lemma updated_identity p s i u m :
  let m' := touched u m (updated_mailbox p s i m) in
  mb_id m' = mb_id m ∧ mb_public_reference m' = mb_public_reference m ∧
  mb_organization_id m' = mb_organization_id m ∧ mb_email_address m' = mb_email_address m.
Proof. unfold touched. by case_bool_decide. Qed.

Lemma updated_imap p s i u m :
  update_valid p = true → imap_complete m → (is_Some i ↔ is_Some (up_imap_password p)) →
  (is_not_none (up_imap_password p) && negb (is_not_none (up_imap_host p)) && is_none (mb_imap_host m)) = false →
  imap_complete (touched u m (updated_mailbox p s i m)).
Proof.
  intros Hv Hc Hi Hg. assert (imap_complete (updated_mailbox p s i m)) as Hu.
  { unfold update_valid in Hv. apply andb_prop in Hv as [_ Hv]. unfold imap_complete in *. cbn.
    destruct (up_imap_host p), (up_imap_port p), (up_imap_username p), (up_imap_password p), i;
      cbn in *; try discriminate Hv; try (by destruct Hi as [Hi Hi']; (destruct Hi || destruct Hi'));
      destruct (mb_imap_host m); cbn in *; naive_solver eauto. }
  unfold touched. case_bool_decide; done.
Qed.

Lemma write_mailbox_schema m old db :
  mailbox_schema db → In old (rows (mailboxes db)) → mb_id m = mb_id old →
  mb_public_reference m = mb_public_reference old → mb_organization_id m = mb_organization_id old →
  mb_email_address m = mb_email_address old → imap_complete m →
  mailbox_schema (write_mailbox m db).
Proof.
  intros [Hwf Hu Hi] Hold Hid Hr Ho He Hc.
  assert (∀ x, In x (rows (mailboxes (write_mailbox m db))) →
    ∃ y, In y (rows (mailboxes db)) ∧ x = (if mb_id y =? mb_id m then m else y)) as Hrows.
  { cbn. intros x (y & <- & Hy)%in_map_iff. exists y. by rewrite andb_true_r. }
  assert (∀ y, In y (rows (mailboxes db)) → mb_id y = mb_id m → y = old) as Hinj
    by (intros y Hy Hyid; apply (table_wf_inj (mailboxes db)); [done..|]; change (mb_id y = mb_id old); congruence).
  split.
  - by apply (update_pk_wf_at (mb_id m)).
  - intros r r' (y & Hy & ->)%Hrows (y' & Hy' & ->)%Hrows Hcl.
    assert (∀ z, mailbox_clash m z = mailbox_clash old z) as Hm by (intros z; unfold mailbox_clash; by rewrite Hr, Ho, He).
    destruct (mb_id y =? mb_id m) eqn:E, (mb_id y' =? mb_id m) eqn:E'; bools; try done.
    + rewrite Hm in Hcl. rewrite (Hu old y' Hold Hy' Hcl) in Hid. congruence.
    + rewrite mailbox_clash_sym, Hm in Hcl. rewrite (Hu old y Hold Hy Hcl) in Hid. congruence.
    + by apply Hu.
  - intros r (y & Hy & ->)%Hrows. destruct (mb_id y =? mb_id m); auto.
Qed.

Lemma insert_mailbox_schema mk db r t :
  mailbox_schema db → (∀ i, mb_id (mk i) = i) → imap_complete (mk (next_id (mailboxes db))) →
  insert_unique mailbox_clash "mailboxes" mk (mailboxes db) = Ok (r, t) → mailbox_schema (set_mailboxes t db).
Proof.
  intros [Hwf Hu Hi] Hmk Hc [Hn [= -> ->]]%insert_unique_Ok. split; cbn [mailboxes set_mailboxes].
  - by apply insert_row_wf.
  - intros x x' [Hx| ->]%(insert_row_In mk (mailboxes db)) [Hx'| ->]%(insert_row_In mk (mailboxes db)) Hcl;
      [by apply Hu| | |done].
    + rewrite mailbox_clash_sym, (Hn x Hx) in Hcl. done.
    + by rewrite (Hn x' Hx') in Hcl.
  - intros x [Hx| ->]%(insert_row_In mk (mailboxes db)); auto.
Qed.

(** The mailbox table stays well typed.  Starting from rows with ordered
    keys, unique references and addresses per organization, and IMAP
    configured as a whole or not at all, every answer of the create and the
    update route to a validated payload, errors included, leaves such rows;
    in particular a password can not be attached to a mailbox without a
    server, nor a server without its own password. *)
Theorem mailbox_routes_preserve_schema settings n n' reference race p q org u db db' r :
  mailbox_schema db → (∀ d, mailbox_schema d → mailbox_schema (race d)) →
  create_valid p = true → update_valid q = true →
  create_mailbox settings n n' reference race p org u db = (db', r) ∨
  update_mailbox settings n n' reference q org u db = (db', r) →
  mailbox_schema db'.
Proof.
  intros Hs Hrace Hp Hq [E|E].
  - unfold create_mailbox in E. rewrite of_result_bind in E.
    destruct (lift_secret _) as [[s i]|e] eqn:Ee; [|by injection E as <- <-].
    apply lift_secret_Ok, encrypt_both_Ok in Ee as (_ & _ & _ & Hi). rewrite query_bind in E.
    destruct (select_first _ _); [by injection E as <- <-|]. rewrite others_bind, try_commit_bind in E.
    destruct (insert_unique _ _ _ _) as [[m t]|e] eqn:Em; [|injection E as <- <-; by apply Hrace].
    injection E as <- <-. apply (insert_mailbox_schema _ _ _ _ (Hrace _ Hs)) in Em; [done|done|].
    unfold create_valid in Hp. apply andb_prop in Hp as [_ Hp]. unfold imap_complete. cbn.
    destruct (mk_imap_host p), (mk_imap_port p), (mk_imap_username p), (mk_imap_password p), i; cbn in *;
      try discriminate Hp; try (by destruct Hi as [Hi Hi']; (destruct Hi || destruct Hi')); naive_solver eauto.
  - unfold update_mailbox in E. rewrite get_owned_bind in E.
    destruct (find_owned_mailbox org reference db) as [m|] eqn:Ef; [|by injection E as <- <-].
    apply find_owned_mailbox_Some in Ef as (Hin & _).
    destruct (_ && _) eqn:Eg; [by injection E as <- <-|]. rewrite of_result_bind in E.
    destruct (lift_secret _) as [[s i]|e] eqn:Ee; [|by injection E as <- <-].
    apply lift_secret_Ok, encrypt_both_Ok in Ee as (_ & _ & _ & Hi). unfold modify in E. injection E as <- <-.
    destruct (updated_identity q s i u m) as (H1 & H2 & H3 & H4).
    apply (write_mailbox_schema _ m); try done. apply updated_imap; try done. by apply (ms_imap _ Hs).
Qed.

(** An update stays inside its mailbox.  It changes one row, owned by the
    calling tenant; never its key, reference, owner or address; a field the
    request omits keeps its value, and one it gives has the given value (a
    password, encrypted).  Any error (not found, no IMAP to rotate, no
    encryption key) leaves the whole database as it was. *)
Theorem mailbox_update_scoped settings n n' reference q org u db db' r :
  table_wf (mailboxes db) →
  update_mailbox settings n n' reference q org u db = (db', r) →
  match r with
  | Err _ => db' = db
  | Ok m' =>
      ∃ m, In m (rows (mailboxes db)) ∧ mb_organization_id m = org ∧ mb_public_reference m = reference ∧
        get (mb_id m) (mailboxes db') = Some m' ∧ db' = set_mailboxes (mailboxes db') db ∧
        (∀ j, j ≠ mb_id m → get j (mailboxes db') = get j (mailboxes db)) ∧
        mb_id m' = mb_id m ∧ mb_public_reference m' = reference ∧ mb_organization_id m' = org ∧
        mb_email_address m' = mb_email_address m ∧
        mb_status m' = default (mb_status m) (up_status q) ∧
        mb_smtp_host m' = default (mb_smtp_host m) (up_smtp_host q) ∧
        mb_smtp_port m' = default (mb_smtp_port m) (up_smtp_port q) ∧
        (up_smtp_password q = None → mb_smtp_password_enc m' = mb_smtp_password_enc m) ∧
        (∀ s, up_smtp_password q = Some s → encrypt_secret settings n s = Ok (mb_smtp_password_enc m')) ∧
        (up_imap_password q = None → mb_imap_password_enc m' = mb_imap_password_enc m) ∧
        (∀ s, up_imap_password q = Some s → ∃ t, encrypt_secret settings n' s = Ok t ∧ mb_imap_password_enc m' = Some t)
  end.
Proof.
  intros Hwf E. unfold update_mailbox in E. rewrite get_owned_bind in E.
  destruct (find_owned_mailbox org reference db) as [m|] eqn:Ef; [|by injection E as <- <-].
  apply find_owned_mailbox_Some in Ef as (Hin & Href & Horg).
  destruct (_ && _); [by injection E as <- <-|]. rewrite of_result_bind in E.
  destruct (lift_secret _) as [[s i]|e] eqn:Ee; [|by injection E as <- <-].
  apply lift_secret_Ok, encrypt_both_Ok in Ee as (Hs & Hi & _ & _). unfold modify in E. injection E as <- <-.
  destruct (updated_identity q s i u m) as (H1 & H2 & H3 & H4). cbn zeta in *.
  set (m' := touched u m (updated_mailbox q s i m)) in *. cbn [fst snd].
  assert (mb_status m' = default (mb_status m) (up_status q) ∧ mb_smtp_host m' = default (mb_smtp_host m) (up_smtp_host q)
    ∧ mb_smtp_port m' = default (mb_smtp_port m) (up_smtp_port q)
    ∧ mb_smtp_password_enc m' = default (mb_smtp_password_enc m) s
    ∧ mb_imap_password_enc m' = (if is_not_none i then i else mb_imap_password_enc m)) as (F1 & F2 & F3 & F4 & F5).
  { unfold m', touched. case_bool_decide as Eq; [|done].
    split_and!; [exact (eq_sym (f_equal mb_status Eq))|exact (eq_sym (f_equal mb_smtp_host Eq))
      |exact (eq_sym (f_equal mb_smtp_port Eq))|exact (eq_sym (f_equal mb_smtp_password_enc Eq))
      |exact (eq_sym (f_equal mb_imap_password_enc Eq))]. }
  assert (get (mb_id m) (mailboxes db) = Some m) as Hg by (by apply (get_complete (mailboxes db))).
  pose proof (update_pk_put m' (mailboxes db)) as Hput.
  exists m. split_and!; try congruence.
  - rewrite <- H1. etrans; [apply (Hput (mb_id m'))|]. change (row_id m') with (mb_id m'). by rewrite Z.eqb_refl, H1, Hg.
  - done.
  - intros j Hj. etrans; [apply (Hput j)|]. change (row_id m') with (mb_id m'). rewrite H1.
    by rewrite (proj2 (Z.eqb_neq j (mb_id m)) Hj).
  - intros Hn. rewrite Hn in Hs. injection Hs as <-. done.
  - intros x Hx. rewrite Hx in Hs. cbn in Hs. inv_result. by rewrite F4.
  - intros Hn. rewrite Hn in Hi. injection Hi as <-. done.
  - intros x Hx. rewrite Hx in Hi. cbn in Hi. inv_result. eexists. split; [done|]. done.
Qed.
End Facts.

(** *** Witnesses *)

Definition sample_create : MailboxCreate :=
  mkMailboxCreate "kim@acme.io" "smtp.acme.io" 587 true "kim" "s3cret" None None None None.
Definition sample_update : MailboxUpdate :=
  mkMailboxUpdate (Some MB_DISABLED) None (Some "imap-pw") (Some "imap.acme.io") (Some 993) (Some "ann") None None None None.

Lemma sample_mailbox_schema : mailbox_schema sample_db.
Proof.
  split; [apply sample_db_wf|..].
  - intros r r' [<-|[]] [<-|[]] _. reflexivity.
  - intros r [<-|[]]. right. by vm_compute.
Qed.

Lemma mailbox_routes_preserve_schema_witness :
  mailbox_schema (fst (create_mailbox (H:=sample_fernet) live_settings "n" "n" "ref2" id sample_create "acme" 9 sample_db)) ∧
  mailbox_schema (fst (update_mailbox (H:=sample_fernet) live_settings "n" "n" (mb_public_reference sample_mailbox)
                         sample_update "acme" 9 sample_db)).
Proof.
  split.
  - exact (mailbox_routes_preserve_schema (H:=sample_fernet) live_settings "n" "n" "ref2" id sample_create sample_update
      "acme" 9 sample_db _ (snd (create_mailbox (H:=sample_fernet) live_settings "n" "n" "ref2" id sample_create "acme" 9
      sample_db)) sample_mailbox_schema (λ d Hd, Hd) eq_refl eq_refl (or_introl (surjective_pairing _))).
  - exact (mailbox_routes_preserve_schema (H:=sample_fernet) live_settings "n" "n" (mb_public_reference sample_mailbox)
      id sample_create sample_update "acme" 9 sample_db _ (snd (update_mailbox (H:=sample_fernet) live_settings "n" "n"
      (mb_public_reference sample_mailbox) sample_update "acme" 9 sample_db))
      sample_mailbox_schema (λ d Hd, Hd) eq_refl eq_refl (or_intror (surjective_pairing _))).
Defined.

Lemma mailbox_update_scoped_witness :
  ∃ db' m', update_mailbox (H:=sample_fernet) live_settings "n" "n" (mb_public_reference sample_mailbox)
              sample_update "acme" 9 sample_db = (db', Ok m') ∧
    mb_status m' = MB_DISABLED ∧ mb_email_address m' = mb_email_address sample_mailbox.
Proof.
  destruct (update_mailbox (H:=sample_fernet) live_settings "n" "n" (mb_public_reference sample_mailbox)
    sample_update "acme" 9 sample_db) as [db' [m'|e]] eqn:E; [|vm_compute in E; discriminate E].
  exists db', m'. split; [reflexivity|].
  destruct (mailbox_update_scoped (H:=sample_fernet) _ _ _ _ _ _ _ _ _ _ (ms_wf _ sample_mailbox_schema) E)
    as (m & [<-|[]] & _ & _ & _ & _ & _ & _ & _ & _ & He & Hs & _).
  split; [exact Hs|exact He].
Defined.
