(* ===== verification/WebhooksApi.v ===== *)
(** * Inbound webhook ([src/mailer_agent/api/webhooks.py])

    Replies pushed by a mail provider, for the tenant of the presented key. *)

From S2P Require Import Prelude Sql Models Config WorkClaiming Lifecycle Sender StateMachine SemanticModels Guardrails Regex Threading Grounding ExactMessage Llm Memory Classifier Scheduling FollowUp Inbound InboundSafety Integrations Samples.

Record InboundEmailWebhook := mkWebhook {
  wh_from_email : string;
  wh_to_email : option string;
  wh_subject : option string;
  wh_body_text : string;
  wh_message_id : option string;
  wh_in_reply_to : option string;
  wh_references : list string;
  wh_auto_submitted : bool
}.

Definition webhook_email (p : InboundEmailWebhook) : InboundEmail :=
  mkInbound (Str.lower (Str.strip (wh_from_email p))) (py_or (wh_subject p) "") (wh_body_text p) (wh_message_id p)
    (wh_in_reply_to p) (wh_references p) (wh_to_email p) (wh_auto_submitted p) None.

Section Webhook.
Context `{LlmProvider} `{FloatRepr} `{FromIsoformat} `{Classifier} `{Planner}.

(** The commit follows the handler; an exception closes the session, so that
    only what others committed meanwhile remains. *)
Definition receive_inbound_email (env : InboundEnv) (race : Db → Db) (payload : InboundEmailWebhook) (org_id : string)
    (db : Db) : Db * result api_error InboundResult * list smtp_event :=
  match process_inbound_email_v2 env race (webhook_email payload) (Some org_id) db with
  | (Ok (db', r), trace) => (db', Ok r, trace)
  | (Err e, trace) => (race db, Err (Crashed e), trace)
  end.

(** ** Facts *)

Lemma scoped_contact_tenant db e org c :
  correlate_inbound db e (Some org) = Some c → contact_org db c = Some org.
Proof.
  unfold correlate_inbound. destruct (find_contact_by_message_id db e (Some org)) as [c'|] eqn:Em.
  - intros [= ->]. unfold find_contact_by_message_id in Em. destruct (_ ++ _); [done|].
    destruct (first_desc _ _) as [m|] eqn:Ed; [|done].
    apply first_desc_In, select_In in Ed as [_ Hp]. apply andb_prop in Hp as [_ Hp]. cbn in Hp. bools.
    unfold message_org in Hp. by rewrite Em in Hp.
  - destruct (_ || _); [done|]. unfold find_contact_by_email. cbv zeta. destruct (truthy _).
    + intros [_ Hp]%first_desc_In%select_In. by bools.
    + destruct (select _ _) as [|x [|? ?]] eqn:Es; [done| |done]. intros [= ->].
      assert (In c [c]) as Hin by (by left). rewrite <- Es in Hin. apply select_In in Hin as [_ Hp]. by bools.
Qed.

(** A webhook acts only for the tenant of its key.  Whatever sender,
    receiver, Message-ID and thread references the payload claims, every row
    of every other tenant, every campaign, dispatch and mailbox and every
    retained message is as it was; the contact a result names belongs to the
    tenant; and a failed request stores nothing. *)
Theorem webhook_stays_in_tenant env race payload org db db' r trace :
  inserts_only race db →
  receive_inbound_email env race payload org db = (db', r, trace) →
  ∃ base, (base = db ∨ base = race db) ∧ (∀ mb, tenant_local org mb base db') ∧
    match r with
    | Ok res => ∀ cid, rs_contact_id res = Some cid →
        ∃ c, get cid (contacts db') = Some c ∧ contact_org db' c = Some org
    | Err _ => db' = race db
    end.
Proof.
  intros [Hc Hcm Hwc Hwm] E. unfold receive_inbound_email in E.
  assert (∀ mb, tenant_local org mb (race db) (race db)) as Hself
    by (intros mb; apply tenant_local_refl; by rewrite Hc).
  destruct (process_inbound_email_v2 _ _ _ _ _) as [[[db1 res]|e] tr] eqn:Ep;
    injection E as <- <- <-; [|exists (race db); split_and!; auto].
  unfold process_inbound_email_v2, process_in_session in Ep. cbv zeta in Ep. set (e := normalize_inbound (webhook_email payload)) in *.
  assert (∀ d m, find_by_message_id d (ie_message_id e) (Some org) = Some m →
    ∃ c, get (msg_contact_id m) (contacts d) = Some c ∧ contact_org d c = Some org) as Hscoped.
  { intros d m [_ Hp]%select_first_Some. bools. cbn in *. unfold scope_messages_to_org in *. bools.
    match goal with Ho : message_org d m = _ |- _ => unfold message_org, message_contact in Ho;
      destruct (get (msg_contact_id m) (contacts d)) as [c|]; [by exists c|done] end. }
  destruct (if truthy _ then _ else None) as [m|] eqn:Ed.
  { injection Ep as <- <- <-. exists db. split_and!; [by left|intros; by apply tenant_local_refl|].
    intros cid [= <-]. destruct (truthy _); [|done]. by apply Hscoped. }
  match type of Ep with context [match ?x with Some _ => _ | None => _ end] => destruct x as [contact|] eqn:Ef end.
  2:{ injection Ep as <- <- <-. exists db. split_and!; [by left|intros; by apply tenant_local_refl|done]. }
  pose proof (webhook_contact_stored _ _ _ _ Hwc Ef) as Hg. pose proof (scoped_contact_tenant _ _ _ _ Ef) as Ho.
  destruct (insert_message _ _) as [[m db1']|err] eqn:Ei.
  2:{ destruct (find_by_message_id (race db) _ _) as [x|] eqn:Ex; cbn in Ep; injection Ep as <- <- <-;
        exists (race db); split_and!; [by right|exact Hself| |by right|exact Hself|done].
      intros cid [= <-]. by apply Hscoped. }
  destruct (contact_campaign db contact) as [campaign|]; [|done].
  assert (contact_org (race db) contact = Some org) as Ho'.
  { revert Ho. unfold contact_org, contact_campaign. by rewrite Hcm. }
  assert (applied env e contact campaign m db1' (Ok (db1, res), tr)) as Ha.
  { rewrite <- Ep. eapply (insert_applied _ _ _ _ _ _ _ _ (λ d, d)); [| | | |exact Ei]; done. } pose proof (insert_message_Ok _ _ _ _ Ei) as (Hm & Hdb1 & _).
  assert (contact_org db1' contact = Some org) as Ho1 by (by rewrite Hdb1).
  assert (∀ mb, confined contact (Some org) mb (race db) db1) as Hcf.
  { intros mb. eapply confined_trans.
    - apply (insert_messages_confined _ _ _ [inbound_row env e (ct_id contact) None (ie_message_id e)]);
        [by repeat constructor|]. cbn [insert_messages]. by rewrite Ei.
    - rewrite <- Ho1. by eapply (ap_confined _ _ _ _ _ _ _ Ha). }
  exists (race db). split_and!; [by right|intros mb; by apply (confined_tenant contact); rewrite ?Hc|].
  intros cid Hcid. apply classify_and_apply_result in Ep as [_ Hr]. rewrite Hr in Hcid. injection Hcid as <-.
  destruct (cf_contact _ _ _ _ _ (Hcf None) contact) as (c' & Hg' & Hs); [by rewrite Hc|done|].
  exists c'. split; [done|]. revert Ho'. unfold contact_org, contact_campaign.
  rewrite (cf_campaigns _ _ _ _ _ (Hcf None)). destruct Hs as (_ & -> & _). done.
Qed.
End Webhook.

(** *** Witnesses *)

#[local] Abbreviation sample_webhook :=
  (mkWebhook " Eve@corp.io " None (Some "Re: Hi") "Sounds good." (Some "<w1@corp.io>") None [] false).
#[local] Abbreviation sample_receive :=
  (receive_inbound_email (H:=sample_llm) (H0:=no_floats) (H1:=no_iso) (H2:=positive_classifier) (H3:=answering_planner)
     reply_env no_race sample_webhook "acme" sample_db).

Lemma webhook_stays_in_tenant_witness :
  ∃ db' res trace, sample_receive = (db', Ok res, trace) ∧ rs_contact_id res = Some 2 ∧
    ∃ c, get 2 (contacts db') = Some c ∧ contact_org db' c = Some "acme".
Proof.
  destruct sample_receive as [[db' [res|e]] trace] eqn:E; [|vm_compute in E; discriminate E].
  destruct (webhook_stays_in_tenant (H:=sample_llm) (H0:=no_floats) (H1:=no_iso) (H2:=positive_classifier)
    (H3:=answering_planner) _ _ _ _ _ _ _ _ sample_inserts_only E) as (base & _ & _ & Hr).
  exists db', res, trace. split; [reflexivity|].
  assert (rs_contact_id res = Some 2) as Hid by (vm_compute in E; injection E as _ <- _; reflexivity).
  split; [exact Hid|exact (Hr 2 Hid)].
Defined.
