(* ===== verification/DispatchSystem.v ===== *)
(** * The dispatch system

    All the parts that touch a dispatch, running together: any number of
    workers and processes, interleaved between their transactions, crashing at
    any point, with lease recovery, graceful shutdown, generation and intake
    beside them.  A reachable state records, besides the database, the sends
    that were prepared, the SMTP outcomes not yet written, and the log of every
    SMTP execution.  The theorems hold in every reachable state. *)

From stdpp Require Import relations.
From S2P Require Import Prelude Sql Models Config WorkClaiming Lifecycle Sender Regex Grounding ExactMessage ExternalDispatchWorker GenerationWorker CanonicalJson Integrations IntegrationsGenerated Samples.

(** ** Changes that settle nothing past the hand-over

    A change is quiet when it keeps the database well formed, moves dispatches
    along the lifecycle, and makes a dispatch SENT or FAILED only in the one
    harmless way: FAILED before it was ever handed to SMTP. *)

Definition settled (d : ExternalDispatch) : bool := (ed_state d == SENT) || (ed_state d == FAILED).

Definition settles (db db' : Db) : Prop :=
  ∀ i d', get i (dispatches db') = Some d' → settled d' = true →
    (∃ d, get i (dispatches db) = Some d ∧ ed_state d = ed_state d') ∨
    (ed_state d' = FAILED ∧
     ∀ d, get i (dispatches db) = Some d → past_handover (phase_of d) = false).

Definition quietly (db db' : Db) : Prop :=
  db_wf db → db_wf db' ∧ evolves db db' ∧ settles db db'.

Lemma evolves_past_handover db db' i d d' :
  evolves db db' → get i (dispatches db) = Some d → get i (dispatches db') = Some d' →
  past_handover (phase_of d) = true → past_handover (phase_of d') = true.
Proof.
  intros Hev Hg Hg' Hp. destruct (ev_kept _ _ Hev _ _ Hg) as (x & Hx & Hs).
  assert (x = d') as -> by congruence.
  by eapply past_handover_closed; [apply dispatch_steps_refine|].
Qed.

#[global] Instance quietly_preorder : PreOrder quietly.
Proof.
  split.
  - intros db Hwf. split_and!; try done. intros i d Hg _. left. by exists d.
  - intros a b c H1 H2 Hwf. destruct (H1 Hwf) as (Hb & E1 & S1). destruct (H2 Hb) as (Hc & E2 & S2).
    split_and!; [done|by etrans|]. intros i d' Hg Hs.
    destruct (S2 i d' Hg Hs) as [(d1 & Hg1 & He)|[Hf Hn]].
    + assert (settled d1 = true) as Hs1 by (unfold settled in *; by rewrite He).
      destruct (S1 i d1 Hg1 Hs1) as [(d & Hg0 & He')|[Hf Hn]].
      * left. exists d. split; [done|congruence].
      * right. split; [congruence|done].
    + right. split; [done|]. intros d Hg0. destruct (past_handover (phase_of d)) eqn:Ep; [|done].
      destruct (ev_kept _ _ E1 _ _ Hg0) as (d1 & Hg1 & _).
      rewrite <- (Hn d1 Hg1). symmetry. exact (evolves_past_handover _ _ _ _ _ E1 Hg0 Hg1 Ep).
Qed.

(** The premise may be used to establish quietness. *)
Lemma with_wf db db' : (db_wf db → quietly db db') → quietly db db'.
Proof. intros H Hwf. by apply H. Qed.

(** The tables other than the dispatches: kept, or well formed. *)
Definition same_rest (db db' : Db) : Prop :=
  campaigns db' = campaigns db ∧ contacts db' = contacts db ∧ suppressions db' = suppressions db ∧
  mailboxes db' = mailboxes db ∧ unmatched db' = unmatched db ∧ (table_wf (messages db) → table_wf (messages db')).

(** Without new rows, uniqueness of the keys is inherited. *)
Lemma wf_of_evolution db db' :
  evolves db db' → (∀ i, get i (dispatches db) = None → get i (dispatches db') = None) →
  same_rest db db' → db_wf db → db_wf db'.
Proof.
  intros Hev Hnew (Hc & Ht & Hs & Hm & Hun & Hmsg) [? ? ? Hd ? ? Hu ?].
  pose proof (ev_wf _ _ Hev Hd) as Hd'.
  split; rewrite ?Hc, ?Ht, ?Hs, ?Hm, ?Hun; try done; [by auto|].
  assert (∀ r, In r (rows (dispatches db')) →
    ∃ x, In x (rows (dispatches db)) ∧ same_identity x r) as Hpre.
  { intros r Hr. pose proof (get_complete _ r Hd' Hr) as Hg.
    destruct (get (row_id r) (dispatches db)) as [x|] eqn:E; [|by rewrite Hnew in Hg].
    destruct (ev_kept _ _ Hev _ _ E) as (r' & Hg' & Hst). assert (r' = r) as -> by congruence.
    exists x. split; [by apply get_Some in E as [? _]|by apply dispatch_steps_identity]. }
  intros r r' Hr Hr' Hcl. destruct (Hpre r Hr) as (x & Hx & Ix). destruct (Hpre r' Hr') as (y & Hy & Iy).
  destruct Ix as (Ixi & Ixo & Ixk & _ & _ & _ & _ & _ & _ & _ & Ixp & _).
  destruct Iy as (Iyi & Iyo & Iyk & _ & _ & _ & _ & _ & _ & _ & Iyp & _).
  change (ed_id r = ed_id r'). rewrite Ixi, Iyi. apply Hu; [done..|].
  unfold dispatch_clash in *. by rewrite <- Ixo, <- Iyo, <- Ixk, <- Iyk, <- Ixp, <- Iyp.
Qed.

(** One row changes: what it may become. *)
Definition settle_ok (d d' : ExternalDispatch) : Prop :=
  settled d' = true →
  ed_state d = ed_state d' ∨ (ed_state d' = FAILED ∧ past_handover (phase_of d) = false).

Lemma quietly_one i d d' db db' :
  get i (dispatches db) = Some d → get i (dispatches db') = Some d' →
  (∀ j, j ≠ i → get j (dispatches db') = get j (dispatches db)) →
  table_wf (dispatches db') → same_rest db db' →
  rtc dispatch_step d d' → settle_ok d d' → quietly db db'.
Proof.
  intros Hg Hg' Hne Hwf' Hrest Hs Hok Hwf.
  assert (evolves db db') as Hev.
  { split; [done| |].
    - intros j x Hx. destruct (decide (j = i)) as [->|Hj]; [|exists x; by rewrite Hne].
      exists d'. split; [done|]. by assert (x = d) as -> by congruence.
    - intros j x Hx Hn. destruct (decide (j = i)) as [->|Hj]; [congruence|].
      rewrite Hne in Hx by done. congruence. }
  split_and!; [|done|].
  - apply (wf_of_evolution db); try done. intros j Hj. destruct (decide (j = i)) as [->|Hji]; [congruence|].
    by rewrite Hne.
  - intros j x Hx Hset. destruct (decide (j = i)) as [->|Hj].
    + assert (x = d') as -> by congruence. destruct (Hok Hset) as [He|[Hf Hp]].
      * left. by exists d.
      * right. split; [done|]. intros y Hy. by assert (y = d) as -> by congruence.
    + left. exists x. rewrite <- Hne by done. done.
Qed.

Lemma set_dispatches_rest db t : same_rest db (set_dispatches t db).
Proof. by split_and!. Qed.

(** A guarded UPDATE of a dispatch is quiet when its guard allows the step. *)
Lemma exec_update_quietly i p f db db' ok :
  (∀ d, row_id (f d) = row_id d) →
  (∀ d, p d = true → dispatch_step d (f d) ∧ settle_ok d (f d)) →
  exec_update i p f db = (db', ok) → quietly db db'.
Proof.
  intros Hid Hstep E. apply with_wf. intros Hwf%wf_dispatches.
  apply exec_update_inv in E as [(_ & Hwf' & Hdb & d & Hg & Hp & Hg' & Hne)|(_ & -> & _)]; try done.
  destruct (Hstep d Hp) as [Hs Hok].
  eapply (quietly_one i d (f d)); [done..| |by apply rtc_once|done].
  rewrite Hdb. apply set_dispatches_rest.
Qed.

(** ** Every operation except finalisation is quiet *)

(** A step whose result is not settled, or that does not change the state. *)
Lemma settle_ok_unsettled d d' : settled d' = false → settle_ok d d'.
Proof. by unfold settle_ok; intros ->. Qed.

Lemma settle_ok_same d d' : ed_state d' = ed_state d → settle_ok d d'.
Proof. intros H _. by left. Qed.

#[local] Hint Resolve settle_ok_same : mail.

Lemma claim_quietly cl st s w now u db db' c :
  (∀ d t, cl d = true → dispatch_step d (mark_claimed st w t u d)) →
  (st = SENDING ∨ st = GENERATING) →
  claim_next cl st s w now u db = (db', c) → quietly db db'.
Proof.
  intros Hstep Hst E. apply with_wf. intros Hwf%wf_dispatches.
  destruct c as [c|]; [|by apply claim_next_None in E as [-> _]].
  apply claim_next_effect in E as (d & Hg & Hc & _ & _ & _ & Hg' & Hne & Hwf' & Hdb); [|done].
  eapply (quietly_one _ d); [done..| |by apply rtc_once, Hstep|].
  - rewrite Hdb. apply set_dispatches_rest.
  - apply settle_ok_unsettled. by destruct Hst as [->| ->].
Qed.

Lemma claim_send_quietly s w now u db db' c :
  claim_next_external_dispatch s w now u db = (db', c) → quietly db db'.
Proof. apply claim_quietly; [by constructor|by left]. Qed.

Lemma claim_generation_quietly s w now u db db' c :
  claim_next_generation_dispatch s w now u db = (db', c) → quietly db db'.
Proof. apply claim_quietly; [by constructor|by right]. Qed.

Lemma annotate_quietly i o n u db db' ok :
  annotate_unknown_dispatch i o n u db = (db', ok) → quietly db db'.
Proof.
  apply exec_update_quietly; [done|]. intros d Hd. bools.
  split; [by apply ds_annotated|by apply settle_ok_same].
Qed.

Lemma generation_fence_spec c d :
  generation_fence c d = true →
  ed_state d = GENERATING ∧ ed_message_id d = None ∧ past_handover (phase_of d) = false.
Proof.
  intros [Ho Hm]%andb_prop. bools. apply owns_spec in Ho as (_ & Hs & _).
  unfold phase_of. by rewrite Hs.
Qed.

Lemma fail_generation_quietly c e u db db' ok :
  fail_generation c e u db = (db', ok) → quietly db db'.
Proof.
  apply exec_update_quietly; [done|]. intros d (Hs & Hm & Hp)%generation_fence_spec.
  split; [by apply ds_generation_failed|]. intros _. by right.
Qed.

Lemma transaction_g1_quietly w env db db' r :
  transaction_g1 w env db = (db', r) → quietly db db'.
Proof.
  intros [[-> _]|(c & db1 & d & Hc & Hg & Hcase)]%transaction_g1_inv; [done|].
  etrans; [by eapply claim_generation_quietly|].
  destruct Hcase as [(refusal & _ & -> & _)|(p & _ & -> & _)]; [|done].
  destruct (fail_generation _ _ _ _) as [x y] eqn:Ef. by eapply fail_generation_quietly.
Qed.

Lemma transaction_g2_quietly faults refs p outcome u db db' w :
  transaction_g2 faults refs p outcome u db = (db', w) → quietly db db'.
Proof.
  intros E. apply with_wf. intros [? ? Hm Hd ? ? ?].
  apply transaction_g2_once in E as [[-> _]|[k Hk]]; [done| |done..].
  apply g2_once_inv in Hk as [[? _]|(_ & Hd' & Hm' & d & Hg & Hf & Hne & Hdb & Ho)]; [done| |done..].
  apply generation_fence_spec in Hf as (Hs & Hn & Hp).
  assert (same_rest db db') as Hrest by (rewrite Hdb; by split_and!).
  destruct outcome as [draft|e]; [destruct Ho as (mk & _ & _ & Ho)|destruct Ho as [_ Ho]].
  - eapply (quietly_one _ d); [done..|by apply rtc_once, ds_generated|by apply settle_ok_unsettled].
  - eapply (quietly_one _ d); [done..|by apply rtc_once, ds_generation_failed|]. intros _. by right.
Qed.

Lemma finish_unknown_quietly c e u db :
  quietly db (fst (finish_outcome c UNKNOWN e u db)).
Proof.
  apply with_wf. intros [? ? Hm Hd ? ? ?]. destruct (finish_outcome c UNKNOWN e u db) as [db' won] eqn:E.
  apply finish_outcome_inv in E
    as [(ms & d & _ & _ & Hg & Ho & Hg' & Hne & Hwf' & Hmsg & Hdb)|(_ & -> & _)]; [| |done]; cbn; [|done].
  apply owns_spec in Ho as (_ & Hs & _).
  eapply (quietly_one _ d); [done..| |by apply rtc_once, ds_outcome|by apply settle_ok_unsettled].
  rewrite Hdb. split_and!; try done. intros _. cbn. rewrite Hmsg. by apply update_message_wf.
Qed.

Lemma resolve_claims_quietly faults u claims : ∀ k db,
  quietly db (fst (fst (resolve_claims claims faults k u db))).
Proof.
  induction claims as [|c claims IH]; intros k db; cbn [resolve_claims]; [done|].
  pose proof (finish_unknown_quietly c (Some shutdown_reason) u db) as Hq.
  destruct (finish_outcome _ _ _ _ db) as [db0 won0]. cbn in Hq.
  destruct (faults k).
  - specialize (IH (S k) db0). destruct (resolve_claims _ _ _ _ db0) as [[x ab] el].
    destruct won0; cbn in *; by etrans.
  - specialize (IH (S k) db). destruct (resolve_claims _ _ _ _ db) as [[x ab] el]. by cbn in *.
  - specialize (IH (S k) db0). destruct (resolve_claims _ _ _ _ db0) as [[x ab] el].
    cbn in *; by etrans.
Qed.

(** A batch of rows, none of which becomes settled. *)
Lemma quietly_batch (batch : list ExternalDispatch) (f : ExternalDispatch → ExternalDispatch) db db' :
  (∀ row, In row batch → get (ed_id row) (dispatches db) = Some row ∧ dispatch_step row (f row) ∧
                         settled (f row) = false) →
  (∀ row, In row batch → get (ed_id row) (dispatches db') = Some (f row)) →
  (∀ j, j ∉ map ed_id batch → get j (dispatches db') = get j (dispatches db)) →
  table_wf (dispatches db') → same_rest db db' → quietly db db'.
Proof.
  intros Hrow Hf Hne Hwf' Hrest Hwf. pose proof (wf_dispatches _ Hwf) as Hd.
  assert (∀ i, i ∈ map ed_id batch → ∃ row, In row batch ∧ ed_id row = i) as Hb.
  { intros i Hi. apply list_elem_of_In, in_map_iff in Hi as (row & <- & Hin). by exists row. }
  assert (evolves db db') as Hev.
  { apply (evolves_batch db db' Hd batch f); try done. intros row Hin.
    by destruct (Hrow _ Hin) as (? & ? & _). }
  split_and!; [|done|].
  - apply (wf_of_evolution db); try done. intros j Hj.
    destruct (decide (j ∈ map ed_id batch)) as [(row & Hin & <-)%Hb|Hi]; [|by rewrite Hne].
    by rewrite (proj1 (Hrow _ Hin)) in Hj.
  - intros j x Hx Hset. destruct (decide (j ∈ map ed_id batch)) as [(row & Hin & <-)%Hb|Hi].
    + rewrite (Hf _ Hin) in Hx. injection Hx as <-. destruct (Hrow _ Hin) as (_ & _ & Hu). congruence.
    + left. exists x. by rewrite <- Hne.
Qed.

Lemma recover_sending_quietly s settings now lease n u db db' rs :
  recover_expired_external_dispatches s settings now lease n u db = (db', rs) → quietly db db'.
Proof.
  intros E. apply with_wf. intros [? ? Hm Hd ? ? ?]. pose proof (sweep_batch_ok s
    (sending_expired (naive_utc now u - seconds (default (external_dispatch_lease_seconds settings) lease)))
    n db Hd) as Hb.
  apply recover_rows_spec in E as (_ & Hwf' & Hm' & Hrow & Hne & _ & Hdb); [|done..].
  eapply (quietly_batch _ (λ row, to_unknown (lease_expired_reason row _) u row));
    [|by apply Hrow|done..|rewrite Hdb; by split_and!].
  intros row Hin. destruct (proj2 Hb row Hin) as [Hg He]. split_and!; [done| |done].
  apply andb_prop in He as [Hs _]. bools. by apply (ds_outcome _ UNKNOWN (Some _)).
Qed.

Lemma recover_generations_quietly s settings now lease n u db db' ids :
  recover_expired_generations s settings now lease n u db = (db', ids) → quietly db db'.
Proof.
  intros E. apply with_wf. intros [? ? Hm Hd ? ? ?]. pose proof (sweep_batch_ok s
    (generation_expired (naive_utc now u
       - seconds (default (external_dispatch_generation_lease_seconds settings) lease)))
    n db Hd) as Hb.
  apply requeue_rows_spec in E as (_ & Hwf' & Hrow & Hne & Hdb); [|done..].
  eapply (quietly_batch _ (mark_released QUEUED u)); [|by apply Hrow|done..|rewrite Hdb; by split_and!].
  intros row Hin. destruct (proj2 Hb row Hin) as [Hg He]. split_and!; [done| |done].
  apply andb_prop in He as [He _]. bools. by apply ds_requeued.
Qed.

Lemma quietly_same db db' : dispatches db' = dispatches db → db_wf db' → quietly db db'.
Proof.
  intros Hd Hwf' _. split_and!; [done|by apply evolves_same|].
  intros i d Hg _. left. exists d. by rewrite <- Hd.
Qed.

Lemma claimable_send_spec d :
  claimable_send d = true → ed_state d = QUEUED ∧ past_handover (phase_of d) = false.
Proof. intros [Hs Hm]%andb_prop. bools. unfold phase_of. by rewrite Hs, H. Qed.

Lemma transaction_b_quietly `{Fernet} settings w env db rt db' rt' r :
  transaction_b settings w env db rt = (db', rt', r) → quietly db db'.
Proof.
  intros E. apply with_wf. intros Hwf. pose proof (wf_dispatches _ Hwf) as Hd.
  apply transaction_b_inv in E as [[-> _]|(c & db1 & d1 & Hc & Hg & Hcase)]; [done|].
  pose proof (claim_send_quietly _ _ _ _ _ _ _ Hc Hwf) as (Hwf1 & _ & _).
  pose proof (claim_owns _ _ _ _ _ _ _ Hd Hc) as (x & Hgx & Ho).
  assert (x = d1) as -> by congruence.
  destruct Hcase as [(x & reason & stop & _ & _ & -> & _)|(args & mid & cp & ct & m & mb & Hp & _)].
  - unfold fail_in_b. destruct (finish_outcome _ _ _ _ db1) as [db2 won] eqn:Ef. cbn.
    apply finish_outcome_inv in Ef
      as [(ms & d2 & _ & _ & Hg2 & _ & Hg' & Hne' & Hwf' & Hmsg & Hdb)|(_ & _ & Hno)];
      [| |by destruct Hwf1]; [|by rewrite (Hno ltac:(done) _ Hg) in Ho].
    assert (d2 = d1) as -> by congruence.
    apply claim_next_effect in Hc as (d & Hgd & Hcl & _ & _ & _ & Hgd' & Hne & _ & Hdb1); [|done].
    rewrite Hgd' in Hg. injection Hg as <-.
    eapply (quietly_one _ d); [done..| |done| | |].
    + intros j Hj. by rewrite Hne', Hne.
    + rewrite Hdb, Hdb1. split_and!; try done. intros Hm. cbn. rewrite Hmsg.
      apply update_message_wf; [done|]. by rewrite Hdb1.
    + eapply rtc_l; [by apply ds_claim_send|]. by apply rtc_once, ds_outcome.
    + apply claimable_send_spec in Hcl as [_ Hph]. intros _. by right.
  - etrans; [by eapply claim_send_quietly|]. pose proof (gates_passed_frame _ _ _ _ _ _ _ _ _ _ _ Hp) as [Hdd Hdb].
    apply quietly_same; [done|]. destruct Hwf1. rewrite Hdb. split; try done; cbn.
    + destruct Hp as [_ _ _ _ _ _ _ _ _ _ _ _ _ ->]. by apply update_message_wf.
Qed.

Lemma commit_message_and_dispatch_quietly message dispatch db db' d :
  (∀ i, row_id (message i) = i) → (∀ m i, row_id (dispatch m i) = i) →
  (∀ m i, initial_dispatch (dispatch m i)) →
  commit_message_and_dispatch message dispatch db = Ok (db', d) → quietly db db'.
Proof.
  intros Hm Hd Hini E Hwf. pose proof E as E'.
  apply commit_message_and_dispatch_inv in E' as (_ & Hrows & Hdd & _ & _ & _ & G); [|done..].
  destruct (G Hwf) as [Hwf' R]. split_and!; [done|by destruct R|].
  intros i x Hg Hs. apply get_Some in Hg as [Hin Hi]. rewrite Hrows in Hin.
  apply in_app_or in Hin as [Hin|[<-|[]]].
  - left. exists x. split; [|done]. rewrite <- Hi. apply (get_complete _ x); [by destruct Hwf|done].
  - destruct (Hini (next_id (messages db)) (next_id (dispatches db))) as (Hq & _).
    rewrite <- Hdd in Hq. unfold settled in Hs. by rewrite Hq in Hs.
Qed.

Lemma commit_dispatch_quietly mk db db' d :
  (∀ i, row_id (mk i) = i) → (∀ i, initial_dispatch (mk i)) →
  commit_dispatch mk db = Ok (db', d) → quietly db db'.
Proof.
  intros Hid Hini E Hwf. pose proof E as E'.
  apply commit_dispatch_inv in E' as (_ & _ & _ & _ & _ & G); [|done..].
  destruct (G Hwf) as [Hwf' R]. split_and!; [done|by destruct R|].
  intros i x Hg Hs. unfold commit_dispatch in E.
  destruct (insert_unique _ _ _ _) as [[d0 t]|] eqn:Ei; [|done]. injection E as <- <-. cbn in Hg.
  apply insert_unique_Ok in Ei as [_ Ei].
  assert (t = snd (insert_row mk (dispatches db))) as -> by by rewrite <- Ei.
  apply get_Some in Hg as [Hin Hi]. apply insert_row_In in Hin as [Hin| ->].
  - left. exists x. split; [|done]. rewrite <- Hi. apply (get_complete _ x); [by destruct Hwf|done].
  - destruct (Hini (next_id (dispatches db))) as (Hq & _). unfold settled in Hs. by rewrite Hq in Hs.
Qed.

(** What writing the outcome of [p] may settle: the dispatch of its own claim,
    with the state of that outcome. *)
Definition settles_as (p : Prepared) (o : SendOutcome) (db db' : Db) : Prop :=
  ∀ i d', get i (dispatches db') = Some d' → settled d' = true →
    (∃ d, get i (dispatches db) = Some d ∧ ed_state d = ed_state d') ∨
    (i = cl_dispatch_id (pr_claim p) ∧ ed_state d' = state_of_outcome o).

Lemma finish_effect p o e u db :
  db_wf db →
  let db' := fst (finish_outcome (pr_claim p) (state_of_outcome o) e u db) in
  db_wf db' ∧ evolves db db' ∧ settles_as p o db db'.
Proof.
  intros Hwf db'. subst db'. pose proof (wf_dispatches _ Hwf) as Hd.
  pose proof (finish_outcome_evolves (pr_claim p) (state_of_outcome o) e u db Hd) as Hev.
  destruct (finish_outcome _ _ _ _ db) as [db2 w] eqn:Ef. cbn in *.
  apply finish_outcome_inv in Ef
    as [(ms & d & _ & _ & Hg & Ho & Hg' & Hne & Hwf' & Hmsg & Hdb)|(_ & -> & _)]; [| |done].
  - split_and!; [|done|].
    + apply (wf_of_evolution db); try done.
      * intros j Hj. destruct (decide (j = cl_dispatch_id (pr_claim p))) as [->|Hji]; [congruence|].
        by rewrite Hne.
      * rewrite Hdb. split_and!; try done. intros Hm. cbn. rewrite Hmsg. by apply update_message_wf.
    + intros i x Hx _. destruct (decide (i = cl_dispatch_id (pr_claim p))) as [->|Hi].
      * right. split; [done|]. rewrite Hg' in Hx. by injection Hx as <-.
      * left. exists x. by rewrite <- Hne.
  - split_and!; [done..|]. intros i d Hg _. left. by exists d.
Qed.

(** Finalisation settles at most the dispatch of its own claim, with the state
    of the outcome it reports. *)
Lemma finalize_effect env p o e db db' r :
  db_wf db → finalize_phase env p o e db = (db', r) →
  db_wf db' ∧ evolves db db' ∧ settles_as p o db db'.
Proof.
  intros Hwf. unfold finalize_phase.
  destruct (transaction_c _ _ _ _ _ db) as [db1 won] eqn:Et.
  assert (db_wf db1 ∧ evolves db db1 ∧ settles_as p o db db1) as (Hwf1 & Hev1 & Hs1).
  { apply transaction_c_once in Et as [[-> _]|[-> _]]; [| |by apply wf_dispatches].
    - split_and!; [done..|]. intros i d Hg _. left. by exists d.
    - by apply finish_effect. }
  destruct won; intros [= <- <-]; [done|].
  assert (quietly db1 (annotate_late_outcome (ce_annotate_fault env) p
    (ExternalDispatchState_value (state_of_outcome o)) e (ce_utcnow env) db1)) as Hq.
  { unfold annotate_late_outcome. destruct (annotate_unknown_dispatch _ _ _ _ db1) as [x y] eqn:Ea.
    apply annotate_quietly in Ea. by destruct (ce_annotate_fault env). }
  destruct (Hq Hwf1) as (Hwf2 & Hev2 & _). split_and!; [done|by etrans|].
  intros i x Hx Hset. unfold annotate_late_outcome in Hx.
  destruct (annotate_unknown_dispatch _ _ _ _ db1) as [db2 ok] eqn:Ea. cbn in Hx.
  assert (∃ y, get i (dispatches db1) = Some y ∧ ed_state y = ed_state x) as (y & Hy & Heq).
  { apply exec_update_inv in Ea as [(_ & _ & _ & d & Hg & _ & Hg' & Hne)|(_ & -> & _)];
      [| |done|by destruct Hwf1]; [|destruct (ce_annotate_fault env); by exists x].
    destruct (ce_annotate_fault env); [|by exists x|];
      (destruct (decide (i = cl_dispatch_id (pr_claim p))) as [->|Hi];
       [exists d; rewrite Hg' in Hx; by injection Hx as <-|exists x; by rewrite <- Hne]). }
  rewrite <- Heq. apply Hs1; [done|]. unfold settled in *. by rewrite Heq.
Qed.

(** ** The system *)

Record Sys := mkSys {
  sy_db : Db;                                             (* the committed database *)
  sy_prepared : list Prepared;                            (* past Transaction B, not yet at SMTP *)
  sy_outcomes : list (Prepared * SendOutcome * option string);  (* SMTP done, not yet written *)
  sy_log : list (Prepared * list smtp_event)              (* every SMTP execution *)
}.

Definition dispatch_of (p : Prepared) : Z := cl_dispatch_id (pr_claim p).

Section System.
Context `{Fernet} (settings : Settings).

(** One step of one process.  Every transaction, and every single attempt of
    one that is retried, is a step of its own, so all interleavings are
    covered; SMTP runs between two transactions. *)
Inductive sys_step : Sys → Sys → Prop :=
  | st_transaction_b db P O L w env rt db' rt' r :
      transaction_b settings w env db rt = (db', rt', r) →
      sys_step (mkSys db P O L)
        (mkSys db' (match r with BPrepared p => p :: P | _ => P end) O L)
  | st_smtp db P1 p P2 O L server seed o e trace :
      smtplib_errors server →
      smtp_phase settings server seed p = (o, e, trace) →
      sys_step (mkSys db (P1 ++ p :: P2) O L) (mkSys db (P1 ++ P2) ((p, o, e) :: O) ((p, trace) :: L))
  | st_smtp_crash db P1 p P2 O L server seed o e trace rest :
      (* the process dies while the SMTP call runs *)
      smtp_phase settings server seed p = (o, e, trace ++ rest) →
      sys_step (mkSys db (P1 ++ p :: P2) O L) (mkSys db (P1 ++ P2) O ((p, trace) :: L))
  | st_finalize db P O1 p o e O2 L env db' r :
      finalize_phase env p o e db = (db', r) →
      sys_step (mkSys db P (O1 ++ (p, o, e) :: O2) L) (mkSys db' P (O1 ++ O2) L)
  | st_outcome_attempt db P O p o e L u :
      (* an attempt of Transaction C that raised although its commit is durable:
         the worker, which will try again, still holds the outcome *)
      (p, o, e) ∈ O →
      sys_step (mkSys db P O L)
        (mkSys (fst (finish_outcome (pr_claim p) (state_of_outcome o) (outcome_error o e) u db)) P O L)
  | st_annotate db P O L i org note u db' ok :
      annotate_unknown_dispatch i org note u db = (db', ok) →
      sys_step (mkSys db P O L) (mkSys db' P O L)
  | st_crash db P O L P' O' :
      (* a process dies with work in hand *)
      P' `sublist_of` P → O' `sublist_of` O → sys_step (mkSys db P O L) (mkSys db P' O' L)
  | st_lease_recovery db P O L s fault u db' n :
      run_external_dispatch_lease_recovery s settings fault u db = (db', n) →
      sys_step (mkSys db P O L) (mkSys db' P O L)
  | st_shutdown db P O L seen faults u rt db' report :
      drain_external_dispatches_on_shutdown seen faults u rt db = Some (db', report) →
      sys_step (mkSys db P O L) (mkSys db' P O L)
  | st_transaction_g1 db P O L w env db' r :
      transaction_g1 w env db = (db', r) →
      sys_step (mkSys db P O L) (mkSys db' P O L)
  | st_transaction_g2 db P O L faults refs p outcome u db' won :
      transaction_g2 faults refs p outcome u db = (db', won) →
      sys_step (mkSys db P O L) (mkSys db' P O L)
  | st_generation_recovery db P O L s fault u db' n :
      run_generation_lease_recovery s settings fault u db = (db', n) →
      sys_step (mkSys db P O L) (mkSys db' P O L)
  | st_accept_exact db P O L contact_id subject body u rref org key xid corr cp mb fp pref db' d :
      commit_message_and_dispatch (create_authorized_message contact_id subject body u rref)
        (λ m, new_dispatch org key xid corr cp contact_id (Some m) mb fp None pref u) db = Ok (db', d) →
      sys_step (mkSys db P O L) (mkSys db' P O L)
  | st_accept_generated db P O L org key xid corr cp ct mb fp grounding pref u db' d :
      commit_dispatch (new_dispatch org key xid corr cp ct None mb fp grounding pref u) db = Ok (db', d) →
      sys_step (mkSys db P O L) (mkSys db' P O L)
  | st_elsewhere db P O L db' :
      (* the rest of the program writes the other tables *)
      dispatches db' = dispatches db → db_wf db' →
      sys_step (mkSys db P O L) (mkSys db' P O L).

(** Nothing has been handed to a worker yet. *)
Definition sys_init (s : Sys) : Prop :=
  db_wf (sy_db s) ∧ (∀ i d, get i (dispatches (sy_db s)) = Some d → initial_dispatch d) ∧
  sy_prepared s = [] ∧ sy_outcomes s = [] ∧ sy_log s = [].

Definition reachable (s : Sys) : Prop := ∃ s0, sys_init s0 ∧ rtc sys_step s0 s.

(** *** The invariant *)

Definition authorized (p : Prepared) : Prop :=
  ∃ w db db' d cp ct m mb, send_authorized settings w db db' p d cp ct m mb.

(** The last connection of the trace is to the server the send arguments name
    (the deployment's, when they name none), and it accepted the message. *)
Definition accepted_by_server (p : Prepared) (trace : list smtp_event) : Prop :=
  ∃ pre mid, (∀ h, sa_message_id_header (pr_send_args p) = Some h → mid = h) ∧
    trace = pre ++ session_of (smtp_config_or_default settings (sa_smtp_config (pr_send_args p))) ++
      [EvSendmail (sa_from_email (pr_send_args p)) (sa_to_email (pr_send_args p)) (build_mime (pr_send_args p) mid) None].

(** No hand-over, or only explicitly refused ones. *)
Definition not_delivered (trace : list smtp_event) : Prop :=
  ∀ f t m res, In (EvSendmail f t m res) trace →
    ∃ e, res = Some e ∧ isinstance e EXPLICIT_REFUSAL_ERRORS = true.

Definition outcome_ok (p : Prepared) (o : SendOutcome) (trace : list smtp_event) : Prop :=
  match o with
  | SO_SENT => accepted_by_server p trace
  | SO_FAILED => not_delivered trace
  | SO_UNKNOWN => True
  end.

(** Every message handed over is the prepared one. *)
Definition carries (p : Prepared) (trace : list smtp_event) : Prop :=
  ∀ f r mime res, In (EvSendmail f r mime res) trace →
    f = sa_from_email (pr_send_args p) ∧ r = sa_to_email (pr_send_args p) ∧
    ∃ h, mime = build_mime (pr_send_args p) h ∧
         (∀ h', sa_message_id_header (pr_send_args p) = Some h' → h = h').

Definition handed (P : list Prepared) (L : list (Prepared * list smtp_event)) : list Z :=
  map dispatch_of P ++ map (λ x, dispatch_of (fst x)) L.

Record inv (s : Sys) : Prop := {
  iv_wf : db_wf (sy_db s);
  iv_shape : ∀ i d, get i (dispatches (sy_db s)) = Some d → dispatch_shape d;
  iv_once : NoDup (handed (sy_prepared s) (sy_log s));
  iv_handed : ∀ i, i ∈ handed (sy_prepared s) (sy_log s) →
    ∃ d, get i (dispatches (sy_db s)) = Some d ∧ past_handover (phase_of d) = true;
  iv_pending : ∀ p d, p ∈ sy_prepared s → get (dispatch_of p) (dispatches (sy_db s)) = Some d →
    settled d = false;
  iv_authorized : ∀ p, p ∈ sy_prepared s ∨ (∃ t, (p, t) ∈ sy_log s) → authorized p;
  iv_outcomes : ∀ p o e, (p, o, e) ∈ sy_outcomes s → ∃ t, (p, t) ∈ sy_log s ∧ outcome_ok p o t;
  iv_log : ∀ p t, (p, t) ∈ sy_log s → (sendmails t ≤ 1)%nat ∧ carries p t;
  iv_SENT : ∀ i d, get i (dispatches (sy_db s)) = Some d → ed_state d = SENT →
    ∃ p t, (p, t) ∈ sy_log s ∧ dispatch_of p = i ∧ accepted_by_server p t;
  iv_FAILED : ∀ i d, get i (dispatches (sy_db s)) = Some d → ed_state d = FAILED →
    ∀ p t, (p, t) ∈ sy_log s → dispatch_of p = i → not_delivered t
}.

Lemma handed_log P L p t : (p, t) ∈ L → dispatch_of p ∈ handed P L.
Proof.
  intros Hin. apply elem_of_app. right. apply list_elem_of_fmap. by exists (p, t).
Qed.

Lemma handed_prepared P L p : p ∈ P → dispatch_of p ∈ handed P L.
Proof. intros Hin. apply elem_of_app. left. apply list_elem_of_fmap. by exists p. Qed.

(** One log entry per dispatch. *)
Lemma log_unique P L p t p' t' :
  NoDup (handed P L) → (p, t) ∈ L → (p', t') ∈ L → dispatch_of p = dispatch_of p' → (p, t) = (p', t').
Proof.
  intros [_ [_ Hnd]]%NoDup_app. induction L as [|[q u] L IH]; [by intros ?%not_elem_of_nil|].
  cbn in Hnd. apply NoDup_cons in Hnd as [Hq Hnd].
  assert (∀ x y, (x, y) ∈ L → dispatch_of x ∈ map (λ x, dispatch_of (fst x)) L) as Hm
    by (intros x y Hxy; apply list_elem_of_fmap; by exists (x, y)).
  intros [[= -> ->]|H1]%elem_of_cons [[= -> ->]|H2]%elem_of_cons He; [done| | |by apply IH].
  - exfalso. apply Hq. rewrite He. by eapply Hm.
  - exfalso. apply Hq. rewrite <- He. by eapply Hm.
Qed.

Lemma inv_init s : sys_init s → inv s.
Proof.
  intros (Hwf & Hini & HP & HO & HL). destruct s as [db P O L]; cbn in *. subst.
  split; cbn; try done.
  - intros i d Hg. by eapply initial_shape, Hini.
  - constructor.
  - by intros i ?%not_elem_of_nil.
  - by intros p d ?%not_elem_of_nil.
  - by intros p [?%not_elem_of_nil|[t ?%not_elem_of_nil]].
  - by intros p o e ?%not_elem_of_nil.
  - by intros p t ?%not_elem_of_nil.
  - intros i d Hg Hs. destruct (Hini i d Hg) as (Hq & _). congruence.
  - by intros i d _ _ p t ?%not_elem_of_nil.
Qed.

(** Rows of a later database. *)
Lemma shape_evolves db db' :
  evolves db db' → (∀ i d, get i (dispatches db) = Some d → dispatch_shape d) →
  ∀ i d, get i (dispatches db') = Some d → dispatch_shape d.
Proof.
  intros Hev Hsh i d Hg. destruct (get i (dispatches db)) as [d0|] eqn:E.
  - destruct (ev_kept _ _ Hev _ _ E) as (x & Hx & Hs). assert (x = d) as -> by congruence.
    by eapply dispatch_steps_shape, Hsh.
  - destruct (ev_new _ _ Hev _ _ Hg E) as (d0 & Hi & Hs).
    by eapply dispatch_steps_shape, initial_shape.
Qed.

Lemma inv_quietly db db' P O L : quietly db db' → inv (mkSys db P O L) → inv (mkSys db' P O L).
Proof.
  intros Hq [Hwf Hsh Hone Hh Hp Ha Ho Hl HS HF]; cbn in *.
  destruct (Hq Hwf) as (Hwf' & Hev & Hst).
  assert (∀ i d', i ∈ handed P L → get i (dispatches db') = Some d' → settled d' = true →
    ∃ d, get i (dispatches db) = Some d ∧ ed_state d = ed_state d') as Hback.
  { intros i d' Hi Hg Hs. destruct (Hst i d' Hg Hs) as [?|[_ Hn]]; [done|].
    destruct (Hh i Hi) as (d & Hd & Hpast). by rewrite (Hn d Hd) in Hpast. }
  split; cbn; try done.
  - by eapply shape_evolves.
  - intros i Hi. destruct (Hh i Hi) as (d & Hg & Hpast).
    destruct (ev_kept _ _ Hev _ _ Hg) as (d' & Hg' & _). exists d'. split; [done|].
    by eapply evolves_past_handover, Hpast.
  - intros p d' Hin Hg. destruct (settled d') eqn:Es; [|done].
    destruct (Hback _ _ (handed_prepared P L p Hin) Hg Es) as (d & Hd & He).
    rewrite <- (Hp p d Hin Hd). unfold settled in *. by rewrite He.
  - intros i d' Hg Hs. destruct (Hst i d' Hg) as [(d & Hd & He)|[Hf _]];
      [unfold settled; by rewrite Hs|by apply (HS i d Hd); congruence|congruence].
  - intros i d' Hg Hs p t Hin Hid.
    destruct (Hback i d') as (d & Hd & He);
      [rewrite <- Hid; by eapply handed_log|done|unfold settled; by rewrite Hs, orb_true_r|].
    apply (HF i d Hd) with (p := p); try done. congruence.
Qed.

Lemma inv_crash db P O L P' O' :
  P' `sublist_of` P → O' `sublist_of` O → inv (mkSys db P O L) → inv (mkSys db P' O' L).
Proof.
  intros HP HO [Hwf Hsh Hone Hh Hp Ha Ho Hl HS HF]; cbn in *.
  assert (∀ p, p ∈ P' → p ∈ P) as HPi by (intros p Hin; by eapply elem_of_sublist).
  assert (handed P' L `sublist_of` handed P L) as HH.
  { apply sublist_app; [|done]. by apply (fmap_sublist dispatch_of). }
  split; cbn; try done.
  - by eapply sublist_NoDup.
  - intros i Hi. apply Hh. by eapply elem_of_sublist.
  - intros p d Hin. by apply Hp, HPi.
  - intros p [Hin|Hin]; [apply Ha; left; by apply HPi|apply Ha; by right].
  - intros p o e Hin. apply (Ho p o e). by eapply elem_of_sublist.
Qed.

Lemma inv_transaction_b db P O L w env rt db' rt' p :
  transaction_b settings w env db rt = (db', rt', BPrepared p) →
  inv (mkSys db P O L) → inv (mkSys db' (p :: P) O L).
Proof.
  intros E Hinv. pose proof (iv_wf _ Hinv) as Hwf. cbn in Hwf.
  pose proof (inv_quietly _ _ _ _ _ (transaction_b_quietly _ _ _ _ _ _ _ _ E) Hinv)
    as [Hwf' Hsh Hone Hh Hp Ha Ho Hl HS HF].
  destruct (transaction_b_authorized _ _ _ _ _ _ _ _ Hwf E) as (d & cp & ct & m & mb & Hauth).
  assert (dispatch_of p ∉ handed P L) as Hfresh.
  { intros Hi. destruct (iv_handed _ Hinv _ Hi) as (x & Hx & Hpast). cbn in Hx.
    destruct Hauth as [(Hg & Hq & Hm) _ _ _ _ _ _ _ _ _ _]. unfold dispatch_of in Hx.
    assert (x = d) as -> by congruence. unfold phase_of in Hpast. by rewrite Hq, Hm in Hpast. }
  pose proof Hauth as Hauth'. destruct Hauth' as [_ _ _ _ _ _ _ _ (d' & Hg' & Hs' & _) _ _].
  assert (past_handover (phase_of d') = true) as Hpast by (unfold phase_of; by rewrite Hs').
  cbn in *. split; cbn; try done.
  - by constructor.
  - intros i [->|Hi]%elem_of_cons; [by exists d'|by apply Hh].
  - intros q x [->|Hq]%elem_of_cons Hx; [|by eapply Hp].
    unfold dispatch_of in Hx. assert (x = d') as -> by congruence. unfold settled. by rewrite Hs'.
  - intros q [[->|Hq]%elem_of_cons|Hq]; [|by apply Ha; left|by apply Ha; right].
    by exists w, db, db', d, cp, ct, m, mb.
Qed.

(** Moving a prepared send to the log. *)
Lemma inv_log_entry db P1 p P2 O L t :
  (sendmails t ≤ 1)%nat → carries p t → inv (mkSys db (P1 ++ p :: P2) O L) → inv (mkSys db (P1 ++ P2) O ((p, t) :: L)).
Proof.
  intros Ht Hcar [Hwf Hsh Hone Hh Hp Ha Ho Hl HS HF]; cbn in *.
  assert (handed (P1 ++ p :: P2) L ≡ₚ handed (P1 ++ P2) ((p, t) :: L)) as Hperm.
  { unfold handed. cbn. rewrite !map_app. cbn. by rewrite <- !Permutation_middle. }
  split; cbn; try done.
  - by rewrite <- Hperm.
  - intros i Hi. apply Hh. by rewrite Hperm.
  - intros q d Hq. apply Hp. set_solver.
  - intros q [Hq|(t' & [[= -> _]|Hq]%elem_of_cons)]; [apply Ha; left; set_solver|apply Ha; left; set_solver|].
    apply Ha. right. by exists t'.
  - intros q o e Hq. destruct (Ho q o e Hq) as (t' & Ht' & Hok). exists t'. split; [by right|done].
  - intros q t' [[= -> ->]|Hq]%elem_of_cons; [done|by eapply Hl].
  - intros i d Hg Hs. destruct (HS i d Hg Hs) as (q & t' & Hq & Hi & Hacc). exists q, t'.
    split; [by right|done].
  - intros i d Hg Hs q t' [[= -> ->]|Hq]%elem_of_cons Hi; [|by eapply HF].
    exfalso. assert (settled d = false) as Hn by (eapply (Hp p); [set_solver|by rewrite Hi]).
    unfold settled in Hn. by rewrite Hs, orb_true_r in Hn.
Qed.

Lemma smtp_phase_sendmails server seed p o e t :
  smtp_phase settings server seed p = (o, e, t) → (sendmails t ≤ 1)%nat.
Proof.
  unfold smtp_phase. pose proof (send_email_sendmails settings server seed (pr_send_args p)) as Hs.
  destruct (send_email _ _ _ _) as [[r|x] tr]; intros [= <- <- <-]; exact Hs.
Qed.

Lemma smtp_phase_carries server seed p o e t :
  smtp_phase settings server seed p = (o, e, t) → carries p t.
Proof.
  unfold smtp_phase. intros E f r mime res Hin.
  assert (t = snd (send_email settings server seed (pr_send_args p))) as ->
    by (destruct (send_email _ _ _ _) as [[?|?] ?]; by injection E as <- <- <-).
  apply send_email_payload in Hin as (-> & -> & h & -> & Hh). split_and!; [done..|].
  exists h. split; [done|]. intros h' Hh'. by rewrite Hh' in Hh.
Qed.

Lemma smtp_phase_outcome_ok server seed p o e t :
  live_sending_enabled settings = true → smtplib_errors server →
  smtp_phase settings server seed p = (o, e, t) → outcome_ok p o t.
Proof.
  intros Hl Hlib [(x & _ & ->)|(mid & Hid & Hev)]%smtp_phase_evidence; [done| |done..].
  destruct o; cbn in *; [|done|done]. destruct Hev as [pre ->]. by exists pre, mid.
Qed.

Lemma inv_smtp db P1 p P2 O L server seed o e t :
  smtplib_errors server → smtp_phase settings server seed p = (o, e, t) →
  inv (mkSys db (P1 ++ p :: P2) O L) → inv (mkSys db (P1 ++ P2) ((p, o, e) :: O) ((p, t) :: L)).
Proof.
  intros Hlib E Hinv.
  assert (live_sending_enabled settings = true) as Hlive.
  { destruct (iv_authorized _ Hinv p) as (w & db0 & db1 & d & cp & ct & m & mb & Hauth);
      [left; cbn; set_solver|]. by destruct Hauth. }
  pose proof (smtp_phase_outcome_ok _ _ _ _ _ _ Hlive Hlib E) as Hok.
  apply (inv_log_entry _ _ _ _ _ _ t) in Hinv;
    [|by eapply smtp_phase_sendmails|by eapply smtp_phase_carries].
  destruct Hinv as [Hwf Hsh Hone Hh Hp Ha Ho Hl HS HF]; cbn in *.
  split; cbn; try done. intros q o' e' [[= -> -> ->]|Hq]%elem_of_cons; [|by apply (Ho q o' e')].
  exists t. split; [by left|done].
Qed.

(** Writing a held outcome, once or more. *)
Lemma inv_settle db db' P O p o e L :
  (p, o, e) ∈ O → db_wf db' ∧ evolves db db' ∧ settles_as p o db db' →
  inv (mkSys db P O L) → inv (mkSys db' P O L).
Proof.
  intros HO (Hwf' & Hev & Hst) [Hwf Hsh Hone Hh Hp Ha Ho Hl HS HF]; cbn in *.
  destruct (Ho p o e HO) as (t & Hin & Hok).
  assert (∀ q, q ∈ P → dispatch_of q ≠ dispatch_of p) as Hpp.
  { intros q Hq He. apply NoDup_app in Hone as (_ & Hdis & _).
    apply (Hdis (dispatch_of q)); [apply list_elem_of_fmap; by exists q|].
    rewrite He. apply list_elem_of_fmap. by exists (p, t). }
  assert (∀ q u, (q, u) ∈ L → dispatch_of q = dispatch_of p → q = p ∧ u = t) as Huniq.
  { intros q u Hq He. by injection (log_unique P L q u p t Hone Hq Hin He). }
  split; cbn; try done.
  - by eapply shape_evolves.
  - intros i Hi. destruct (Hh i Hi) as (d & Hg & Hpast).
    destruct (ev_kept _ _ Hev _ _ Hg) as (d' & Hg' & _). exists d'. split; [done|].
    by eapply evolves_past_handover, Hpast.
  - intros q d' Hq Hg. destruct (settled d') eqn:Es; [|done].
    destruct (Hst _ _ Hg Es) as [(d & Hd & He)|[Hi _]]; [|by apply Hpp in Hi].
    rewrite <- (Hp q d Hq Hd). unfold settled in *. by rewrite He.
  - intros i d' Hg Hs. destruct (Hst i d' Hg) as [(d & Hd & He)|[-> Hout]];
      [unfold settled; by rewrite Hs|by apply (HS i d Hd); congruence|].
    exists p, t. split_and!; [done|done|]. rewrite Hs in Hout. by destruct o.
  - intros i d' Hg Hs q u Hq Hi. destruct (Hst i d' Hg) as [(d & Hd & He)|[-> Hout]];
      [unfold settled; by rewrite Hs, orb_true_r|eapply (HF i d Hd); [congruence|done|done]|].
    destruct (Huniq q u Hq Hi) as [-> ->]. rewrite Hs in Hout. by destruct o.
Qed.

Lemma inv_finalize db P O1 p o e O2 L env db' r :
  finalize_phase env p o e db = (db', r) →
  inv (mkSys db P (O1 ++ (p, o, e) :: O2) L) → inv (mkSys db' P (O1 ++ O2) L).
Proof.
  intros E Hinv. apply (inv_crash db' P (O1 ++ (p, o, e) :: O2) L); [done|by apply sublist_app, sublist_cons|].
  eapply (inv_settle db db' P _ p o e); [set_solver| |exact Hinv].
  eapply finalize_effect; [apply (iv_wf _ Hinv)|exact E].
Qed.

Lemma lease_recovery_quietly s fault u db db' n :
  run_external_dispatch_lease_recovery s settings fault u db = (db', n) → quietly db db'.
Proof.
  unfold run_external_dispatch_lease_recovery.
  destruct (recover_expired_external_dispatches _ _ _ _ _ _ db) as [x rs] eqn:E.
  apply recover_sending_quietly in E. destruct fault; by intros [= <- <-].
Qed.

Lemma generation_recovery_quietly s fault u db db' n :
  run_generation_lease_recovery s settings fault u db = (db', n) → quietly db db'.
Proof.
  unfold run_generation_lease_recovery.
  destruct (recover_expired_generations _ _ _ _ _ _ db) as [x rs] eqn:E.
  apply recover_generations_quietly in E. destruct fault; by intros [= <- <-].
Qed.

Lemma shutdown_quietly seen faults u rt db db' report :
  drain_external_dispatches_on_shutdown seen faults u rt db = Some (db', report) → quietly db db'.
Proof.
  unfold drain_external_dispatches_on_shutdown.
  destruct (drain seen) as [drained|]; [|done]. cbn [mbind option_bind].
  pose proof (resolve_claims_quietly faults u (inflight rt) 0 db) as Hq.
  destruct (resolve_claims _ _ _ _ db) as [[x ab] el]. by intros [= <- <-].
Qed.

Lemma inv_step s s' : sys_step s s' → inv s → inv s'.
Proof.
  destruct 1 as [db P O L w env rt db' rt' r E|db P1 p P2 O L server seed o e t Hlib E
    |db P1 p P2 O L server seed o e t rest E|db P O1 p o e O2 L env db' r E|db P O p o e L u HO
    |? ? ? ? ? ? ? ? ? ? E|db P O L P' O' HP HO
    |? ? ? ? ? ? ? ? ? E|? ? ? ? ? ? ? ? ? ? E|? ? ? ? ? ? ? ? E|? ? ? ? ? ? ? ? ? ? ? E|? ? ? ? ? ? ? ? ? E
    |? ? ? ? ? ? ? ? ? ? ? ? ? ? ? ? ? ? ? E|? ? ? ? ? ? ? ? ? ? ? ? ? ? ? ? ? E|? ? ? ? ? Hd Hwf].
  - destruct r; first [by eapply inv_transaction_b|by eapply inv_quietly, transaction_b_quietly].
  - by eapply inv_smtp.
  - apply inv_log_entry.
    + apply smtp_phase_sendmails in E. rewrite sendmails_app in E. lia.
    + intros f r mime res Hin. apply smtp_phase_carries in E. eapply E, in_or_app. by left.
  - by eapply inv_finalize.
  - intros Hinv. eapply inv_settle; [exact HO|apply finish_effect, (iv_wf _ Hinv)|exact Hinv].
  - by eapply inv_quietly, annotate_quietly.
  - by apply inv_crash.
  - by eapply inv_quietly, lease_recovery_quietly.
  - by eapply inv_quietly, shutdown_quietly.
  - by eapply inv_quietly, transaction_g1_quietly.
  - by eapply inv_quietly, transaction_g2_quietly.
  - by eapply inv_quietly, generation_recovery_quietly.
  - apply commit_message_and_dispatch_quietly in E; [by eapply inv_quietly|done..].
  - apply commit_dispatch_quietly in E; [by eapply inv_quietly|done..].
  - by eapply inv_quietly, quietly_same.
Qed.

Lemma steps_inv s s' : inv s → rtc sys_step s s' → inv s'.
Proof.
  intros Hi Hs. induction Hs as [|s0 s1 s2 Hst _ IH]; [done|]. apply IH. by eapply inv_step.
Qed.

Lemma reachable_inv s : reachable s → inv s.
Proof. intros (s0 & Hi & Hs). by eapply steps_inv, Hs; apply inv_init. Qed.

(** Every step, from a state satisfying the invariant, is an evolution. *)
Lemma step_evolves s s' : inv s → sys_step s s' → evolves (sy_db s) (sy_db s').
Proof.
  intros Hinv Hst. pose proof (iv_wf _ Hinv) as Hwf.
  destruct Hst as [db P O L w env rt db' rt' r E|db P1 p P2 O L server seed o e t Hlib E
    |db P1 p P2 O L server seed o e t rest E|db P O1 p o e O2 L env db' r E|db P O p o e L u HO
    |? ? ? ? ? ? ? ? ? ? E|db P O L P' O' HP HO
    |? ? ? ? ? ? ? ? ? E|? ? ? ? ? ? ? ? ? ? E|? ? ? ? ? ? ? ? E|? ? ? ? ? ? ? ? ? ? ? E|? ? ? ? ? ? ? ? ? E
    |? ? ? ? ? ? ? ? ? ? ? ? ? ? ? ? ? ? ? E|? ? ? ? ? ? ? ? ? ? ? ? ? ? ? ? ? E|? ? ? ? ? Hd Hwf'];
    cbn in *; try done.
  - by apply transaction_b_quietly in E as (_ & ? & _).
  - by apply finalize_effect in E as (_ & ? & _).
  - by apply (finish_effect p o (outcome_error o e) u db Hwf).
  - by apply annotate_quietly in E as (_ & ? & _).
  - by apply lease_recovery_quietly in E as (_ & ? & _).
  - by apply shutdown_quietly in E as (_ & ? & _).
  - by apply transaction_g1_quietly in E as (_ & ? & _).
  - by apply transaction_g2_quietly in E as (_ & ? & _).
  - by apply generation_recovery_quietly in E as (_ & ? & _).
  - apply commit_message_and_dispatch_quietly in E as (_ & ? & _); done.
  - apply commit_dispatch_quietly in E as (_ & ? & _); done.
  - by apply evolves_same.
Qed.

Lemma steps_evolve s s' : inv s → rtc sys_step s s' → evolves (sy_db s) (sy_db s').
Proof.
  intros Hinv Hs. induction Hs as [|s s1 s2 Hst _ IH]; [done|].
  etrans; [by eapply step_evolves|]. apply IH. by eapply inv_step.
Qed.

(** A send enters the system only through Transaction B. *)
Definition known (p : Prepared) (s : Sys) : Prop := p ∈ sy_prepared s ∨ ∃ t, (p, t) ∈ sy_log s.

Lemma step_known s s' p :
  sys_step s s' → known p s' →
  known p s ∨ ∃ w env rt rt', transaction_b settings w env (sy_db s) rt = (sy_db s', rt', BPrepared p).
Proof.
  unfold known.
  destruct 1 as [db P O L w env rt db' rt' r E|db P1 q P2 O L server seed o e t Hlib E
    |db P1 q P2 O L server seed o e t rest E| | | |db P O L P' O' HP HO| | | | | | | |];
    cbn; try by left.
  - destruct r as [| |q|]; try by left. intros [[->|Hp]%elem_of_cons|Hp]; [|by left; left|by left; right].
    right. by exists w, env, rt, rt'.
  - intros [Hp|[u [[= -> _]|Hp]%elem_of_cons]]; left; [left; set_solver..|right; by exists u].
  - intros [Hp|[u [[= -> _]|Hp]%elem_of_cons]]; left; [left; set_solver..|right; by exists u].
  - intros [Hp|Hp]; left; [left; by eapply elem_of_sublist|by right].
Qed.

End System.

(** ** Theorems *)

(** The events of every SMTP execution for dispatch [i]. *)
Definition smtp_events (i : Z) (L : list (Prepared * list smtp_event)) : list smtp_event :=
  concat (map snd (List.filter (λ x, dispatch_of (fst x) =? i) L)).

Lemma smtp_events_single i P L :
  NoDup (handed P L) → smtp_events i L = [] ∨ ∃ p t, (p, t) ∈ L ∧ dispatch_of p = i ∧ smtp_events i L = t.
Proof.
  intros [_ [_ Hnd]]%NoDup_app. unfold smtp_events.
  induction L as [|[q u] L IH]; [by left|]. cbn in *. apply NoDup_cons in Hnd as [Hq Hnd].
  destruct (IH Hnd) as [Hn|(p & t & Hin & Hp & Ht)]; destruct (dispatch_of q =? i) eqn:E; bools; cbn.
  - right. exists q, u. split_and!; [by left|done|]. by rewrite Hn, app_nil_r.
  - by left.
  - exfalso. apply Hq. apply list_elem_of_fmap. exists (p, t). cbn. split; [congruence|done].
  - right. exists p, t. split_and!; [by right|done|done].
Qed.

(** C1: no dispatch is ever transmitted twice.  In every reachable state of the
    system (any number of workers and processes, any interleaving, crash,
    database fault, lease recovery or shutdown), the SMTP executions of one
    dispatch contain at most one hand-over of a message to a server. *)
Theorem dispatch_transmitted_at_most_once `{Fernet} settings s i :
  reachable settings s → (sendmails (smtp_events i (sy_log s)) ≤ 1)%nat.
Proof.
  intros Hinv%reachable_inv.
  destruct (smtp_events_single i _ _ (iv_once _ _ Hinv)) as [->|(p & t & Hin & _ & ->)]; [cbn; lia|].
  by apply (iv_log _ _ Hinv) in Hin as [? _].
Qed.

(** A known send was prepared by one Transaction B step of the execution. *)
Lemma known_authorized `{Fernet} settings s0 s p :
  sys_init s0 → rtc (sys_step settings) s0 s → known p s →
  ∃ s1 s2 w d cp ct m mb, rtc (sys_step settings) s0 s1 ∧ sys_step settings s1 s2 ∧
    rtc (sys_step settings) s2 s ∧ send_authorized settings w (sy_db s1) (sy_db s2) p d cp ct m mb.
Proof.
  intros Hi Hs Hk. assert (inv settings s0) as Hinv0 by by apply inv_init.
  assert (∃ s1 s2, rtc (sys_step settings) s0 s1 ∧ sys_step settings s1 s2 ∧
    rtc (sys_step settings) s2 s ∧ ∃ w env rt rt',
      transaction_b settings w env (sy_db s1) rt = (sy_db s2, rt', BPrepared p))
    as (s1 & s2 & H1 & H12 & H2 & w & env & rt & rt' & E).
  { revert Hk. apply (rtc_ind_r (R := sys_step settings) (λ s, known p s → ∃ s1 s2, rtc (sys_step settings) s0 s1 ∧
      sys_step settings s1 s2 ∧ rtc (sys_step settings) s2 s ∧ ∃ w env rt rt',
      transaction_b settings w env (sy_db s1) rt = (sy_db s2, rt', BPrepared p)) s0); [| |exact Hs].
    - destruct Hi as (_ & _ & HP & _ & HL). unfold known. rewrite HP, HL.
      by intros [?%not_elem_of_nil|[t ?%not_elem_of_nil]].
    - clear s Hs. intros s s' Hs Hst IH Hk. destruct (step_known _ _ _ _ Hst Hk) as [Hk'|(w & env & rt & rt' & E)].
      + destruct (IH Hk') as (s1 & s2 & ? & ? & ? & ?). exists s1, s2.
        split_and!; try done. by eapply rtc_r.
      + exists s, s'. split_and!; [done..|]. by exists w, env, rt, rt'. }
  pose proof (steps_inv _ _ _ Hinv0 H1) as Hinv1.
  destruct (transaction_b_authorized _ _ _ _ _ _ _ _ (iv_wf _ _ Hinv1) E) as (d & cp & ct & m & mb & Ha).
  by exists s1, s2, w, d, cp, ct, m, mb.
Qed.

(** C2: everything that reaches SMTP was authorized.  Along any execution, a
    send that is logged (or waits) was prepared by one Transaction B step of
    that execution, at which all gates held in the committed database
    ([send_authorized]), and every message handed over carries the stored
    body, recipient, sender and Message-ID of that authorization. *)
Theorem every_transmission_authorized `{Fernet} settings s0 s p :
  sys_init s0 → rtc (sys_step settings) s0 s → known p s →
  ∃ s1 s2 w d cp ct m mb, rtc (sys_step settings) s0 s1 ∧ sys_step settings s1 s2 ∧
    rtc (sys_step settings) s2 s ∧
    send_authorized settings w (sy_db s1) (sy_db s2) p d cp ct m mb ∧
    ∀ t f r mime res, (p, t) ∈ sy_log s → In (EvSendmail f r mime res) t →
      r = ct_email ct ∧ f = mb_email_address mb ∧ mime_text mime = msg_body m ∧
      assoc "Message-ID" (mime_headers mime) = Some (pr_message_id p).
Proof.
  intros Hi Hs Hk.
  pose proof (steps_inv _ _ _ (inv_init _ _ Hi) Hs) as Hinv.
  destruct (known_authorized settings s0 s p Hi Hs Hk) as (s1 & s2 & w & d & cp & ct & m & mb & H1 & H12 & H2 & Ha).
  exists s1, s2, w, d, cp, ct, m, mb. split_and!; try done. intros t f r mime res Hin Hev.
  destruct (iv_log _ _ Hinv _ _ Hin) as [_ Hc].
  destruct (Hc _ _ _ _ Hev) as (-> & -> & h & -> & Hh).
  destruct Ha as [_ _ _ _ _ _ _ _ _ _ (Hid & Hb & _ & Hto & Hfr) _].
  rewrite (Hh _ Hid). split_and!; [done|done|exact Hb|done].
Qed.

(** What SENT stands for: at one Transaction B step of the execution the send
    [p] of this dispatch was authorized with the rows [ct], [m] and the
    dispatch's own mailbox [mb]; later a connection to the SMTP server of [mb],
    logged in with its decrypted credentials, accepted from the mailbox's
    address and for the contact's address the message with the stored body and
    the durable Message-ID, and nothing was done on the wire after that. *)
Definition delivered_by_mailbox `{Fernet} (settings : Settings) (s : Sys) (i : Z) (d : ExternalDispatch) : Prop :=
  ∃ s0 s1 s2 w p t d0 cp ct m mb cfg pre mime,
    (sys_init s0 ∧ rtc (sys_step settings) s0 s1 ∧ sys_step settings s1 s2 ∧ rtc (sys_step settings) s2 s) ∧
    send_authorized settings w (sy_db s1) (sy_db s2) p d0 cp ct m mb ∧
    dispatch_of p = i ∧ same_identity d0 d ∧ ed_mailbox_id d = Some (mb_id mb) ∧
    smtp_config_for settings mb = Ok cfg ∧ (p, t) ∈ sy_log s ∧
    t = pre ++ session_of cfg ++ [EvSendmail (mb_email_address mb) (ct_email ct) mime None] ∧
    mime_text mime = msg_body m ∧ assoc "Message-ID" (mime_headers mime) = Some (pr_message_id p).

(** C3: SENT is the truth.  In every reachable state, a dispatch recorded as
    SENT was authorized by a Transaction B of that execution, and the SMTP
    server of the dispatch's own mailbox (its host and port, logged in with its
    decrypted credentials) accepted, as the last thing on the wire, the stored
    body under the durable Message-ID, from the mailbox's address to the
    contact's ([delivered_by_mailbox]). *)
Theorem sent_means_accepted `{Fernet} settings s i d :
  reachable settings s → get i (dispatches (sy_db s)) = Some d → ed_state d = SENT →
  delivered_by_mailbox settings s i d.
Proof.
  intros (s0 & Hi & Hs) Hg Hd. pose proof (inv_init settings _ Hi) as Hinv0.
  pose proof (steps_inv _ _ _ Hinv0 Hs) as Hinv.
  destruct (iv_SENT _ _ Hinv _ _ Hg Hd) as (p & t & Hin & Hp & pre & mid & Hmid & Ht).
  destruct (known_authorized settings s0 s p Hi Hs) as (s1 & s2 & w & d0 & cp & ct & m & mb & H1 & H12 & H2 & Ha);
    [right; by exists t|].
  pose proof Ha as [(Hg0 & _) _ _ _ (_ & Hmb & _) _ _ _ _ _ (Hid & Hb & _ & Hto & Hfr) (cfg & Hcfg & Harg)].
  assert (same_identity d0 d) as Hsame.
  { destruct (ev_kept _ _ (steps_evolve _ _ _ (steps_inv _ _ _ Hinv0 H1) (rtc_l _ _ _ _ H12 H2)) _ _ Hg0)
      as (d' & Hg' & Hst). apply dispatch_steps_identity in Hst.
    unfold dispatch_of in Hp. rewrite Hp in Hg'. congruence. }
  specialize (Hmid _ Hid) as ->. rewrite Harg, Hto, Hfr in Ht.
  exists s0, s1, s2, w, p, t, d0, cp, ct, m, mb, cfg, pre, (build_mime (pr_send_args p) (pr_message_id p)).
  split_and!; try done.
  destruct Hsame as (_ & _ & _ & _ & _ & _ & _ & -> & _). exact Hmb.
Qed.

(** C4: FAILED is safe to retry under a new key.  In every reachable state, a
    dispatch recorded as FAILED was never handed to a server, or every
    hand-over was explicitly refused; no ambiguous transmission is ever
    reported as FAILED. *)
Theorem failed_means_not_delivered `{Fernet} settings s i d :
  reachable settings s → get i (dispatches (sy_db s)) = Some d → ed_state d = FAILED →
  not_delivered (smtp_events i (sy_log s)).
Proof.
  intros Hinv%reachable_inv Hg Hs.
  destruct (smtp_events_single i _ _ (iv_once _ _ Hinv)) as [->|(p & t & Hin & Hi & ->)]; [by intros ? ? ? ? []|].
  by eapply (iv_FAILED _ _ Hinv).
Qed.

(** C9: outcomes are final and the lifecycle is respected.  From any reachable
    state onwards, every dispatch keeps its identity (organization, key,
    fingerprint, generation context, references), its phase moves only along
    the documented automaton, a message once attached stays attached, and a
    dispatch that is SENT, FAILED or UNKNOWN keeps that state for ever. *)
Theorem outcomes_are_final `{Fernet} settings s s' i d :
  reachable settings s → rtc (sys_step settings) s s' → get i (dispatches (sy_db s)) = Some d →
  ∃ d', get i (dispatches (sy_db s')) = Some d' ∧ same_identity d d' ∧
    rtc phase_step (phase_of d) (phase_of d') ∧
    (∀ m, ed_message_id d = Some m → ed_message_id d' = Some m) ∧
    (ed_state d = SENT ∨ ed_state d = FAILED ∨ ed_state d = UNKNOWN → ed_state d' = ed_state d).
Proof.
  intros Hinv%reachable_inv Hs Hg.
  destruct (ev_kept _ _ (steps_evolve _ _ _ Hinv Hs) _ _ Hg) as (d' & Hg' & Hst).
  exists d'. pose proof (dispatch_steps_refine _ _ Hst) as Href.
  split_and!; [done|by apply dispatch_steps_identity|done| |].
  - intros m. by apply dispatch_steps_message.
  - intros Hd. assert (terminal (phase_of d) = true) as Ht
      by (unfold phase_of; destruct Hd as [->|[->| ->]]; done).
    apply terminal_closed in Href; [|done]. revert Href. unfold phase_of.
    destruct Hd as [->|[->| ->]]; destruct (ed_state d'), (is_none (ed_message_id d')); done.
Qed.

(** C10: the database stays well formed.  In every reachable state primary keys
    are in order, no two dispatches share (organization, key) or a public
    reference, a claim is held exactly while GENERATING or SENDING, a row
    being generated has no message, and a row that reached SENDING, SENT or
    UNKNOWN has one. *)
Theorem reachable_well_formed `{Fernet} settings s :
  reachable settings s →
  db_wf (sy_db s) ∧ ∀ i d, get i (dispatches (sy_db s)) = Some d → dispatch_shape d.
Proof. intros Hinv%reachable_inv. split; [apply (iv_wf _ _ Hinv)|apply (iv_shape _ _ Hinv)]. Qed.

(** *** Witnesses: one dispatch from the queue to SENT *)

Section SystemWitnesses.
#[local] Existing Instance sample_fernet.

Definition sys0 : Sys := mkSys sample_db [] [] [].
Definition sys1 : Sys := mkSys sample_b_db [sample_prepared] [] [].
Definition sample_trace : list smtp_event :=
  snd (smtp_phase live_settings accepting_server sample_seed sample_prepared).
Definition sys2 : Sys := mkSys sample_b_db [] [(sample_prepared, SO_SENT, None)] [(sample_prepared, sample_trace)].
Definition final_db : Db := fst (finalize_phase sample_cenv sample_prepared SO_SENT None sample_b_db).
Definition sys3 : Sys := mkSys final_db [] [] [(sample_prepared, sample_trace)].

Lemma sys0_init : sys_init sys0.
Proof.
  split_and!; try done; [apply sample_db_wf|]. intros i d [Hin _]%get_Some.
  destruct Hin as [<-|[<-|[]]]; done.
Qed.

Lemma sys01 : sys_step live_settings sys0 sys1.
Proof. exact (st_transaction_b live_settings sample_db [] [] [] "w1" _ _ _ _ _ sample_b_eq). Qed.

Lemma sys12 : sys_step live_settings sys1 sys2.
Proof.
  apply (st_smtp live_settings sample_b_db [] sample_prepared [] [] [] accepting_server sample_seed);
    [by intros k e [?|[?|?]]|]. vm_compute. reflexivity.
Qed.

Lemma sys23 : sys_step live_settings sys2 sys3.
Proof.
  apply (st_finalize live_settings sample_b_db [] [] sample_prepared SO_SENT None [] _ sample_cenv _
    (snd (finalize_phase sample_cenv sample_prepared SO_SENT None sample_b_db))).
  apply surjective_pairing.
Qed.

Lemma sys03 : rtc (sys_step live_settings) sys0 sys3.
Proof. eapply rtc_l; [apply sys01|]. eapply rtc_l; [apply sys12|]. apply rtc_once, sys23. Qed.

Lemma sys3_reachable : reachable live_settings sys3.
Proof. exists sys0. split; [apply sys0_init|apply sys03]. Qed.

(** The failed sibling: the mailbox was disabled before the claim. *)
Definition sys_failed : Sys :=
  mkSys (fst (fst (transaction_b live_settings "w1" sample_benv disabled_db new_runtime))) [] [] [].
Lemma sys_failed_reachable : reachable live_settings sys_failed.
Proof.
  exists (mkSys disabled_db [] [] []). split.
  - split_and!; try done; [apply disabled_db_wf|]. intros i d [Hin _]%get_Some.
    destruct Hin as [<-|[<-|[]]]; done.
  - apply rtc_once. unfold sys_failed.
    destruct (transaction_b live_settings "w1" sample_benv disabled_db new_runtime) as [[db' rt'] r] eqn:E.
    cbn. pose proof (st_transaction_b live_settings disabled_db [] [] [] "w1" _ _ _ _ _ E) as H.
    destruct r as [| |p|]; [exact H|exact H| |exact H]. exfalso. vm_compute in E. discriminate E.
Qed.

Lemma dispatch_transmitted_at_most_once_witness :
  (sendmails (smtp_events 1 (sy_log sys3)) ≤ 1)%nat ∧ sendmails (smtp_events 1 (sy_log sys3)) = 1%nat.
Proof.
  split; [exact (dispatch_transmitted_at_most_once live_settings sys3 1 sys3_reachable)|].
  vm_compute. reflexivity.
Defined.

Lemma every_transmission_authorized_witness :
  ∃ s1 s2 w d cp ct m mb,
    send_authorized live_settings w (sy_db s1) (sy_db s2) sample_prepared d cp ct m mb.
Proof.
  destruct (every_transmission_authorized live_settings sys0 sys3 sample_prepared sys0_init sys03)
    as (s1 & s2 & w & d & cp & ct & m & mb & _ & _ & _ & Ha & _).
  - right. exists sample_trace. apply list_elem_of_singleton. reflexivity.
  - exists s1, s2, w, d, cp, ct, m, mb. exact Ha.
Defined.

Lemma sent_means_accepted_witness :
  ∃ d, get 1 (dispatches (sy_db sys3)) = Some d ∧ ed_state d = SENT ∧ delivered_by_mailbox live_settings sys3 1 d.
Proof.
  destruct (get 1 (dispatches (sy_db sys3))) as [d|] eqn:E; [|exfalso; vm_compute in E; discriminate E].
  assert (ed_state d = SENT) as Hd by (vm_compute in E; injection E as <-; reflexivity).
  exists d. split_and!; [reflexivity|exact Hd|].
  apply (sent_means_accepted live_settings sys3 1 d sys3_reachable E Hd).
Defined.

Lemma failed_means_not_delivered_witness : not_delivered (smtp_events 1 (sy_log sys_failed)).
Proof.
  destruct (get 1 (dispatches (sy_db sys_failed))) as [d|] eqn:E; [|exfalso; vm_compute in E; discriminate E].
  apply (failed_means_not_delivered live_settings sys_failed 1 d sys_failed_reachable E).
  vm_compute in E. injection E as <-. reflexivity.
Defined.

Lemma outcomes_are_final_witness :
  ∃ d', get 1 (dispatches (sy_db sys3)) = Some d' ∧ same_identity sample_dispatch d' ∧
    rtc phase_step Ready (phase_of d').
Proof.
  destruct (outcomes_are_final live_settings sys0 sys3 1 sample_dispatch) as (d' & Hg & Hid & Hp & _).
  - exists sys0. split; [apply sys0_init|reflexivity].
  - apply sys03.
  - reflexivity.
  - exists d'. split_and!; [exact Hg|exact Hid|exact Hp].
Defined.

Lemma reachable_well_formed_witness : db_wf (sy_db sys3).
Proof. exact (proj1 (reachable_well_formed live_settings sys3 sys3_reachable)). Defined.

End SystemWitnesses.
